(* ===== verification/_CoqProject ===== *)
-Q . S2P
Prelude.v
GoStrings.v
GoPath.v
GoUrl.v
Value.v
JsonNumber.v
GoTime.v
Json.v
JsonFacts.v
JsonValid.v
JsonFuel.v
JsonPrefix.v
JsonStruct.v
Config.v
ConfigFacts.v
Render.v
RenderFacts.v
Diff.v
DiffFacts.v
DiffSpec.v
Policy.v
Report.v
ReportFacts.v
Project.v
Context.v
Lock.v
Storage.v
Queue.v
RedisQueue.v
DedupeConfig.v
Service.v
ServiceFacts.v
Handlers.v
HandlersFacts.v
Webhook.v
WebhookFacts.v
RunStore.v
Vcs.v
GitLab.v
GitLabFacts.v
Planner.v
PlannerFacts.v
Repo.v
RepoFacts.v
Worker.v
WorkerFacts.v
EndToEnd.v
ClusterLive.v
ClusterLiveFacts.v
Commands.v
CommandsFacts.v
