(* ===== verification/Prelude.v ===== *)
(** * Thule: a verification development of the read-only merge-request planner

    Thule receives merge-request events, works out which projects of a repository an
    event touches, renders the Kubernetes manifests of those projects, compares them
    with the cluster and posts the difference as a comment. It never changes a cluster.
    This library models the program's own logic as executable definitions, one file per
    package, and proves what makes each part correct.

    ** How the parts fit together

    A request reaches [ServeHTTP] (Webhook.v), which authenticates and decodes it. Its
    event is accepted by [HandleMergeRequestEvent] (Service.v): it records the
    delivery, drops a duplicate, locks the projects above the changed files and queues a
    job. net/http runs handlers at the same time, so Handlers.v splits them into single
    store calls that interleave. A worker ([runWorker], Worker.v) takes the job, brings its
    clone to the commit of the job ([Sync], Repo.v), finds out which files changed and
    calls [PlanForEvent] (Planner.v): for each discovered
    project it loads the configuration, renders, filters, reads the cluster, calls
    [Compute] (Diff.v) and the policy evaluator, and keeps a run record; at the end it
    posts one aggregated comment (Report.v) and publishes a commit status. Locks,
    deliveries, deduplication, queue, runs, comments and statuses are reached through
    interfaces; each is a class of operations ([Locker], [DeliveryStore], [DedupeStore],
    [JobQueue], [RunStore], [CommentStore], [StatusPublisher], [Evaluator]) with a class of
    laws ([LockerSpec] and so on) whose instances are the in-memory stores. The theorems on
    Service.v use the laws of deliveries, locks, deduplication and queue within the process
    of the API; those on Planner.v use the laws of the run store and hold for any comment
    store and status publisher. thule-api and thule-worker are processes of their own that
    share a queue in Redis: EndToEnd.v uses only [QueueOrigin], which both queues keep to.
    The comments and statuses of a deployment go to GitLab (GitLab.v); the cluster is read
    by the live reader (ClusterLive.v); Commands.v puts the programs together.

    ** Files

    - Prelude.v: errors as values, 64-bit integers, stable sorting, the order a Go map is
      visited in ([MapOrder]), shared lemmas and automation.
    - GoStrings.v, GoPath.v, GoUrl.v, GoTime.v: what the program uses of strings, strconv,
      fmt, path/filepath, net/url and time.ParseDuration, over bytes.
    - Value.v: what an [any] holds after decoding. JsonNumber.v, Json.v: encoding/json's
      encoder and decoder, with float64 rounding and shortest printing; JsonFacts.v the
      round trip, JsonValid.v that decoding yields valid values, JsonFuel.v that the
      parser's fuel is enough, JsonPrefix.v that a text that breaks off is refused,
      JsonStruct.v decoding into structs.
    - Config.v, ConfigFacts.v: pkg/thuleconfig/types.go and internal/config/loader.go.
    - Render.v, RenderFacts.v: internal/render/render.go.
    - Diff.v, DiffFacts.v, DiffSpec.v: internal/diff/diff.go.
    - Policy.v: internal/policy/evaluator.go.
    - Report.v, ReportFacts.v: internal/report/report.go.
    - Project.v: internal/project/discovery.go.
    - Context.v: the clock, the context and the scheduler's choices a call observes.
    - Lock.v: internal/lock/memory.go.
    - Storage.v: internal/storage/memory.go, dedupe.go, dedupe_memory.go, dedupe_redis.go.
    - DedupeConfig.v: internal/storage/dedupe_config.go.
    - Queue.v: internal/queue/memory.go and config.go; RedisQueue.v: redis.go.
    - Service.v, ServiceFacts.v: internal/orchestrator/service.go, a call at a time;
      Handlers.v, HandlersFacts.v: the same, as interleaved store calls.
    - Webhook.v, WebhookFacts.v: internal/webhook/handler.go.
    - RunStore.v: internal/run/store.go.
    - Vcs.v: internal/vcs/comments.go and status.go.
    - GitLab.v, GitLabFacts.v: internal/vcs/gitlab.go.
    - Planner.v, PlannerFacts.v: internal/orchestrator/planner.go and cluster_memory.go.
    - Repo.v, RepoFacts.v: internal/repo.
    - Worker.v, WorkerFacts.v: the loop of cmd/thule-worker/main.go.
    - EndToEnd.v: the path from the webhook over the queue to the plan.
    - ClusterLive.v, ClusterLiveFacts.v: internal/orchestrator/cluster_live.go.
    - Commands.v, CommandsFacts.v: cmd/thule, cmd/thule-api and the set-up of
      cmd/thule-worker, and the worker over a real clone and planner.

    Definitions keep the names of the Go functions and types; fields and methods whose
    names Go repeats in several types carry their type in front ([ChangeID], [RunID]).

    ** What the theorems show

    - End to end: however requests, handlers and workers interleave and whatever becomes of
      the commands to Redis, every planned event is that of a request that proved knowledge
      of the secret ([planned_authentic]); a job that names its commit by its full hash is
      planned on that commit ([plans_its_commit]).
    - Webhook: what is queued is authentic ([webhook_jobs]); the answer says whether to
      send again ([webhook_answers]); the rest changes nothing ([webhook_guarded]); what a
      decoded event comes from ([decodeEvent_kinds]).
    - Service: for every interleaving of store calls no delivery is queued twice
      ([at_most_one_job]), jobs that share a project belong to one merge request until it
      is closed ([jobs_exclusive]); lemmas show that every handler ends unless the queue is
      full and that alone it is [HandleMergeRequestEvent]. A call that fails can be retried
      and one that succeeds is settled; locks protect a merge request, are released on
      close and refuse a conflict ([locks_protect], [close_releases], [conflict_refuses]);
      duplicates are dropped. These are about the queue in memory.
    - Redis: the queue returns nothing but jobs it was given, as JSON carries them, whatever
      answers are lost and commands repeated ([redis_queue_origin]); where every command is
      applied as often as the client is told it is first-in first-out ([redis_queue_fifo]).
    - Worker: what a job leads to, call by call, with the order in which the changed files
      are looked for ([work_job_plans]); maintenance keeps its rhythm
      ([maintenance_rhythm]) and the checkout; a sync checks out its commit
      ([Sync_checks_out]); changed files are listed once.
    - GitLab: a post without a failure leaves one current plan and the notes of others alone
      ([gitlab_post_supersedes]); whatever fails or breaks off, a post changes nothing but
      plans of Thule ([gitlab_post_safe]); statuses and changed files are what was said and
      answered.
    - Live cluster: the plan of a resource follows from what the cluster answered
      ([live_plan]); clients are kept ([live_client_stable]).
    - Commands: the preview creates everything it renders ([preview_creates]); a worker is
      set up consistently ([buildWorker_consistent]).
    - Diff: which action each resource identity gets and no other ([Compute_actions]), that
      a PATCH explains itself ([Compute_patch_explained]), that server-populated fields do
      not show ([Compute_server_fields]), that equal states give no change, order,
      uniqueness and counts.
    - Planner: [PlanForEvent_among] plans while other planners record commits for the same
      merge request between its calls; [PlanForEvent] is the case of a single worker. The
      outcome is the first error in the order of the configuration files, or success; one
      comment unless a project failed or another commit was recorded meanwhile
      ([plan_comments]), pending then success or failed statuses ([plan_statuses]); a single
      worker leaves no run running ([plan_runs]), an overtaken plan does
      ([plan_overtaken]); independence of map order ([plan_deterministic]); which resources
      are planned.
    - Report: an aggregated comment stays within the limit whatever the plans hold
      ([BuildAggregatedPlanComment_bounded]) and, when it fits, is the comment of a
      line-by-line reference ([BuildAggregatedPlanComment_complete]).
    - Discovery returns exactly the directories above the changed files; a configuration
      in the layout of the line-oriented reader is read back; rendering returns the
      resources of the YAML files or the first error; comments, runs and pages of runs are
      the histories they should be.

    Examples at the end of the files evaluate the definitions on concrete inputs, among
    them inputs on which the code does not do what it or its documentation means to.

    ** Parameters

    Code outside the repository is an argument of the definitions that use it: the file
    system (a record of stat, read and directory walk), gopkg.in/yaml.v3's decoder and
    encoder, fmt's formatting of arbitrary values, the cluster reader, the Redis client,
    HMAC-SHA256, the text of encoding/json's and base64's errors, the integer a float64
    beyond 64 bits converts to, the HTTP transport ([Http]), go-git ([Git]), client-go and
    the Google APIs ([Kube]), the ssh package, what the flag package prints, and how
    net/url reads a bracketed host, which differs between releases of Go.
    Where a law is needed it is a named hypothesis with a concrete instance. Go's language
    and standard library are modelled: what a call observes of clock, context and
    scheduler is a [Ctx], the visiting order of a map is a [MapOrder], and theorems hold
    for all of them. Operations of the in-memory stores hold a mutex for their whole
    body, so each is one step of an interleaving. What GitLab, Redis and git are documented
    to do is stated in [NotesServer], [RedisListsSpec] and [GitSpec], each with a small
    program that satisfies it. A request to GitLab or Redis may fail after it took effect,
    an answer of GitLab may break off at any byte, and a command to Redis may be applied
    more than once. The Redis deduplication store is modelled over its client without laws.

    ** Bounds and fuel

    Integers are Z with 64-bit wrap-around written out where the code computes on them
    without a bound (paging, run ids, channel capacities). Where a theorem needs a slice
    length or an identifier to fit 64 bits it says so ([slice_len], [room_for]). Four
    recursions carry fuel: the walk from a directory to the root, with one unit more than
    the directory has bytes, proved enough by [walk_up_terminates]; and the JSON parser,
    with twice the length of the text and two, proved enough for every text by
    [parse_fuel_enough]; the components of a duration, with its length, enough by
    [parse_components_fuel]; and a handler that runs alone, with seven calls more than it
    has projects, enough by [run_alone_handle]. The worker's loop is given one moment per
    iteration and says whether it exited, waits or may go on. The parser's depth limit of
    10000 is encoding/json's own.

    ** Not modelled

    The entry points around the programs: signals, listening, the process's exit, and the
    redirects of http.ServeMux for paths that are not clean. Timeouts of single requests
    are part of what the transports answer. A store over GitLab has the world its requests
    act on to itself; what a merge request's comments, statuses and changes have in common
    on the server is not modelled. The JSON schema files are not read by the programs. *)

From stdpp Require Export base strings gmap list fin_maps sorting pretty.
From stdpp Require Import options.

(** ** Notations of the development *)

Declare Scope go_scope.
Delimit Scope go_scope with go.
Global Open Scope Z_scope.
Global Open Scope stdpp_scope.

(** The Go idiom [x, err := f(); if err != nil { return err }]. An [error] value
    is identified with the text its [Error] method returns. *)
Inductive result (A : Type) : Type :=
| Ok (a : A)
| Err (e : string).
Arguments Ok {A} a.
Arguments Err {A} e.

Definition rbind {A B} (c : result A) (k : A -> result B) : result B :=
  match c with
  | Ok a => k a
  | Err e => Err e
  end.

Notation "'let?' x ':=' c 'in' k" := (rbind c (fun x => k))
  (at level 10, x name, c at level 100, k at level 200) : go_scope.
Global Open Scope go_scope.

Definition is_ok {A} (c : result A) : bool := match c with Ok _ => true | Err _ => false end.

(** ** Machine integers *)

(** Go's [int] and [int64] on the 64-bit platforms the program is built for:
    two's complement, arithmetic wraps around. *)
Definition int64_min : Z := - 2 ^ 63.
Definition int64_max : Z := 2 ^ 63 - 1.
Definition wrap64 (z : Z) : Z := (z + 2 ^ 63) mod 2 ^ 64 - 2 ^ 63.
Definition in_int64 (z : Z) : Prop := int64_min <= z <= int64_max.

Lemma wrap64_id z : in_int64 z -> wrap64 z = z.
Proof.
  unfold in_int64, wrap64, int64_min, int64_max. intros H.
  rewrite Z.mod_small; lia.
Qed.

Lemma wrap64_range z : in_int64 (wrap64 z).
Proof.
  unfold in_int64, wrap64, int64_min, int64_max.
  pose proof (Z.mod_pos_bound (z + 2 ^ 63) (2 ^ 64)). lia.
Qed.

(** ** Strings as byte sequences *)

(** Appending reduces on constructors. *)
#[global] Arguments String.append !_ _ / : simpl nomatch.

(** [len(s)]: the number of bytes. *)
Definition zlen (s : string) : Z := Z.of_nat (String.length s).

Lemma zlen_nonneg s : 0 <= zlen s.
Proof. unfold zlen. lia. Qed.

Lemma string_app_nil_r s : s +:+ "" = s.
Proof. induction s as [|a s IH]; [done|]. cbn. by f_equal. Qed.

Lemma string_app_assoc a b c : (a +:+ b) +:+ c = a +:+ (b +:+ c).
Proof. induction a as [|x a IH]; [done|]. cbn. by f_equal. Qed.

Lemma string_length_app a b : String.length (a +:+ b) = (String.length a + String.length b)%nat.
Proof. induction a as [|x a IH]; [done|]. cbn. by f_equal. Qed.

Lemma zlen_app a b : zlen (a +:+ b) = zlen a + zlen b.
Proof. unfold zlen. rewrite string_length_app. lia. Qed.

Lemma zlen_nil : zlen "" = 0.
Proof. done. Qed.

Lemma zlen_cons a s : zlen (String a s) = 1 + zlen s.
Proof. unfold zlen. cbn [String.length]. lia. Qed.

Lemma zlen_0_inv s : zlen s = 0 -> s = "".
Proof. destruct s; [done|]. rewrite zlen_cons. pose proof (zlen_nonneg s). lia. Qed.

Create Rewrite HintDb golen.
#[export] Hint Rewrite zlen_app zlen_nil zlen_cons : golen.

(** Bounds on lengths, with every [zlen] known to be non-negative. *)
Ltac zlen_pose :=
  repeat match goal with
  | |- context [zlen ?s] =>
      lazymatch goal with H : 0 <= zlen s |- _ => fail | _ => pose proof (zlen_nonneg s) end
  | _ : context [zlen ?s] |- _ =>
      lazymatch goal with H : 0 <= zlen s |- _ => fail | _ => pose proof (zlen_nonneg s) end
  end.
Ltac zlen_lia := autorewrite with golen in *; zlen_pose; lia.

(** Concatenation of a list of pieces, as a [strings.Builder] accumulates them. *)
Definition sconcat (l : list string) : string := foldr String.app "" l.

Lemma sconcat_app l1 l2 : sconcat (l1 ++ l2) = sconcat l1 +:+ sconcat l2.
Proof.
  induction l1 as [|x l1 IH]; [done|].
  change (x +:+ sconcat (l1 ++ l2) = (x +:+ sconcat l1) +:+ sconcat l2).
  by rewrite IH, string_app_assoc.
Qed.

(** [sort.Strings] (bytewise lexicographic order). *)
Definition sort_strings (l : list string) : list string := merge_sort String.le l.

Lemma sort_strings_perm l : sort_strings l ≡ₚ l.
Proof. apply merge_sort_Permutation. Qed.

Lemma sort_strings_sorted l : StronglySorted String.le (sort_strings l).
Proof. apply StronglySorted_merge_sort; apply _. Qed.

Lemma elem_of_sort_strings x l : x ∈ sort_strings l <-> x ∈ l.
Proof. by rewrite sort_strings_perm. Qed.

Lemma NoDup_sort_strings l : NoDup (sort_strings l) <-> NoDup l.
Proof. by rewrite sort_strings_perm. Qed.

Lemma sort_strings_unique l1 l2 : l1 ≡ₚ l2 -> sort_strings l1 = sort_strings l2.
Proof.
  intros H. apply (StronglySorted_unique String.le);
    [apply sort_strings_sorted..|]. by rewrite !sort_strings_perm.
Qed.

(** Strict order of Go strings, for lists without repetition. *)
Definition str_lt (a b : string) : Prop := String.le a b /\ a <> b.

#[export] Instance str_lt_dec a b : Decision (str_lt a b) := _.
#[export] Instance str_lt_trans : Transitive str_lt.
Proof.
  intros a b c [Hab Nab] [Hbc Nbc]. split; [by etrans|].
  intros ->. apply Nab, (anti_symm String.le); done.
Qed.

Lemma StronglySorted_strict l :
  StronglySorted String.le l -> NoDup l -> StronglySorted str_lt l.
Proof.
  induction 1 as [|x l Hs IH Hall]; intros Hnd; [constructor|].
  apply NoDup_cons in Hnd as [Hx Hnd]. constructor; [by apply IH|].
  rewrite Forall_forall in Hall |- *. intros y Hy. split; [by apply Hall|].
  by intros ->.
Qed.

(** ** Go maps *)

(** A Go map is a finite map; [for k := range m] visits every key exactly once in
    an order the language leaves unspecified. Where that order is observable it is
    an argument of the model: a [MapOrder] is one such order, and theorems hold for
    all of them. *)
Class MapOrder := {
  range_order : list string -> list string;
  range_order_perm l : range_order l ≡ₚ l
}.

Program Definition natural_order : MapOrder := {| range_order l := l |}.
Next Obligation. done. Qed.

Program Definition reverse_order : MapOrder := {| range_order l := reverse l |}.
Next Obligation. intros. apply reverse_Permutation. Qed.

Definition sorted_keys {A} (m : gmap string A) : list string :=
  sort_strings (map_to_list m).*1.

Lemma elem_of_sorted_keys {A} (m : gmap string A) k :
  k ∈ sorted_keys m <-> is_Some (m !! k).
Proof.
  unfold sorted_keys. rewrite elem_of_sort_strings, list_elem_of_fmap. split.
  - intros ([k' v] & -> & Hin%elem_of_map_to_list). by eexists.
  - intros [v Hv]. exists (k, v). by rewrite elem_of_map_to_list.
Qed.

Lemma NoDup_sorted_keys {A} (m : gmap string A) : NoDup (sorted_keys m).
Proof. apply NoDup_sort_strings, NoDup_fst_map_to_list. Qed.

Lemma sorted_keys_sorted {A} (m : gmap string A) : StronglySorted str_lt (sorted_keys m).
Proof.
  apply StronglySorted_strict; [apply sort_strings_sorted|apply NoDup_sorted_keys].
Qed.

(** The sorted union of the keys of two maps, as the diff walks build it. *)
Definition union_keys {A B} (m1 : gmap string A) (m2 : gmap string B) : list string :=
  sort_strings (elements (dom m1 ∪ dom m2)).

Lemma elem_of_union_keys {A B} (m1 : gmap string A) (m2 : gmap string B) k :
  k ∈ union_keys m1 m2 <-> is_Some (m1 !! k) \/ is_Some (m2 !! k).
Proof.
  unfold union_keys.
  by rewrite elem_of_sort_strings, elem_of_elements, elem_of_union, !elem_of_dom.
Qed.

Lemma NoDup_union_keys {A B} (m1 : gmap string A) (m2 : gmap string B) :
  NoDup (union_keys m1 m2).
Proof. apply NoDup_sort_strings, NoDup_elements. Qed.

Lemma union_keys_sorted {A B} (m1 : gmap string A) (m2 : gmap string B) :
  StronglySorted str_lt (union_keys m1 m2).
Proof.
  apply StronglySorted_strict; [apply sort_strings_sorted|apply NoDup_union_keys].
Qed.

(** ** [sort.SliceStable] by a string key *)

(** Insertion in front of the first element whose key is not smaller: inserting from
    the right keeps the order of equal keys. *)
Section SortBy.
Context {A : Type} (key : A -> string).

Fixpoint insert_by (x : A) (l : list A) : list A :=
  match l with
  | [] => [x]
  | y :: l' => if decide (String.le (key x) (key y)) then x :: l else y :: insert_by x l'
  end.
Definition sort_by (l : list A) : list A := foldr insert_by [] l.

Definition key_le (x y : A) : Prop := String.le (key x) (key y).

Lemma insert_by_perm x l : insert_by x l ≡ₚ x :: l.
Proof. induction l as [|y l IH]; [done|]. cbn. case_decide; [done|]. rewrite IH. apply Permutation_swap. Qed.

Lemma sort_by_perm l : sort_by l ≡ₚ l.
Proof.
  induction l as [|x l IH]; [done|]. change (insert_by x (sort_by l) ≡ₚ x :: l). by rewrite insert_by_perm, IH.
Qed.

Lemma insert_by_sorted x l : StronglySorted key_le l -> StronglySorted key_le (insert_by x l).
Proof.
  assert (Transitive key_le) as Htr by (intros a b c ? ?; unfold key_le in *; by etrans).
  induction 1 as [|y l Hs IH Hall]; cbn; [by repeat constructor|].
  destruct (decide (String.le (key x) (key y))) as [Hxy|Hxy].
  - constructor; [by constructor|]. constructor; [done|].
    eapply Forall_impl; [done|]. intros z Hz. by etrans.
  - constructor; [done|]. rewrite insert_by_perm. constructor; [|done].
    unfold key_le. destruct (total String.le (key x) (key y)); done.
Qed.

Lemma sort_by_sorted l : StronglySorted key_le (sort_by l).
Proof. induction l as [|x l IH]; [constructor|]. by apply insert_by_sorted. Qed.

(** Elements with the same key keep their order. *)
Lemma filter_insert_by x l k :
  filter (fun y => key y = k) (insert_by x l) = filter (fun y => key y = k) (x :: l).
Proof.
  induction l as [|y l IH]; [done|]. cbn. case_decide as Hxy; [done|].
  rewrite !filter_cons, IH, filter_cons. repeat case_decide; try done. exfalso. apply Hxy.
  by replace (key y) with (key x) by congruence.
Qed.

Lemma sort_by_stable l k : filter (fun y => key y = k) (sort_by l) = filter (fun y => key y = k) l.
Proof.
  induction l as [|x l IH]; [done|]. change (sort_by (x :: l)) with (insert_by x (sort_by l)).
  by rewrite filter_insert_by, !filter_cons, IH.
Qed.

(** With distinct keys the result does not depend on the order of the input. *)
Lemma sort_by_unique l1 l2 : NoDup (key <$> l1) -> l1 ≡ₚ l2 -> sort_by l1 = sort_by l2.
Proof.
  intros Hnd Hp.
  assert (sort_by l1 ≡ₚ sort_by l2) as Hs by by rewrite !sort_by_perm.
  assert (NoDup (key <$> sort_by l1)) as Hnd1 by by rewrite sort_by_perm.
  pose proof (sort_by_sorted l1) as H1. pose proof (sort_by_sorted l2) as H2.
  revert Hs Hnd1 H1 H2. generalize (sort_by l1) (sort_by l2). clear.
  induction l as [|x l IH]; intros [|y l2] Hp Hnd H1 H2; try done.
  { by apply Permutation_nil_cons in Hp. }
  { symmetry in Hp. by apply Permutation_nil_cons in Hp. }
  inversion H1 as [|? ? H1s H1f]; inversion H2 as [|? ? H2s H2f]; subst.
  rewrite Forall_forall in H1f, H2f. rewrite fmap_cons in Hnd. apply NoDup_cons in Hnd as [Hx Hnd].
  assert (x = y) as ->.
  { assert (x ∈ y :: l2) as Hin by (rewrite <- Hp; apply elem_of_cons; by left).
    apply elem_of_cons in Hin as [->|Hin]; [done|].
    assert (y ∈ x :: l) as Hin' by (rewrite Hp; apply elem_of_cons; by left).
    apply elem_of_cons in Hin' as [->|Hin']; [done|]. exfalso. apply Hx.
    replace (key x) with (key y); [by apply list_elem_of_fmap_2|].
    apply (anti_symm String.le); [by apply H2f|by apply H1f]. }
  f_equal. apply IH; [|done..]. by apply (Permutation_cons_inv (a := y)).
Qed.
End SortBy.

Create HintDb thule.
#[export] Hint Resolve sort_strings_sorted NoDup_sorted_keys NoDup_union_keys
  union_keys_sorted sorted_keys_sorted zlen_nonneg : thule.

Lemma app_same_nil {A} (l new : list A) : l = l ++ new -> new = [].
Proof.
  intros Heq. apply (f_equal length) in Heq. rewrite length_app in Heq.
  destruct new; [done|]. cbn in Heq. lia.
Qed.

Lemma list_filter_all {A} (P : A -> Prop) `{forall x, Decision (P x)} (l : list A) :
  (forall x, x ∈ l -> P x) -> filter P l = l.
Proof.
  induction l as [|x l IH]; intros HP; [done|]. rewrite filter_cons, decide_True by (apply HP; left).
  f_equal. apply IH. intros y Hy. apply HP. by right.
Qed.

Lemma list_filter_none {A} (P : A -> Prop) `{forall x, Decision (P x)} (l : list A) :
  (forall x, x ∈ l -> ~ P x) -> filter P l = [].
Proof.
  induction l as [|x l IH]; intros HP; [done|]. rewrite filter_cons, decide_False by (apply HP; left).
  apply IH. intros y Hy. apply HP. by right.
Qed.

(** ** Collecting without repetitions *)

(** The loops that append what they find to a slice and skip what a set of strings has
    seen: [pick] is what an element contributes. *)
Fixpoint collect {A} (pick : A -> option string) (l : list A) (seen : gset string) (out : list string)
    : list string :=
  match l with
  | [] => out
  | x :: r =>
      match pick x with
      | None => collect pick r seen out
      | Some p =>
          if decide (p ∈ seen) then collect pick r seen out
          else collect pick r ({[p]} ∪ seen) (out ++ [p])
      end
  end.

(** The first occurrences, in order. *)
Fixpoint firsts (l : list string) : list string :=
  match l with [] => [] | x :: r => x :: filter (fun y => y <> x) (firsts r) end.

Lemma elem_of_firsts x l : x ∈ firsts l <-> x ∈ l.
Proof.
  induction l as [|y l IH]; [done|]. cbn. rewrite !elem_of_cons, list_elem_of_filter, IH.
  destruct (decide (x = y)); tauto.
Qed.

Lemma NoDup_firsts l : NoDup (firsts l).
Proof.
  induction l as [|x l IH]; cbn; constructor.
  - rewrite list_elem_of_filter. tauto.
  - by apply NoDup_filter.
Qed.

Lemma collect_firsts_gen {A} (pick : A -> option string) l seen out :
  collect pick l seen out = out ++ filter (fun y => y ∉ seen) (firsts (omap pick l)).
Proof.
  revert seen out. induction l as [|x l IH]; intros seen out; cbn; [by rewrite app_nil_r|].
  destruct (pick x) as [p|]; [|apply IH]. cbn [firsts]. rewrite filter_cons.
  destruct (decide (p ∈ seen)) as [Hp|Hp].
  - rewrite decide_False by tauto. rewrite IH, list_filter_filter. f_equal. apply list_filter_iff. set_solver.
  - rewrite decide_True by done. rewrite IH, <- (assoc_L (++)), list_filter_filter. cbn. do 2 f_equal.
    apply list_filter_iff. set_solver.
Qed.

Lemma collect_firsts {A} (pick : A -> option string) l :
  collect pick l ∅ [] = firsts (omap pick l).
Proof.
  rewrite collect_firsts_gen. cbn. induction (firsts (omap pick l)) as [|x k IH]; [done|].
  rewrite filter_cons, decide_True by set_solver. by rewrite IH.
Qed.
