(* ===== verification/GoStrings.v ===== *)
(** * The functions of Go's [strings], [strconv] and [fmt] packages the program calls

    Go strings are byte sequences; [string] of Rocq is a sequence of 8-bit
    characters, so a byte is an [ascii]. Functions that look at Unicode (white
    space, letter case) are written over the UTF-8 bytes. *)

From Stdlib Require Import Ascii.
From stdpp Require Import options.
From S2P Require Import Prelude.

(** ** Bytes *)

Definition byte_of (n : N) : ascii := ascii_of_N n.
Definition bval (a : ascii) : N := N_of_ascii a.

Definition dquote : ascii := byte_of 34.
Definition newline : ascii := byte_of 10.
Definition nl : string := String newline "".
Definition quote1 : string := String dquote "".

Definition in_range (lo hi : N) (a : ascii) : bool := (lo <=? bval a)%N && (bval a <=? hi)%N.
Definition byte_is (n : N) (a : ascii) : bool := (bval a =? n)%N.
Definition is_digit (a : ascii) : bool := in_range 48 57 a.
Definition is_upper (a : ascii) : bool := in_range 65 90 a.

Definition str_eqb (a b : string) : bool := String.eqb a b.

Lemma str_eqb_eq a b : str_eqb a b = true <-> a = b.
Proof. apply String.eqb_eq. Qed.

Lemma str_eqb_neq a b : str_eqb a b = false <-> a <> b.
Proof. apply String.eqb_neq. Qed.

Lemma str_eqb_refl a : str_eqb a a = true.
Proof. by apply str_eqb_eq. Qed.

(** [s == ""] *)
Definition is_empty (s : string) : bool := match s with EmptyString => true | _ => false end.

Lemma is_empty_true s : is_empty s = true <-> s = "".
Proof. by destruct s. Qed.

(** Every byte satisfies a test. *)
Fixpoint all_bytes (p : ascii -> bool) (s : string) : bool :=
  match s with
  | EmptyString => true
  | String a r => p a && all_bytes p r
  end.

Lemma all_bytes_app p a b : all_bytes p (a +:+ b) = all_bytes p a && all_bytes p b.
Proof. induction a as [|x a IH]; [done|]. cbn. by rewrite IH, andb_assoc. Qed.

(** ** Prefixes, suffixes, slices *)

Fixpoint strip_prefix (p s : string) : option string :=
  match p, s with
  | EmptyString, _ => Some s
  | String a p', String b s' => if ascii_dec a b then strip_prefix p' s' else None
  | String _ _, EmptyString => None
  end.

(** [strings.HasPrefix], [strings.TrimPrefix] and their suffix versions. *)
Definition has_prefix (s p : string) : bool :=
  match strip_prefix p s with Some _ => true | None => false end.
Definition trim_prefix (s p : string) : string :=
  match strip_prefix p s with Some r => r | None => s end.
Definition has_suffix (s p : string) : bool := has_prefix (String.rev s) (String.rev p).
Definition trim_suffix (s p : string) : string :=
  match strip_prefix (String.rev p) (String.rev s) with
  | Some r => String.rev r
  | None => s
  end.

(** [strings.Contains] *)
Fixpoint contains_str (s sub : string) : bool :=
  has_prefix s sub ||
  match s with
  | EmptyString => false
  | String _ r => contains_str r sub
  end.

(** [strings.Index] for a one-byte pattern *)
Fixpoint index_char (c : ascii) (s : string) : option nat :=
  match s with
  | EmptyString => None
  | String a r => if ascii_dec a c then Some 0%nat else S <$> index_char c r
  end.

(** [s[:n]] and [s[n:]] for [n] within the string *)
Fixpoint stake (n : nat) (s : string) : string :=
  match n, s with
  | S n', String a r => String a (stake n' r)
  | _, _ => ""
  end.
Fixpoint sdrop (n : nat) (s : string) : string :=
  match n, s with
  | S n', String _ r => sdrop n' r
  | _, _ => s
  end.

(** ** Splitting and joining *)

(** [strings.Split(s, sep)] for a one-byte separator: never the empty list. *)
Fixpoint split_char (c : ascii) (s : string) : list string :=
  match s with
  | EmptyString => [""]
  | String a r =>
      if ascii_dec a c then "" :: split_char c r
      else match split_char c r with
           | [] => [String a ""]
           | w :: ws => String a w :: ws
           end
  end.

(** [strings.SplitN(s, sep, 2)] for a one-byte separator: [None] when the
    separator does not occur (a one-element slice in Go). *)
Fixpoint cut_char (c : ascii) (s : string) : option (string * string) :=
  match s with
  | EmptyString => None
  | String a r =>
      if ascii_dec a c then Some ("", r)
      else match cut_char c r with
           | Some (x, y) => Some (String a x, y)
           | None => None
           end
  end.

(** [strings.Join] *)
Definition join (sep : string) (l : list string) : string := String.concat sep l.

(** ** Trimming *)

(** [strings.TrimLeft(s, cutset)] for an ASCII cutset given as a test *)
Fixpoint trim_left (p : ascii -> bool) (s : string) : string :=
  match s with
  | EmptyString => ""
  | String a r => if p a then trim_left p r else s
  end.
Definition trim_right (p : ascii -> bool) (s : string) : string :=
  String.rev (trim_left p (String.rev s)).
Definition trim_set (p : ascii -> bool) (s : string) : string :=
  trim_right p (trim_left p s).

(** [unicode.IsSpace] on UTF-8: the one-, two- and three-byte encodings of the
    white-space code points (U+0009..D, U+0020, U+0085, U+00A0, U+1680,
    U+2000..200A, U+2028, U+2029, U+202F, U+205F, U+3000). *)
Definition sp1 (a : ascii) : bool := in_range 9 13 a || in_range 32 32 a.
Definition sp2 (a b : ascii) : bool :=
  in_range 194 194 a && (in_range 133 133 b || in_range 160 160 b).
Definition sp3 (a b c : ascii) : bool :=
  (in_range 225 225 a && in_range 154 154 b && in_range 128 128 c)
  || (in_range 226 226 a && in_range 128 128 b &&
        (in_range 128 138 c || in_range 168 169 c || in_range 175 175 c))
  || (in_range 226 226 a && in_range 129 129 b && in_range 159 159 c)
  || (in_range 227 227 a && in_range 128 128 b && in_range 128 128 c).

Fixpoint trim_spaces (s2 : ascii -> ascii -> bool) (s3 : ascii -> ascii -> ascii -> bool)
    (s : string) : string :=
  match s with
  | EmptyString => ""
  | String a r =>
      if sp1 a then trim_spaces s2 s3 r
      else match r with
           | String b r2 =>
               if s2 a b then trim_spaces s2 s3 r2
               else match r2 with
                    | String c r3 => if s3 a b c then trim_spaces s2 s3 r3 else s
                    | EmptyString => s
                    end
           | EmptyString => s
           end
  end.

(** [strings.TrimSpace]: from the left, then from the right on the reversed bytes. *)
Definition trim_space (s : string) : string :=
  String.rev (trim_spaces (fun a b => sp2 b a) (fun a b c => sp3 c b a)
    (String.rev (trim_spaces sp2 sp3 s))).

(** ** Letter case *)

(** [strings.ToLower]. Besides the ASCII letters, the only code points whose lower
    case is an ASCII character are U+0130 (to i) and U+212A, the Kelvin sign (to k);
    every other non-ASCII code point stays non-ASCII and its bytes are left as they
    are here: the program only compares the result with ASCII constants. *)
Definition lower_byte (a : ascii) : ascii :=
  if is_upper a then byte_of (bval a + 32) else a.

Fixpoint to_lower (s : string) : string :=
  match s with
  | EmptyString => ""
  | String a r =>
      match r with
      | String b r2 =>
          if in_range 196 196 a && in_range 176 176 b then String (byte_of 105) (to_lower r2)
          else match r2 with
               | String c r3 =>
                   if in_range 226 226 a && in_range 132 132 b && in_range 170 170 c
                   then String (byte_of 107) (to_lower r3)
                   else String (lower_byte a) (to_lower r)
               | EmptyString => String (lower_byte a) (to_lower r)
               end
      | EmptyString => String (lower_byte a) ""
      end
  end.

(** [strings.EqualFold(s, t)] for a lower-case ASCII [t] without the letters k and s,
    the only ones with a non-ASCII case variant. *)
Fixpoint map_bytes (f : ascii -> ascii) (s : string) : string :=
  match s with
  | EmptyString => ""
  | String a r => String (f a) (map_bytes f r)
  end.
Definition equal_fold_ascii (s t : string) : bool := str_eqb (map_bytes lower_byte s) t.

(** ** Formatting and parsing numbers *)

(** [fmt.Sprintf] verbs: [%d], [%v] on a slice of strings, [%q]. *)
Definition fmt_d (z : Z) : string := pretty z.
Definition fmt_v (l : list string) : string := "[" +:+ join " " l +:+ "]".

Definition hex_digit (n : N) : ascii :=
  if (n <? 10)%N then byte_of (48 + n) else byte_of (87 + n).
Definition hex2 (a : ascii) : string :=
  String (hex_digit (bval a / 16)) (String (hex_digit (bval a mod 16)) "").

(** [%q], strconv.Quote, on printable text; bytes of non-ASCII characters are kept. *)
Definition quote_byte (a : ascii) : string :=
  let n := bval a in
  if (n =? 34)%N then String (byte_of 92) quote1
  else if (n =? 92)%N then String (byte_of 92) (String (byte_of 92) "")
  else if (n =? 10)%N then "\n" else if (n =? 13)%N then "\r"
  else if (n =? 9)%N then "\t" else if (n =? 7)%N then "\a" else if (n =? 8)%N then "\b"
  else if (n =? 12)%N then "\f" else if (n =? 11)%N then "\v"
  else if (n <? 32)%N || (n =? 127)%N then "\x" +:+ hex2 a
  else String a "".
Fixpoint quote_bytes (s : string) : string :=
  match s with
  | EmptyString => ""
  | String a r => quote_byte a +:+ quote_bytes r
  end.
Definition fmt_q (s : string) : string := quote1 +:+ quote_bytes s +:+ quote1.

(** The value of a digit string, most significant digit first. *)
Fixpoint digits_value (acc : Z) (s : string) : option Z :=
  match s with
  | EmptyString => Some acc
  | String a r =>
      if is_digit a then digits_value (10 * acc + Z.of_N (bval a - 48)) r else None
  end.

(** [strconv.Atoi]: an optional sign and at least one decimal digit, within [int]. *)
Definition atoi (s : string) : option Z :=
  let parse (neg : bool) (d : string) :=
    if is_empty d then None
    else match digits_value 0 d with
         | Some v =>
             let z := if neg then - v else v in
             if (int64_min <=? z) && (z <=? int64_max) then Some z else None
         | None => None
         end in
  match s with
  | EmptyString => None
  | String a r =>
      if (bval a =? 45)%N then parse true r
      else if (bval a =? 43)%N then parse false r
      else parse false s
  end.

(** ** Facts *)

Lemma strip_prefix_spec p s r : strip_prefix p s = Some r <-> s = p +:+ r.
Proof.
  revert s. induction p as [|a p IH]; intros s; cbn.
  - naive_solver.
  - destruct s as [|b s]; [done|].
    destruct (ascii_dec a b) as [<-|Hne].
    + rewrite IH. split; congruence.
    + split; congruence.
Qed.

Lemma has_prefix_spec s p : has_prefix s p = true <-> exists r, s = p +:+ r.
Proof.
  unfold has_prefix. destruct (strip_prefix p s) as [r|] eqn:E.
  - apply strip_prefix_spec in E. naive_solver.
  - split; [done|]. intros [r Hr]. apply strip_prefix_spec in Hr. congruence.
Qed.

Lemma trim_prefix_app p r : trim_prefix (p +:+ r) p = r.
Proof. unfold trim_prefix. by rewrite (proj2 (strip_prefix_spec p _ r) eq_refl). Qed.

Lemma contains_str_spec s sub :
  contains_str s sub = true <-> exists a b, s = a +:+ (sub +:+ b).
Proof.
  induction s as [|x s IH]; cbn [contains_str]; rewrite orb_true_iff, has_prefix_spec.
  - split; [intros [[r ->]|]; [|done]|].
    + by exists "", r.
    + intros (a & b & Hs). destruct a; [|done]. left. by exists b.
  - rewrite IH. split.
    + intros [[r ->]|(a & b & ->)]; [by exists "", r|by exists (String x a), b].
    + intros (a & b & Hs). destruct a as [|y a]; cbn in Hs; [by eauto|].
      simplify_eq. eauto.
Qed.

Lemma String_rev_app_length a b :
  String.length (String.rev_app a b) = (String.length a + String.length b)%nat.
Proof. revert b. induction a as [|x a IH]; intros b; cbn; [done|]. rewrite IH. cbn. lia. Qed.

Lemma zlen_rev s : zlen (String.rev s) = zlen s.
Proof. unfold zlen, String.rev. rewrite String_rev_app_length. cbn. lia. Qed.

Lemma trim_spaces_length s2 s3 s : zlen (trim_spaces s2 s3 s) <= zlen s.
Proof.
  assert (forall n s, (String.length s < n)%nat -> zlen (trim_spaces s2 s3 s) <= zlen s) as H.
  { induction n as [|n IH]; [lia|]. intros [|a [|b [|c r]]] Hlen; cbn [trim_spaces];
      unfold zlen in *; cbn [String.length] in *; repeat case_match; cbn [String.length]; try lia;
      match goal with |- context [trim_spaces _ _ ?t] => pose proof (IH t) as Ht end;
      cbn [String.length trim_spaces] in *; lia. }
  apply (H (S (String.length s))). lia.
Qed.

Lemma trim_space_length s : zlen (trim_space s) <= zlen s.
Proof.
  unfold trim_space. rewrite zlen_rev.
  etrans; [apply trim_spaces_length|]. rewrite zlen_rev. apply trim_spaces_length.
Qed.

Lemma stake_length n s : (n <= String.length s)%nat -> String.length (stake n s) = n.
Proof.
  revert s. induction n as [|n IH]; intros [|a s]; cbn; try lia. intros. rewrite IH; lia.
Qed.

Lemma stake_zlen_le n s : zlen (stake n s) <= Z.of_nat n.
Proof.
  revert s. induction n as [|n IH]; intros [|a s]; cbn [stake]; autorewrite with golen; try lia.
  specialize (IH s). lia.
Qed.

Lemma split_char_join c s : join (String c "") (split_char c s) = s.
Proof.
  induction s as [|a s IH]; [done|]. cbn [split_char].
  assert (split_char c s <> []) as Hne.
  { destruct s; cbn; [done|]. destruct (ascii_dec _ _); [done|]. by destruct (split_char c s). }
  destruct (ascii_dec a c) as [->|Hne'].
  - unfold join in *. destruct (split_char c s) as [|w ws] eqn:E; [done|].
    change (String c (String.concat (String c "") (w :: ws)) = String c s). by rewrite IH.
  - unfold join in *. destruct (split_char c s) as [|w ws] eqn:E; [done|].
    rewrite <- IH. destruct ws; done.
Qed.

Lemma cut_char_spec c s x y : cut_char c s = Some (x, y) -> s = x +:+ String c y.
Proof.
  revert x y. induction s as [|a s IH]; intros x y; cbn; [done|].
  destruct (ascii_dec a c) as [->|]; [naive_solver|].
  destruct (cut_char c s) as [[x' y']|]; [|done]. intros [= <- <-].
  cbn. by rewrite (IH x' y').
Qed.

(** A text without a separator is recovered in front of it: the argument behind the
    injectivity of the formatted keys. *)
Lemma sep_app_inj c a b x y :
  all_bytes (fun k => negb (bool_decide (k = c))) a ->
  all_bytes (fun k => negb (bool_decide (k = c))) b ->
  a +:+ String c x = b +:+ String c y -> a = b /\ x = y.
Proof.
  revert b. induction a as [|k a IH]; intros [|k' b]; cbn; intros Ha Hb Heq; simplify_eq; [done|..].
  - by rewrite bool_decide_eq_true_2 in Hb.
  - by rewrite bool_decide_eq_true_2 in Ha.
  - apply andb_prop_elim in Ha as [_ Ha], Hb as [_ Hb].
    destruct (IH b Ha Hb) as [-> ->]; done.
Qed.

(** ** Reversal *)

Lemma rev_app_spec a b : String.rev_app a b = String.rev a +:+ b.
Proof.
  unfold String.rev. revert b. induction a as [|x a IH]; intros b; [done|]. cbn.
  rewrite IH, (IH (String x "")). by rewrite string_app_assoc.
Qed.

Lemma string_rev_cons x a : String.rev (String x a) = String.rev a +:+ String x "".
Proof. unfold String.rev at 1. cbn. apply rev_app_spec. Qed.

Lemma string_rev_app a b : String.rev (a +:+ b) = String.rev b +:+ String.rev a.
Proof.
  induction a as [|x a IH]; cbn [String.append]; [by rewrite string_app_nil_r|].
  by rewrite !string_rev_cons, IH, string_app_assoc.
Qed.

Lemma string_rev_involutive s : String.rev (String.rev s) = s.
Proof. induction s as [|x s IH]; [done|]. rewrite string_rev_cons, string_rev_app, IH. done. Qed.

Lemma all_bytes_rev p s : all_bytes p (String.rev s) = all_bytes p s.
Proof.
  induction s as [|x s IH]; [done|]. rewrite string_rev_cons, all_bytes_app, IH. cbn.
  by rewrite andb_true_r, andb_comm.
Qed.

Lemma all_bytes_impl (p q : ascii -> bool) s :
  (forall a, p a = true -> q a = true) -> all_bytes p s = true -> all_bytes q s = true.
Proof. intros Hpq. induction s as [|a s IH]; [done|]. cbn. intros [Ha Hs]%andb_prop. by rewrite Hpq, IH. Qed.

Lemma index_char_app c a b :
  index_char c a = None -> index_char c (a +:+ String c b) = Some (String.length a).
Proof.
  induction a as [|x a IH]; cbn.
  - by destruct (ascii_dec c c).
  - destruct (ascii_dec x c); [done|]. intros H%fmap_None%IH. by rewrite H.
Qed.

Lemma stake_sdrop n s : stake n s +:+ sdrop n s = s.
Proof. revert n. induction s as [|a s IH]; intros [|n]; try done. cbn. by rewrite IH. Qed.

Lemma stake_app a b : stake (String.length a) (a +:+ b) = a.
Proof. induction a as [|x a IH]; cbn; [by destruct b|]. by rewrite IH. Qed.

Lemma sdrop_app a b : sdrop (String.length a) (a +:+ b) = b.
Proof. induction a as [|x a IH]; [by destruct b|]. apply IH. Qed.

Lemma contains_app_l a b sub : contains_str a sub = true -> contains_str (a +:+ b) sub = true.
Proof.
  rewrite !contains_str_spec. intros (x & y & ->). exists x, (y +:+ b). by rewrite !string_app_assoc.
Qed.

Lemma has_suffix_spec s p : has_suffix s p = true <-> exists r, s = r +:+ p.
Proof.
  unfold has_suffix. rewrite has_prefix_spec. split; intros [r Hr].
  - exists (String.rev r). by rewrite <- (string_rev_involutive s), Hr, string_rev_app, string_rev_involutive.
  - exists (String.rev r). by rewrite Hr, string_rev_app.
Qed.

(** Lower-casing to an ASCII text without i and k, which two non-ASCII letters become. *)
Definition plain_lower (a : ascii) : bool :=
  (bval a <? 128)%N && negb (byte_is 105 a) && negb (byte_is 107 a).

Lemma to_lower_plain s t :
  all_bytes plain_lower t = true -> to_lower s = t <-> map_bytes lower_byte s = t.
Proof.
  remember (String.length s) as n eqn:Hn. revert s t Hn.
  induction n as [n IH] using lt_wf_ind. intros s t -> Ht. destruct s as [|a r]; [done|].
  assert (forall u, all_bytes plain_lower (String (lower_byte a) u) = true ->
    String (lower_byte a) (to_lower r) = String (lower_byte a) u <->
    String (lower_byte a) (map_bytes lower_byte r) = String (lower_byte a) u) as Hrest.
  { intros u [_ Hu]%andb_true_iff. pose proof (IH (String.length r) ltac:(cbn; lia) r u eq_refl Hu) as Hr.
    split; intros [= Heq]; f_equal; by apply Hr. }
  assert (String (lower_byte a) (to_lower r) = t <-> map_bytes lower_byte (String a r) = t) as Hplain.
  { cbn [map_bytes]. destruct t as [|b t]; [done|]. destruct (decide (b = lower_byte a)) as [->|Hne].
    - by apply Hrest.
    - split; intros [= Heq _]; by destruct Hne. }
  assert (forall lo : N, (128 <=? lo)%N = true -> in_range lo lo a = true -> map_bytes lower_byte (String a r) <> t) as Hhigh.
  { intros lo Hlo Ha <-. cbn [map_bytes all_bytes] in Ht. apply andb_true_iff in Ht as [Ht _].
    unfold plain_lower, in_range in *. apply andb_true_iff in Ha as [H1 H2], Ht as [[Ht _]%andb_true_iff _].
    apply N.leb_le in H1, H2, Hlo. apply N.ltb_lt in Ht. unfold lower_byte, is_upper, in_range in Ht.
    rewrite (proj2 (N.leb_gt (bval a) 90)), andb_false_r in Ht by lia. lia. }
  assert (forall c u, plain_lower c = false -> String c u <> t) as Hspecial.
  { intros c u Hc <-. cbn [all_bytes] in Ht. by rewrite Hc in Ht. }
  cbn [to_lower]. destruct r as [|b r2]; [done|].
  destruct (in_range 196 196 a && in_range 176 176 b) eqn:E1.
  { apply andb_true_iff in E1 as [Ea _]. split; intros Heq; exfalso;
      [by eapply (Hspecial (byte_of 105))|by eapply (Hhigh 196%N)]. }
  destruct r2 as [|c r3]; [done|].
  destruct (in_range 226 226 a && in_range 132 132 b && in_range 170 170 c) eqn:E2; [|done].
  apply andb_true_iff in E2 as [[Ea _]%andb_true_iff _]. split; intros Heq; exfalso;
    [by eapply (Hspecial (byte_of 107))|by eapply (Hhigh 226%N)].
Qed.

(** Reading back what [%d] prints. *)
Lemma digits_value_pretty (x : N) (s : string) :
  digits_value 0 (pretty_N_go x s) = digits_value (Z.of_N x) s.
Proof.
  revert s. induction x as [x IH] using (well_founded_induction N.lt_wf_0). intros s.
  destruct (decide (x = 0)%N) as [->|Hx]; [by rewrite pretty_N_go_0|].
  rewrite pretty_N_go_step by lia. rewrite IH by (apply N.div_lt; lia). cbn [digits_value].
  pose proof (N.mod_lt x 10 ltac:(done)) as Hm. set (d := (x mod 10)%N) in *.
  assert (is_digit (pretty_N_char d) = true /\ (bval (pretty_N_char d) - 48 = d)%N) as [-> ->].
  { clearbody d. destruct d as [|p]; [done|]. do 4 (destruct p as [p|p|]; try done; try lia). }
  f_equal. pose proof (N.div_mod x 10 ltac:(done)). unfold d. lia.
Qed.

Lemma pretty_pos_head p :
  exists a r, pretty (Npos p) = String a r /\ is_digit a = true.
Proof.
  unfold pretty, pretty_N. rewrite decide_False by done.
  assert (forall x s, (0 < x)%N -> exists a r, pretty_N_go x s = String a r /\ is_digit a = true) as H.
  { induction x as [x IH] using (well_founded_induction N.lt_wf_0). intros s Hx. rewrite pretty_N_go_step by done.
    destruct (decide (x / 10 = 0)%N) as [->|Hd].
    - rewrite pretty_N_go_0. do 2 eexists. split; [done|]. unfold pretty_N_char. by repeat case_match.
    - apply IH; [apply N.div_lt; [done|lia]|by apply N.neq_0_lt_0]. }
  by apply H.
Qed.

Lemma atoi_fmt_d z : in_int64 z -> atoi (fmt_d z) = Some z.
Proof.
  intros [Hlo Hhi].
  assert (forall p, digits_value 0 (pretty (Npos p)) = Some (Zpos p)) as Hd.
  { intros p. unfold pretty, pretty_N. rewrite decide_False by done. by rewrite digits_value_pretty. }
  destruct z as [|p|p]; [done| |].
  - change (fmt_d (Zpos p)) with (pretty (Npos p)). destruct (pretty_pos_head p) as (a & r & Hr & Ha).
    pose proof (Hd p) as Hp. rewrite Hr in Hp |- *. cbn [atoi is_empty].
    assert ((bval a =? 45)%N = false /\ (bval a =? 43)%N = false) as [-> ->].
    { by destruct a as [[] [] [] [] [] [] [] []]. }
    rewrite Hp. by rewrite (proj2 (Z.leb_le int64_min _)), (proj2 (Z.leb_le _ int64_max)).
  - change (fmt_d (Zneg p)) with (String (byte_of 45) (pretty (Npos p))). cbn [atoi].
    change (bval (byte_of 45) =? 45)%N with true. cbv iota. rewrite Hd.
    destruct (pretty_pos_head p) as (a & r & Hr & _). rewrite Hr. cbn [is_empty].
    by rewrite (proj2 (Z.leb_le int64_min _)), (proj2 (Z.leb_le _ int64_max)).
Qed.
