(* ===== verification/GoPath.v ===== *)
(** * Go's [path/filepath] on Unix: Clean, Dir, Join, Ext, Rel

    The functions are written over the slash-separated components of a path; the
    lemmas say that cleaning is idempotent and that [Dir] and [Join] undo each other
    on cleaned paths, which is what project discovery relies on. *)

From Stdlib Require Import Ascii.
From stdpp Require Import options.
From S2P Require Import Prelude GoStrings.

Definition slash : ascii := byte_of 47.
Definition slash_str : string := String slash "".

(** ** Definitions *)

Definition rooted (p : string) : bool :=
  match p with String a _ => bool_decide (a = slash) | EmptyString => false end.

(** The loop of [filepath.Clean]: [stack] holds the components written so far, last
    first. An empty component or a dot is skipped, a double dot removes the last real
    component, is kept at the front of a relative path and dropped at a root. *)
Fixpoint clean_comps (r : bool) (stack l : list string) : list string :=
  match l with
  | [] => reverse stack
  | c :: l' =>
      if str_eqb c "" || str_eqb c "." then clean_comps r stack l'
      else if str_eqb c ".." then
        match stack with
        | t :: st =>
            if str_eqb t ".." then clean_comps r (c :: stack) l' else clean_comps r st l'
        | [] => if r then clean_comps r [] l' else clean_comps r [c] l'
        end
      else clean_comps r (c :: stack) l'
  end.

(** The path with the given components. *)
Definition render_path (r : bool) (cs : list string) : string :=
  if r then String slash (join slash_str cs)
  else match cs with [] => "." | _ => join slash_str cs end.

Definition clean_list (p : string) : list string :=
  clean_comps (rooted p) [] (split_char slash p).

(** [filepath.Clean] *)
Definition clean (p : string) : string := render_path (rooted p) (clean_list p).

(** [path[:i+1]] for the last slash [i] *)
Fixpoint upto_last_slash (s : string) : string :=
  match s with
  | EmptyString => ""
  | String a r =>
      let t := upto_last_slash r in
      if is_empty t then (if bool_decide (a = slash) then slash_str else "") else String a t
  end.

(** [filepath.Dir] *)
Definition dir (p : string) : string := clean (upto_last_slash p).

(** [filepath.Join] of two elements *)
Definition join2 (a b : string) : string :=
  if is_empty a then (if is_empty b then "" else clean b)
  else clean (a +:+ slash_str +:+ b).

(** [filepath.Ext]: from the last dot of the last element *)
Fixpoint ext_scan (s : string) : option string :=
  match s with
  | EmptyString => None
  | String a r =>
      match ext_scan r with
      | Some e => Some e
      | None =>
          if bool_decide (a = byte_of 46) && negb (contains_str r slash_str)
          then Some s else None
      end
  end.
Definition ext (s : string) : string := match ext_scan s with Some e => e | None => "" end.

(** The words of a cleaned path as [filepath.Rel] walks over them. *)
Definition rel_words (p : string) : list string :=
  if str_eqb p "" then [] else if str_eqb p slash_str then [""] else split_char slash p.

Fixpoint rel_common (b t : list string) : list string * list string :=
  match b, t with
  | x :: b', y :: t' => if str_eqb x y then rel_common b' t' else (b, t)
  | _, _ => (b, t)
  end.

(** [filepath.Rel(basepath, targpath)]; [None] is the error. *)
Definition rel (basepath targpath : string) : option string :=
  let base := clean basepath in
  let targ := clean targpath in
  if str_eqb targ base then Some "."
  else
    let base := if str_eqb base "." then "" else base in
    if negb (Bool.eqb (rooted base) (rooted targ)) then None
    else
      let '(b, t) := rel_common (rel_words base) (rel_words targ) in
      match b, t with
      | [], _ => Some (join slash_str t)
      | x :: _, [] => Some (join slash_str ((fun _ => "..") <$> b))
      | x :: _, _ :: _ =>
          if str_eqb x ".." then None
          else Some (join slash_str (((fun _ => "..") <$> b) ++ t))
      end.

(** ** Well-formed component lists *)

Definition no_slash (s : string) : bool := all_bytes (fun a => negb (bool_decide (a = slash))) s.

Definition good_comp (c : string) : Prop := c <> "" /\ c <> "." /\ no_slash c.

(** What [Clean] leaves: good components, double dots only at the front of a
    relative path. *)
Inductive cleaned : bool -> list string -> Prop :=
| cleaned_real r cs :
    Forall (fun c => good_comp c /\ c <> "..") cs -> cleaned r cs
| cleaned_up cs :
    cleaned false cs -> cleaned false (".." :: cs).

(** ** Splitting a joined path gives the components back *)

Lemma split_char_no_sep c s :
  all_bytes (fun a => negb (bool_decide (a = c))) s -> split_char c s = [s].
Proof.
  induction s as [|a s IH]; [done|]. cbn. intros [Ha Hs]%andb_prop_elim.
  destruct (ascii_dec a c) as [->|Hne]; [by rewrite bool_decide_eq_true_2 in Ha|].
  by rewrite IH.
Qed.

Lemma split_char_sep c a b :
  all_bytes (fun k => negb (bool_decide (k = c))) a ->
  split_char c (a +:+ String c b) = a :: split_char c b.
Proof.
  induction a as [|x a IH]; cbn [String.append all_bytes split_char].
  - by destruct (ascii_dec c c).
  - intros [Hx Ha]%andb_prop_elim. destruct (ascii_dec x c) as [->|Hne].
    + by rewrite bool_decide_eq_true_2 in Hx.
    + by rewrite IH.
Qed.

Lemma join_cons c l : l <> [] -> join slash_str (c :: l) = c +:+ String slash (join slash_str l).
Proof. by destruct l. Qed.

Lemma split_join cs :
  cs <> [] -> Forall no_slash cs -> split_char slash (join slash_str cs) = cs.
Proof.
  intros Hne H. induction H as [|c cs Hc Hcs IH]; [done|].
  destruct cs as [|c' cs]; [by apply split_char_no_sep|].
  rewrite join_cons, split_char_sep, IH; done.
Qed.

Lemma split_join_trailing cs :
  Forall no_slash cs -> cs <> [] ->
  split_char slash (join slash_str cs +:+ slash_str) = cs ++ [""].
Proof.
  intros H Hne. induction H as [|c cs Hc Hcs IH]; [done|].
  destruct cs as [|c' cs]; [by apply split_char_sep|].
  rewrite join_cons by done. rewrite string_app_assoc. cbn [String.append].
  rewrite split_char_sep, IH; done.
Qed.

(** ** Cleaning *)

Lemma good_comp_skip c : good_comp c -> str_eqb c "" || str_eqb c "." = false.
Proof.
  intros (H1 & H2 & _). apply orb_false_iff. split; by apply str_eqb_neq.
Qed.

Lemma clean_comps_real r stack cs :
  Forall (fun c => good_comp c /\ c <> "..") cs ->
  clean_comps r stack cs = reverse stack ++ cs.
Proof.
  intros H. revert stack. induction H as [|c cs [Hc Hdd] Hcs IH]; intros stack; cbn.
  - by rewrite app_nil_r.
  - rewrite good_comp_skip by done.
    rewrite (proj2 (str_eqb_neq c "..") Hdd), IH, reverse_cons.
    by rewrite <- app_assoc.
Qed.

(** Cleaned components are a fixed point of the loop. *)
Lemma clean_comps_cleaned r cs : cleaned r cs -> clean_comps r [] cs = cs.
Proof.
  intros H.
  assert (forall stack, (stack = [] \/ (r = false /\ exists st, stack = ".." :: st)) ->
    clean_comps r stack cs = reverse stack ++ cs) as Hgen; [|by apply (Hgen []); left].
  induction H as [r cs Hcs|cs _ IH]; intros stack Hst.
  - by apply clean_comps_real.
  - assert (clean_comps false (".." :: stack) cs = reverse stack ++ ".." :: cs) as E.
    { rewrite IH by eauto. rewrite reverse_cons, <- app_assoc. done. }
    destruct Hst as [->|[_ [st ->]]]; cbn; exact E.
Qed.

Lemma cleaned_tail r c cs : cleaned r (c :: cs) -> cleaned r cs.
Proof.
  inversion 1 as [? ? H0|]; subst; [|done].
  apply cleaned_real. by inversion H0.
Qed.

Lemma cleaned_snoc r cs c :
  cleaned r cs -> good_comp c -> c <> ".." -> cleaned r (cs ++ [c]).
Proof.
  intros H Hc Hd. induction H as [r cs Hcs|cs _ IH].
  - apply cleaned_real. apply Forall_app. split; [done|]. by constructor.
  - cbn. by apply cleaned_up, IH.
Qed.

Lemma cleaned_removelast r cs c : cleaned r (cs ++ [c]) -> cleaned r cs.
Proof.
  revert c. induction cs as [|x cs IH]; intros c H.
  - by apply cleaned_real.
  - cbn in H. inversion H as [? ? H0|? H0]; subst.
    + apply cleaned_real. change (x :: cs ++ [c]) with ((x :: cs) ++ [c]) in H0.
      by apply Forall_app in H0 as [? _].
    + apply cleaned_up. by apply (IH c).
Qed.

Lemma cleaned_take r n cs : cleaned r cs -> cleaned r (take n cs).
Proof.
  intros H. revert n. induction H as [r cs Hcs|cs H IH]; intros n.
  - apply cleaned_real. by apply Forall_take.
  - destruct n; cbn; [by apply cleaned_real|]. by apply cleaned_up.
Qed.

Lemma cleaned_no_slash r cs : cleaned r cs -> Forall no_slash cs.
Proof.
  induction 1 as [r cs H|cs _ IH]; [|by constructor].
  eapply Forall_impl; [exact H|]. by intros c [(? & ? & ?) _].
Qed.

Lemma cleaned_nonempty r cs : cleaned r cs -> Forall (fun c => c <> "") cs.
Proof.
  induction 1 as [r cs H|cs _ IH]; [|by constructor].
  eapply Forall_impl; [exact H|]. by intros c [(? & ? & ?) _].
Qed.

Lemma no_slash_not_rooted c : no_slash c -> rooted c = false.
Proof.
  destruct c as [|a c]; [done|]. unfold no_slash. cbn [all_bytes rooted].
  intros [H _]%andb_prop_elim. by destruct (bool_decide (a = slash)).
Qed.

Lemma rooted_join cs :
  Forall no_slash cs -> Forall (fun c => c <> "") cs -> rooted (join slash_str cs) = false.
Proof.
  destruct cs as [|c cs]; [done|]. intros [Hc _]%Forall_cons [Hne _]%Forall_cons.
  destruct c as [|a c]; [done|].
  apply no_slash_not_rooted in Hc. destruct cs; [done|].
  rewrite join_cons by done. done.
Qed.

Lemma rooted_render r cs : cleaned r cs -> rooted (render_path r cs) = r.
Proof.
  intros H. destruct r; [done|]. cbn. destruct cs as [|c cs]; [done|].
  apply rooted_join; [by eapply cleaned_no_slash|by eapply cleaned_nonempty].
Qed.

Lemma clean_list_render r cs : cleaned r cs -> clean_list (render_path r cs) = cs.
Proof.
  intros H. unfold clean_list. rewrite rooted_render by done.
  pose proof (cleaned_no_slash _ _ H) as Hns.
  destruct r; cbn [render_path].
  - cbn [split_char]. destruct (ascii_dec slash slash); [|done]. cbn [clean_comps].
    destruct cs as [|c cs]; [done|].
    change (clean_comps true [] (split_char slash (join slash_str (c :: cs))) = c :: cs).
    rewrite split_join by done. by apply clean_comps_cleaned.
  - destruct cs as [|c cs]; [done|].
    rewrite split_join by done. by apply clean_comps_cleaned.
Qed.

Lemma clean_render r cs : cleaned r cs -> clean (render_path r cs) = render_path r cs.
Proof.
  intros H. unfold clean. by rewrite clean_list_render, rooted_render.
Qed.

Lemma split_char_no_slash s : Forall no_slash (split_char slash s).
Proof.
  induction s as [|a s IH]; cbn [split_char]; [by repeat constructor|].
  destruct (ascii_dec a slash) as [->|Hne]; [by constructor|].
  assert (negb (bool_decide (a = slash))) as Ha by (by rewrite bool_decide_eq_false_2).
  destruct (split_char slash s) as [|w ws].
  - constructor; [|constructor]. unfold no_slash. cbn. by apply andb_prop_intro.
  - apply Forall_cons in IH as [Hw Hws]. constructor; [|done].
    unfold no_slash. cbn [all_bytes]. by apply andb_prop_intro.
Qed.

Lemma cleaned_last_dotdot r cs :
  cleaned r (cs ++ [".."]) -> r = false /\ cs = replicate (length cs) "..".
Proof.
  induction cs as [|c cs IH]; cbn [app length replicate]; intros H.
  - inversion H as [? ? H0|]; subst; [|done]. apply Forall_cons in H0 as [[_ ?] _]. done.
  - inversion H as [? ? H0|? H0]; subst.
    + apply Forall_cons in H0 as [_ H0]. apply Forall_app in H0 as [_ H0].
      apply Forall_cons in H0 as [[_ ?] _]. done.
    + destruct (IH H0) as [_ E]. by rewrite <- E.
Qed.

Lemma cleaned_dotdots n : cleaned false (replicate n "..").
Proof. induction n as [|n IH]; cbn; [by apply cleaned_real|by apply cleaned_up]. Qed.

Lemma clean_comps_result r stack l :
  cleaned r (reverse stack) -> Forall no_slash l -> cleaned r (clean_comps r stack l).
Proof.
  intros Hst Hl. revert stack Hst. induction Hl as [|c l Hc _ IH]; intros stack Hst; [done|].
  cbn [clean_comps]. destruct (str_eqb c "" || str_eqb c ".") eqn:E1; [by apply IH|].
  apply orb_false_iff in E1 as [Ee Ed]. apply str_eqb_neq in Ee, Ed.
  destruct (str_eqb c "..") eqn:E2.
  - apply str_eqb_eq in E2 as ->. destruct stack as [|t st].
    + destruct r; apply IH; [done|]. apply (cleaned_dotdots 1).
    + rewrite reverse_cons in Hst. destruct (str_eqb t "..") eqn:E3.
      * apply str_eqb_eq in E3 as ->. apply cleaned_last_dotdot in Hst as [-> E].
        apply IH. rewrite !reverse_cons, E, <- app_assoc.
        change ([".."] ++ [".."]) with (replicate 2 ".."). rewrite <- replicate_add.
        apply cleaned_dotdots.
      * apply IH. by eapply cleaned_removelast.
  - apply IH. rewrite reverse_cons. apply str_eqb_neq in E2. by apply cleaned_snoc.
Qed.

(** Every path cleans to a cleaned component list, ... *)
Lemma clean_list_cleaned p : cleaned (rooted p) (clean_list p).
Proof. apply clean_comps_result; [by apply cleaned_real|apply split_char_no_slash]. Qed.

(** ... so cleaning is idempotent. *)
Lemma clean_idemp p : clean (clean p) = clean p.
Proof. apply clean_render, clean_list_cleaned. Qed.

(** ** [Dir] and [Join] on cleaned paths *)

Lemma upto_last_slash_none s : no_slash s -> upto_last_slash s = "".
Proof.
  unfold no_slash. induction s as [|a s IH]; [done|]. cbn [all_bytes upto_last_slash].
  intros [Ha Hs]%andb_prop_elim. rewrite IH by done. cbn [is_empty].
  by destruct (bool_decide (a = slash)).
Qed.

Lemma upto_last_slash_app x y :
  no_slash y -> upto_last_slash (x +:+ String slash y) = x +:+ slash_str.
Proof.
  intros Hy. induction x as [|a x IH]; cbn [String.append upto_last_slash].
  - by rewrite upto_last_slash_none.
  - rewrite IH. by destruct x.
Qed.

Lemma join_snoc cs c :
  cs <> [] -> join slash_str (cs ++ [c]) = join slash_str cs +:+ String slash c.
Proof.
  induction cs as [|x cs IH]; [done|]. intros _. destruct cs as [|y cs]; [done|].
  change ((x :: y :: cs) ++ [c]) with (x :: ((y :: cs) ++ [c])).
  rewrite join_cons by (by destruct cs). rewrite IH by done.
  rewrite (join_cons x (y :: cs)) by done. rewrite string_app_assoc. done.
Qed.

Lemma render_snoc r cs c :
  render_path r (cs ++ [c]) =
  match cs with
  | [] => if r then String slash c else c
  | _ => render_path r cs +:+ String slash c
  end.
Proof.
  destruct cs as [|x cs].
  - by destruct r.
  - destruct r; cbn [render_path app].
    + change (x :: cs ++ [c]) with ((x :: cs) ++ [c]). by rewrite join_snoc.
    + change (x :: cs ++ [c]) with ((x :: cs) ++ [c]). by rewrite join_snoc.
Qed.

Lemma clean_comps_snoc_empty r stack l : clean_comps r stack (l ++ [""]) = clean_comps r stack l.
Proof.
  revert stack. induction l as [|c l IH]; intros stack; [done|]. cbn.
  repeat case_match; apply IH.
Qed.

(** A trailing slash does not matter to [Clean]. *)
Lemma clean_trailing r cs :
  cleaned r cs -> cs <> [] -> clean (render_path r cs +:+ slash_str) = render_path r cs.
Proof.
  intros H Hne. pose proof (cleaned_no_slash _ _ H) as Hns.
  assert (rooted (render_path r cs +:+ slash_str) = r) as Hr.
  { pose proof (rooted_render r cs H). destruct r; [done|]. destruct cs as [|c cs]; [done|].
    cbn [render_path] in *. destruct (join slash_str (c :: cs)) eqn:E; [|done].
    apply cleaned_nonempty, Forall_cons in H as [Hc _].
    destruct cs; [done|]. rewrite join_cons in E by done. by destruct c. }
  unfold clean, clean_list. rewrite Hr. f_equal.
  destruct cs as [|c cs]; [done|].
  destruct r; cbn [render_path].
  - cbn [String.append split_char]. destruct (ascii_dec slash slash); [|done].
    rewrite split_join_trailing by done. cbn [clean_comps str_eqb String.eqb orb].
    rewrite clean_comps_snoc_empty. by apply clean_comps_cleaned.
  - rewrite split_join_trailing by done.
    rewrite clean_comps_snoc_empty. by apply clean_comps_cleaned.
Qed.

(** The directory of a cleaned path drops the last component. *)
Lemma dir_render_snoc r cs c :
  cleaned r (cs ++ [c]) -> dir (render_path r (cs ++ [c])) = render_path r cs.
Proof.
  intros H. unfold dir. rewrite render_snoc.
  pose proof (cleaned_no_slash _ _ H) as Hns.
  apply Forall_app in Hns as [Hcs Hc]. apply Forall_cons in Hc as [Hc _].
  pose proof (cleaned_removelast _ _ _ H) as Hcl.
  destruct cs as [|x cs].
  - destruct r.
    + cbn [upto_last_slash]. by rewrite upto_last_slash_none.
    + by rewrite upto_last_slash_none.
  - rewrite upto_last_slash_app by done. by apply clean_trailing.
Qed.

Lemma dir_render_nil r : dir (render_path r []) = render_path r [].
Proof. by destruct r. Qed.

(** Joining a plain name below a cleaned directory appends a component. *)
Lemma join2_render r cs c :
  cleaned r cs -> good_comp c -> c <> ".." ->
  join2 (render_path r cs) c = render_path r (cs ++ [c]).
Proof.
  intros H Hc Hd. unfold join2.
  assert (is_empty (render_path r cs) = false) as ->.
  { destruct r; [done|]. destruct cs as [|x cs]; [done|]. cbn [render_path].
    apply cleaned_nonempty, Forall_cons in H as [Hx _].
    destruct x; [done|]. by destruct cs. }
  pose proof (cleaned_snoc _ _ _ H Hc Hd) as Hs.
  destruct cs as [|x cs].
  - destruct Hc as (Hc1 & Hc2 & Hc3). destruct r; cbn [render_path].
    + unfold clean, clean_list. cbn. f_equal. rewrite split_char_no_sep by done.
      rewrite clean_comps_real; [done|]. by repeat constructor.
    + unfold clean, clean_list. cbn. rewrite split_char_no_sep by done.
      by rewrite clean_comps_real; [|by repeat constructor].
  - rewrite <- (clean_render r ((x :: cs) ++ [c])) by done. f_equal. by rewrite render_snoc.
Qed.

#[export] Hint Resolve clean_list_cleaned cleaned_take cleaned_no_slash : thule.

(** ** Extensions *)

Lemma ext_scan_suffix s e : ext_scan s = Some e -> exists stem, s = stem +:+ e.
Proof.
  induction s as [|a r IH]; cbn [ext_scan]; [done|]. destruct (ext_scan r) as [e'|].
  - intros [= <-]. destruct (IH eq_refl) as [stem ->]. by exists (String a stem).
  - destruct (_ && _); [|done]. intros [= <-]. by exists "".
Qed.

Lemma ext_scan_app stem s e : ext_scan s = Some e -> ext_scan (stem +:+ s) = Some e.
Proof. intros He. induction stem as [|a stem IH]; [done|]. cbn [String.append ext_scan]. by rewrite IH. Qed.

Definition ext_byte (a : ascii) : bool := negb (byte_is 46 a) && negb (byte_is 47 a).

Lemma ext_bytes_scan s :
  all_bytes ext_byte s = true -> ext_scan s = None /\ contains_str s slash_str = false.
Proof.
  induction s as [|a r IH]; [done|]. cbn [all_bytes ext_scan contains_str]. intros [Ha Hr]%andb_true_iff.
  destruct (IH Hr) as [-> ->]. apply andb_true_iff in Ha as [H1 H2]. split.
  - rewrite bool_decide_false; [done|]. by intros ->.
  - rewrite orb_false_r. unfold has_prefix, slash_str. cbn [strip_prefix].
    destruct (ascii_dec slash a) as [<-|]; [done|done].
Qed.

Lemma lower_byte_ext a : ext_byte (lower_byte a) = ext_byte a.
Proof. by destruct a as [[] [] [] [] [] [] [] []]. Qed.

Lemma lower_byte_dot a : lower_byte a = byte_of 46 -> a = byte_of 46.
Proof. by destruct a as [[] [] [] [] [] [] [] []]. Qed.

(** A path has the extension exactly when it ends in it, in upper or lower case. *)
Lemma ext_lower s u :
  all_bytes plain_lower u = true -> all_bytes ext_byte u = true ->
  to_lower (ext s) = String (byte_of 46) u <->
  exists stem e, s = stem +:+ e /\ map_bytes lower_byte e = String (byte_of 46) u.
Proof.
  intros Hu He. rewrite to_lower_plain by done. unfold ext. split.
  - intros Heq. destruct (ext_scan s) as [e|] eqn:Es; [|done].
    destruct (ext_scan_suffix _ _ Es) as [stem ->]. eauto.
  - intros (stem & e & -> & Heq). rewrite (ext_scan_app stem e e); [done|].
    destruct e as [|a e]; [done|]. cbn in Heq. injection Heq as Ha Hr. apply lower_byte_dot in Ha as ->.
    assert (all_bytes ext_byte e = true) as Hb.
    { rewrite <- Hr in He. clear -He. induction e as [|c e IH]; [done|]. cbn in *.
      rewrite lower_byte_ext in He. apply andb_true_iff in He as [-> He]. by apply IH. }
    destruct (ext_bytes_scan e Hb) as [Hs Hc]. cbn [ext_scan]. by rewrite Hs, Hc.
Qed.
