(* ===== verification/GoUrl.v ===== *)
(** * Go's net/url: Parse, Hostname and PathEscape

    Only the host and the path of a parsed address are used, and whether parsing failed.
    What happens to a bracketed IPv6 host differs between releases of Go and is the
    argument [bracketed]. *)

From Stdlib Require Import Ascii.
From stdpp Require Import options.
From S2P Require Import Prelude GoStrings.

(** ** Bytes *)

Definition is_alpha (a : ascii) : bool := in_range 97 122 a || in_range 65 90 a.
Definition is_alnum (a : ascii) : bool := is_alpha a || is_digit a.

Fixpoint has_byte (a : ascii) (s : string) : bool :=
  match s with EmptyString => false | String b r => bool_decide (a = b) || has_byte a r end.
Definition one_of (set : string) (a : ascii) : bool := has_byte a set.

Definition unhex (a : ascii) : option N :=
  if is_digit a then Some (bval a - 48)%N
  else if in_range 97 102 a then Some (bval a - 87)%N
  else if in_range 65 70 a then Some (bval a - 55)%N
  else None.

(** ** Escaping *)

Definition upper_hex (n : N) : ascii := if (n <? 10)%N then byte_of (48 + n) else byte_of (55 + n).

(** Bytes a path segment keeps. *)
Definition segment_byte (a : ascii) : bool := is_alnum a || one_of "-_.~$&+:=@" a.

Fixpoint PathEscape (s : string) : string :=
  match s with
  | EmptyString => ""
  | String a r =>
      if segment_byte a then String a (PathEscape r)
      else String "%" (String (upper_hex (bval a / 16)) (String (upper_hex (bval a mod 16)) (PathEscape r)))
  end.

(** [unescape] with the bytes allowed as they are and the escapes allowed. *)
Fixpoint unescape (plain : ascii -> bool) (coded : N -> bool) (s : string) : option string :=
  match s with
  | EmptyString => Some ""
  | String a r =>
      if bool_decide (a = "%"%char) then
        match r with
        | String h (String l r2) =>
            x ← unhex h; y ← unhex l;
            let n := (16 * x + y)%N in
            if coded n then t ← unescape plain coded r2; Some (String (byte_of n) t) else None
        | _ => None
        end
      else if plain a then t ← unescape plain coded r; Some (String a t)
      else None
  end.

Definition unescape_path : string -> option string := unescape (fun _ => true) (fun _ => true).

(** Hosts: no escaped ASCII but the percent sign, no plain ASCII that needs escaping. *)
Definition host_byte (a : ascii) : bool :=
  (127 <? bval a)%N || is_alnum a || byte_is 34 a || one_of "!$&'()*+,;=:[]<>-_.~" a.
Definition unescape_host : string -> option string :=
  unescape host_byte (fun n => (127 <? n)%N || (n =? 37)%N).

(** ** Parsing *)

(** [getScheme]; [None] is the error of a missing scheme. *)
Fixpoint scheme_go (s : string) : option (string * string) :=
  match s with
  | EmptyString => None
  | String c r =>
      if is_alpha c || is_digit c || one_of "+-." c then
        '(sc, rest) ← scheme_go r; Some (String c sc, rest)
      else if bool_decide (c = ":"%char) then Some ("", r)
      else None
  end.
Definition getScheme (s : string) : option (string * string) :=
  match s with
  | EmptyString => Some ("", s)
  | String c r =>
      if bool_decide (c = ":"%char) then None
      else if is_alpha c then
        match scheme_go s with Some (sc, rest) => Some (sc, rest) | None => Some ("", s) end
      else Some ("", s)
  end.

(** [strings.Cut] at a byte; everything before when it is not there. *)
Definition before_byte (c : ascii) (s : string) : string :=
  match cut_char c s with Some (x, _) => x | None => s end.

Definition validOptionalPort (port : string) : bool :=
  match port with
  | EmptyString => true
  | String c r => bool_decide (c = ":"%char) && all_bytes is_digit r
  end.

(** The text before and from the last occurrence of a byte on. *)
Fixpoint cut_last (c : ascii) (s : string) : option (string * string) :=
  match s with
  | EmptyString => None
  | String a r =>
      match cut_last c r with
      | Some (x, y) => Some (String a x, y)
      | None => if bool_decide (a = c) then Some ("", s) else None
      end
  end.

Definition valid_userinfo_byte (a : ascii) : bool := is_alnum a || one_of "-._:~!$&'()*+,;=%@" a.
Definition valid_userinfo (s : string) : bool :=
  all_bytes valid_userinfo_byte s &&
  match cut_char ":"%char s with
  | None => bool_decide (is_Some (unescape_path s))
  | Some (user, pass) => bool_decide (is_Some (unescape_path user)) && bool_decide (is_Some (unescape_path pass))
  end.

Section Parse.
Context (bracketed : string -> option string).

Definition parseHost_url (host : string) : option string :=
  if has_prefix host "[" then bracketed host
  else
    let ok := match cut_last ":"%char host with Some (_, port) => validOptionalPort port | None => true end in
    if ok then unescape_host host else None.

Definition parseAuthority (authority : string) : option string :=
  match cut_last "@"%char authority with
  | None => parseHost_url authority
  | Some (userinfo, at_host) =>
      host ← parseHost_url (sdrop 1 at_host);
      if valid_userinfo userinfo then Some host else None
  end.

(** The host and the path. *)
Definition url_parse (rawURL : string) : option (string * string) :=
  let '(u, frag) := match cut_char "#"%char rawURL with Some (x, y) => (x, y) | None => (rawURL, "") end in
  if bool_decide (is_Some (unescape_path frag)) then
    if negb (all_bytes (fun a => (31 <? bval a)%N && negb (byte_is 127 a)) u) then None
    else if str_eqb u "*" then Some ("", "*")
    else
      '(scheme, rest) ← getScheme u;
      let rest := before_byte "?"%char rest in
      if negb (has_prefix rest "/") then
        if negb (str_eqb scheme "") then Some ("", "")
        else if contains_str (before_byte "/"%char rest) ":" then None
        else path ← unescape_path rest; Some ("", path)
      else if has_prefix rest "//" && (negb (str_eqb scheme "") || negb (has_prefix rest "///")) then
        let authority := sdrop 2 rest in
        let '(authority, rest) :=
          match cut_char "/"%char authority with
          | Some (x, y) => (x, String "/" y)
          | None => (authority, "")
          end in
        host ← parseAuthority authority;
        path ← unescape_path rest;
        Some (host, path)
      else path ← unescape_path rest; Some ("", path)
  else None.
End Parse.

(** [u.Hostname()]: the host without its port and without brackets. *)
Definition Hostname (host : string) : string :=
  let h := match cut_last ":"%char host with
           | Some (x, port) => if validOptionalPort port then x else host
           | None => host
           end in
  if has_prefix h "[" && has_suffix h "]" then stake (String.length h - 2) (sdrop 1 h) else h.

Definition no_brackets (host : string) : option string := None.

Example url_parse_https :
  url_parse no_brackets "https://user:pw@gl.example.com:8443/group/app.git?x=1#y" =
  Some ("gl.example.com:8443", "/group/app.git").
Proof. vm_compute. reflexivity. Qed.
Example url_parse_scp : url_parse no_brackets "host.example:group/app.git" = Some ("", "").
Proof. vm_compute. reflexivity. Qed.
Example url_parse_bad : url_parse no_brackets "https://h:port/x" = None /\ url_parse no_brackets "%zz" = None.
Proof. split; vm_compute; reflexivity. Qed.
Example hostname_port : Hostname "gl.example.com:8443" = "gl.example.com".
Proof. vm_compute. reflexivity. Qed.
Example escape_project : PathEscape "group/sub group" = "group%2Fsub%20group".
Proof. vm_compute. reflexivity. Qed.
