(* ===== verification/Value.v ===== *)
(** * Decoded documents: Go's [any] as YAML and JSON decoding produce it

    A [value] is what an [interface{}] can hold after gopkg.in/yaml.v3 or
    encoding/json decoded a document into it. A [map[string]any] is a finite map;
    two maps with the same entries are equal, as they are to every operation of the
    program.

    A [float64] is represented by the shortest decimal text that identifies it, the
    one encoding/json prints; the text of a finite float64 determines the float and
    conversely, so nothing is lost. *)

From stdpp Require Import options.
From S2P Require Import Prelude GoStrings.

Unset Elimination Schemes.
Inductive value : Type :=
| VNull                                   (* nil *)
| VBool (b : bool)                        (* bool *)
| VInt (z : Z)                            (* int, int64, uint64: YAML only *)
| VFloat (t : string)                     (* finite float64, by its JSON text *)
| VNonFinite (t : string)                 (* NaN and infinities: YAML only *)
| VString (s : string)                    (* string *)
| VTime (t : string)                      (* time.Time, by its RFC 3339 text: YAML only *)
| VList (l : list value)                  (* []any *)
| VMap (m : gmap string value)            (* map[string]any *)
| VAnyMap (l : list (value * value)).     (* map[any]any: YAML with non-string keys *)
Set Elimination Schemes.

(** ** Size and induction *)

Fixpoint vsize (v : value) : nat :=
  match v with
  | VList l => S (foldr (fun x n => (vsize x + n)%nat) 0%nat l)
  | VMap m => S (map_fold (fun _ x n => (vsize x + n)%nat) 0%nat m)
  | _ => 1%nat
  end.

Lemma vsize_list_elem l x : x ∈ l -> (vsize x < vsize (VList l))%nat.
Proof.
  cbn [vsize]. induction l as [|y l IH]; [by intros ?%elem_of_nil|].
  intros [->|Hin]%elem_of_cons; cbn [foldr]; [lia|]. specialize (IH Hin). lia.
Qed.

Lemma vsize_map_elem m k x : m !! k = Some x -> (vsize x < vsize (VMap m))%nat.
Proof.
  cbn [vsize]. intros Hk.
  enough (vsize x <= map_fold (fun _ x n => (vsize x + n)%nat) 0 m)%nat by lia.
  revert k x Hk.
  apply (map_fold_weak_ind (fun r m => forall k x, m !! k = Some x -> (vsize x <= r)%nat)).
  - intros k x Hk. by rewrite lookup_empty in Hk.
  - intros i y m' r Hi IH k x. rewrite lookup_insert. case_decide; simplify_eq.
    + intros ?; simplify_eq. lia.
    + intros Hk. specialize (IH _ _ Hk). lia.
Qed.

Lemma value_ind (P : value -> Prop) :
  P VNull -> (forall b, P (VBool b)) -> (forall z, P (VInt z)) -> (forall t, P (VFloat t)) ->
  (forall t, P (VNonFinite t)) -> (forall s, P (VString s)) -> (forall t, P (VTime t)) ->
  (forall l, (forall x, x ∈ l -> P x) -> P (VList l)) ->
  (forall m, (forall k x, m !! k = Some x -> P x) -> P (VMap m)) ->
  (forall l, P (VAnyMap l)) ->
  forall v, P v.
Proof.
  intros Hnull Hbool Hint Hfloat Hnf Hstr Htime Hlist Hmap Hany.
  assert (forall n v, (vsize v < n)%nat -> P v) as H; [|intros v; by apply (H (S (vsize v))); lia].
  induction n as [|n IH]; [lia|]. intros [ | | | | | | | l | m | ] Hn; auto.
  - apply Hlist. intros x Hx. apply IH. apply vsize_list_elem in Hx. lia.
  - apply Hmap. intros k x Hx. apply IH. apply vsize_map_elem in Hx. lia.
Qed.

(** ** Type assertions and indexing *)

(** [v.(map[string]any)], [v.([]any)], [v.(string)] *)
Definition as_map (v : value) : option (gmap string value) :=
  match v with VMap m => Some m | _ => None end.
Definition as_list (v : value) : option (list value) :=
  match v with VList l => Some l | _ => None end.

(** [s, _ := v.(string)]: the empty string when [v] is not a string *)
Definition as_string (v : value) : string := match v with VString s => s | _ => "" end.

(** [m[k]] on a [map[string]any]: nil when the key is absent. *)
Definition mget (m : gmap string value) (k : string) : value := default VNull (m !! k).

(** [m[k].(map[string]any)] with its ok *)
Definition mget_map (m : gmap string value) (k : string) : option (gmap string value) :=
  as_map (mget m k).

Lemma mget_map_Some m k m' : mget_map m k = Some m' <-> m !! k = Some (VMap m').
Proof.
  unfold mget_map, mget. destruct (m !! k) as [v|]; cbn; [|naive_solver].
  destruct v; cbn; naive_solver.
Qed.

Definition is_nil (v : value) : bool := match v with VNull => true | _ => false end.

Lemma is_nil_true v : is_nil v = true <-> v = VNull.
Proof. by destruct v. Qed.
