(* ===== verification/JsonNumber.v ===== *)
(** * JSON numbers and float64

    The lexical grammar of JSON numbers, the float64 nearest to a decimal literal
    (round half to even), and the shortest decimal text encoding/json prints for it.
    All executable on exact integers. *)

From Stdlib Require Import Ascii.
From stdpp Require Import options.
From S2P Require Import Prelude GoStrings.

(** ** The grammar *)

(** A number literal: sign, integer digits, fraction digits, exponent. *)
Record num_lit := NumLit {
  nl_neg : bool;
  nl_int : string;
  nl_frac : string;
  nl_eneg : bool;
  nl_exp : string
}.

Fixpoint take_digits (s : string) : string * string :=
  match s with
  | String a r =>
      if is_digit a then let '(d, rest) := take_digits r in (String a d, rest) else ("", s)
  | EmptyString => ("", "")
  end.


(** int = 0 or a non-zero digit followed by digits *)
Definition scan_int (s : string) : option (string * string) :=
  match s with
  | String a r =>
      if byte_is 48 a then Some ("0", r)
      else if is_digit a then let '(d, rest) := take_digits r in Some (String a d, rest)
      else None
  | EmptyString => None
  end.

Definition scan_frac (s : string) : option (string * string) :=
  match s with
  | String a r =>
      if byte_is 46 a then
        let '(d, rest) := take_digits r in
        if is_empty d then None else Some (d, rest)
      else Some ("", s)
  | EmptyString => Some ("", "")
  end.

Definition scan_exp (s : string) : option (bool * string * string) :=
  match s with
  | String a r =>
      if byte_is 101 a || byte_is 69 a then
        let '(neg, r') :=
          match r with
          | String b r2 =>
              if byte_is 45 b then (true, r2) else if byte_is 43 b then (false, r2) else (false, r)
          | EmptyString => (false, r)
          end in
        let '(d, rest) := take_digits r' in
        if is_empty d then None else Some (neg, d, rest)
      else Some (false, "", s)
  | EmptyString => Some (false, "", "")
  end.

Definition scan_unsigned (neg : bool) (s : string) : option (num_lit * string) :=
  match scan_int s with
  | Some (ip, r1) =>
      match scan_frac r1 with
      | Some (fp, r2) =>
          match scan_exp r2 with
          | Some (en, ex, r3) => Some (NumLit neg ip fp en ex, r3)
          | None => None
          end
      | None => None
      end
  | None => None
  end.

(** A number token at the front of the text, and what follows it. *)
Definition scan_number (s : string) : option (num_lit * string) :=
  match s with
  | String a r => if byte_is 45 a then scan_unsigned true r else scan_unsigned false s
  | EmptyString => None
  end.

(** ** Decimal to binary64 *)

Fixpoint digits_val (acc : Z) (s : string) : Z :=
  match s with
  | EmptyString => acc
  | String a r => digits_val (10 * acc + Z.of_N (bval a - 48)) r
  end.

(** Mantissa and decimal exponent of a literal (without its sign). *)
Definition lit_mant (l : num_lit) : Z := digits_val 0 (nl_int l +:+ nl_frac l).
Definition lit_exp (l : num_lit) : Z :=
  let e := digits_val 0 (nl_exp l) in (if nl_eneg l then - e else e) - zlen (nl_frac l).

(** The number of decimal digits of a positive integer. *)
Definition ndigits (z : Z) : Z := zlen (pretty z).

(** Rounding [n / d] to an integer, half to even. *)
Definition div_half_even (n d : Z) : Z :=
  let q := n / d in
  let r := n mod d in
  if 2 * r <? d then q
  else if d <? 2 * r then q + 1
  else if Z.even q then q else q + 1.

Definition scaled_by (n d e : Z) : Z * Z :=
  if 0 <=? e then (n, d * 2 ^ e) else (n * 2 ^ (- e), d).

(** The binary64 nearest to [mant * 10^e10]: mantissa below 2^53 and exponent at least
    -1074, or [None] beyond the largest finite one. *)
Definition nearest64 (mant e10 : Z) : option (Z * Z) :=
  if mant =? 0 then Some (0, -1074)
  else if 309 <=? ndigits mant + e10 - 1 then None
  else if ndigits mant + e10 <=? -324 then Some (0, -1074)
  else
    let '(n, d) := if 0 <=? e10 then (mant * 10 ^ e10, 1) else (mant, 10 ^ (- e10)) in
    let e := Z.log2 n - Z.log2 d - 52 in
    let '(n1, d1) := scaled_by n d e in
    let e := if n1 / d1 <? 2 ^ 52 then e - 1 else e in
    let e := Z.max e (-1074) in
    let '(n2, d2) := scaled_by n d e in
    let m := div_half_even n2 d2 in
    let '(m, e) := if m =? 2 ^ 53 then (2 ^ 52, e + 1) else (m, e) in
    if 971 <? e then None else Some (m, e).

Definition lit_float (l : num_lit) : option (Z * Z) := nearest64 (lit_mant l) (lit_exp l).

(** ** Binary64 to shortest decimal *)

Fixpoint zeros (n : nat) : string :=
  match n with O => "" | S n' => String (byte_of 48) (zeros n') end.

Definition trim_zeros (s : string) : string := trim_right (byte_is 48) s.

(** encoding/json's layout of digits [ds] with leading digit at 10^[k]: positional
    for 1e-6 <= |x| < 1e21, scientific otherwise. *)
Definition layout (ds : string) (k : Z) : string :=
  let n := zlen ds in
  if (k <? -6) || (21 <=? k) then
    let mant := match ds with
                | String d rest => if is_empty rest then ds else String d ("." +:+ rest)
                | EmptyString => "" end in
    mant +:+ (if k <? 0 then "e-" +:+ pretty (- k) else "e+" +:+ pretty k)
  else if k <? 0 then "0." +:+ zeros (Z.to_nat (- k - 1)) +:+ ds
  else if n <=? k + 1 then ds +:+ zeros (Z.to_nat (k + 1 - n))
  else stake (Z.to_nat (k + 1)) ds +:+ "." +:+ sdrop (Z.to_nat (k + 1)) ds.

Definition digits_text (q s : Z) : string :=
  let ds := pretty q in layout (trim_zeros ds) (zlen ds - 1 + s).

(** The decimals with [n] significant digits next below and next above
    [m * 2^e], nearest first. *)
Definition candidates_n (m e k : Z) (n : nat) : list string :=
  let s := k - (Z.of_nat n - 1) in
  let '(vn, vd) := if 0 <=? e then (m * 2 ^ e, 1) else (m, 2 ^ (- e)) in
  let '(num, den) := if 0 <=? s then (vn, vd * 10 ^ s) else (vn * 10 ^ (- s), vd) in
  let q := num / den in
  let lo := digits_text q s in
  let hi := digits_text (q + 1) s in
  if 2 * (num mod den) <? den then [lo; hi] else [hi; lo].

Definition candidates (m e : Z) : list string :=
  let v400 := if 0 <=? e then m * 2 ^ e * 10 ^ 400 else m * 10 ^ 400 / 2 ^ (- e) in
  let k := ndigits v400 - 401 in
  mbind (candidates_n m e k) (seq 1 17).

(** A text is a whole number token. *)
Definition lit_of (t : string) : option num_lit :=
  match scan_unsigned false t with
  | Some (l, EmptyString) => Some l
  | _ => None
  end.

Definition denotes (f : Z * Z) (t : string) : bool :=
  match lit_of t with
  | Some l => bool_decide (lit_float l = Some f)
  | None => false
  end.

(** The text encoding/json prints for the float64 a literal denotes: the first
    candidate that denotes the same float (17 digits always suffice for binary64).
    [None] when the literal is out of range. *)
Definition float_text (l : num_lit) : option string :=
  let sign := if nl_neg l then "-" else "" in
  match lit_float l with
  | None => None
  | Some (m, e) =>
      if m =? 0 then Some (sign +:+ "0")
      else match list_find (denotes (m, e)) (candidates m e) with
           | Some (_, t) => Some (sign +:+ t)
           | None => None
           end
  end.

(** Reading a whole text as a number, as [json.Unmarshal] into an [any] does. *)
Definition canon_number (t : string) : option string :=
  match scan_number t with
  | Some (l, EmptyString) => float_text l
  | _ => None
  end.

(** ** Facts: tokens end where the text goes on with something else *)

(** The text does not continue a number. *)
Definition num_stop (r : string) : bool :=
  match r with
  | EmptyString => true
  | String a _ => negb (is_digit a || byte_is 46 a || byte_is 101 a || byte_is 69 a)
  end.

Lemma num_stop_cons a r :
  num_stop (String a r) ->
  is_digit a = false /\ byte_is 46 a = false /\ byte_is 101 a = false /\ byte_is 69 a = false.
Proof.
  cbn. destruct (is_digit a), (byte_is 46 a), (byte_is 101 a), (byte_is 69 a); by intros.
Qed.

Lemma take_digits_app s d rest r :
  num_stop r -> take_digits s = (d, rest) -> take_digits (s +:+ r) = (d, rest +:+ r).
Proof.
  intros Hr. revert d rest. induction s as [|a s IH]; intros d rest; cbn.
  - intros [= <- <-]. cbn. destruct r as [|b r]; [done|].
    apply num_stop_cons in Hr as (Hd & _). cbn. by rewrite Hd.
  - destruct (is_digit a).
    + destruct (take_digits s) as [d' rest'] eqn:E. intros [= <- <-].
      by rewrite (IH d' rest').
    + by intros [= <- <-].
Qed.

Lemma scan_int_app s ip rest r :
  num_stop r -> scan_int s = Some (ip, rest) -> scan_int (s +:+ r) = Some (ip, rest +:+ r).
Proof.
  intros Hr. destruct s as [|a s]; cbn; [done|]. destruct (byte_is 48 a).
  - by intros [= <- <-].
  - destruct (is_digit a); [|done]. destruct (take_digits s) as [d rest'] eqn:E.
    intros [= <- <-]. by rewrite (take_digits_app _ _ _ _ Hr E).
Qed.

Lemma scan_frac_app s fp rest r :
  num_stop r -> scan_frac s = Some (fp, rest) -> scan_frac (s +:+ r) = Some (fp, rest +:+ r).
Proof.
  intros Hr. destruct s as [|a s]; cbn.
  - intros [= <- <-]. destruct r as [|b r]; [done|].
    apply num_stop_cons in Hr as (_ & Hp & _). cbn. by rewrite Hp.
  - destruct (byte_is 46 a); [|by intros [= <- <-]].
    destruct (take_digits s) as [d rest'] eqn:E. rewrite (take_digits_app _ _ _ _ Hr E).
    destruct (is_empty d); [done|]. by intros [= <- <-].
Qed.

Lemma scan_exp_app s en ex rest r :
  num_stop r -> scan_exp s = Some (en, ex, rest) ->
  scan_exp (s +:+ r) = Some (en, ex, rest +:+ r).
Proof.
  intros Hr. destruct s as [|a s]; cbn.
  - intros [= <- <- <-]. destruct r as [|b r]; [done|].
    apply num_stop_cons in Hr as (_ & _ & He & HE). cbn. by rewrite He, HE.
  - destruct (byte_is 101 a || byte_is 69 a); [|by intros [= <- <- <-]].
    destruct s as [|b s]; [by cbn|]. cbn [String.append].
    destruct (if byte_is 45 b then (true, s) else if byte_is 43 b then (false, s) else (false, String b s))
      as [neg r'] eqn:Es.
    assert ((if byte_is 45 b then (true, s +:+ r)
             else if byte_is 43 b then (false, s +:+ r) else (false, String b (s +:+ r)))
      = (neg, r' +:+ r)) as ->.
    { destruct (byte_is 45 b), (byte_is 43 b); by injection Es as <- <-. }
    destruct (take_digits r') as [d rest'] eqn:E. rewrite (take_digits_app _ _ _ _ Hr E).
    destruct (is_empty d); [done|]. by intros [= <- <- <-].
Qed.

Lemma scan_unsigned_app neg s l rest r :
  num_stop r -> scan_unsigned neg s = Some (l, rest) ->
  scan_unsigned neg (s +:+ r) = Some (l, rest +:+ r).
Proof.
  intros Hr. unfold scan_unsigned.
  destruct (scan_int s) as [[ip r1]|] eqn:E1; [|done]. rewrite (scan_int_app _ _ _ _ Hr E1).
  destruct (scan_frac r1) as [[fp r2]|] eqn:E2; [|done]. rewrite (scan_frac_app _ _ _ _ Hr E2).
  destruct (scan_exp r2) as [[[en ex] r3]|] eqn:E3; [|done]. rewrite (scan_exp_app _ _ _ _ _ Hr E3).
  by intros [= <- <-].
Qed.

Lemma scan_number_app s l rest r :
  num_stop r -> scan_number s = Some (l, rest) ->
  scan_number (s +:+ r) = Some (l, rest +:+ r).
Proof.
  intros Hr. destruct s as [|a s]; cbn; [done|]. case_match; intros Hs.
  - by apply scan_unsigned_app.
  - by apply (scan_unsigned_app false (String a s)).
Qed.

(** ** Facts: canonical texts are fixed points *)

Lemma scan_unsigned_neg s l rest :
  scan_unsigned false s = Some (l, rest) -> nl_neg l = false.
Proof.
  unfold scan_unsigned. repeat case_match; try done. by intros [= <- <-].
Qed.

Lemma scan_unsigned_sign neg s l rest :
  scan_unsigned false s = Some (l, rest) ->
  scan_unsigned neg s =
  Some (NumLit neg (nl_int l) (nl_frac l) (nl_eneg l) (nl_exp l), rest).
Proof.
  unfold scan_unsigned. repeat case_match; try done. by intros [= <- <-].
Qed.

Lemma scan_unsigned_head neg s l rest :
  scan_unsigned neg s = Some (l, rest) -> exists a r, s = String a r /\ byte_is 45 a = false.
Proof.
  unfold scan_unsigned, scan_int. destruct s as [|a s]; [done|]. intros H. exists a, s.
  split; [done|]. unfold byte_is in *. destruct (bval a =? 45)%N eqn:E; [|done].
  apply N.eqb_eq in E. unfold is_digit, in_range in H. rewrite E in H. done.
Qed.

Lemma lit_of_sign (neg : bool) t l :
  lit_of t = Some l ->
  scan_number ((if neg then "-" else "") +:+ t) =
  Some (NumLit neg (nl_int l) (nl_frac l) (nl_eneg l) (nl_exp l), "").
Proof.
  unfold lit_of. destruct (scan_unsigned false t) as [[l' [|]]|] eqn:E; try done.
  intros [= ->]. destruct (scan_unsigned_head _ _ _ _ E) as (a & r & -> & Ha).
  destruct neg; cbn.
  - by apply scan_unsigned_sign.
  - rewrite Ha. by apply scan_unsigned_sign.
Qed.

Lemma float_text_canon l t : float_text l = Some t -> canon_number t = Some t.
Proof.
  unfold float_text. destruct (lit_float l) as [[m e]|] eqn:Ef; [|done].
  destruct (m =? 0) eqn:Em.
  - intros [= <-]. by destruct (nl_neg l).
  - destruct (list_find _ _) as [[i t']|] eqn:Ec; [|done]. intros [= <-].
    apply list_find_Some in Ec as (Hi & Hd & Hbefore).
    unfold denotes in Hd. destruct (lit_of t') as [l'|] eqn:El; [|done].
    apply bool_decide_unpack in Hd. unfold canon_number.
    rewrite (lit_of_sign _ _ _ El). unfold float_text.
    change (lit_float _) with (lit_float l'). rewrite Hd, Em. cbn [nl_neg].
    assert (list_find (denotes (m, e)) (candidates m e) = Some (i, t')) as ->; [|done].
    apply list_find_Some. split_and!; [done| |done].
    unfold denotes. rewrite El. by apply bool_decide_pack.
Qed.

Lemma canon_number_idemp t t' : canon_number t = Some t' -> canon_number t' = Some t'.
Proof.
  unfold canon_number at 1. destruct (scan_number t) as [[l [|]]|]; try done.
  apply float_text_canon.
Qed.

(** ** Facts: decimal integers are number tokens *)

Definition is_pos_digit (a : ascii) : bool := in_range 49 57 a.

Lemma pretty_N_char_digit x : (x < 10)%N -> is_digit (pretty_N_char x).
Proof. intros H. unfold pretty_N_char. by repeat case_match. Qed.

Lemma pretty_N_char_pos x : (0 < x < 10)%N -> is_pos_digit (pretty_N_char x).
Proof. intros H. unfold pretty_N_char. repeat case_match; try done; lia. Qed.

Lemma pretty_N_go_digits x s :
  (0 < x)%N ->
  exists a d, pretty_N_go x s = String a (d +:+ s) /\ is_pos_digit a /\ all_bytes is_digit d.
Proof.
  revert s. induction (N.lt_wf_0 x) as [x _ IH]; intros s Hx.
  rewrite pretty_N_go_step by done. pose proof (N.mod_lt x 10 ltac:(done)) as Hm.
  destruct (decide (x < 10)%N) as [Hs|Hb].
  - rewrite N.div_small, pretty_N_go_0, N.mod_small by done.
    exists (pretty_N_char x), "". split_and!; try done. by apply pretty_N_char_pos.
  - destruct (IH (x / 10)%N) with (s := String (pretty_N_char (x mod 10)) s)
      as (a & d & -> & Ha & Hd); [apply N.div_lt; lia|apply N.div_str_pos; lia|].
    exists a, (d +:+ String (pretty_N_char (x mod 10)) ""). split_and!; [|done|].
    + by rewrite string_app_assoc.
    + rewrite all_bytes_app. apply andb_prop_intro. split; [done|].
      cbn. apply andb_prop_intro. split; [|done]. by apply pretty_N_char_digit.
Qed.

Lemma take_digits_all d : all_bytes is_digit d -> take_digits d = (d, "").
Proof.
  induction d as [|a d IH]; [done|]. cbn. intros [Ha Hd]%andb_prop_elim.
  apply Is_true_true in Ha. rewrite Ha, IH; done.
Qed.

Lemma is_pos_digit_cases a : is_pos_digit a -> byte_is 48 a = false /\ is_digit a = true.
Proof.
  unfold is_pos_digit, is_digit, in_range, byte_is.
  rewrite Is_true_true, !andb_true_iff, !N.leb_le, N.eqb_neq. lia.
Qed.

Lemma scan_int_digits a d :
  is_pos_digit a -> all_bytes is_digit d -> scan_int (String a d) = Some (String a d, "").
Proof.
  intros [H0 Hdig]%is_pos_digit_cases Hd. cbn. by rewrite H0, Hdig, take_digits_all.
Qed.

Lemma scan_pretty_pos neg p :
  scan_unsigned neg (pretty (Npos p)) = Some (NumLit neg (pretty (Npos p)) "" false "", "").
Proof.
  unfold pretty, pretty_N. rewrite decide_False by done.
  destruct (pretty_N_go_digits (Npos p) "" ltac:(done)) as (a & d & -> & Ha & Hd).
  rewrite string_app_nil_r. unfold scan_unsigned. by rewrite scan_int_digits.
Qed.

(** The text of an integer is a number token with that value. *)
Lemma scan_number_pretty (z : Z) : exists l, scan_number (pretty z) = Some (l, "").
Proof.
  destruct z as [|p|p]; [by eexists|..].
  - change (pretty (Zpos p)) with (pretty (Npos p)).
    pose proof (scan_pretty_pos false p) as H.
    destruct (scan_unsigned_head _ _ _ _ H) as (a & r & E & Ha).
    rewrite E in H |- *. eexists. unfold scan_number. rewrite Ha. exact H.
  - change (pretty (Zneg p)) with (String (byte_of 45) (pretty (Npos p))).
    eexists. apply (scan_pretty_pos true p).
Qed.
