(* ===== verification/GoTime.v ===== *)
(** * Go's time.ParseDuration

    A duration is a number of nanoseconds in 64 bits. The text is a sign and a sequence
    of decimal numbers with a unit each; a fraction is converted through float64. *)

From Stdlib Require Import Ascii.
From stdpp Require Import options.
From S2P Require Import Prelude GoStrings JsonNumber.

(** ** Numbers *)

(** [leadingInt]: [None] when the digits do not fit 2^63. *)
Fixpoint leadingInt (x : Z) (s : string) : option (Z * string) :=
  match s with
  | EmptyString => Some (x, s)
  | String c r =>
      if is_digit c then
        if 2 ^ 63 / 10 <? x then None
        else
          let x := x * 10 + Z.of_N (bval c - 48) in
          if 2 ^ 63 <? x then None else leadingInt x r
      else Some (x, s)
  end.

(** [leadingFraction]: the digits that fit, how many they are, and what follows all of
    them; the scale is the power of ten of their number. *)
Fixpoint leadingFraction (x : Z) (digits : Z) (overflow : bool) (s : string) : Z * Z * string :=
  match s with
  | EmptyString => (x, digits, s)
  | String c r =>
      if is_digit c then
        if overflow then leadingFraction x digits true r
        else if (2 ^ 63 - 1) / 10 <? x then leadingFraction x digits true r
        else
          let y := x * 10 + Z.of_N (bval c - 48) in
          if 2 ^ 63 <? y then leadingFraction x digits true r
          else leadingFraction y (digits + 1) false r
      else (x, digits, s)
  end.

(** A product of float64 mantissas rounded to 53 bits, half to even. *)
Definition round53 (m e : Z) : Z * Z :=
  if m <? 2 ^ 53 then (m, e)
  else let s := Z.log2 m - 52 in (div_half_even m (2 ^ s), e + s).

(** [uint64(float64(f) * (float64(unit) / scale))] for the scale 10^[digits] *)
Definition fraction_ns (f unit digits : Z) : Z :=
  match nearest64 f 0, nearest64 unit (- digits) with
  | Some (mf, ef), Some (mq, eq) =>
      let '(m, e) := round53 (mf * mq) (ef + eq) in
      if 0 <=? e then m * 2 ^ e else m / 2 ^ (- e)
  | _, _ => 0
  end.

(** ** Units *)

Definition micro_sign : string := String (byte_of 194) (String (byte_of 181) "s").
Definition greek_mu : string := String (byte_of 206) (String (byte_of 188) "s").

Definition unit_ns (u : string) : option Z :=
  if str_eqb u "ns" then Some 1
  else if str_eqb u "us" || str_eqb u micro_sign || str_eqb u greek_mu then Some 1000
  else if str_eqb u "ms" then Some 1000000
  else if str_eqb u "s" then Some 1000000000
  else if str_eqb u "m" then Some 60000000000
  else if str_eqb u "h" then Some 3600000000000
  else None.

(** The bytes up to the next point or digit. *)
Fixpoint take_unit (s : string) : string * string :=
  match s with
  | EmptyString => ("", "")
  | String c r =>
      if byte_is 46 c || is_digit c then ("", s) else let '(u, rest) := take_unit r in (String c u, rest)
  end.

(** The package's own quoting: control and non-ASCII bytes in hexadecimal. *)
Fixpoint time_quote_bytes (s : string) : string :=
  match s with
  | EmptyString => ""
  | String a r =>
      (if (127 <? bval a)%N || (bval a <? 32)%N then String (byte_of 92) ("x" +:+ hex2 a)
       else if byte_is 34 a || byte_is 92 a then String (byte_of 92) (String a "")
       else String a "") +:+ time_quote_bytes r
  end.
Definition time_quote (s : string) : string := quote1 +:+ time_quote_bytes s +:+ quote1.

(** ** The parser *)

Definition invalid_duration (orig : string) : string := "time: invalid duration " +:+ time_quote orig.

(** One number with its unit, in nanoseconds, and what follows. *)
Definition parse_component (orig s : string) : result (Z * string) :=
  match s with
  | EmptyString => Err (invalid_duration orig)
  | String c _ =>
      if negb (byte_is 46 c || is_digit c) then Err (invalid_duration orig)
      else match leadingInt 0 s with
      | None => Err (invalid_duration orig)
      | Some (v, s1) =>
          let pre := negb (str_eqb s s1) in
          let '(f, digits, s2, post) :=
            match s1 with
            | String p s1' =>
                if byte_is 46 p
                then let '(f, digits, s2) := leadingFraction 0 0 false s1' in (f, digits, s2, negb (str_eqb s1' s2))
                else (0, 0, s1, false)
            | EmptyString => (0, 0, s1, false)
            end in
          if negb pre && negb post then Err (invalid_duration orig)
          else
            let '(u, rest) := take_unit s2 in
            if is_empty u then Err ("time: missing unit in duration " +:+ time_quote orig)
            else match unit_ns u with
            | None => Err ("time: unknown unit " +:+ time_quote u +:+ " in duration " +:+ time_quote orig)
            | Some unit =>
                if 2 ^ 63 / unit <? v then Err (invalid_duration orig)
                else
                  let v := v * unit in
                  if 0 <? f then
                    let v := v + fraction_ns f unit digits in
                    if 2 ^ 63 <? v then Err (invalid_duration orig) else Ok (v, rest)
                  else Ok (v, rest)
            end
      end
  end.

(** The components; every one of them consumes a byte. *)
Fixpoint parse_components (fuel : nat) (orig s : string) (d : Z) : result Z :=
  match s with
  | EmptyString => Ok d
  | _ =>
      match fuel with
      | O => Err (invalid_duration orig)
      | S fuel =>
          let? vr := parse_component orig s in
          let '(v, rest) := vr in
          let d := d + v in
          if 2 ^ 63 <? d then Err (invalid_duration orig) else parse_components fuel orig rest d
      end
  end.

Definition ParseDuration (orig : string) : result Z :=
  let '(neg, s) := match orig with
                   | String c r => if byte_is 45 c then (true, r) else if byte_is 43 c then (false, r) else (false, orig)
                   | EmptyString => (false, orig)
                   end in
  if str_eqb s "0" then Ok 0
  else if str_eqb s "" then Err (invalid_duration orig)
  else
    let? d := parse_components (String.length s) orig s 0 in
    if neg then Ok (wrap64 (- d))
    else if 2 ^ 63 - 1 <? d then Err (invalid_duration orig)
    else Ok d.

Example parse_5m : ParseDuration "5m" = Ok 300000000000.
Proof. vm_compute. reflexivity. Qed.
Example parse_mixed : ParseDuration "-1h15m30.918273645s" = Ok (-4530918273645).
Proof. vm_compute. reflexivity. Qed.
Example parse_fraction : ParseDuration ".1us" = Ok 100 /\ ParseDuration "0.3333333333333333333h" = Ok 1200000000000.
Proof. split; vm_compute; reflexivity. Qed.
Example parse_nope : ParseDuration "nope" = Err (invalid_duration "nope").
Proof. vm_compute. reflexivity. Qed.
Example parse_limits :
  ParseDuration "9223372036854775807ns" = Ok int64_max /\
  ParseDuration "-9223372036854775808ns" = Ok int64_min /\
  is_ok (ParseDuration "9223372036854775808ns") = false.
Proof. split_and!; vm_compute; reflexivity. Qed.

(** ** The fuel is enough, and the result fits *)

Abbreviation tlen := String.length.

Lemma leadingInt_length x s v r : leadingInt x s = Some (v, r) -> (tlen r <= tlen s)%nat.
Proof.
  revert x. induction s as [|c s IH]; intros x; cbn [leadingInt]; [by intros [= _ <-]|].
  repeat case_match; try done; [|by intros [= _ <-]]. intros Hr%IH. cbn. lia.
Qed.

Lemma leadingFraction_length x k o s f k' r : leadingFraction x k o s = (f, k', r) -> (tlen r <= tlen s)%nat.
Proof.
  revert x k o. induction s as [|c s IH]; intros x k o; cbn [leadingFraction]; [by intros [= _ _ <-]|].
  repeat case_match; try (intros Hr%IH; cbn; lia). by intros [= _ _ <-].
Qed.

Lemma take_unit_length s u r : take_unit s = (u, r) -> (tlen s = tlen u + tlen r)%nat.
Proof.
  revert u. induction s as [|c s IH]; intros u; cbn [take_unit]; [by intros [= <- <-]|].
  case_match; [by intros [= <- <-]|]. destruct (take_unit s) as [u' r'] eqn:E. intros [= <- <-].
  cbn. by rewrite (IH u' eq_refl).
Qed.

Lemma parse_component_shorter orig s v r : parse_component orig s = Ok (v, r) -> (tlen r < tlen s)%nat.
Proof.
  unfold parse_component. destruct s as [|c s0] eqn:Es; [done|]. rewrite <- Es. clear Es.
  case_match; [done|]. destruct (leadingInt 0 s) as [[v0 s1]|] eqn:E1; [|done].
  apply leadingInt_length in E1.
  set (frac := match s1 with EmptyString => _ | String _ _ => _ end).
  assert (tlen (frac.1).2 <= tlen s1)%nat as Hf.
  { unfold frac. destruct s1 as [|p s1']; [done|]. destruct (byte_is 46 p); [|done].
    destruct (leadingFraction 0 0 false s1') as [[f d] s2] eqn:E2. apply leadingFraction_length in E2. cbn. lia. }
  clearbody frac. destruct frac as [[[f d] s2] post]. cbn in Hf.
  case_match; [done|]. destruct (take_unit s2) as [u rest] eqn:Eu. apply take_unit_length in Eu.
  destruct u as [|a u]; [done|]. cbn in Eu |- *.
  repeat case_match; try done; intros [= <- <-]; lia.
Qed.

(** More fuel than bytes never changes the answer. *)
Lemma parse_components_fuel n m orig s d :
  (tlen s <= n)%nat -> (tlen s <= m)%nat -> parse_components n orig s d = parse_components m orig s d.
Proof.
  revert m s d. induction n as [|n IH]; intros m s d Hn Hm; destruct s as [|c s];
    [by destruct m|cbn in Hn; lia|by destruct m|]; (destruct m as [|m]; [cbn in Hm; lia|]).
  cbn [parse_components]. destruct (parse_component orig (String c s)) as [[v r]|e] eqn:E; [|done]. cbn [rbind].
  apply parse_component_shorter in E. case_match; [done|]. cbn in *. apply IH; lia.
Qed.

Lemma leadingInt_nonneg x s v r : 0 <= x -> leadingInt x s = Some (v, r) -> 0 <= v.
Proof.
  revert x. induction s as [|c s IH]; intros x Hx; cbn [leadingInt]; [by intros [= <- _]|].
  repeat case_match; try done; [|by intros [= <- _]]. apply IH. lia.
Qed.

Lemma div_half_even_nonneg n d : 0 <= n -> 0 <= d -> 0 <= div_half_even n d.
Proof.
  intros Hn Hd. unfold div_half_even. pose proof (Z_div_nonneg_nonneg n d Hn Hd). repeat case_match; lia.
Qed.

Lemma scaled_by_nonneg n d e n' d' : 0 <= n -> 0 <= d -> scaled_by n d e = (n', d') -> 0 <= n' /\ 0 <= d'.
Proof.
  unfold scaled_by. intros Hn Hd. pose proof (Z.pow_nonneg 2 e ltac:(lia)). pose proof (Z.pow_nonneg 2 (- e) ltac:(lia)).
  case_match; intros [= <- <-]; nia.
Qed.

Lemma nearest64_nonneg m e10 a e : 0 <= m -> nearest64 m e10 = Some (a, e) -> 0 <= a.
Proof.
  unfold nearest64. intros Hm. destruct (m =? 0); [by intros [= <- _]|].
  case_match; [done|]. case_match; [by intros [= <- _]|].
  set (nd := if 0 <=? e10 then _ else _). assert (0 <= nd.1 /\ 0 <= nd.2) as [Hn Hd].
  { unfold nd. pose proof (Z.pow_nonneg 10 e10 ltac:(lia)). pose proof (Z.pow_nonneg 10 (- e10) ltac:(lia)).
    case_match; cbn [fst snd]; nia. }
  clearbody nd. destruct nd as [n d]. cbn [fst snd] in Hn, Hd.
  destruct (scaled_by n d _) as [n1 d1]. destruct (scaled_by n d _) as [n2 d2] eqn:E.
  apply scaled_by_nonneg in E as [Hn2 Hd2]; [|done..].
  pose proof (div_half_even_nonneg n2 d2 Hn2 Hd2) as Hq.
  generalize dependent (div_half_even n2 d2). intros q Hq.
  destruct (q =? 2 ^ 53); (destruct (971 <? _); [done|]); intros [= <- _]; done.
Qed.

Lemma fraction_ns_nonneg f unit digits : 0 <= f -> 0 <= unit -> 0 <= fraction_ns f unit digits.
Proof.
  intros Hf Hu. unfold fraction_ns. destruct (nearest64 f 0) as [[mf ef]|] eqn:E1; [|done].
  destruct (nearest64 unit (- digits)) as [[mq eq]|] eqn:E2; [|done].
  apply nearest64_nonneg in E1, E2; [|done..].
  assert (0 <= (round53 (mf * mq) (ef + eq)).1) as Hr.
  { unfold round53. case_match; cbn [fst]; [nia|].
    apply div_half_even_nonneg; [nia|]. apply Z.pow_nonneg. lia. }
  destruct (round53 (mf * mq) (ef + eq)) as [m e]. cbn [fst] in Hr. case_match.
  - apply Z.mul_nonneg_nonneg; [done|]. apply Z.pow_nonneg. lia.
  - apply Z_div_nonneg_nonneg; [done|]. apply Z.pow_nonneg. lia.
Qed.

Lemma parse_component_nonneg orig s v r : parse_component orig s = Ok (v, r) -> 0 <= v.
Proof.
  unfold parse_component. destruct s as [|c s0] eqn:Es; [done|]. rewrite <- Es. clear Es.
  case_match; [done|]. destruct (leadingInt 0 s) as [[v0 s1]|] eqn:E1; [|done].
  apply leadingInt_nonneg in E1; [|done].
  set (frac := match s1 with EmptyString => _ | String _ _ => _ end). clearbody frac.
  destruct frac as [[[f d] s2] post]. case_match; [done|]. destruct (take_unit s2) as [u rest].
  destruct (is_empty u); [done|]. destruct (unit_ns u) as [unit|] eqn:Eu; [|done].
  assert (0 <= unit) as Hu by (unfold unit_ns in Eu; repeat case_match; by simplify_eq).
  destruct (2 ^ 63 / unit <? v0); [done|]. destruct (Z.ltb_spec 0 f) as [Hf|Hf].
  - case_match; [done|]. intros [= <- _]. pose proof (fraction_ns_nonneg f unit d ltac:(lia) Hu). nia.
  - intros [= <- _]. nia.
Qed.

Lemma parse_components_nonneg n orig s d z : 0 <= d -> parse_components n orig s d = Ok z -> 0 <= z.
Proof.
  revert s d. induction n as [|n IH]; intros [|c s] d Hd; cbn [parse_components];
    [by intros [= <-]|done|by intros [= <-]|].
  destruct (parse_component orig (String c s)) as [[v r]|e] eqn:E; [|done]. cbn [rbind].
  apply parse_component_nonneg in E. case_match; [done|]. apply IH. lia.
Qed.

(** A parsed duration fits 64 bits. *)
Lemma ParseDuration_range s d : ParseDuration s = Ok d -> int64_min <= d <= int64_max.
Proof.
  unfold ParseDuration. set (ns := match s with EmptyString => _ | String _ _ => _ end). clearbody ns.
  destruct ns as [neg t]. case_match; [intros [= <-]; unfold int64_min, int64_max; lia|].
  case_match; [done|]. destruct (parse_components (tlen t) s t 0) as [z|e] eqn:E; [|done]. cbn [rbind].
  apply parse_components_nonneg in E; [|done]. destruct neg.
  - intros [= <-]. apply wrap64_range.
  - destruct (Z.ltb_spec (2 ^ 63 - 1) z); [done|]. intros [= <-]. unfold int64_min, int64_max. lia.
Qed.
