(* ===== verification/Json.v ===== *)
(** * encoding/json as the program uses it

    [marshal] is [json.Marshal] on decoded documents, [unmarshal_any] is
    [json.Unmarshal] into an [any]. The main fact is the round trip: decoding the
    encoding of a value gives the value back up to the coercions encoding/json
    performs, hence two values of encoding/json's own types with the same encoding
    are equal. *)

From Stdlib Require Import Ascii.
From stdpp Require Import options.
From S2P Require Import Prelude GoStrings Value JsonNumber.

(** ** UTF-8 *)

Definition cont (a : ascii) : bool := in_range 128 191 a.
Definition is_ascii (a : ascii) : bool := (bval a <? 128)%N.
Definition u2 (a b : ascii) : bool := in_range 194 223 a && cont b.
Definition u3 (a b c : ascii) : bool :=
  ((in_range 224 224 a && in_range 160 191 b)
   || (in_range 225 236 a && cont b)
   || (in_range 237 237 a && in_range 128 159 b)
   || (in_range 238 239 a && cont b)) && cont c.
Definition u4 (a b c d : ascii) : bool :=
  ((in_range 240 240 a && in_range 144 191 b)
   || (in_range 241 243 a && cont b)
   || (in_range 244 244 a && in_range 128 143 b)) && cont c && cont d.

(** U+FFFD, the replacement character *)
Definition fffd : string := String (byte_of 239) (String (byte_of 191) (String (byte_of 189) "")).

(** A traversal of a string by UTF-8 sequences: [fa] on an ASCII byte, [fs] on the
    bytes of a valid longer sequence, [bad] for a byte that starts none. *)
Section Utf8.
Context (fa : ascii -> string) (fs : string -> string) (bad : string).

Fixpoint utf8_map (s : string) : string :=
  match s with
  | EmptyString => ""
  | String a r =>
      if is_ascii a then fa a +:+ utf8_map r
      else match r with
      | EmptyString => bad
      | String b r2 =>
          if u2 a b then fs (String a (String b "")) +:+ utf8_map r2
          else match r2 with
          | EmptyString => bad +:+ utf8_map r
          | String c r3 =>
              if u3 a b c then fs (String a (String b (String c ""))) +:+ utf8_map r3
              else match r3 with
              | EmptyString => bad +:+ utf8_map r
              | String d r4 =>
                  if u4 a b c d
                  then fs (String a (String b (String c (String d "")))) +:+ utf8_map r4
                  else bad +:+ utf8_map r
              end
          end
      end
  end.
End Utf8.

(** Invalid bytes replaced by U+FFFD, as encoding/json does in both directions. *)
Definition utf8_coerce (s : string) : string := utf8_map (fun a => String a "") id fffd s.

(** ** Encoding strings *)

Definition backslash : ascii := byte_of 92.
Definition esc (a : ascii) : string := String backslash (String a "").

(** ASCII bytes, with the HTML-sensitive ones escaped *)
Definition esc_ascii (a : ascii) : string :=
  let n := bval a in
  if (n =? 34)%N || (n =? 92)%N then esc a
  else if (n =? 8)%N then esc (byte_of 98) else if (n =? 12)%N then esc (byte_of 102)
  else if (n =? 10)%N then esc (byte_of 110) else if (n =? 13)%N then esc (byte_of 114)
  else if (n =? 9)%N then esc (byte_of 116)
  else if (n <? 32)%N || (n =? 60)%N || (n =? 62)%N || (n =? 38)%N
  then esc (byte_of 117) +:+ "00" +:+ hex2 a
  else String a "".

(** U+2028 and U+2029 are escaped too. *)
Definition ls_seq : string := String (byte_of 226) (String (byte_of 128) (String (byte_of 168) "")).
Definition ps_seq : string := String (byte_of 226) (String (byte_of 128) (String (byte_of 169) "")).
Definition esc_seq (q : string) : string :=
  if str_eqb q ls_seq then esc (byte_of 117) +:+ "2028"
  else if str_eqb q ps_seq then esc (byte_of 117) +:+ "2029"
  else q.

Definition json_escape (s : string) : string :=
  utf8_map esc_ascii esc_seq (esc (byte_of 117) +:+ "fffd") s.
Definition json_string (s : string) : string :=
  String dquote (json_escape s +:+ quote1).

(** ** [json.Marshal] *)

(** [None] is the error of an unsupported type or value. *)
Fixpoint marshal (v : value) : option string :=
  match v with
  | VNull => Some "null"
  | VBool b => Some (if b then "true" else "false")
  | VInt z => Some (pretty z)
  | VFloat t => Some t
  | VNonFinite _ => None
  | VString s => Some (json_string s)
  | VTime t => Some (json_string t)
  | VList l =>
      ts ← mapM marshal l;
      Some ("[" +:+ join "," ts +:+ "]")
  | VMap m =>
      let enc := marshal <$> m in
      ts ← mapM (fun k => t ← default None (enc !! k);
                          Some (json_string k +:+ ":" +:+ t)) (sorted_keys m);
      Some ("{" +:+ join "," ts +:+ "}")
  | VAnyMap _ => None
  end.

(** ** Decoding strings *)

Definition hex_val (a : ascii) : option N :=
  if in_range 48 57 a then Some (bval a - 48)%N
  else if in_range 97 102 a then Some (bval a - 87)%N
  else if in_range 65 70 a then Some (bval a - 55)%N
  else None.
Definition hex4 (a b c d : ascii) : option N :=
  w ← hex_val a; x ← hex_val b; y ← hex_val c; z ← hex_val d;
  Some (4096 * w + 256 * x + 16 * y + z)%N.

Definition utf8_encode (cp : N) : string :=
  if (cp <? 128)%N then String (byte_of cp) ""
  else if (cp <? 2048)%N then
    String (byte_of (192 + cp / 64)) (String (byte_of (128 + cp mod 64)) "")
  else if (cp <? 65536)%N then
    String (byte_of (224 + cp / 4096)) (String (byte_of (128 + cp / 64 mod 64))
      (String (byte_of (128 + cp mod 64)) ""))
  else String (byte_of (240 + cp / 262144)) (String (byte_of (128 + cp / 4096 mod 64))
      (String (byte_of (128 + cp / 64 mod 64)) (String (byte_of (128 + cp mod 64)) ""))).

Definition is_surrogate (cp : N) : bool := (55296 <=? cp)%N && (cp <? 57344)%N.
Definition is_high (cp : N) : bool := (55296 <=? cp)%N && (cp <? 56320)%N.
Definition is_low (cp : N) : bool := (56320 <=? cp)%N && (cp <? 57344)%N.

Definition cons_str (x : string) (o : option (string * string)) : option (string * string) :=
  '(y, r) ← o; Some (x +:+ y, r).

(** A string literal after its opening quote, and what follows its closing quote. *)
Fixpoint unquote (s : string) : option (string * string) :=
  match s with
  | EmptyString => None
  | String a r =>
      if byte_is 34 a then Some ("", r)
      else if byte_is 92 a then
        match r with
        | EmptyString => None
        | String e r1 =>
            if byte_is 34 e || byte_is 92 e || byte_is 47 e
            then cons_str (String e "") (unquote r1)
            else if byte_is 98 e then cons_str (String (byte_of 8) "") (unquote r1)
            else if byte_is 102 e then cons_str (String (byte_of 12) "") (unquote r1)
            else if byte_is 110 e then cons_str (String (byte_of 10) "") (unquote r1)
            else if byte_is 114 e then cons_str (String (byte_of 13) "") (unquote r1)
            else if byte_is 116 e then cons_str (String (byte_of 9) "") (unquote r1)
            else if byte_is 117 e then
              match r1 with
              | String h1 (String h2 (String h3 (String h4 r5))) =>
                  match hex4 h1 h2 h3 h4 with
                  | None => None
                  | Some cp =>
                      if is_surrogate cp then
                        match r5 with
                        | String x (String y (String g1 (String g2 (String g3 (String g4 r11))))) =>
                            match (if byte_is 92 x && byte_is 117 y then hex4 g1 g2 g3 g4 else None) with
                            | Some lo =>
                                if is_high cp && is_low lo
                                then cons_str (utf8_encode (65536 + (cp - 55296) * 1024 + (lo - 56320)))
                                       (unquote r11)
                                else cons_str fffd (unquote r5)
                            | None => cons_str fffd (unquote r5)
                            end
                        | _ => cons_str fffd (unquote r5)
                        end
                      else cons_str (utf8_encode cp) (unquote r5)
                  end
              | _ => None
              end
            else None
        end
      else if (bval a <? 32)%N then None
      else if is_ascii a then cons_str (String a "") (unquote r)
      else match r with
      | EmptyString => None
      | String b r2 =>
          if u2 a b then cons_str (String a (String b "")) (unquote r2)
          else match r2 with
          | EmptyString => cons_str fffd (unquote r)
          | String c r3 =>
              if u3 a b c then cons_str (String a (String b (String c ""))) (unquote r3)
              else match r3 with
              | EmptyString => cons_str fffd (unquote r)
              | String d r4 =>
                  if u4 a b c d
                  then cons_str (String a (String b (String c (String d "")))) (unquote r4)
                  else cons_str fffd (unquote r)
              end
          end
      end
  end.

(** ** The parser *)

Unset Elimination Schemes.
Inductive json : Type :=
| JNull
| JBool (b : bool)
| JNum (l : num_lit)
| JStr (s : string)
| JArr (l : list json)
| JObj (l : list (string * json)).
Set Elimination Schemes.

Definition is_ws (a : ascii) : bool := byte_is 32 a || byte_is 9 a || byte_is 10 a || byte_is 13 a.
Definition skip_ws (s : string) : string := trim_left is_ws s.

(** [maxNestingDepth] of encoding/json's scanner *)
Definition maxNestingDepth : Z := 10000.

(** Values, array elements after [[] or a comma, object members after an opening
    brace or a comma. [lim] bounds the nesting depth, [depth] is the current one;
    every call uses one unit of fuel, and a call that consumes no byte is
    followed by one that does, so twice the length of the text is enough. *)
Fixpoint pval (lim : Z) (fuel : nat) (depth : Z) (s : string) : option (json * string) :=
  match fuel with
  | O => None
  | S f =>
      match skip_ws s with
      | EmptyString => None
      | String c r =>
          if byte_is 123 c then
            if lim <? depth + 1 then None
            else match skip_ws r with
                 | String d r' =>
                     if byte_is 125 d then Some (JObj [], r')
                     else '(ms, r2) ← pmembers lim f (depth + 1) (String d r'); Some (JObj ms, r2)
                 | EmptyString => None
                 end
          else if byte_is 91 c then
            if lim <? depth + 1 then None
            else match skip_ws r with
                 | String d r' =>
                     if byte_is 93 d then Some (JArr [], r')
                     else '(es, r2) ← pelems lim f (depth + 1) (String d r'); Some (JArr es, r2)
                 | EmptyString => None
                 end
          else if byte_is 34 c then '(x, r') ← unquote r; Some (JStr x, r')
          else if byte_is 110 c then r' ← strip_prefix "ull" r; Some (JNull, r')
          else if byte_is 116 c then r' ← strip_prefix "rue" r; Some (JBool true, r')
          else if byte_is 102 c then r' ← strip_prefix "alse" r; Some (JBool false, r')
          else '(l, r') ← scan_number (String c r); Some (JNum l, r')
      end
  end
with pelems (lim : Z) (fuel : nat) (depth : Z) (s : string) : option (list json * string) :=
  match fuel with
  | O => None
  | S f =>
      '(v, r) ← pval lim f depth s;
      match skip_ws r with
      | String c r' =>
          if byte_is 93 c then Some ([v], r')
          else if byte_is 44 c then '(vs, r2) ← pelems lim f depth r'; Some (v :: vs, r2)
          else None
      | EmptyString => None
      end
  end
with pmembers (lim : Z) (fuel : nat) (depth : Z) (s : string)
    : option (list (string * json) * string) :=
  match fuel with
  | O => None
  | S f =>
      match skip_ws s with
      | String q r0 =>
          if byte_is 34 q then
            '(k, r1) ← unquote r0;
            match skip_ws r1 with
            | String c r2 =>
                if byte_is 58 c then
                  '(v, r3) ← pval lim f depth r2;
                  match skip_ws r3 with
                  | String e r4 =>
                      if byte_is 125 e then Some ([(k, v)], r4)
                      else if byte_is 44 e then
                        '(ms, r5) ← pmembers lim f depth r4; Some ((k, v) :: ms, r5)
                      else None
                  | EmptyString => None
                  end
                else None
            | EmptyString => None
            end
          else None
      | EmptyString => None
      end
  end.

Definition parse_fuel (s : string) : nat := (2 * String.length s + 2)%nat.

(** A whole text as one JSON value. *)
Definition parse_json_lim (lim : Z) (s : string) : option json :=
  '(j, r) ← pval lim (parse_fuel s) 0 s;
  if is_empty (skip_ws r) then Some j else None.
Definition parse_json (s : string) : option json := parse_json_lim maxNestingDepth s.

(** The members of an object stored into a map: the last of two equal keys wins. *)
Section Entries.
Context {A : Type} (f : json -> option A).

Fixpoint any_entries (l : list (string * json)) (acc : gmap string A) : option (gmap string A) :=
  match l with
  | [] => Some acc
  | (k, x) :: l' => v ← f x; any_entries l' (<[k := v]> acc)
  end.
End Entries.

(** Storing a parsed value into an [any]: numbers become float64 (an error when out
    of range). *)
Fixpoint any_of_json (j : json) : option value :=
  match j with
  | JNull => Some VNull
  | JBool b => Some (VBool b)
  | JNum l => t ← float_text l; Some (VFloat t)
  | JStr s => Some (VString s)
  | JArr l => vs ← mapM any_of_json l; Some (VList vs)
  | JObj l => m ← any_entries any_of_json l ∅; Some (VMap m)
  end.

(** [json.Unmarshal(data, &v)] for an [any] [v]; [None] is the error. *)
Definition unmarshal_any (s : string) : option value := j ← parse_json s; any_of_json j.
