(* ===== verification/JsonFacts.v ===== *)
(** * encoding/json: the round trip and what follows from it *)

From Stdlib Require Import Ascii.
From stdpp Require Import options.
From S2P Require Import Prelude GoStrings Value JsonNumber Json.

(** ** Predicates on whole values *)

(** A test on every node of a value and on every map key. *)
Fixpoint vforall (P : value -> bool) (K : string -> bool) (v : value) : bool :=
  P v && match v with
         | VList l => forallb (vforall P K) l
         | VMap m => map_fold (fun k x b => K k && vforall P K x && b) true m
         | _ => true
         end.

Lemma map_fold_andb {A} (f : string -> A -> bool) (m : gmap string A) :
  map_fold (fun k x b => f k x && b) true m = true <-> forall k x, m !! k = Some x -> f k x = true.
Proof.
  apply (map_fold_weak_ind (fun b m => b = true <-> forall k x, m !! k = Some x -> f k x = true)).
  - split; [|done]. intros _ k x Hk. by rewrite lookup_empty in Hk.
  - intros i x m' b Hi IH. rewrite andb_true_iff, IH. split.
    + intros [Hx Hm] k y. rewrite lookup_insert. case_decide; [by intros; simplify_eq|apply Hm].
    + intros H. split; [apply H; by rewrite lookup_insert_eq|].
      intros k y Hk. apply H. rewrite lookup_insert_ne; [done|]. congruence.
Qed.

Lemma vforall_list P K l :
  vforall P K (VList l) = true <->
  P (VList l) = true /\ forall x, x ∈ l -> vforall P K x = true.
Proof.
  cbn [vforall]. rewrite andb_true_iff, forallb_forall. split; intros [? H]; split; try done;
    intros x Hx; apply H; by apply list_elem_of_In.
Qed.

Lemma vforall_map P K m :
  vforall P K (VMap m) = true <->
  P (VMap m) = true /\ forall k x, m !! k = Some x -> K k = true /\ vforall P K x = true.
Proof.
  cbn [vforall]. rewrite andb_true_iff.
  rewrite (map_fold_andb (fun k x => K k && vforall P K x) m). setoid_rewrite andb_true_iff. done.
Qed.

(** Nesting depth. *)
Fixpoint vdepth (v : value) : Z :=
  match v with
  | VList l => 1 + foldr (fun x n => Z.max (vdepth x) n) 0 l
  | VMap m => 1 + map_fold (fun _ x n => Z.max (vdepth x) n) 0 m
  | _ => 0
  end.

Lemma vdepth_list_elem l x : x ∈ l -> 1 + vdepth x <= vdepth (VList l).
Proof.
  cbn [vdepth]. induction l as [|y l IH]; [by intros ?%elem_of_nil|].
  intros [->|Hin]%elem_of_cons; cbn [foldr]; [lia|]. specialize (IH Hin). lia.
Qed.

Lemma vdepth_map_elem m k x : m !! k = Some x -> 1 + vdepth x <= vdepth (VMap m).
Proof.
  cbn [vdepth]. intros Hk.
  enough (vdepth x <= map_fold (fun _ x n => Z.max (vdepth x) n) 0 m) by lia.
  revert k x Hk.
  apply (map_fold_weak_ind (fun r m => forall k x, m !! k = Some x -> vdepth x <= r)).
  - intros k x Hk. by rewrite lookup_empty in Hk.
  - intros i y m' r Hi IH k x. rewrite lookup_insert. case_decide; simplify_eq.
    + intros ?; simplify_eq. lia.
    + intros Hk. specialize (IH _ _ Hk). lia.
Qed.

Lemma vdepth_nonneg v : 0 <= vdepth v.
Proof.
  destruct v as [ | | | | | | | l | m | ]; cbn [vdepth]; try lia.
  - induction l; cbn [foldr]; lia.
  - enough (0 <= map_fold (fun _ x n => Z.max (vdepth x) n) 0 m) by lia.
    apply (map_fold_weak_ind (fun r _ => 0 <= r)); intros; lia.
Qed.

(** Floats carry a number token. *)
Definition num_token (v : value) : bool :=
  match v with
  | VFloat t => match scan_number t with Some (_, EmptyString) => true | _ => false end
  | _ => true
  end.
Definition num_wf (v : value) : bool := vforall num_token (fun _ => true) v.

(** Values made of the types encoding/json itself decodes into: canonical floats,
    valid UTF-8, no Go types that only YAML produces. *)
Definition valid_utf8 (s : string) : bool := str_eqb (utf8_coerce s) s.
Definition native_node (v : value) : bool :=
  match v with
  | VInt _ | VNonFinite _ | VTime _ | VAnyMap _ => false
  | VFloat t => bool_decide (canon_number t = Some t)
  | VString s => valid_utf8 s
  | _ => true
  end.
Definition native (v : value) : bool := vforall native_node valid_utf8 v.

(** The JSON value a document is printed as. *)
Definition lit_text (t : string) : num_lit :=
  match scan_number t with Some (l, _) => l | None => NumLit false "0" "" false "" end.
Fixpoint json_of (v : value) : json :=
  match v with
  | VBool b => JBool b
  | VInt z => JNum (lit_text (pretty z))
  | VFloat t => JNum (lit_text t)
  | VString s | VTime s => JStr (utf8_coerce s)
  | VList l => JArr (json_of <$> l)
  | VMap m =>
      let js := json_of <$> m in
      JObj ((fun k => (utf8_coerce k, default JNull (js !! k))) <$> sorted_keys m)
  | _ => JNull
  end.

(** ** Strings *)

Lemma unquote_ascii a t :
  is_ascii a = true -> unquote (esc_ascii a +:+ t) = cons_str (String a "") (unquote t).
Proof.
  destruct a as [[] [] [] [] [] [] [] []]; intros H; try discriminate H; reflexivity.
Qed.

Lemma unquote_bad t :
  unquote ((esc (byte_of 117) +:+ "fffd") +:+ t) = cons_str fffd (unquote t).
Proof. reflexivity. Qed.

Lemma not_ascii_plain a :
  is_ascii a = false ->
  byte_is 34 a = false /\ byte_is 92 a = false /\ (bval a <? 32)%N = false.
Proof.
  unfold is_ascii, byte_is. intros H%N.ltb_ge.
  rewrite !N.eqb_neq, N.ltb_ge. lia.
Qed.

Lemma unquote_seq2 a b t :
  is_ascii a = false -> u2 a b = true ->
  unquote (esc_seq (String a (String b "")) +:+ t) = cons_str (String a (String b "")) (unquote t).
Proof.
  intros Ha H2. destruct (not_ascii_plain a Ha) as (E1 & E2 & E3).
  unfold esc_seq. destruct (str_eqb _ ls_seq) eqn:El; [by apply str_eqb_eq in El|].
  destruct (str_eqb _ ps_seq) eqn:Ep; [by apply str_eqb_eq in Ep|].
  cbn [String.append unquote]. by rewrite E1, E2, E3, Ha, H2.
Qed.

Lemma unquote_seq3 a b c t :
  is_ascii a = false -> u2 a b = false -> u3 a b c = true ->
  unquote (esc_seq (String a (String b (String c ""))) +:+ t)
  = cons_str (String a (String b (String c ""))) (unquote t).
Proof.
  intros Ha H2 H3. destruct (not_ascii_plain a Ha) as (E1 & E2 & E3).
  unfold esc_seq. destruct (str_eqb _ ls_seq) eqn:El.
  { apply str_eqb_eq in El. injection El as -> -> ->. reflexivity. }
  destruct (str_eqb _ ps_seq) eqn:Ep.
  { apply str_eqb_eq in Ep. injection Ep as -> -> ->. reflexivity. }
  cbn [String.append unquote]. by rewrite E1, E2, E3, Ha, H2, H3.
Qed.

Lemma unquote_seq4 a b c d t :
  is_ascii a = false -> u2 a b = false -> u3 a b c = false -> u4 a b c d = true ->
  unquote (esc_seq (String a (String b (String c (String d "")))) +:+ t)
  = cons_str (String a (String b (String c (String d "")))) (unquote t).
Proof.
  intros Ha H2 H3 H4. destruct (not_ascii_plain a Ha) as (E1 & E2 & E3).
  unfold esc_seq. destruct (str_eqb _ ls_seq) eqn:El; [by apply str_eqb_eq in El|].
  destruct (str_eqb _ ps_seq) eqn:Ep; [by apply str_eqb_eq in Ep|].
  cbn [String.append unquote]. by rewrite E1, E2, E3, Ha, H2, H3, H4.
Qed.

(** No valid sequence of two to four bytes starts with this byte. *)
Definition bad_start (a : ascii) (r : string) : bool :=
  match r with
  | String b (String c (String d _)) => negb (u2 a b || u3 a b c || u4 a b c d)
  | String b (String c _) => negb (u2 a b || u3 a b c)
  | String b _ => negb (u2 a b)
  | EmptyString => true
  end.

Lemma utf8_ind (P : string -> Prop) :
  P "" ->
  (forall a r, is_ascii a = true -> P r -> P (String a r)) ->
  (forall a b r, is_ascii a = false -> u2 a b = true -> P r -> P (String a (String b r))) ->
  (forall a b c r, is_ascii a = false -> u2 a b = false -> u3 a b c = true -> P r ->
     P (String a (String b (String c r)))) ->
  (forall a b c d r, is_ascii a = false -> u2 a b = false -> u3 a b c = false ->
     u4 a b c d = true -> P r -> P (String a (String b (String c (String d r))))) ->
  (forall a r, is_ascii a = false -> bad_start a r = true -> P r -> P (String a r)) ->
  forall s, P s.
Proof.
  intros H0 H1 H2 H3 H4 Hbad.
  assert (forall n s, (String.length s < n)%nat -> P s) as H;
    [|intros s; by apply (H (S (String.length s))); lia].
  induction n as [|n IH]; [lia|]. intros [|a r] Hn; [done|]. cbn [String.length] in Hn.
  destruct (is_ascii a) eqn:Ea; [apply H1; [done|apply IH; lia]|].
  destruct (bad_start a r) eqn:Eb; [apply Hbad; [done..|apply IH; lia]|].
  destruct r as [|b r]; [done|]. cbn [String.length] in Hn.
  destruct (u2 a b) eqn:E2; [apply H2; [done..|apply IH; lia]|].
  destruct r as [|c r]; [cbn in Eb; by rewrite E2 in Eb|]. cbn [String.length] in Hn.
  destruct (u3 a b c) eqn:E3; [apply H3; [done..|apply IH; lia]|].
  destruct r as [|d r]; [cbn in Eb; by rewrite E2, E3 in Eb|]. cbn [String.length] in Hn.
  apply H4; try done; [|apply IH; lia]. cbn in Eb. rewrite E2, E3 in Eb.
  by destruct (u4 a b c d).
Qed.

Section Utf8MapEqs.
Context (fa : ascii -> string) (fs : string -> string) (bad : string).
Abbreviation um := (utf8_map fa fs bad).

Lemma utf8_map_ascii a r : is_ascii a = true -> um (String a r) = fa a +:+ um r.
Proof. intros H. cbn. by rewrite H. Qed.

Lemma utf8_map_seq2 a b r :
  is_ascii a = false -> u2 a b = true ->
  um (String a (String b r)) = fs (String a (String b "")) +:+ um r.
Proof. intros H H2. cbn. by rewrite H, H2. Qed.

Lemma utf8_map_seq3 a b c r :
  is_ascii a = false -> u2 a b = false -> u3 a b c = true ->
  um (String a (String b (String c r))) = fs (String a (String b (String c ""))) +:+ um r.
Proof. intros H H2 H3. cbn. by rewrite H, H2, H3. Qed.

Lemma utf8_map_seq4 a b c d r :
  is_ascii a = false -> u2 a b = false -> u3 a b c = false -> u4 a b c d = true ->
  um (String a (String b (String c (String d r))))
  = fs (String a (String b (String c (String d "")))) +:+ um r.
Proof. intros H H2 H3 H4. cbn. by rewrite H, H2, H3, H4. Qed.

Lemma utf8_map_bad a r :
  is_ascii a = false -> bad_start a r = true -> um (String a r) = bad +:+ um r.
Proof.
  intros H Hb. destruct r as [|b [|c [|d r]]]; cbn [bad_start] in Hb;
    rewrite ?negb_true_iff, ?orb_false_iff in Hb; destruct_and?;
    cbn [utf8_map]; rewrite H;
    repeat match goal with E : u2 _ _ = false |- _ => rewrite E; clear E
           | E : u3 _ _ _ = false |- _ => rewrite E; clear E
           | E : u4 _ _ _ _ = false |- _ => rewrite E; clear E end;
    rewrite ?string_app_nil_r; done.
Qed.
End Utf8MapEqs.

(** Decoding an encoded string gives it back with its invalid bytes replaced. *)
Lemma unquote_escape s r :
  unquote (json_escape s +:+ String dquote r) = Some (utf8_coerce s, r).
Proof.
  unfold json_escape, utf8_coerce. induction s using utf8_ind; [done|..].
  - by rewrite !utf8_map_ascii, string_app_assoc, unquote_ascii, IHs by done.
  - by rewrite !utf8_map_seq2, string_app_assoc, unquote_seq2, IHs by done.
  - by rewrite !utf8_map_seq3, string_app_assoc, unquote_seq3, IHs by done.
  - by rewrite !utf8_map_seq4, string_app_assoc, unquote_seq4, IHs by done.
  - by rewrite !utf8_map_bad, string_app_assoc, unquote_bad, IHs by done.
Qed.

(** The coerced string is valid. *)
Lemma utf8_coerce_valid s : valid_utf8 (utf8_coerce s) = true.
Proof.
  apply str_eqb_eq. unfold utf8_coerce. induction s using utf8_ind; [done|..].
  - rewrite (utf8_map_ascii _ _ _ a s) by done. cbn [String.append].
    by rewrite utf8_map_ascii, IHs.
  - rewrite (utf8_map_seq2 _ _ _ a b s) by done. change (id (String a (String b ""))) with (String a (String b "")). cbn [String.append].
    by rewrite utf8_map_seq2, IHs.
  - rewrite (utf8_map_seq3 _ _ _ a b c s) by done. change (id (String a (String b (String c "")))) with (String a (String b (String c ""))). cbn [String.append].
    by rewrite utf8_map_seq3, IHs.
  - rewrite (utf8_map_seq4 _ _ _ a b c d s) by done. change (id (String a (String b (String c (String d ""))))) with (String a (String b (String c (String d "")))). cbn [String.append].
    by rewrite utf8_map_seq4, IHs.
  - rewrite (utf8_map_bad _ _ _ a s) by done. unfold fffd at 2. cbn [String.append].
    rewrite utf8_map_seq3 by done. by rewrite IHs.
Qed.

(** ** The parser on printed values *)

(** A printed value starts with a byte that is neither white space nor a closing
    bracket. *)
Definition val_head (t : string) : Prop :=
  exists c t', t = String c t' /\ is_ws c = false /\ byte_is 93 c = false /\ byte_is 125 c = false.

(** [t] is the text of [v] for the parser, whatever follows. *)
Definition parses_as (v : value) (t : string) : Prop :=
  val_head t /\
  forall lim fuel depth r,
    num_stop r -> (2 * String.length t <= fuel)%nat -> depth + vdepth v <= lim ->
    pval lim fuel depth (t +:+ r) = Some (json_of v, r).

Lemma val_head_length t : val_head t -> (1 <= String.length t)%nat.
Proof. intros (c & t' & -> & _). cbn. lia. Qed.

Lemma skip_ws_head c r : is_ws c = false -> skip_ws (String c r) = String c r.
Proof. intros H. unfold skip_ws. cbn. by rewrite H. Qed.

Lemma fuel_S (n fuel : nat) : (n <= fuel)%nat -> (1 <= n)%nat -> exists f, fuel = S f.
Proof. destruct fuel; [lia|eauto]. Qed.

Lemma Forall2_impl_elem {A B} (P Q : A -> B -> Prop) l k :
  Forall2 P l k -> (forall x y, x ∈ l -> P x y -> Q x y) -> Forall2 Q l k.
Proof.
  induction 1 as [|x y l k Hxy H IH]; intros HPQ; constructor.
  - apply HPQ; [left|done].
  - apply IH. intros. apply HPQ; [by right|done].
Qed.

(** *** Scalars *)

Lemma number_head t l :
  scan_number t = Some (l, "") ->
  exists c t', t = String c t' /\
    (byte_is 45 c = true \/ is_digit c = true).
Proof.
  destruct t as [|c t]; [done|]. intros H. exists c, t. split; [done|].
  unfold scan_number in H. destruct (byte_is 45 c) eqn:E; [by left|right].
  unfold scan_unsigned, scan_int in H. destruct (byte_is 48 c) eqn:E0.
  - unfold byte_is in E0. apply N.eqb_eq in E0. unfold is_digit, in_range. by rewrite E0.
  - by destruct (is_digit c).
Qed.

Lemma number_head_bytes c :
  byte_is 45 c = true \/ is_digit c = true ->
  is_ws c = false /\ byte_is 123 c = false /\ byte_is 91 c = false /\ byte_is 34 c = false /\
  byte_is 110 c = false /\ byte_is 116 c = false /\ byte_is 102 c = false /\
  byte_is 93 c = false /\ byte_is 125 c = false.
Proof.
  unfold is_ws, is_digit, in_range, byte_is. intros H.
  assert (45 <= bval c <= 57)%N as Hr.
  { destruct H as [H%N.eqb_eq|[H1%N.leb_le H2%N.leb_le]%andb_true_iff]; lia. }
  rewrite !orb_false_iff, !N.eqb_neq. lia.
Qed.

Lemma parses_number v t :
  (exists l, scan_number t = Some (l, "")) -> json_of v = JNum (lit_text t) -> parses_as v t.
Proof.
  intros [l Hl] Hj. destruct (number_head _ _ Hl) as (c & t' & -> & Hc).
  apply number_head_bytes in Hc as (E1 & E2 & E3 & E4 & E5 & E6 & E7 & E8 & E9).
  split; [by exists c, t'|]. intros lim fuel depth r Hr Hfuel _.
  destruct (fuel_S _ _ Hfuel ltac:(cbn; lia)) as [f ->].
  cbn [String.append pval]. rewrite skip_ws_head by done. rewrite E2, E3, E4, E5, E6, E7.
  pose proof (scan_number_app _ _ _ _ Hr Hl) as Hs. cbn [String.append] in Hs. rewrite Hs. cbn.
  rewrite Hj. unfold lit_text. by rewrite Hl.
Qed.

Lemma parses_string v s : json_of v = JStr (utf8_coerce s) -> parses_as v (json_string s).
Proof.
  intros Hj. split; [by exists dquote, (json_escape s +:+ quote1)|].
  intros lim fuel depth r _ Hfuel _.
  destruct (fuel_S _ _ Hfuel ltac:(cbn; lia)) as [f ->].
  unfold json_string. cbn [String.append pval]. rewrite skip_ws_head by done. cbn [byte_is bval].
  change (byte_is 123 dquote) with false. change (byte_is 91 dquote) with false.
  change (byte_is 34 dquote) with true. cbv iota.
  rewrite string_app_assoc. unfold quote1. cbn [String.append].
  rewrite unquote_escape. cbn. by rewrite Hj.
Qed.

(** *** Arrays *)

Lemma join_one sep t : join sep [t] = t.
Proof. done. Qed.

Lemma join_comma_cons t ts :
  ts <> [] -> join "," (t :: ts) = t +:+ "," +:+ join "," ts.
Proof. by destruct ts. Qed.

Lemma pelems_join lim depth l ts :
  Forall2 parses_as l ts -> l <> [] ->
  (forall x, x ∈ l -> depth + vdepth x <= lim) ->
  forall fuel r, (2 * String.length (join "," ts) + 1 <= fuel)%nat ->
  pelems lim fuel depth (join "," ts +:+ "]" +:+ r) = Some (json_of <$> l, r).
Proof.
  intros H. induction H as [|v t l ts [Hhead Hv] Hrest IH]; [done|].
  intros _ Hdep fuel r Hfuel. destruct (fuel_S _ _ Hfuel ltac:(lia)) as [f ->].
  assert (depth + vdepth v <= lim) as Hd by (apply Hdep; left).
  cbn [pelems]. destruct Hrest as [|v' t' l ts Hv' Hrest].
  - rewrite join_one in Hfuel |- *.
    rewrite (Hv lim f depth ("]" +:+ r)) by (done || lia). cbn. done.
  - rewrite join_comma_cons in Hfuel |- * by done.
    rewrite !string_length_app in Hfuel. cbn [String.length] in Hfuel.
    rewrite !string_app_assoc.
    rewrite (Hv lim f depth) by (done || lia). cbn [mbind option_bind].
    change ("," +:+ ?x) with (String (byte_of 44) x).
    rewrite skip_ws_head by done.
    change (byte_is 93 (byte_of 44)) with false. change (byte_is 44 (byte_of 44)) with true.
    cbv iota. rewrite IH; [done|done| |lia].
    intros x Hx. apply Hdep. by right.
Qed.

Lemma parses_list l ts :
  Forall2 parses_as l ts -> parses_as (VList l) ("[" +:+ join "," ts +:+ "]").
Proof.
  intros H. split; [by exists (byte_of 91), (join "," ts +:+ "]")|].
  intros lim fuel depth r _ Hfuel Hdep.
  assert (depth + 1 <= lim) as Hlim.
  { cbn [vdepth] in Hdep. enough (0 <= foldr (fun x n => Z.max (vdepth x) n) 0 l) by lia.
    clear. induction l; cbn [foldr]; lia. }
  change ("[" +:+ ?x) with (String (byte_of 91) x) in *. cbn [String.length] in Hfuel.
  rewrite string_length_app in Hfuel. cbn [String.length] in Hfuel.
  destruct (fuel_S _ _ Hfuel ltac:(lia)) as [f ->]. cbn [String.append pval].
  rewrite skip_ws_head by done.
  change (byte_is 123 (byte_of 91)) with false. change (byte_is 91 (byte_of 91)) with true.
  cbv iota. rewrite (proj2 (Z.ltb_ge lim (depth + 1))) by done.
  rewrite string_app_assoc.
  pose proof H as Hall. destruct H as [|v t l ts Hv Hrest]; [done|].
  assert (val_head (join "," (t :: ts))) as (c & t' & Ht & Hc1 & Hc2 & _).
  { destruct Hv as [(c & t' & -> & Hc) _]. destruct ts; [by exists c, t'|].
    rewrite join_comma_cons by done. by eexists c, _. }
  rewrite Ht. cbn [String.append]. rewrite skip_ws_head, Hc2 by done.
  change (String c (t' +:+ ?x)) with (String c t' +:+ x). rewrite <- Ht.
  pose proof (pelems_join lim (depth + 1) (v :: l) (t :: ts) Hall) as Hel.
  cbn [String.append] in Hel |- *. rewrite Hel; [done|done| |lia].
  intros x Hx. apply vdepth_list_elem in Hx. lia.
Qed.

(** *** Objects *)

Definition member_as (kv : string * value) (u : string) : Prop :=
  exists t, u = json_string kv.1 +:+ ":" +:+ t /\ parses_as kv.2 t.

Lemma pmembers_join lim depth ms us :
  Forall2 member_as ms us -> ms <> [] ->
  (forall kv, kv ∈ ms -> depth + vdepth kv.2 <= lim) ->
  forall fuel r, (2 * String.length (join "," us) + 1 <= fuel)%nat ->
  pmembers lim fuel depth (join "," us +:+ "}" +:+ r)
  = Some ((fun kv => (utf8_coerce kv.1, json_of kv.2)) <$> ms, r).
Proof.
  intros H. induction H as [|[k v] u ms us (t & -> & Hhead & Hv) Hrest IH]; [done|].
  intros _ Hdep fuel r Hfuel. destruct (fuel_S _ _ Hfuel ltac:(lia)) as [f ->].
  assert (depth + vdepth v <= lim) as Hd by (apply (Hdep (k, v)); left). cbn [fst snd] in *.
  assert (forall rest, (2 * String.length t <= f)%nat -> num_stop rest ->
    pmembers lim (S f) depth ((json_string k +:+ ":" +:+ t) +:+ rest) =
    match skip_ws rest with
    | String e r4 =>
        if byte_is 125 e then Some ([(utf8_coerce k, json_of v)], r4)
        else if byte_is 44 e then
          '(ms, r5) ← pmembers lim f depth r4; Some ((utf8_coerce k, json_of v) :: ms, r5)
        else None
    | EmptyString => None
    end) as Hstep.
  { intros rest Hf Hstop. unfold json_string. rewrite !string_app_assoc.
    cbn [String.append pmembers]. rewrite skip_ws_head by done.
    change (byte_is 34 dquote) with true. cbv iota. unfold quote1.
    rewrite string_app_assoc. cbn [String.append]. rewrite unquote_escape. cbn [mbind option_bind].
    rewrite skip_ws_head by done. change (byte_is 58 ":"%char) with true. cbv iota.
    rewrite (Hv lim f depth rest) by done. done. }
  destruct Hrest as [|kv' u' ms us Hv' Hrest].
  - rewrite join_one in Hfuel |- *. rewrite !string_length_app in Hfuel.
    rewrite Hstep by (done || lia). done.
  - rewrite join_comma_cons in Hfuel |- * by done.
    rewrite !string_length_app in Hfuel. cbn [String.length] in Hfuel.
    rewrite (string_app_assoc (json_string k +:+ _)), (string_app_assoc ",").
    rewrite Hstep by (done || lia). change ("," +:+ ?x) with (String (byte_of 44) x).
    rewrite skip_ws_head by done.
    change (byte_is 125 (byte_of 44)) with false. change (byte_is 44 (byte_of 44)) with true.
    cbv iota. rewrite IH; [done|done| |lia].
    intros x Hx. apply Hdep. by right.
Qed.

(** An object, by the texts of its members in order. *)
Lemma pval_object lim fuel depth ms us r :
  Forall2 member_as ms us -> depth + 1 <= lim ->
  (forall kv, kv ∈ ms -> depth + 1 + vdepth kv.2 <= lim) ->
  (2 * String.length ("{" +:+ join "," us +:+ "}") <= fuel)%nat ->
  pval lim fuel depth (("{" +:+ join "," us +:+ "}") +:+ r) =
  Some (JObj ((fun kv => (utf8_coerce kv.1, json_of kv.2)) <$> ms), r).
Proof.
  intros Hms Hlim Hdeps Hfuel. change ("{" +:+ ?x) with (String (byte_of 123) x) in *.
  cbn [String.length] in Hfuel. rewrite string_length_app in Hfuel. cbn [String.length] in Hfuel.
  destruct (fuel_S _ _ Hfuel ltac:(lia)) as [f ->]. cbn [String.append pval].
  rewrite skip_ws_head by done. change (byte_is 123 (byte_of 123)) with true. cbv iota.
  rewrite (proj2 (Z.ltb_ge lim (depth + 1))) by done. rewrite string_app_assoc.
  pose proof Hms as Hall. destruct Hms as [|kv u ms us Hu Hrest]; [done|].
  assert (exists t', join "," (u :: us) = String dquote t') as [t' Ht].
  { destruct Hu as (t & -> & _). unfold json_string. destruct us; [by eexists|].
    rewrite join_comma_cons by done. by eexists. }
  rewrite Ht. cbn [String.append]. rewrite skip_ws_head by done.
  change (byte_is 125 dquote) with false. cbv iota.
  change (String dquote (t' +:+ ?x)) with (String dquote t' +:+ x). rewrite <- Ht.
  pose proof (pmembers_join lim (depth + 1) (kv :: ms) (u :: us) Hall) as Hel.
  cbn [String.append] in Hel |- *. rewrite Hel; [done|done|done|lia].
Qed.

Lemma parses_map m us :
  Forall2 (fun k u => exists x, m !! k = Some x /\ member_as (k, x) u) (sorted_keys m) us ->
  parses_as (VMap m) ("{" +:+ join "," us +:+ "}").
Proof.
  intros H. split; [by exists (byte_of 123), (join "," us +:+ "}")|].
  intros lim fuel depth r _ Hfuel Hdep.
  assert (depth + 1 <= lim) as Hlim.
  { cbn [vdepth] in Hdep. enough (0 <= map_fold (fun _ x n => Z.max (vdepth x) n) 0 m) by lia.
    apply (map_fold_weak_ind (fun r _ => 0 <= r)); intros; lia. }
  set (ms := (fun k => (k, mget m k)) <$> sorted_keys m).
  assert (json_of (VMap m) = JObj ((fun kv => (utf8_coerce kv.1, json_of kv.2)) <$> ms)) as ->.
  { cbn [json_of]. unfold ms. rewrite <- list_fmap_compose. f_equal.
    apply list_fmap_ext. intros _ k _. cbn. rewrite lookup_fmap. unfold mget.
    by destruct (m !! k). }
  apply pval_object; [|done| |done].
  - unfold ms. apply Forall2_fmap_l. eapply Forall2_impl; [exact H|].
    intros k u (x & Hx & Hu). assert (mget m k = x) as Hg by (unfold mget; by rewrite Hx).
    by rewrite <- Hg in Hu.
  - intros kv (k & -> & Hk)%list_elem_of_fmap. cbn. apply elem_of_sorted_keys in Hk as [x Hx].
    unfold mget. rewrite Hx. cbn. apply vdepth_map_elem in Hx. lia.
Qed.

(** ** The round trip *)

Lemma marshal_parses v t : marshal v = Some t -> num_wf v = true -> parses_as v t.
Proof.
  revert t. induction v as [ | b | z | tx | tx | s | tx | l IH | m IH | l ] using value_ind;
    intros t Hm Hwf; cbn [marshal] in Hm; try discriminate Hm.
  - injection Hm as <-. split; [by eexists _, _|]. intros lim fuel depth r _ Hf _.
    destruct (fuel_S _ _ Hf ltac:(cbn; lia)) as [f ->]. done.
  - injection Hm as <-. destruct b; (split; [by eexists _, _|]); intros lim fuel depth r _ Hf _;
      destruct (fuel_S _ _ Hf ltac:(cbn; lia)) as [f ->]; done.
  - injection Hm as <-. apply parses_number; [apply scan_number_pretty|done].
  - injection Hm as <-. apply parses_number; [|done]. cbn in Hwf. rewrite andb_true_r in Hwf.
    destruct (scan_number tx) as [[lit [|]]|]; by eauto.
  - injection Hm as <-. by apply parses_string.
  - injection Hm as <-. by apply parses_string.
  - apply bind_Some in Hm as (ts & Hts & [= <-]). apply mapM_Some in Hts.
    apply vforall_list in Hwf as [_ Hwf]. apply parses_list.
    eapply Forall2_impl_elem; [exact Hts|]. intros x y Hx Hy. apply IH; auto.
  - apply bind_Some in Hm as (us & Hus & [= <-]). apply mapM_Some in Hus.
    apply vforall_map in Hwf as [_ Hwf]. apply parses_map.
    eapply Forall2_impl; [exact Hus|]. intros k u Hu. cbn in Hu. rewrite lookup_fmap in Hu.
    destruct (m !! k) as [x|] eqn:Ex; [|done]. cbn in Hu.
    apply bind_Some in Hu as (t & Ht & [= <-]). exists x. split; [done|].
    exists t. split; [done|]. apply (IH k); [done..|]. by apply (Hwf k).
Qed.

Lemma parse_marshal lim v t :
  marshal v = Some t -> num_wf v = true -> vdepth v <= lim ->
  parse_json_lim lim t = Some (json_of v).
Proof.
  intros Hm Hwf Hd. destruct (marshal_parses v t Hm Hwf) as [_ Hp].
  unfold parse_json_lim, parse_fuel.
  assert (pval lim (2 * String.length t + 2) 0 t = Some (json_of v, "")) as ->; [|done].
  rewrite <- (string_app_nil_r t) at 2. apply Hp; [done|lia|lia].
Qed.

(** What a value becomes when it is encoded and decoded again. *)
Definition json_copy (v : value) : option value := any_of_json (json_of v).

Lemma unmarshal_marshal v t :
  marshal v = Some t -> num_wf v = true -> vdepth v <= maxNestingDepth ->
  unmarshal_any t = json_copy v.
Proof.
  intros Hm Hwf Hd. unfold unmarshal_any, parse_json. by rewrite (parse_marshal _ _ _ Hm Hwf Hd).
Qed.

(** ** Values of encoding/json's own types *)

Lemma native_leaf v : native v = true -> native_node v = true.
Proof. by destruct v; cbn; rewrite ?andb_true_iff; intros; destruct_and?. Qed.

Lemma native_list l : native (VList l) = true <-> forall x, x ∈ l -> native x = true.
Proof. unfold native. rewrite vforall_list. split; [by intros [_ H]|by intros H; split]. Qed.

Lemma native_map m :
  native (VMap m) = true <->
  forall k x, m !! k = Some x -> valid_utf8 k = true /\ native x = true.
Proof. unfold native. rewrite vforall_map. split; [by intros [_ H]|by intros H; split]. Qed.

Lemma native_num_wf v : native v = true -> num_wf v = true.
Proof.
  induction v as [ | b | z | tx | tx | s | tx | l IH | m IH | l ] using value_ind; try done.
  - cbn. rewrite !andb_true_r. intros H%bool_decide_eq_true. unfold canon_number in H.
    by destruct (scan_number tx) as [[? [|]]|].
  - rewrite native_list. intros H. apply vforall_list. split; [done|]. intros x Hx. auto.
  - rewrite native_map. intros H. apply vforall_map. split; [done|]. intros k x Hx.
    destruct (H k x Hx). split; [done|]. by apply (IH k).
Qed.

Lemma native_marshal v : native v = true -> exists t, marshal v = Some t.
Proof.
  induction v as [ | b | z | tx | tx | s | tx | l IH | m IH | l ] using value_ind; try done;
    intros Hn; try by eexists.
  - rewrite native_list in Hn.
    assert (exists ts, mapM marshal l = Some ts) as [ts Hts].
    { apply mapM_is_Some. apply Forall_forall. intros x Hx. destruct (IH x Hx); auto. }
    exists ("[" +:+ join "," ts +:+ "]"). cbn. by rewrite Hts.
  - rewrite native_map in Hn. cbn [marshal].
    assert (is_Some (mapM (fun k => t ← default None ((marshal <$> m) !! k);
              Some (json_string k +:+ ":" +:+ t)) (sorted_keys m))) as [us ->]; [|by eexists].
    apply mapM_is_Some, Forall_forall. intros k [x Hx]%elem_of_sorted_keys.
    unfold compose. rewrite lookup_fmap, Hx. cbn. destruct (IH k x Hx) as [t ->]; [by apply (Hn k)|]. by eexists.
Qed.

Lemma any_entries_lookup {A} (f : json -> option A) l acc m :
  any_entries f l acc = Some m ->
  forall k x, m !! k = Some x -> acc !! k = Some x \/ exists j, (k, j) ∈ l /\ f j = Some x.
Proof.
  revert acc. induction l as [|[k0 j0] l IH]; intros acc; cbn.
  - intros [= <-]. auto.
  - intros (x0 & Hx0 & Hl)%bind_Some k x Hk.
    destruct (IH _ Hl k x Hk) as [Hins|(j & Hj & Hf)].
    + rewrite lookup_insert in Hins. case_decide; [|by left]. simplify_eq.
      right. exists j0. split; [left|done].
    + right. exists j. split; [by right|done].
Qed.

(** Members with distinct keys build the map of their values. *)
Lemma any_entries_map (m : gmap string value) ks acc :
  NoDup ks ->
  (forall k, k ∈ ks -> exists x, m !! k = Some x /\ valid_utf8 k = true /\
     any_of_json (json_of x) = Some x) ->
  exists m',
    any_entries any_of_json
      ((fun k => (utf8_coerce k, default JNull ((json_of <$> m) !! k))) <$> ks) acc = Some m' /\
    forall k, m' !! k = if decide (k ∈ ks) then m !! k else acc !! k.
Proof.
  intros Hnd. revert acc. induction Hnd as [|k ks Hk Hnd IH]; intros acc Hall; cbn.
  - exists acc. split; [done|]. intros k. by rewrite decide_False by apply not_elem_of_nil.
  - destruct (Hall k) as (x & Hx & Hv & Hc); [left|].
    rewrite lookup_fmap, Hx. cbn. rewrite Hc. cbn.
    destruct (IH (<[utf8_coerce k := x]> acc)) as (m' & Hm' & Hl).
    { intros k' Hk'. apply Hall. by right. }
    exists m'. split; [done|]. intros k'. rewrite Hl.
    apply str_eqb_eq in Hv. rewrite Hv. rewrite lookup_insert.
    destruct (decide (k = k')) as [<-|Hne].
    + rewrite (decide_True (P := k ∈ k :: ks)) by left. by rewrite decide_False.
    + destruct (decide (k' ∈ ks)) as [Hin|Hin].
      * by rewrite (decide_True (P := k' ∈ k :: ks)) by (by right).
      * rewrite (decide_False (P := k' ∈ k :: ks)); [done|]. intros [?|?]%elem_of_cons; congruence.
Qed.

(** They survive the round trip unchanged, ... *)
Lemma json_copy_native v : native v = true -> json_copy v = Some v.
Proof.
  unfold json_copy.
  induction v as [ | b | z | tx | tx | s | tx | l IH | m IH | l ] using value_ind; try done;
    intros Hn; cbn [json_of any_of_json].
  - apply native_leaf in Hn. cbn in Hn. apply bool_decide_eq_true in Hn.
    unfold canon_number, lit_text in *. destruct (scan_number tx) as [[lit [|]]|]; try done.
    by rewrite Hn.
  - apply native_leaf, str_eqb_eq in Hn. by rewrite Hn.
  - rewrite native_list in Hn.
    assert (mapM any_of_json (json_of <$> l) = Some l) as ->; [|done].
    apply mapM_Some. apply Forall2_fmap_l. apply Forall2_same_length_lookup. split; [done|].
    intros i x y Hx Hy. simplify_eq. apply IH; [|apply Hn]; by eapply list_elem_of_lookup_2.
  - rewrite native_map in Hn.
    destruct (any_entries_map m (sorted_keys m) ∅) as (m' & -> & Hl).
    { apply NoDup_sorted_keys. }
    { intros k [x Hx]%elem_of_sorted_keys. exists x. destruct (Hn k x Hx). by eauto. }
    cbn. do 2 f_equal. apply map_eq. intros k. rewrite Hl. destruct (decide _) as [|Hk]; [done|].
    rewrite elem_of_sorted_keys in Hk. rewrite lookup_empty.
    symmetry. by apply eq_None_not_Some.
Qed.

(** ... the round trip only produces such values, ... *)
Lemma json_copy_is_native v v' : json_copy v = Some v' -> native v' = true.
Proof.
  unfold json_copy. revert v'.
  induction v as [ | b | z | tx | tx | s | tx | l IH | m IH | l ] using value_ind;
    intros v'; cbn [json_of any_of_json]; try (by intros [= <-]);
    try (intros [= <-]; cbn; by rewrite utf8_coerce_valid).
  - intros (t & Ht & [= <-])%bind_Some. apply float_text_canon in Ht.
    cbn. by rewrite bool_decide_eq_true_2.
  - intros (t & Ht & [= <-])%bind_Some. apply float_text_canon in Ht.
    cbn. by rewrite bool_decide_eq_true_2.
  - intros (vs & Hvs & [= <-])%bind_Some. apply native_list. apply mapM_Some in Hvs.
    intros x Hx. apply Forall2_fmap_l in Hvs.
    apply list_elem_of_lookup in Hx as [i Hi].
    destruct (Forall2_lookup_r _ _ _ _ _ Hvs Hi) as (y & Hy & Hxy).
    apply (IH y); [by eapply list_elem_of_lookup_2|done].
  - intros (m' & Hm' & [= <-])%bind_Some. apply native_map. intros k x Hk.
    destruct (any_entries_lookup _ _ _ _ Hm' k x Hk) as [Habs|(j & Hj & Hf)].
    { by rewrite lookup_empty in Habs. }
    apply list_elem_of_fmap in Hj as (k0 & [= -> ->] & [y Hy]%elem_of_sorted_keys).
    split; [apply utf8_coerce_valid|]. rewrite lookup_fmap, Hy in Hf. by apply (IH k0 y).
Qed.

(** ... and their encoding determines them: comparing encodings compares values. *)
Lemma marshal_inj v w :
  native v = true -> native w = true -> marshal v = marshal w -> v = w.
Proof.
  intros Hv Hw Heq. destruct (native_marshal v Hv) as [t Ht].
  pose proof (parse_marshal (Z.max (vdepth v) (vdepth w)) v t Ht (native_num_wf v Hv) ltac:(lia)) as Pv.
  rewrite Heq in Ht.
  pose proof (parse_marshal (Z.max (vdepth v) (vdepth w)) w t Ht (native_num_wf w Hw) ltac:(lia)) as Pw.
  rewrite Pv in Pw. injection Pw as Hj.
  pose proof (json_copy_native v Hv) as Cv. pose proof (json_copy_native w Hw) as Cw.
  unfold json_copy in *. rewrite Hj in Cv. congruence.
Qed.

#[export] Hint Resolve json_copy_is_native native_num_wf : thule.
