(* ===== verification/JsonValid.v ===== *)
(** * encoding/json: decoding only produces valid values

    Whatever the text, a value decoded from it holds only valid UTF-8 and canonical
    numbers. *)

From Stdlib Require Import Ascii Lia ZifyN.
From stdpp Require Import options.
From S2P Require Import Prelude GoStrings Value JsonNumber Json JsonFacts.

(** ** Strings *)

(** A piece of text that can be put in front of valid text. *)
Definition piece (p : string) : Prop :=
  forall y, utf8_coerce (p +:+ y) = p +:+ utf8_coerce y.

Lemma piece_ascii a : is_ascii a = true -> piece (String a "").
Proof. intros H y. cbn [String.append]. unfold utf8_coerce. by rewrite utf8_map_ascii. Qed.

Lemma piece_seq2 a b : is_ascii a = false -> u2 a b = true -> piece (String a (String b "")).
Proof. intros H H2 y. cbn [String.append]. unfold utf8_coerce. by rewrite utf8_map_seq2. Qed.

Lemma piece_seq3 a b c :
  is_ascii a = false -> u2 a b = false -> u3 a b c = true ->
  piece (String a (String b (String c ""))).
Proof. intros H H2 H3 y. cbn [String.append]. unfold utf8_coerce. by rewrite utf8_map_seq3. Qed.

Lemma piece_seq4 a b c d :
  is_ascii a = false -> u2 a b = false -> u3 a b c = false -> u4 a b c d = true ->
  piece (String a (String b (String c (String d "")))).
Proof. intros H H2 H3 H4 y. cbn [String.append]. unfold utf8_coerce. by rewrite utf8_map_seq4. Qed.

Lemma piece_fffd : piece fffd.
Proof. by apply piece_seq3. Qed.

Lemma bval_byte_of n : (n < 256)%N -> bval (byte_of n) = n.
Proof. apply N_ascii_embedding. Qed.

(** Quotients and remainders in [lia]. *)
#[local] Ltac Zify.zify_post_hook ::= Z.div_mod_to_equations.

Ltac byte_arith :=
  unfold is_ascii, u2, u3, u4, cont, in_range;
  rewrite ?bval_byte_of by lia;
  repeat first [rewrite andb_true_iff | rewrite orb_true_iff
               | rewrite andb_false_iff | rewrite orb_false_iff];
  rewrite ?N.leb_le, ?N.ltb_lt, ?N.leb_gt, ?N.ltb_ge; lia.

(** The encoding of a code point that is not a surrogate is a valid sequence. *)
Lemma piece_encode cp :
  (cp < 1114112)%N -> is_surrogate cp = false -> piece (utf8_encode cp).
Proof.
  intros Hmax Hs. unfold is_surrogate in Hs.
  apply andb_false_iff in Hs. rewrite N.leb_gt, N.ltb_ge in Hs.
  unfold utf8_encode. destruct (cp <? 128)%N eqn:E1.
  { apply N.ltb_lt in E1. apply piece_ascii. byte_arith. }
  apply N.ltb_ge in E1. destruct (cp <? 2048)%N eqn:E2.
  { apply N.ltb_lt in E2. apply piece_seq2; byte_arith. }
  apply N.ltb_ge in E2. destruct (cp <? 65536)%N eqn:E3.
  { apply N.ltb_lt in E3. apply piece_seq3; byte_arith. }
  apply N.ltb_ge in E3. apply piece_seq4; byte_arith.
Qed.

Lemma hex_val_lt a n : hex_val a = Some n -> (n < 16)%N.
Proof.
  unfold hex_val, in_range. repeat case_match; try done; intros [= <-];
    rewrite ?andb_true_iff, ?N.leb_le in *; lia.
Qed.

Lemma hex4_lt a b c d n : hex4 a b c d = Some n -> (n < 65536)%N.
Proof.
  unfold hex4. intros (w & Hw & (x & Hx & (y & Hy & (z & Hz & [= <-])%bind_Some)%bind_Some)%bind_Some)%bind_Some.
  apply hex_val_lt in Hw, Hx, Hy, Hz. lia.
Qed.

Definition valid_result (o : option (string * string)) : Prop :=
  forall x r, o = Some (x, r) -> utf8_coerce x = x.

Lemma valid_cons p o : piece p -> valid_result o -> valid_result (cons_str p o).
Proof.
  intros Hp Ho x r. unfold cons_str. intros ([y r'] & -> & [= <- <-])%bind_Some.
  rewrite Hp. by rewrite (Ho y r').
Qed.

Lemma valid_none : valid_result None.
Proof. by intros x r. Qed.

Lemma valid_nil r : valid_result (Some ("", r)).
Proof. by intros x r' [= <- <-]. Qed.

Create HintDb utf8.
#[export] Hint Resolve valid_none valid_nil valid_cons piece_fffd piece_seq2 piece_seq3 piece_seq4
  piece_ascii : utf8.

(** A decoded string literal is valid UTF-8. *)
Lemma unquote_valid s : valid_result (unquote s).
Proof.
  assert (forall n s, (String.length s < n)%nat -> valid_result (unquote s)) as H;
    [|by apply (H (S (String.length s))); lia].
  clear s. induction n as [|n IH]; [lia|]. intros [|a r] Hn; cbn [unquote]; [auto with utf8|].
  cbn [String.length] in Hn. destruct (byte_is 34 a); [auto with utf8|].
  destruct (byte_is 92 a).
  - destruct r as [|e r1]; [auto with utf8|]. cbn [String.length] in Hn.
    assert (valid_result (unquote r1)) as IH1 by (apply IH; lia).
    destruct (byte_is 34 e || byte_is 92 e || byte_is 47 e) eqn:Ee.
    { apply valid_cons; [|done]. apply piece_ascii. unfold byte_is in Ee.
      rewrite !orb_true_iff, !N.eqb_eq in Ee. unfold is_ascii. apply N.ltb_lt. lia. }
    repeat (case_match; [apply valid_cons; [by apply piece_ascii|done]|]).
    destruct (byte_is 117 e); [|auto with utf8].
    destruct r1 as [|h1 [|h2 [|h3 [|h4 r5]]]]; try apply valid_none.
    cbn [String.length] in Hn. destruct (hex4 h1 h2 h3 h4) as [cp|] eqn:Ecp; [|auto with utf8].
    apply hex4_lt in Ecp.
    assert (valid_result (cons_str fffd (unquote r5))) as Hbad.
    { apply valid_cons; [apply piece_fffd|]. apply IH. lia. }
    destruct (is_surrogate cp) eqn:Es.
    + destruct r5 as [|x [|y [|g1 [|g2 [|g3 [|g4 r11]]]]]]; try done.
      destruct (if _ : bool then hex4 g1 g2 g3 g4 else None) as [lo|] eqn:Elo; [|done].
      destruct (is_high cp && is_low lo) eqn:Ehl; [|done].
      apply andb_true_iff in Ehl as [Eh El]. unfold is_high, is_low in Eh, El.
      rewrite andb_true_iff, N.leb_le, N.ltb_lt in Eh, El.
      apply valid_cons; [|apply IH; cbn [String.length] in *; lia].
      apply piece_encode; [lia|]. unfold is_surrogate. apply andb_false_iff. right.
      apply N.ltb_ge. lia.
    + apply valid_cons; [|apply IH; lia]. apply piece_encode; [lia|done].
  - destruct (bval a <? 32)%N; [auto with utf8|].
    assert (valid_result (unquote r)) as IHr by (apply IH; lia).
    destruct (is_ascii a) eqn:Ea; [auto with utf8|].
    destruct r as [|b r2]; [auto with utf8|]. cbn [String.length] in Hn.
    destruct (u2 a b) eqn:E2; [apply valid_cons; [by apply piece_seq2|apply IH; lia]|].
    destruct r2 as [|c r3]; [auto with utf8|]. cbn [String.length] in Hn.
    destruct (u3 a b c) eqn:E3; [apply valid_cons; [by apply piece_seq3|apply IH; lia]|].
    destruct r3 as [|d r4]; [auto with utf8|]. cbn [String.length] in Hn.
    destruct (u4 a b c d) eqn:E4; [apply valid_cons; [by apply piece_seq4|apply IH; lia]|].
    auto with utf8.
Qed.

(** ** Values *)

Fixpoint json_valid (j : json) : bool :=
  match j with
  | JStr s => valid_utf8 s
  | JArr l => forallb json_valid l
  | JObj l => forallb (fun '(k, x) => valid_utf8 k && json_valid x) l
  | _ => true
  end.

Lemma unquote_valid_utf8 s x r : unquote s = Some (x, r) -> valid_utf8 x = true.
Proof. intros H. apply str_eqb_eq. by apply (unquote_valid s x r). Qed.

(** The three parsing functions only build valid values. *)
Lemma parser_valid lim fuel :
  (forall depth s j r, pval lim fuel depth s = Some (j, r) -> json_valid j = true) /\
  (forall depth s l r, pelems lim fuel depth s = Some (l, r) -> forallb json_valid l = true) /\
  (forall depth s l r, pmembers lim fuel depth s = Some (l, r) ->
     forallb (fun '(k, x) => valid_utf8 k && json_valid x) l = true).
Proof.
  induction fuel as [|fuel (IHv & IHe & IHm)]; [by split_and!|]. split_and!; intros depth s.
  - intros j r. cbn [pval]. destruct (skip_ws s) as [|c r0]; [done|].
    destruct (byte_is 123 c).
    { destruct (lim <? depth + 1); [done|]. destruct (skip_ws r0) as [|d r']; [done|].
      destruct (byte_is 125 d); [by intros [= <- <-]|].
      intros ([ms r2] & Hm & [= <- <-])%bind_Some. by apply IHm in Hm. }
    destruct (byte_is 91 c).
    { destruct (lim <? depth + 1); [done|]. destruct (skip_ws r0) as [|d r']; [done|].
      destruct (byte_is 93 d); [by intros [= <- <-]|].
      intros ([es r2] & He & [= <- <-])%bind_Some. by apply IHe in He. }
    destruct (byte_is 34 c).
    { intros ([x r'] & Hu & [= <- <-])%bind_Some. cbn. by apply unquote_valid_utf8 in Hu. }
    repeat (case_match; [by intros (r' & _ & [= <- <-])%bind_Some|]).
    by intros ([l r'] & _ & [= <- <-])%bind_Some.
  - intros l r. cbn [pelems]. intros ([v r0] & Hv & Hrest)%bind_Some. apply IHv in Hv.
    destruct (skip_ws r0) as [|c r']; [done|].
    destruct (byte_is 93 c); [injection Hrest as <- <-; cbn; by rewrite Hv|].
    destruct (byte_is 44 c); [|done].
    apply bind_Some in Hrest as ([vs r2] & Hvs & [= <- <-]). cbn. by rewrite Hv, (IHe _ _ _ _ Hvs).
  - intros l r. cbn [pmembers]. destruct (skip_ws s) as [|q r0]; [done|].
    destruct (byte_is 34 q); [|done]. intros ([k r1] & Hk & Hrest)%bind_Some.
    apply unquote_valid_utf8 in Hk. destruct (skip_ws r1) as [|c r2]; [done|].
    destruct (byte_is 58 c); [|done]. apply bind_Some in Hrest as ([v r3] & Hv & Hrest).
    apply IHv in Hv. destruct (skip_ws r3) as [|e r4]; [done|].
    destruct (byte_is 125 e); [injection Hrest as <- <-; cbn; by rewrite Hk, Hv|].
    destruct (byte_is 44 e); [|done].
    apply bind_Some in Hrest as ([ms r5] & Hms & [= <- <-]). cbn. by rewrite Hk, Hv, (IHm _ _ _ _ Hms).
Qed.

Lemma json_ind (P : json -> Prop) :
  P JNull -> (forall b, P (JBool b)) -> (forall l, P (JNum l)) -> (forall s, P (JStr s)) ->
  (forall l, Forall P l -> P (JArr l)) ->
  (forall l, Forall (fun kv => P kv.2) l -> P (JObj l)) ->
  forall j, P j.
Proof.
  intros H0 H1 H2 H3 H4 H5. fix REC 1. intros [ | b | l | s | l | l];
    [exact H0|apply H1|apply H2|apply H3| |].
  - apply H4. induction l as [|x l IH]; constructor; [apply REC|exact IH].
  - apply H5. induction l as [|[k x] l IH]; constructor; [apply REC|exact IH].
Qed.

Lemma any_entries_native l acc m :
  (forall k x, (k, x) ∈ l -> valid_utf8 k = true) ->
  (forall k x, (k, x) ∈ l -> forall v, any_of_json x = Some v -> native v = true) ->
  native (VMap acc) = true -> any_entries any_of_json l acc = Some m -> native (VMap m) = true.
Proof.
  revert acc. induction l as [|[k x] l IH]; intros acc Hk Hx Hacc; cbn; [by intros [= <-]|].
  intros (v & Hv & Hl)%bind_Some. eapply (IH (<[k:=v]> acc)); [..|exact Hl].
  - intros k' x' Hin. apply (Hk k' x'). by right.
  - intros k' x' Hin. apply (Hx k' x'). by right.
  - rewrite native_map in Hacc |- *. intros k' y. rewrite lookup_insert. case_decide; [|apply Hacc].
    subst. intros [= <-]. split; [apply (Hk k' x); left|]. apply (Hx k' x); [left|done].
Qed.

Lemma any_of_json_native j v : json_valid j = true -> any_of_json j = Some v -> native v = true.
Proof.
  revert v. induction j as [ | b | l | s | l IH | l IH] using json_ind; intros v Hj; cbn;
    try (by intros [= <-]).
  - intros (t & Ht & [= <-])%bind_Some. apply float_text_canon in Ht.
    cbn. by rewrite bool_decide_eq_true_2.
  - intros [= <-]. cbn in *. by rewrite Hj.
  - intros (vs & Hvs & [= <-])%bind_Some. apply native_list. apply mapM_Some in Hvs.
    intros x [i Hi]%list_elem_of_lookup.
    destruct (Forall2_lookup_r _ _ _ _ _ Hvs Hi) as (y & Hy & Hxy).
    apply list_elem_of_lookup_2 in Hy. rewrite Forall_forall in IH. apply (IH y); [done| |done].
    cbn in Hj. rewrite forallb_forall in Hj. apply Hj. by apply list_elem_of_In.
  - intros (m & Hm & [= <-])%bind_Some. cbn in Hj. rewrite forallb_forall in Hj.
    rewrite Forall_forall in IH.
    eapply any_entries_native; [..|exact Hm]; [| |done].
    + intros k x Hin. specialize (Hj (k, x) (proj1 (list_elem_of_In _ _) Hin)).
      by apply andb_true_iff in Hj as [? _].
    + intros k x Hin w Hw. apply (IH (k, x) Hin); [|done].
      specialize (Hj (k, x) (proj1 (list_elem_of_In _ _) Hin)).
      by apply andb_true_iff in Hj as [_ ?].
Qed.

(** Whatever the text, a decoded value is native. *)
Lemma unmarshal_any_native s v : unmarshal_any s = Some v -> native v = true.
Proof.
  unfold unmarshal_any, parse_json, parse_json_lim.
  intros (j & ([j' r] & Hp & Hr)%bind_Some & Hv)%bind_Some.
  destruct (is_empty (skip_ws r)); [|done]. injection Hr as ->.
  apply parser_valid in Hp. by eapply any_of_json_native.
Qed.

#[export] Hint Resolve unmarshal_any_native : thule.
