(* ===== verification/JsonFuel.v ===== *)
(** * encoding/json: the fuel of the parser is enough for every text

    The parsing functions never hand back more text than they were given, so a fuel of
    twice the length of the text is never exhausted: any larger fuel gives the same
    answer, and a text the parser refuses is refused for its form or its nesting. *)

From Stdlib Require Import Ascii.
From stdpp Require Import options.
From S2P Require Import Prelude GoStrings Value JsonNumber Json JsonFacts JsonValid.

(** ** What is left is not longer *)

Abbreviation slen := String.length.

Lemma skip_ws_length s : (slen (skip_ws s) <= slen s)%nat.
Proof. unfold skip_ws. induction s as [|a s IH]; cbn; [done|]. case_match; cbn; lia. Qed.

Lemma skip_ws_cons s c r : skip_ws s = String c r -> (S (slen r) <= slen s)%nat.
Proof. intros H. pose proof (skip_ws_length s) as Hl. by rewrite H in Hl. Qed.

Lemma strip_prefix_length p s r : strip_prefix p s = Some r -> (slen r <= slen s)%nat.
Proof. intros ->%strip_prefix_spec. rewrite string_length_app. lia. Qed.

Lemma take_digits_length s : (slen (take_digits s).2 <= slen s)%nat.
Proof.
  induction s as [|a s IH]; cbn; [done|]. destruct (is_digit a); [|done].
  destruct (take_digits s). cbn in *. lia.
Qed.

(** Case analysis on every test of a scanning function. *)
Ltac scan_cases :=
  repeat case_match; simplify_eq; cbn [slen fst snd] in *;
  repeat match goal with
  | H : take_digits ?s = _ |- _ =>
      let L := fresh in pose proof (take_digits_length s) as L; rewrite H in L; clear H
  end; cbn [slen fst snd] in *; try lia.

Lemma scan_int_length s x r : scan_int s = Some (x, r) -> (slen r <= slen s)%nat.
Proof. unfold scan_int. intros H. scan_cases. Qed.
Lemma scan_frac_length s x r : scan_frac s = Some (x, r) -> (slen r <= slen s)%nat.
Proof. unfold scan_frac. intros H. scan_cases. Qed.
Lemma scan_exp_length s b x r : scan_exp s = Some (b, x, r) -> (slen r <= slen s)%nat.
Proof. unfold scan_exp. intros H. scan_cases. Qed.

Lemma scan_number_length s l r : scan_number s = Some (l, r) -> (slen r <= slen s)%nat.
Proof.
  assert (forall neg t, scan_unsigned neg t = Some (l, r) -> (slen r <= slen t)%nat) as Hu.
  { intros neg t. unfold scan_unsigned.
    destruct (scan_int t) as [[n1 r1]|] eqn:E1; [|done]. apply scan_int_length in E1.
    destruct (scan_frac r1) as [[n2 r2]|] eqn:E2; [|done]. apply scan_frac_length in E2.
    destruct (scan_exp r2) as [[[b3 n3] r3]|] eqn:E3; [|done]. apply scan_exp_length in E3.
    intros [= _ <-]. lia. }
  unfold scan_number. destruct s as [|a s]; [done|]. case_match; intros Hr%Hu; cbn in *; lia.
Qed.

Definition shorter (n : nat) (o : option (string * string)) : Prop :=
  forall x r, o = Some (x, r) -> (slen r <= n)%nat.

Lemma cons_str_shorter n p o : shorter n o -> shorter n (cons_str p o).
Proof. intros H x r ([y r'] & -> & [= <- <-])%bind_Some. by apply (H y). Qed.

Lemma shorter_le n m o : shorter n o -> (n <= m)%nat -> shorter m o.
Proof. intros H Hle x r Hx%H. lia. Qed.

Lemma unquote_shorter s : shorter (slen s) (unquote s).
Proof.
  induction s as [s IH] using (induction_ltof1 _ slen).
  assert (forall p r, (slen r < slen s)%nat -> shorter (slen s) (cons_str p (unquote r))) as Hc.
  { intros p r Hr. apply cons_str_shorter. eapply shorter_le; [by apply IH|lia]. }
  destruct s as [|a s]; cbn [unquote]; [done|].
  repeat first [done | apply Hc; cbn [slen]; lia | case_match; subst];
    intros x r [= <- <-]; cbn; lia.
Qed.

(** The text after a value, after the elements or after the members. *)
Lemma parser_shorter lim fuel :
  (forall depth s j r, pval lim fuel depth s = Some (j, r) -> (slen r <= slen s)%nat) /\
  (forall depth s l r, pelems lim fuel depth s = Some (l, r) -> (slen r <= slen s)%nat) /\
  (forall depth s l r, pmembers lim fuel depth s = Some (l, r) -> (slen r <= slen s)%nat).
Proof.
  induction fuel as [|fuel (IHv & IHe & IHm)]; [by split_and!|]. split_and!; intros depth s.
  - intros j r. cbn [pval]. destruct (skip_ws s) as [|c r0] eqn:Es; [done|]. apply skip_ws_cons in Es.
    repeat first
      [ done
      | progress intros ([x r'] & Hx & [= <- <-])%bind_Some
      | progress intros (r' & Hx & [= <- <-])%bind_Some
      | progress intros [= <- <-]
      | case_match ].
    all: repeat match goal with H : skip_ws _ = String _ _ |- _ => apply skip_ws_cons in H end.
    all: try match goal with
      | H : pmembers _ _ _ _ = _ |- _ => apply IHm in H
      | H : pelems _ _ _ _ = _ |- _ => apply IHe in H
      | H : unquote _ = _ |- _ => apply unquote_shorter in H
      | H : strip_prefix _ _ = _ |- _ => apply strip_prefix_length in H
      | H : scan_number _ = _ |- _ => apply scan_number_length in H
      end; cbn [slen] in *; lia.
  - intros l r. cbn [pelems]. intros ([v r0] & Hv%IHv & Hrest)%bind_Some.
    destruct (skip_ws r0) as [|c r'] eqn:Ec; [done|]. apply skip_ws_cons in Ec.
    destruct (byte_is 93 c); [injection Hrest as <- <-; lia|]. destruct (byte_is 44 c); [|done].
    apply bind_Some in Hrest as ([vs r2] & Hvs%IHe & [= <- <-]). lia.
  - intros l r. cbn [pmembers]. destruct (skip_ws s) as [|q r0] eqn:Eq; [done|].
    apply skip_ws_cons in Eq. destruct (byte_is 34 q); [|done].
    intros ([k r1] & Hk%unquote_shorter & Hrest)%bind_Some.
    destruct (skip_ws r1) as [|c r2] eqn:Ec; [done|]. apply skip_ws_cons in Ec.
    destruct (byte_is 58 c); [|done]. apply bind_Some in Hrest as ([v r3] & Hv%IHv & Hrest).
    destruct (skip_ws r3) as [|e r4] eqn:Ee; [done|]. apply skip_ws_cons in Ee.
    destruct (byte_is 125 e); [injection Hrest as <- <-; lia|]. destruct (byte_is 44 e); [|done].
    apply bind_Some in Hrest as ([ms r5] & Hms%IHm & [= <- <-]). lia.
Qed.

Lemma pval_shorter lim fuel depth s j r :
  pval lim fuel depth s = Some (j, r) -> (slen r <= slen s)%nat.
Proof. apply parser_shorter. Qed.

(** ** Any two sufficient fuels agree *)

Lemma parser_fuel lim f :
  (forall f' depth s, (2 * slen s + 1 <= f)%nat -> (2 * slen s + 1 <= f')%nat ->
     pval lim f depth s = pval lim f' depth s) /\
  (forall f' depth s, (2 * slen s + 2 <= f)%nat -> (2 * slen s + 2 <= f')%nat ->
     pelems lim f depth s = pelems lim f' depth s) /\
  (forall f' depth s, (2 * slen s + 2 <= f)%nat -> (2 * slen s + 2 <= f')%nat ->
     pmembers lim f depth s = pmembers lim f' depth s).
Proof.
  induction f as [|f (IHv & IHe & IHm)]; [split_and!; intros; lia|].
  split_and!; (intros [|f'] depth s Hf Hf'; [lia|]).
  - cbn [pval]. destruct (skip_ws s) as [|c r] eqn:Es; [done|]. apply skip_ws_cons in Es.
    destruct (byte_is 123 c), (byte_is 91 c); try done; (destruct (lim <? depth + 1); [done|]);
      (destruct (skip_ws r) as [|d r'] eqn:Er; [done|]); apply skip_ws_cons in Er;
      rewrite ?(IHm f'), ?(IHe f') by (cbn [slen]; lia); done.
  - cbn [pelems]. rewrite (IHv f') by lia. destruct (pval lim f' depth s) as [[v r]|] eqn:Ev; [|done].
    apply pval_shorter in Ev. cbn. destruct (skip_ws r) as [|c r'] eqn:Ec; [done|].
    apply skip_ws_cons in Ec. by rewrite (IHe f') by lia.
  - cbn [pmembers]. destruct (skip_ws s) as [|q r0] eqn:Eq; [done|]. apply skip_ws_cons in Eq.
    destruct (byte_is 34 q); [|done]. destruct (unquote r0) as [[k r1]|] eqn:Ek; [|done].
    apply unquote_shorter in Ek. cbn. destruct (skip_ws r1) as [|c r2] eqn:Ec; [done|].
    apply skip_ws_cons in Ec. destruct (byte_is 58 c); [|done]. rewrite (IHv f') by lia.
    destruct (pval lim f' depth r2) as [[v r3]|] eqn:Ev; [|done]. apply pval_shorter in Ev. cbn.
    destruct (skip_ws r3) as [|e r4] eqn:Ee; [done|]. apply skip_ws_cons in Ee.
    by rewrite (IHm f') by lia.
Qed.

(** The fuel of [parse_json] is enough: more of it never changes the answer. *)
Lemma parse_fuel_enough lim s extra :
  parse_json_lim lim s =
  ('(j, r) ← pval lim (parse_fuel s + extra) 0 s; if is_empty (skip_ws r) then Some j else None).
Proof.
  unfold parse_json_lim.
  by rewrite (proj1 (parser_fuel lim (parse_fuel s)) (parse_fuel s + extra)%nat) by (unfold parse_fuel; lia).
Qed.
