(* ===== verification/JsonPrefix.v ===== *)
(** * encoding/json: a text that breaks off

    A JSON text that is cut short is refused, unless only white space was lost: what the
    parser accepted of a text it accepts of every longer one ([parser_extends]), so the
    beginning of the text of an array or an object is either refused or has the same
    value ([parse_prefix]). *)

From Stdlib Require Import Ascii.
From stdpp Require Import options.
From S2P Require Import Prelude GoStrings Value JsonNumber Json JsonFacts JsonValid JsonFuel.

(** ** Numbers that something follows *)

Lemma take_digits_extends s d r u :
  r <> "" -> take_digits s = (d, r) -> take_digits (s +:+ u) = (d, r +:+ u).
Proof.
  intros Hr. revert d r Hr. induction s as [|a s IH]; intros d r Hr; cbn; [by intros [= <- <-]|].
  destruct (is_digit a); [|by intros [= <- <-]].
  destruct (take_digits s) as [d' r'] eqn:E. intros [= <- <-]. by rewrite (IH d' r').
Qed.

Lemma scan_int_extends s x r u : r <> "" -> scan_int s = Some (x, r) -> scan_int (s +:+ u) = Some (x, r +:+ u).
Proof.
  intros Hr. destruct s as [|a s]; cbn; [done|]. destruct (byte_is 48 a); [by intros [= <- <-]|].
  destruct (is_digit a); [|done]. destruct (take_digits s) as [d r'] eqn:E.
  intros [= <- <-]. by rewrite (take_digits_extends _ _ _ _ Hr E).
Qed.

Lemma scan_frac_extends s x r u : r <> "" -> scan_frac s = Some (x, r) -> scan_frac (s +:+ u) = Some (x, r +:+ u).
Proof.
  intros Hr. destruct s as [|a s]; cbn; [by intros [= <- <-]|]. destruct (byte_is 46 a); [|by intros [= <- <-]].
  destruct (take_digits s) as [d r'] eqn:E. destruct (is_empty d) eqn:Ed; [done|]. intros [= <- <-].
  by rewrite (take_digits_extends _ _ _ _ Hr E), Ed.
Qed.

Lemma scan_exp_extends s b x r u :
  r <> "" -> scan_exp s = Some (b, x, r) -> scan_exp (s +:+ u) = Some (b, x, r +:+ u).
Proof.
  intros Hr. destruct s as [|a s]; cbn; [by intros [= <- <- <-]|].
  destruct (byte_is 101 a || byte_is 69 a); [|by intros [= <- <- <-]].
  destruct s as [|c s]; [by cbn|]. cbn [String.append].
  destruct (byte_is 45 c), (byte_is 43 c);
    match goal with |- context [take_digits ?t] => destruct (take_digits t) as [d r'] eqn:E end;
    (destruct (is_empty d) eqn:Ed; [done|]); intros [= <- <- <-];
    apply (take_digits_extends _ _ _ u Hr) in E; cbn [String.append] in E; by rewrite E, Ed.
Qed.

Lemma scan_number_extends s l r u :
  r <> "" -> scan_number s = Some (l, r) -> scan_number (s +:+ u) = Some (l, r +:+ u).
Proof.
  intros Hr.
  assert (forall neg t, scan_unsigned neg t = Some (l, r) -> scan_unsigned neg (t +:+ u) = Some (l, r +:+ u)) as Hu.
  { intros neg t. unfold scan_unsigned.
    destruct (scan_int t) as [[n1 r1]|] eqn:E1; [|done].
    destruct (scan_frac r1) as [[n2 r2]|] eqn:E2; [|done].
    destruct (scan_exp r2) as [[[b3 n3] r3]|] eqn:E3; [|done]. intros [= <- <-].
    pose proof (scan_exp_length _ _ _ _ E3) as L3. pose proof (scan_frac_length _ _ _ E2) as L2.
    assert (r2 <> "") as H2 by (intros ->; destruct r3; [done|cbn in L3; lia]).
    assert (r1 <> "") as H1 by (intros ->; destruct r2; [done|cbn in L2; lia]).
    by rewrite (scan_int_extends _ _ _ _ H1 E1), (scan_frac_extends _ _ _ _ H2 E2), (scan_exp_extends _ _ _ _ _ Hr E3). }
  destruct s as [|a s]; cbn; [done|]. case_match; intros Hs; [by apply Hu|]. by apply (Hu false (String a s)).
Qed.

(** ** String literals *)

Definition extends_by (u : string) (o o' : option (string * string)) : Prop :=
  forall x r, o = Some (x, r) -> o' = Some (x, r +:+ u).

Lemma cons_str_extends u p o o' : extends_by u o o' -> extends_by u (cons_str p o) (cons_str p o').
Proof. intros H x r ([y r'] & -> & [= <- <-])%bind_Some. by rewrite (H y r' eq_refl). Qed.

Lemma extends_none u o : extends_by u None o.
Proof. by intros x r. Qed.

Lemma u4_bytes a b c d : u4 a b c d = true -> cont b = true /\ cont c = true.
Proof.
  unfold u4, cont, in_range. rewrite !andb_true_iff, !orb_true_iff, !andb_true_iff, !N.leb_le. lia.
Qed.
Lemma u3_bytes a b c : u3 a b c = true -> cont b = true.
Proof.
  unfold u3, cont, in_range. rewrite !andb_true_iff, !orb_true_iff, !andb_true_iff, !N.leb_le. lia.
Qed.

Lemma byte_is_ne n m a : byte_is n a = true -> n <> m -> byte_is m a = false.
Proof. unfold byte_is. intros ->%N.eqb_eq Hne. by apply N.eqb_neq. Qed.

Lemma cont_plain b :
  cont b = true -> byte_is 34 b = false /\ byte_is 92 b = false /\ (bval b <? 32)%N = false /\ is_ascii b = false.
Proof.
  unfold cont, in_range, byte_is, is_ascii. rewrite andb_true_iff, !N.leb_le, !N.eqb_neq, !N.ltb_ge. lia.
Qed.

(** Literals that end in the middle of a character or of an escape are refused. *)
Lemma cont_cut1 b : cont b = true -> unquote (String b "") = None.
Proof. intros (H1 & H2 & H3 & H4)%cont_plain. cbn [unquote]. by rewrite H1, H2, H3, H4. Qed.

Lemma cont_cut2 b c : cont b = true -> cont c = true -> unquote (String b (String c "")) = None.
Proof.
  intros Hb Hc. pose proof (cont_plain b Hb) as (H1 & H2 & H3 & H4). cbn [unquote]. rewrite H1, H2, H3, H4.
  assert (u2 b c = false) as ->.
  { unfold u2, cont, in_range in *. apply andb_true_iff in Hb as [Hb1 Hb2]. apply N.leb_le in Hb1, Hb2.
    apply andb_false_iff. left. apply andb_false_iff. left. apply N.leb_gt. lia. }
  apply cont_cut1 in Hc. cbn [unquote] in Hc. by rewrite Hc.
Qed.

Lemma escape_cut x y t :
  byte_is 92 x = true -> byte_is 117 y = true -> (slen t < 4)%nat -> unquote (String x (String y t)) = None.
Proof.
  intros Hx Hy Ht. cbn [unquote]. rewrite (byte_is_ne _ 34 _ Hx), Hx by done.
  rewrite (byte_is_ne _ 34 _ Hy), (byte_is_ne _ 92 _ Hy), (byte_is_ne _ 47 _ Hy), (byte_is_ne _ 98 _ Hy),
    (byte_is_ne _ 102 _ Hy), (byte_is_ne _ 110 _ Hy), (byte_is_ne _ 114 _ Hy), (byte_is_ne _ 116 _ Hy), Hy by done.
  cbn [orb]. destruct t as [|? [|? [|? [|? t]]]]; try done. cbn in Ht. lia.
Qed.

Lemma backslash_cut x : byte_is 92 x = true -> unquote (String x "") = None.
Proof. intros Hx. cbn [unquote]. by rewrite (byte_is_ne _ 34 _ Hx), Hx by done. Qed.

(** The second half of a surrogate pair, after the first. *)
Definition low_half (s : string) : option (N * string) :=
  match s with
  | String x (String y (String g1 (String g2 (String g3 (String g4 r))))) =>
      lo ← (if byte_is 92 x && byte_is 117 y then hex4 g1 g2 g3 g4 else None); Some (lo, r)
  | _ => None
  end.

Lemma surrogate_unfold cp r5 :
  match r5 with
  | String x (String y (String g1 (String g2 (String g3 (String g4 r11))))) =>
      match (if byte_is 92 x && byte_is 117 y then hex4 g1 g2 g3 g4 else None) with
      | Some lo =>
          if is_high cp && is_low lo
          then cons_str (utf8_encode (65536 + (cp - 55296) * 1024 + (lo - 56320))) (unquote r11)
          else cons_str fffd (unquote r5)
      | None => cons_str fffd (unquote r5)
      end
  | _ => cons_str fffd (unquote r5)
  end =
  match low_half r5 with
  | Some (lo, r11) =>
      if is_high cp && is_low lo
      then cons_str (utf8_encode (65536 + (cp - 55296) * 1024 + (lo - 56320))) (unquote r11)
      else cons_str fffd (unquote r5)
  | None => cons_str fffd (unquote r5)
  end.
Proof. unfold low_half. destruct r5 as [|x [|y [|g1 [|g2 [|g3 [|g4 r11]]]]]]; try done. by case_match. Qed.

Lemma low_half_extends s u :
  (low_half s = None /\ unquote s = None) \/
  low_half (s +:+ u) = (fun '(lo, r) => (lo, r +:+ u)) <$> low_half s.
Proof.
  destruct (low_half s) as [[lo r]|] eqn:E.
  { right. destruct s as [|x [|y [|g1 [|g2 [|g3 [|g4 t]]]]]]; try done. cbn in E |- *.
    destruct (byte_is 92 x && byte_is 117 y); [|done]. destruct (hex4 g1 g2 g3 g4); [|done]. cbn in E |- *. by simplify_eq. }
  destruct (low_half (s +:+ u)) as [[lo r]|] eqn:E'; [|by right]. left. split; [done|].
  assert (forall x y t, s +:+ u = String x (String y t) -> byte_is 92 x = true /\ byte_is 117 y = true) as Hxy.
  { intros x y t Ht. rewrite Ht in E'. cbn in E'. destruct t as [|g1 [|g2 [|g3 [|g4 t]]]]; try done.
    destruct (byte_is 92 x), (byte_is 117 y); try done. }
  destruct s as [|x [|y t]]; [done|..].
  - destruct u as [|y u]; [done|]. destruct (Hxy x y u eq_refl) as [Hx _]. by apply backslash_cut.
  - destruct (Hxy x y (t +:+ u) eq_refl) as [Hx Hy]. apply escape_cut; [done..|].
    destruct t as [|g1 [|g2 [|g3 [|g4 t]]]]; cbn; try lia. exfalso. cbn in E, E'. rewrite Hx, Hy in *. cbn in E, E'.
    by destruct (hex4 g1 g2 g3 g4).
Qed.

Lemma low_half_length s lo r : low_half s = Some (lo, r) -> (slen r <= slen s)%nat.
Proof.
  destruct s as [|x [|y [|g1 [|g2 [|g3 [|g4 t]]]]]]; try done. cbn. intros (n & _ & [= _ <-])%bind_Some. lia.
Qed.

Lemma unquote_extends s u : extends_by u (unquote s) (unquote (s +:+ u)).
Proof.
  induction s as [s IH] using (induction_ltof1 _ slen).
  assert (forall p r, (slen r < slen s)%nat -> extends_by u (cons_str p (unquote r)) (cons_str p (unquote (r +:+ u))))
    as Hc by (intros p r Hr; by apply cons_str_extends, IH).
  destruct s as [|a s]; [apply extends_none|]. cbn [String.append]. cbn [slen] in Hc. cbn [unquote].
  destruct (byte_is 34 a); [by intros x r [= <- <-]|]. destruct (byte_is 92 a).
  - destruct s as [|e r1]; [apply extends_none|]. cbn [String.append]. cbn [slen] in Hc.
    destruct (byte_is 34 e || byte_is 92 e || byte_is 47 e); [apply Hc; lia|].
    do 5 (match goal with |- context [byte_is ?n e] => destruct (byte_is n e); [apply Hc; lia|] end).
    destruct (byte_is 117 e); [|apply extends_none].
    destruct r1 as [|h1 [|h2 [|h3 [|h4 r5]]]]; try apply extends_none. cbn [String.append]. cbn [slen] in Hc.
    destruct (hex4 h1 h2 h3 h4) as [cp|]; [|apply extends_none].
    destruct (is_surrogate cp); [|apply Hc; lia]. rewrite !surrogate_unfold.
    destruct (low_half_extends r5 u) as [[Hl Hn]|Hl]; [rewrite Hl, Hn; apply extends_none|]. rewrite Hl.
    destruct (low_half r5) as [[lo r11]|] eqn:El; cbn [fmap option_fmap option_map]; [|apply Hc; lia].
    apply low_half_length in El. destruct (is_high cp && is_low lo); apply Hc; lia.
  - destruct (bval a <? 32)%N; [apply extends_none|]. destruct (is_ascii a); [apply Hc; lia|].
    destruct s as [|b r2]; [apply extends_none|]. cbn [String.append]. cbn [slen] in Hc.
    destruct (u2 a b) eqn:E2; [apply Hc; lia|]. destruct r2 as [|c r3].
    { destruct (cont b) eqn:Eb; [rewrite cont_cut1 by done; apply extends_none|].
      specialize (Hc fffd (String b "") ltac:(cbn; lia)). cbn [String.append] in Hc |- *.
      destruct u as [|c u]; [done|]. destruct (u3 a b c) eqn:E3; [by apply u3_bytes in E3; rewrite E3 in Eb|].
      destruct u as [|d u]; [done|]. destruct (u4 a b c d) eqn:E4; [|done].
      apply u4_bytes in E4 as [E4 _]. congruence. }
    cbn [String.append]. cbn [slen] in Hc. destruct (u3 a b c) eqn:E3; [apply Hc; lia|]. destruct r3 as [|d r4].
    { destruct (cont b && cont c) eqn:Ebc.
      { apply andb_true_iff in Ebc as [Eb Ec]. rewrite cont_cut2 by done. apply extends_none. }
      specialize (Hc fffd (String b (String c "")) ltac:(cbn; lia)). cbn [String.append] in Hc |- *.
      destruct u as [|d u]; [done|]. destruct (u4 a b c d) eqn:E4; [|done].
      apply u4_bytes in E4 as [E4 E5]. by rewrite E4, E5 in Ebc. }
    cbn [String.append]. cbn [slen] in Hc. destruct (u4 a b c d); [apply Hc; lia|].
    apply (Hc fffd (String b (String c (String d r4)))). cbn. lia.
Qed.

(** ** Values *)

Lemma skip_ws_extends s c r u : skip_ws s = String c r -> skip_ws (s +:+ u) = String c (r +:+ u).
Proof.
  unfold skip_ws. induction s as [|a s IH]; cbn; [done|]. destruct (is_ws a); [done|]. by intros [= <- <-].
Qed.

Lemma strip_prefix_extends p s r u : strip_prefix p s = Some r -> strip_prefix p (s +:+ u) = Some (r +:+ u).
Proof. intros ->%strip_prefix_spec. apply strip_prefix_spec. by rewrite string_app_assoc. Qed.

Definition is_number (j : json) : bool := match j with JNum _ => true | _ => false end.

(** A value other than a number ends where it ends, whatever follows; so does a number
    that something follows. *)
Lemma parser_extends lim u fuel :
  (forall depth s j r, pval lim fuel depth s = Some (j, r) -> is_number j = false \/ r <> "" ->
     pval lim fuel depth (s +:+ u) = Some (j, r +:+ u)) /\
  (forall depth s l r, pelems lim fuel depth s = Some (l, r) -> pelems lim fuel depth (s +:+ u) = Some (l, r +:+ u)) /\
  (forall depth s l r, pmembers lim fuel depth s = Some (l, r) -> pmembers lim fuel depth (s +:+ u) = Some (l, r +:+ u)).
Proof.
  induction fuel as [|fuel (IHv & IHe & IHm)]; [by split_and!|]. split_and!; intros depth s.
  - intros j r. cbn [pval]. destruct (skip_ws s) as [|c r0] eqn:Es; [done|]. rewrite (skip_ws_extends _ _ _ _ Es).
    destruct (byte_is 123 c).
    { destruct (lim <? depth + 1); [done|]. destruct (skip_ws r0) as [|d r'] eqn:Er; [done|].
      rewrite (skip_ws_extends _ _ _ _ Er). destruct (byte_is 125 d); [by intros [= <- <-]|].
      intros ([ms r2] & Hm%IHm & [= <- <-])%bind_Some _. cbn [String.append] in Hm. by rewrite Hm. }
    destruct (byte_is 91 c).
    { destruct (lim <? depth + 1); [done|]. destruct (skip_ws r0) as [|d r'] eqn:Er; [done|].
      rewrite (skip_ws_extends _ _ _ _ Er). destruct (byte_is 93 d); [by intros [= <- <-]|].
      intros ([es r2] & He%IHe & [= <- <-])%bind_Some _. cbn [String.append] in He. by rewrite He. }
    destruct (byte_is 34 c).
    { intros ([x r'] & Hx & [= <- <-])%bind_Some _. apply unquote_extends with (u := u) in Hx. by rewrite Hx. }
    do 3 (match goal with |- context [byte_is ?n c] => destruct (byte_is n c) end;
      [intros (r' & Hx & [= <- <-])%bind_Some _; apply strip_prefix_extends with (u := u) in Hx; by rewrite Hx|]).
    intros ([l r'] & Hx & [= <- <-])%bind_Some [?|Hr]; [done|].
    apply scan_number_extends with (u := u) in Hx; [|done]. cbn [String.append] in Hx. by rewrite Hx.
  - intros l r. cbn [pelems]. intros ([v r0] & Hv & Hrest)%bind_Some.
    destruct (skip_ws r0) as [|c r'] eqn:Ec; [done|].
    rewrite (IHv _ _ _ _ Hv) by (right; by intros ->). cbn [mbind option_bind]. rewrite (skip_ws_extends _ _ _ _ Ec).
    destruct (byte_is 93 c); [by injection Hrest as <- <-|]. destruct (byte_is 44 c); [|done].
    apply bind_Some in Hrest as ([vs r2] & Hvs%IHe & [= <- <-]). by rewrite Hvs.
  - intros l r. cbn [pmembers]. destruct (skip_ws s) as [|q r0] eqn:Eq; [done|].
    rewrite (skip_ws_extends _ _ _ _ Eq). destruct (byte_is 34 q); [|done].
    intros ([k r1] & Hk & Hrest)%bind_Some. apply unquote_extends with (u := u) in Hk. rewrite Hk.
    cbn [mbind option_bind]. destruct (skip_ws r1) as [|c r2] eqn:Ec; [done|]. rewrite (skip_ws_extends _ _ _ _ Ec).
    destruct (byte_is 58 c); [|done]. apply bind_Some in Hrest as ([v r3] & Hv & Hrest).
    destruct (skip_ws r3) as [|e r4] eqn:Ee; [done|].
    rewrite (IHv _ _ _ _ Hv) by (right; by intros ->). cbn [mbind option_bind]. rewrite (skip_ws_extends _ _ _ _ Ee).
    destruct (byte_is 125 e); [by injection Hrest as <- <-|]. destruct (byte_is 44 e); [|done].
    apply bind_Some in Hrest as ([ms r5] & Hms%IHm & [= <- <-]). by rewrite Hms.
Qed.

(** What begins like a number is a number or nothing. *)
Lemma number_extends lim fuel depth s l r u j r' :
  pval lim fuel depth s = Some (JNum l, r) -> pval lim fuel depth (s +:+ u) = Some (j, r') -> is_number j = true.
Proof.
  destruct fuel as [|fuel]; [done|]. cbn [pval]. destruct (skip_ws s) as [|c r0] eqn:Es; [done|].
  rewrite (skip_ws_extends _ _ _ _ Es).
  destruct (byte_is 123 c).
  { destruct (lim <? depth + 1); [done|]. destruct (skip_ws r0) as [|d ?]; [done|]. destruct (byte_is 125 d); [done|].
    by intros ([? ?] & _ & [=])%bind_Some. }
  destruct (byte_is 91 c).
  { destruct (lim <? depth + 1); [done|]. destruct (skip_ws r0) as [|d ?]; [done|]. destruct (byte_is 93 d); [done|].
    by intros ([? ?] & _ & [=])%bind_Some. }
  destruct (byte_is 34 c); [by intros ([? ?] & _ & [=])%bind_Some|].
  do 3 (match goal with |- context [byte_is ?n c] => destruct (byte_is n c) end;
    [by intros (? & _ & [=])%bind_Some|]).
  intros _ ([? ?] & _ & [= <- _])%bind_Some. done.
Qed.

(** ** The beginning of a text *)

(** A text that breaks off is refused, or has the value of the whole text. *)
Lemma parse_prefix p u j j' :
  parse_json (p +:+ u) = Some j -> is_number j = false -> parse_json p = Some j' -> j' = j.
Proof.
  unfold parse_json. rewrite (parse_fuel_enough _ p (2 * slen u)). unfold parse_json_lim.
  replace (parse_fuel (p +:+ u)) with (parse_fuel p + 2 * slen u)%nat
    by (unfold parse_fuel; rewrite string_length_app; lia).
  set (fuel := (parse_fuel p + 2 * slen u)%nat).
  intros ([v r] & Hv & Hr)%bind_Some Hj ([v' r'] & Hv' & Hr')%bind_Some.
  destruct (is_empty (skip_ws r)) eqn:E; [|done]. injection Hr as ->.
  destruct (is_empty (skip_ws r')) eqn:E'; [|done]. injection Hr' as ->.
  destruct (is_number j') eqn:Hn.
  - destruct j'; try done. rewrite (number_extends _ _ _ _ _ _ _ _ _ Hv' Hv) in Hj. done.
  - destruct (parser_extends maxNestingDepth u fuel) as [He _]. rewrite (He _ _ _ _ Hv' (or_introl Hn)) in Hv. congruence.
Qed.

(** Half a list of names is refused, the list without its last line break is not. *)
Example prefix_refused :
  parse_json "[true,fal" = None /\ parse_json ("[true]" +:+ nl) = parse_json "[true]" /\ is_Some (parse_json "[true]").
Proof. vm_compute. by eauto. Qed.
