(* ===== verification/JsonStruct.v ===== *)
(** * Structs and encoding/json

    Decoding: a member is stored into the field whose JSON name equals its key, upper and
    lower case apart; unknown keys are skipped; null leaves a field as it is; a value of
    another type is an error. Every caller discards the struct after an error, so
    decoding stops at the first one. *)

From Stdlib Require Import Ascii.
From stdpp Require Import options.
From S2P Require Import Prelude GoStrings Value JsonNumber Json JsonFacts.

(** Case folding of keys against ASCII names: ASCII letters, U+017F (s), U+212A (k). *)
Fixpoint fold_key (s : string) : string :=
  match s with
  | EmptyString => ""
  | String a r =>
      match r with
      | String b r2 =>
          if in_range 197 197 a && in_range 191 191 b then String (byte_of 115) (fold_key r2)
          else match r2 with
               | String c r3 =>
                   if in_range 226 226 a && in_range 132 132 b && in_range 170 170 c
                   then String (byte_of 107) (fold_key r3)
                   else String (lower_byte a) (fold_key r)
               | EmptyString => String (lower_byte a) (fold_key r)
               end
      | EmptyString => String (lower_byte a) ""
      end
  end.
Definition key_is (k name : string) : bool := str_eqb (fold_key k) (fold_key name).

Definition dec_string (j : json) (old : string) : option string :=
  match j with JStr s => Some s | JNull => Some old | _ => None end.
Definition dec_bool (j : json) (old : bool) : option bool :=
  match j with JBool b => Some b | JNull => Some old | _ => None end.

(** An integer literal within int64: no fraction, no exponent. *)
Definition lit_int (l : num_lit) : option Z :=
  if is_empty (nl_frac l) && is_empty (nl_exp l) then
    let v := digits_val 0 (nl_int l) in
    let z := if nl_neg l then - v else v in
    if (int64_min <=? z) && (z <=? int64_max) then Some z else None
  else None.
Definition dec_int (j : json) (old : Z) : option Z :=
  match j with JNum l => lit_int l | JNull => Some old | _ => None end.

Fixpoint dec_elems (l : list json) (old : list string) : option (list string) :=
  match l with
  | [] => Some []
  | j :: l' =>
      s ← dec_string j (default "" (head old));
      rest ← dec_elems l' (tail old);
      Some (s :: rest)
  end.
Definition dec_strings (j : json) (old : list string) : option (list string) :=
  match j with JArr l => dec_elems l old | JNull => Some [] | _ => None end.

(** Storing an object into a struct, member by member. *)
Definition dec_struct {A} (field : string -> json -> A -> option A) (j : json) (old : A) : option A :=
  match j with
  | JObj l => foldl (fun acc '(k, x) => a ← acc; field k x a) (Some old) l
  | JNull => Some old
  | _ => None
  end.

(** ** Encoding *)

(** [json.Marshal] of a struct: its fields in the order they are declared. *)
Definition marshal_object (ms : list (string * value)) : option string :=
  ts ← mapM (fun kv => t ← marshal kv.2; Some (json_string kv.1 +:+ ":" +:+ t)) ms;
  Some ("{" +:+ join "," ts +:+ "}").

(** An object parses to its members. *)
Lemma parse_object lim ms t :
  marshal_object ms = Some t -> 1 <= lim ->
  (forall kv, kv ∈ ms -> num_wf kv.2 = true /\ 1 + vdepth kv.2 <= lim) ->
  parse_json_lim lim t = Some (JObj ((fun kv => (utf8_coerce kv.1, json_of kv.2)) <$> ms)).
Proof.
  unfold marshal_object. intros (us & Hus & Ht)%bind_Some Hlim Hms. apply mapM_Some in Hus.
  assert (Forall2 member_as ms us) as Hall.
  { eapply Forall2_impl_elem; [exact Hus|]. intros [k v] u Hin (tv & Htv & [= <-])%bind_Some.
    exists tv. split; [done|]. apply marshal_parses; [done|]. by apply (Hms (k, v)). }
  assert (t = "{" +:+ join "," us +:+ "}") as Heq by congruence. unfold parse_json_lim, parse_fuel.
  assert (pval lim (2 * String.length t + 2) 0 t =
    Some (JObj ((fun kv => (utf8_coerce kv.1, json_of kv.2)) <$> ms), "")) as ->; [|done].
  rewrite <- (string_app_nil_r t) at 2. rewrite Heq. apply pval_object; [done|lia| |lia].
  intros kv Hkv. destruct (Hms kv Hkv). lia.
Qed.

(** ** Decoding what was encoded *)

Lemma digits_val_pretty_N_go x s : digits_val 0 (pretty_N_go x s) = digits_val (Z.of_N x) s.
Proof.
  revert s. induction (N.lt_wf_0 x) as [x _ IH]; intros s.
  destruct (decide (x = 0)%N) as [->|Hx]; [by rewrite pretty_N_go_0|].
  rewrite pretty_N_go_step by lia. rewrite IH by (apply N.div_lt; lia). cbn [digits_val]. f_equal.
  pose proof (N.mod_lt x 10 ltac:(done)) as Hm. pose proof (N.div_mod x 10 ltac:(done)) as Hd.
  assert (bval (pretty_N_char (x mod 10)) = 48 + x mod 10)%N as ->.
  { generalize dependent (x mod 10)%N. intros m Hm _.
    assert (m = 0 \/ m = 1 \/ m = 2 \/ m = 3 \/ m = 4 \/ m = 5 \/ m = 6 \/ m = 7 \/ m = 8 \/ m = 9)%N
      as Hcases by lia. by repeat destruct Hcases as [->|Hcases]; subst. }
  clear IH. revert Hd. generalize (x / 10)%N (x mod 10)%N. intros q m Hd.
  replace (48 + m - 48)%N with m by lia. rewrite Hd, N2Z.inj_add, N2Z.inj_mul. lia.
Qed.

Lemma digits_val_pretty p : digits_val 0 (pretty (Npos p)) = Zpos p.
Proof. unfold pretty, pretty_N. rewrite decide_False by done. by rewrite digits_val_pretty_N_go. Qed.

Lemma lit_int_pretty z l :
  int64_min <= z <= int64_max -> scan_number (pretty z) = Some (l, "") -> lit_int l = Some z.
Proof.
  intros Hz. destruct z as [|p|p].
  - intros [= <-]. done.
  - change (pretty (Zpos p)) with (pretty (Npos p)). unfold scan_number.
    destruct (scan_unsigned_head _ _ _ _ (scan_pretty_pos false p)) as (a & r & E & Ha). rewrite E, Ha.
    rewrite <- E, scan_pretty_pos. intros [= <-]. unfold lit_int. cbn [nl_frac nl_exp nl_int nl_neg is_empty andb].
    rewrite digits_val_pretty. cbv zeta.
    rewrite (proj2 (Z.leb_le int64_min _)), (proj2 (Z.leb_le _ int64_max)) by lia. done.
  - change (pretty (Zneg p)) with (String (byte_of 45) (pretty (Npos p))). unfold scan_number.
    change (byte_is 45 (byte_of 45)) with true. cbv iota. rewrite scan_pretty_pos. intros [= <-].
    unfold lit_int. cbn [nl_frac nl_exp nl_int nl_neg is_empty andb]. rewrite digits_val_pretty. cbv zeta.
    change (- Zpos p) with (Zneg p).
    rewrite (proj2 (Z.leb_le int64_min _)), (proj2 (Z.leb_le _ int64_max)) by lia. done.
Qed.

Lemma lit_int_pretty_big z l :
  ~ (int64_min <= z <= int64_max) -> scan_number (pretty z) = Some (l, "") -> lit_int l = None.
Proof.
  intros Hz. assert ((int64_min <=? z) && (z <=? int64_max) = false) as Hb.
  { apply not_true_iff_false. rewrite andb_true_iff, !Z.leb_le. done. }
  destruct z as [|p|p].
  - exfalso. apply Hz. by split.
  - change (pretty (Zpos p)) with (pretty (Npos p)). unfold scan_number.
    destruct (scan_unsigned_head _ _ _ _ (scan_pretty_pos false p)) as (a & r & E & Ha). rewrite E, Ha.
    rewrite <- E, scan_pretty_pos. intros [= <-]. unfold lit_int. cbn [nl_frac nl_exp nl_int nl_neg is_empty andb].
    rewrite digits_val_pretty. cbv zeta. by rewrite Hb.
  - change (pretty (Zneg p)) with (String (byte_of 45) (pretty (Npos p))). unfold scan_number.
    change (byte_is 45 (byte_of 45)) with true. cbv iota. rewrite scan_pretty_pos. intros [= <-].
    unfold lit_int. cbn [nl_frac nl_exp nl_int nl_neg is_empty andb]. rewrite digits_val_pretty. cbv zeta.
    change (- Zpos p) with (Zneg p). by rewrite Hb.
Qed.

Lemma dec_int_copy z old :
  int64_min <= z <= int64_max -> dec_int (json_of (VInt z)) old = Some z.
Proof.
  intros Hz. cbn. unfold lit_text. destruct (scan_number_pretty z) as [l Hl]. rewrite Hl.
  by apply lit_int_pretty.
Qed.

Lemma dec_string_copy s old : valid_utf8 s = true -> dec_string (json_of (VString s)) old = Some s.
Proof. intros Hs%str_eqb_eq. cbn. by rewrite Hs. Qed.

Lemma dec_strings_copy l :
  (forall s, s ∈ l -> valid_utf8 s = true) -> dec_strings (json_of (VList (VString <$> l))) [] = Some l.
Proof.
  cbn. induction l as [|s l IH]; intros Hl; [done|]. cbn.
  rewrite (proj1 (str_eqb_eq _ _) (Hl s ltac:(left))). cbn. rewrite IH; [done|]. intros x Hx. apply Hl. by right.
Qed.
