(* ===== verification/Config.v ===== *)
(** * Project configuration: pkg/thuleconfig/types.go and internal/config/loader.go

    [thule.conf] is read as JSON first and, when that fails, by a line-oriented reader
    of a small YAML subset; [Validate] then checks the required fields. *)

From Stdlib Require Import Ascii.
From stdpp Require Import options.
From S2P Require Import Prelude GoStrings JsonNumber Json JsonStruct.

(** ** pkg/thuleconfig *)

Record HelmConfig := mkHelm { ReleaseName : string; ValuesFiles : list string }.
Record FluxConfig := mkFlux { IncludeKinds : list string }.
Record RenderConfig := mkRender {
  Mode : string; RenderPath : string; RenderHelm : HelmConfig; RenderFlux : FluxConfig }.
Record DiffConfig := mkDiff { Prune : bool; IgnoreFields : list string }.
Record PolicyConfig := mkPolicy { Profile : string }.
Record CommentConfig := mkComment { MaxResourceDetails : Z }.
Record Config := mkConfig {
  Version : string; Project : string; ClusterRef : string; ConfigNamespace : string;
  Render : RenderConfig; DiffCfg : DiffConfig; PolicyCfg : PolicyConfig; CommentCfg : CommentConfig }.

Definition zero_config : Config :=
  mkConfig "" "" "" "" (mkRender "" "" (mkHelm "" []) (mkFlux []))
    (mkDiff false []) (mkPolicy "") (mkComment 0).

(** Field updates, as the assignments through [cfg] of the source. *)
Definition set_version v c := mkConfig v (Project c) (ClusterRef c) (ConfigNamespace c) (Render c) (DiffCfg c) (PolicyCfg c) (CommentCfg c).
Definition set_project v c := mkConfig (Version c) v (ClusterRef c) (ConfigNamespace c) (Render c) (DiffCfg c) (PolicyCfg c) (CommentCfg c).
Definition set_cluster v c := mkConfig (Version c) (Project c) v (ConfigNamespace c) (Render c) (DiffCfg c) (PolicyCfg c) (CommentCfg c).
Definition set_namespace v c := mkConfig (Version c) (Project c) (ClusterRef c) v (Render c) (DiffCfg c) (PolicyCfg c) (CommentCfg c).
Definition set_render v c := mkConfig (Version c) (Project c) (ClusterRef c) (ConfigNamespace c) v (DiffCfg c) (PolicyCfg c) (CommentCfg c).
Definition set_diff v c := mkConfig (Version c) (Project c) (ClusterRef c) (ConfigNamespace c) (Render c) v (PolicyCfg c) (CommentCfg c).
Definition set_policy v c := mkConfig (Version c) (Project c) (ClusterRef c) (ConfigNamespace c) (Render c) (DiffCfg c) v (CommentCfg c).
Definition set_comment v c := mkConfig (Version c) (Project c) (ClusterRef c) (ConfigNamespace c) (Render c) (DiffCfg c) (PolicyCfg c) v.
Definition set_mode v r := mkRender v (RenderPath r) (RenderHelm r) (RenderFlux r).
Definition set_path v r := mkRender (Mode r) v (RenderHelm r) (RenderFlux r).
Definition set_helm v r := mkRender (Mode r) (RenderPath r) v (RenderFlux r).
Definition set_flux v r := mkRender (Mode r) (RenderPath r) (RenderHelm r) v.

(** ** [json.Unmarshal] into the configuration struct *)

Definition dec_helm := dec_struct (fun k x h =>
  if key_is k "releaseName" then s ← dec_string x (ReleaseName h); Some (mkHelm s (ValuesFiles h))
  else if key_is k "valuesFiles" then l ← dec_strings x (ValuesFiles h); Some (mkHelm (ReleaseName h) l)
  else Some h).
Definition dec_flux := dec_struct (fun k x f =>
  if key_is k "includeKinds" then l ← dec_strings x (IncludeKinds f); Some (mkFlux l) else Some f).
Definition dec_render := dec_struct (fun k x r =>
  if key_is k "mode" then s ← dec_string x (Mode r); Some (set_mode s r)
  else if key_is k "path" then s ← dec_string x (RenderPath r); Some (set_path s r)
  else if key_is k "helm" then h ← dec_helm x (RenderHelm r); Some (set_helm h r)
  else if key_is k "flux" then f ← dec_flux x (RenderFlux r); Some (set_flux f r)
  else Some r).
Definition dec_diff := dec_struct (fun k x d =>
  if key_is k "prune" then b ← dec_bool x (Prune d); Some (mkDiff b (IgnoreFields d))
  else if key_is k "ignoreFields" then l ← dec_strings x (IgnoreFields d); Some (mkDiff (Prune d) l)
  else Some d).
Definition dec_policy := dec_struct (fun k x p =>
  if key_is k "profile" then s ← dec_string x (Profile p); Some (mkPolicy s) else Some p).
Definition dec_comment := dec_struct (fun k x c =>
  if key_is k "maxResourceDetails" then z ← dec_int x (MaxResourceDetails c); Some (mkComment z)
  else Some c).
Definition dec_config := dec_struct (fun k x c =>
  if key_is k "version" then s ← dec_string x (Version c); Some (set_version s c)
  else if key_is k "project" then s ← dec_string x (Project c); Some (set_project s c)
  else if key_is k "clusterRef" then s ← dec_string x (ClusterRef c); Some (set_cluster s c)
  else if key_is k "namespace" then s ← dec_string x (ConfigNamespace c); Some (set_namespace s c)
  else if key_is k "render" then r ← dec_render x (Render c); Some (set_render r c)
  else if key_is k "diff" then d ← dec_diff x (DiffCfg c); Some (set_diff d c)
  else if key_is k "policy" then p ← dec_policy x (PolicyCfg c); Some (set_policy p c)
  else if key_is k "comment" then m ← dec_comment x (CommentCfg c); Some (set_comment m c)
  else Some c).

Definition unmarshal_config (content : string) : option Config :=
  j ← parse_json content; dec_config j zero_config.

(** ** decodeSimpleYAML *)

(** [strings.Trim(v, quotes)] for the double and the single quote *)
Definition trim_quotes (s : string) : string :=
  trim_set (fun a => byte_is 34 a || byte_is 39 a) s.

Record yaml_state := mkYaml { ys_cfg : Config; ys_section : string; ys_subsection : string }.

(** A list item: appended to the list the current section names. *)
Definition yaml_item (st : yaml_state) (item : string) : Config :=
  let cfg := ys_cfg st in
  let key := ys_section st +:+ "." +:+ ys_subsection st in
  if str_eqb key "diff.ignoreFields" then
    set_diff (mkDiff (Prune (DiffCfg cfg)) (IgnoreFields (DiffCfg cfg) ++ [item])) cfg
  else if str_eqb key "render.helm.valuesFiles" then
    let h := RenderHelm (Render cfg) in
    set_render (set_helm (mkHelm (ReleaseName h) (ValuesFiles h ++ [item])) (Render cfg)) cfg
  else if str_eqb key "render.flux.includeKinds" then
    let f := RenderFlux (Render cfg) in
    set_render (set_flux (mkFlux (IncludeKinds f ++ [item])) (Render cfg)) cfg
  else cfg.

(** A [key: value] line, by the current section. *)
Definition yaml_pair (st : yaml_state) (k v : string) : Config :=
  let cfg := ys_cfg st in
  let section := ys_section st in
  if str_eqb section "" then
    if str_eqb k "version" then set_version v cfg
    else if str_eqb k "project" then set_project v cfg
    else if str_eqb k "clusterRef" then set_cluster v cfg
    else if str_eqb k "namespace" then set_namespace v cfg
    else cfg
  else if str_eqb section "render" then
    if str_eqb (ys_subsection st) "" then
      if str_eqb k "mode" then set_render (set_mode v (Render cfg)) cfg
      else if str_eqb k "path" then set_render (set_path v (Render cfg)) cfg
      else cfg
    else if str_eqb (ys_subsection st) "helm" then
      if str_eqb k "releaseName" then
        set_render (set_helm (mkHelm v (ValuesFiles (RenderHelm (Render cfg)))) (Render cfg)) cfg
      else cfg
    else cfg
  else if str_eqb section "diff" then
    if str_eqb k "prune" then set_diff (mkDiff (str_eqb v "true") (IgnoreFields (DiffCfg cfg))) cfg
    else cfg
  else if str_eqb section "comment" then
    if str_eqb k "maxResourceDetails" then
      match atoi v with Some iv => set_comment (mkComment iv) cfg | None => cfg end
    else cfg
  else cfg.

(** One line of the input. *)
Definition yaml_line (st : yaml_state) (raw : string) : yaml_state :=
  let line := trim_space raw in
  if str_eqb line "" || has_prefix line "#" then st
  else
    let indent := zlen raw - zlen (trim_left (byte_is 32) raw) in
    if has_prefix line "- " then
      let item := trim_quotes (trim_space (trim_prefix line "- ")) in
      mkYaml (yaml_item st item) (ys_section st) (ys_subsection st)
    else if has_suffix line ":" then
      let key := trim_suffix line ":" in
      if indent =? 0 then mkYaml (ys_cfg st) key ""
      else if indent =? 2 then mkYaml (ys_cfg st) (ys_section st) key
      else st
    else match cut_char (byte_of 58) line with
         | None => st
         | Some (a, b) =>
             mkYaml (yaml_pair st (trim_space a) (trim_quotes (trim_space b)))
               (ys_section st) (ys_subsection st)
         end.

Definition decodeSimpleYAML (content : string) : result Config :=
  let st := foldl yaml_line (mkYaml zero_config "" "") (split_char newline content) in
  let cfg := ys_cfg st in
  if str_eqb (Version cfg) "" && str_eqb (Project cfg) "" && str_eqb (ClusterRef cfg) ""
     && str_eqb (ConfigNamespace cfg) "" && str_eqb (Mode (Render cfg)) ""
     && str_eqb (RenderPath (Render cfg)) ""
  then Err "invalid YAML/JSON config payload"
  else Ok cfg.

(** ** Decode, Validate, Load *)

Definition Decode (content : string) : result Config :=
  match unmarshal_config content with
  | Some cfg => Ok cfg
  | None => decodeSimpleYAML content
  end.

Definition valid_mode (m : string) : bool :=
  str_eqb m "yaml" || str_eqb m "kustomize" || str_eqb m "helm" || str_eqb m "flux".

Definition Validate (cfg : Config) : result unit :=
  if str_eqb (Version cfg) "" || str_eqb (Project cfg) "" || str_eqb (ClusterRef cfg) ""
     || str_eqb (ConfigNamespace cfg) ""
  then Err "missing required top-level fields: version, project, clusterRef, namespace"
  else if negb (valid_mode (Mode (Render cfg)))
  then Err ("unsupported render.mode " +:+ fmt_q (Mode (Render cfg)))
  else if str_eqb (RenderPath (Render cfg)) "" then Err "render.path is required"
  else Ok tt.

Definition ValidateBytes (content : string) : result unit :=
  let? cfg := Decode content in Validate cfg.

(** [Load], with the outcome of [os.ReadFile(path)] as its argument. *)
Definition Load (file : result string) : result Config :=
  match file with
  | Err e => Err ("read config: " +:+ e)
  | Ok content =>
      let? cfg := Decode content in
      match Validate cfg with
      | Err e => Err e
      | Ok _ => Ok cfg
      end
  end.
