(* ===== verification/ConfigFacts.v ===== *)
(** * internal/config: theorems

    A configuration that loads is complete; one written in the layout the
    line-oriented reader understands is read back exactly; and what the line-oriented reader does not read. *)

From Stdlib Require Import Ascii.
From stdpp Require Import options.
From S2P Require Import Prelude GoStrings GoPath JsonNumber Json JsonStruct Config.

(** ** Validation *)

Definition config_valid (cfg : Config) : Prop :=
  Version cfg <> "" /\ Project cfg <> "" /\ ClusterRef cfg <> "" /\ ConfigNamespace cfg <> "" /\
  Mode (Render cfg) ∈ ["yaml"; "kustomize"; "helm"; "flux"] /\ RenderPath (Render cfg) <> "".

Lemma valid_mode_spec m : valid_mode m = true <-> m ∈ ["yaml"; "kustomize"; "helm"; "flux"].
Proof.
  unfold valid_mode. rewrite !orb_true_iff, !str_eqb_eq, !elem_of_cons, elem_of_nil. tauto.
Qed.

Lemma Validate_valid cfg : Validate cfg = Ok tt <-> config_valid cfg.
Proof.
  unfold Validate, config_valid. rewrite <- valid_mode_spec.
  destruct (str_eqb (Version cfg) "") eqn:E1, (str_eqb (Project cfg) "") eqn:E2,
    (str_eqb (ClusterRef cfg) "") eqn:E3, (str_eqb (ConfigNamespace cfg) "") eqn:E4; cbn [orb];
    rewrite ?str_eqb_eq, ?str_eqb_neq in *; try (split; [done|tauto]).
  destruct (valid_mode (Mode (Render cfg))); cbn [negb]; [|split; [done|intuition discriminate]].
  destruct (str_eqb (RenderPath (Render cfg)) "") eqn:E5; rewrite ?str_eqb_eq, ?str_eqb_neq in *;
    split; try done; tauto.
Qed.

(** C24: loading either fails or returns a complete configuration, with every required
    field set and a render mode the renderer implements; and it accepts exactly the
    contents [ValidateBytes] accepts. *)
Theorem Load_valid file :
  (forall cfg, Load file = Ok cfg -> config_valid cfg) /\
  (forall content, file = Ok content -> is_ok (Load file) = is_ok (ValidateBytes content)).
Proof.
  split.
  - intros cfg. unfold Load. destruct file as [content|e]; [|done].
    destruct (Decode content) as [c|e]; cbn; [|done]. destruct (Validate c) as [[]|e] eqn:E; [|done].
    intros [= <-]. by apply Validate_valid.
  - intros content ->. unfold Load, ValidateBytes. destruct (Decode content) as [c|e]; cbn; [|done].
    by destruct (Validate c) as [[]|e].
Qed.

(** ** Texts the reader takes as they are *)

(** Printable ASCII without quotes. *)
Definition graphic (a : ascii) : bool :=
  in_range 33 126 a && negb (in_range 34 34 a) && negb (in_range 39 39 a).

Lemma graphic_not_space a : graphic a = true -> sp1 a = false.
Proof. destruct a as [[] [] [] [] [] [] [] []]; done. Qed.

Lemma trim_spaces_graphic s2 s3 a r :
  graphic a = true -> (forall b, s2 a b = false) -> (forall b c, s3 a b c = false) ->
  trim_spaces s2 s3 (String a r) = String a r.
Proof.
  intros Ha H2 H3. cbn. rewrite graphic_not_space by done. destruct r as [|b [|c r]]; [done| |].
  - by rewrite H2.
  - by rewrite H2, H3.
Qed.

Lemma graphic_sp2 a b : graphic a = true -> sp2 a b = false /\ sp2 b a = false.
Proof. destruct a as [[] [] [] [] [] [] [] []]; intros H; try discriminate H; split; try done; unfold sp2; by rewrite andb_false_r. Qed.

Lemma graphic_sp3 a b c : graphic a = true -> sp3 a b c = false /\ sp3 c b a = false.
Proof.
  destruct a as [[] [] [] [] [] [] [] []]; intros H; try discriminate H; split; try done; unfold sp3; cbn;
    by rewrite !andb_false_r.
Qed.

(** Texts that begin and end with a printable character. *)
Definition starts (s : string) : bool := match s with String a _ => graphic a | EmptyString => false end.
Definition edged (s : string) : bool := starts s && starts (String.rev s).

(** A scalar the reader takes as it is: printable ASCII, with no blank or quote at
    either end and no colon at the end. *)
Definition plain (s : string) : bool :=
  edged s && all_bytes (in_range 32 126) s && negb (has_suffix s ":").

Lemma starts_app a b : starts a = true -> starts (a +:+ b) = true.
Proof. by destruct a. Qed.

Lemma trim_space_edged s : edged s = true -> trim_space s = s.
Proof.
  unfold edged, trim_space. destruct s as [|a r]; [done|].
  destruct (String.rev (String a r)) as [|z t] eqn:E; [by rewrite andb_false_r|]. intros [Ha Hz]%andb_prop.
  rewrite (trim_spaces_graphic sp2 sp3), E, trim_spaces_graphic; try done.
  - by rewrite <- E, string_rev_involutive.
  - intros b. by destruct (graphic_sp2 z b Hz).
  - intros b c. by destruct (graphic_sp3 z b c Hz).
  - intros b. by destruct (graphic_sp2 a b Ha).
  - intros b c. by destruct (graphic_sp3 a b c Ha).
Qed.

Lemma trim_space_indent n s : edged s = true -> trim_space (String.app (String.concat "" (replicate n " ")) s) = s.
Proof.
  intros Hs. assert (trim_spaces sp2 sp3 (String.concat "" (replicate n " ") +:+ s) = trim_spaces sp2 sp3 s) as H.
  { induction n as [|n IH]; [done|]. destruct n as [|n]; [done|]. exact IH. }
  unfold trim_space. rewrite H. exact (trim_space_edged s Hs).
Qed.

Lemma edged_app_mid a m b : starts a = true -> edged b = true -> edged (a +:+ m +:+ b) = true.
Proof.
  unfold edged. intros Ha [_ Hb]%andb_prop. rewrite !string_rev_app, string_app_assoc.
  by rewrite !starts_app.
Qed.

Lemma graphic_edged s : s <> "" -> all_bytes graphic s = true -> edged s = true.
Proof.
  intros Hne Hs. unfold edged. destruct s as [|a r]; [done|].
  pose proof Hs as Hr. rewrite <- all_bytes_rev in Hr.
  destruct (String.rev (String a r)) as [|z t] eqn:E.
  - apply (f_equal String.rev) in E. by rewrite string_rev_involutive in E.
  - cbn in Hs, Hr |- *. apply andb_prop in Hs as [-> _], Hr as [-> _]. done.
Qed.

Lemma plain_spec s :
  plain s = true -> s <> "" /\ all_bytes (in_range 32 126) s = true /\ has_suffix s ":" = false /\ edged s = true.
Proof.
  unfold plain. intros [[He Hg]%andb_prop Hs]%andb_prop.
  split_and!; [by intros ->|done|by apply negb_true_iff|done].
Qed.

Lemma graphic_not_quote a : graphic a = true -> byte_is 34 a || byte_is 39 a = false.
Proof. destruct a as [[] [] [] [] [] [] [] []]; done. Qed.

Lemma trim_quotes_edged s : edged s = true -> trim_quotes s = s.
Proof.
  unfold edged, trim_quotes, trim_set, trim_right. destruct s as [|a r]; [done|].
  destruct (String.rev (String a r)) as [|z t] eqn:E; [by rewrite andb_false_r|].
  intros [Ha%graphic_not_quote Hz%graphic_not_quote]%andb_prop.
  cbn [trim_left]. rewrite Ha, E. cbn [trim_left]. by rewrite Hz, <- E, string_rev_involutive.
Qed.

(** ** Lines *)

Definition indent (n : nat) : string := String.concat "" (replicate n " ").

Definition key_char (a : ascii) : bool := graphic a && negb (bool_decide (a = byte_of 58)).
Definition key_ok (k : string) : bool :=
  starts k && all_bytes key_char k && negb (has_prefix k "#") && negb (has_prefix k "-").

Lemma has_prefix_1 c a b : a <> "" -> has_prefix (a +:+ b) (String c "") = has_prefix a (String c "").
Proof. destruct a as [|x a]; [done|]. intros _. unfold has_prefix. cbn. by destruct (ascii_dec _ _). Qed.

Lemma has_prefix_2 c d a : has_prefix a (String c "") = false -> has_prefix a (String c (String d "")) = false.
Proof. destruct a as [|x a]; [done|]. unfold has_prefix. cbn. by destruct (ascii_dec _ _). Qed.

Lemma has_suffix_app a b c : b <> "" -> has_suffix (a +:+ b) (String c "") = has_suffix b (String c "").
Proof.
  intros Hb. unfold has_suffix. rewrite string_rev_app. apply has_prefix_1. intros H.
  apply (f_equal String.rev) in H. by rewrite string_rev_involutive in H.
Qed.

Lemma cut_char_app c a b :
  all_bytes (fun k => negb (bool_decide (k = c))) a = true -> cut_char c (a +:+ String c b) = Some (a, b).
Proof.
  induction a as [|x a IH]; cbn; [by destruct (ascii_dec c c)|]. intros [Hx Ha]%andb_prop.
  destruct (ascii_dec x c) as [->|_]; [by rewrite bool_decide_eq_true_2 in Hx|]. by rewrite IH.
Qed.

Lemma key_ok_spec k :
  key_ok k = true -> edged k = true /\ k <> "" /\ has_prefix k "#" = false /\ has_prefix k "-" = false /\
  all_bytes (fun a => negb (bool_decide (a = byte_of 58))) k = true.
Proof.
  unfold key_ok. rewrite !andb_true_iff, !negb_true_iff. intros [[[Hs Ha] Hh] Hd].
  assert (k <> "") by (intros ->; done). split_and!; try done.
  - apply graphic_edged; [done|]. eapply all_bytes_impl; [|done]. by intros a [? _]%andb_prop.
  - eapply all_bytes_impl; [|done]. by intros a [_ ?]%andb_prop.
Qed.

Lemma scalar_line st n k v :
  key_ok k = true -> plain v = true ->
  yaml_line st (indent n +:+ k +:+ ": " +:+ v) =
  mkYaml (yaml_pair st k v) (ys_section st) (ys_subsection st).
Proof.
  intros (Hk & Hne & Hh & Hd & Hc)%key_ok_spec (Hvne & _ & Hcolon & Hv)%plain_spec.
  unfold yaml_line, indent.
  rewrite trim_space_indent by (apply edged_app_mid; [by apply andb_prop in Hk as [? _]|done]).
  assert (str_eqb (k +:+ ": " +:+ v) "" || has_prefix (k +:+ ": " +:+ v) "#" = false) as ->.
  { rewrite has_prefix_1, Hh by done. by destruct k. }
  rewrite (has_prefix_2 _ _ (k +:+ ": " +:+ v)) by (by rewrite has_prefix_1).
  rewrite <- string_app_assoc, has_suffix_app, Hcolon by done. rewrite string_app_assoc.
  change (": " +:+ v) with (String (byte_of 58) (indent 1 +:+ v)).
  rewrite cut_char_app by done. unfold indent. rewrite trim_space_indent by done.
  by rewrite trim_space_edged, trim_quotes_edged.
Qed.

Lemma strip_dash f : trim_prefix ("- " +:+ f) "- " = f.
Proof. apply trim_prefix_app. Qed.

Lemma item_line st n f :
  plain f = true ->
  yaml_line st (indent n +:+ "- " +:+ f) = mkYaml (yaml_item st f) (ys_section st) (ys_subsection st).
Proof.
  intros (Hfne & _ & _ & Hf)%plain_spec. unfold yaml_line, indent.
  rewrite trim_space_indent by (apply (edged_app_mid "-" " "); done).
  assert (str_eqb ("- " +:+ f) "" || has_prefix ("- " +:+ f) "#" = false) as -> by done.
  assert (has_prefix ("- " +:+ f) "- " = true) as -> by done.
  by rewrite strip_dash, trim_space_edged, trim_quotes_edged.
Qed.

(** ** Writing a configuration *)

(** A field that is set. *)
Definition field (n : nat) (k v : string) : list string :=
  if str_eqb v "" then [] else [indent n +:+ k +:+ ": " +:+ v].
Definition items (fs : list string) : list string := (fun f => "    - " +:+ f) <$> fs.

(** A configuration file for every field the line-oriented reader knows. It takes the
    nested lists under dotted keys, and it has no place for the policy profile. *)
Definition config_lines (cfg : Config) : list string :=
  field 0 "version" (Version cfg) ++ field 0 "project" (Project cfg) ++
  field 0 "clusterRef" (ClusterRef cfg) ++ field 0 "namespace" (ConfigNamespace cfg) ++
  ["render:"] ++ field 2 "mode" (Mode (Render cfg)) ++ field 2 "path" (RenderPath (Render cfg)) ++
  ["  helm:"] ++ field 4 "releaseName" (ReleaseName (RenderHelm (Render cfg))) ++
  ["  helm.valuesFiles:"] ++ items (ValuesFiles (RenderHelm (Render cfg))) ++
  ["  flux.includeKinds:"] ++ items (IncludeKinds (RenderFlux (Render cfg))) ++
  ["diff:"] ++ field 2 "prune" (if Prune (DiffCfg cfg) then "true" else "false") ++
  ["  ignoreFields:"] ++ items (IgnoreFields (DiffCfg cfg)) ++
  ["comment:"] ++ field 2 "maxResourceDetails" (fmt_d (MaxResourceDetails (CommentCfg cfg))).

Definition print_config (cfg : Config) : string := join nl (config_lines cfg).

(** Empty, or taken as it is. *)
Definition scalar (s : string) : Prop := s = "" \/ plain s = true.

(** The scalars are empty or plain and not all empty, the items are plain, the number is
    an int, and there is no policy profile. *)
Definition printable (cfg : Config) : Prop :=
  Forall scalar [Version cfg; Project cfg; ClusterRef cfg; ConfigNamespace cfg; Mode (Render cfg);
                 RenderPath (Render cfg); ReleaseName (RenderHelm (Render cfg))] /\
  Forall (fun f => plain f = true) (ValuesFiles (RenderHelm (Render cfg))) /\
  Forall (fun f => plain f = true) (IncludeKinds (RenderFlux (Render cfg))) /\
  Forall (fun f => plain f = true) (IgnoreFields (DiffCfg cfg)) /\
  in_int64 (MaxResourceDetails (CommentCfg cfg)) /\ PolicyCfg cfg = mkPolicy "" /\
  (Version cfg <> "" \/ Project cfg <> "" \/ ClusterRef cfg <> "" \/ ConfigNamespace cfg <> "" \/
   Mode (Render cfg) <> "" \/ RenderPath (Render cfg) <> "").

(** Reading a field, when it was empty before. *)
Lemma field_line st n k v (set : string -> Config -> Config) :
  key_ok k = true -> scalar v -> yaml_pair st k v = set v (ys_cfg st) -> set "" (ys_cfg st) = ys_cfg st ->
  foldl yaml_line st (field n k v) = mkYaml (set v (ys_cfg st)) (ys_section st) (ys_subsection st).
Proof.
  intros Hk Hv Hp Hset. unfold field. destruct (str_eqb v "") eqn:E.
  - apply str_eqb_eq in E as ->. cbn. rewrite Hset. by destruct st.
  - apply str_eqb_neq in E. destruct Hv as [|Hv]; [done|]. cbn [foldl]. by rewrite scalar_line, Hp.
Qed.

(** Reading the items of a list. *)
Lemma items_lines st fs (add : list string -> Config -> Config) :
  Forall (fun f => plain f = true) fs ->
  (forall c f, yaml_item (mkYaml c (ys_section st) (ys_subsection st)) f = add [f] c) ->
  (forall c, add [] c = c) -> (forall c l f, add l (add [f] c) = add (f :: l) c) ->
  foldl yaml_line st (items fs) = mkYaml (add fs (ys_cfg st)) (ys_section st) (ys_subsection st).
Proof.
  intros Hf Hitem Hnil Hcons. revert st Hitem. induction Hf as [|f fs Hp _ IH]; intros st Hitem.
  - cbn. rewrite Hnil. by destruct st.
  - unfold items. rewrite fmap_cons. cbn [foldl]. fold (items fs).
    change ("    - " +:+ f) with (indent 4 +:+ "- " +:+ f). rewrite item_line by done.
    rewrite IH by done. cbn [ys_cfg ys_section ys_subsection].
    replace (yaml_item st f) with (add [f] (ys_cfg st)) by (symmetry; destruct st; apply Hitem).
    by rewrite Hcons.
Qed.

Definition no_newline (s : string) : bool := all_bytes (fun a => negb (bool_decide (a = newline))) s.

Lemma split_lines ls : ls <> [] -> Forall no_newline ls -> split_char newline (join nl ls) = ls.
Proof.
  intros Hne H. induction H as [|l ls Hl Hls IH]; [done|].
  destruct ls as [|l' ls]; [by apply split_char_no_sep|].
  change (join nl (l :: l' :: ls)) with (l +:+ String newline (join nl (l' :: ls))).
  rewrite split_char_sep, IH; done.
Qed.

Lemma plain_no_newline s : plain s = true -> no_newline s.
Proof.
  intros (_ & Hg & _)%plain_spec. apply Is_true_true. eapply all_bytes_impl; [|done].
  intros a Ha. apply negb_true_iff, bool_decide_eq_false. intros ->. done.
Qed.

Lemma prefix_no_newline p s : no_newline p -> no_newline s -> no_newline (p +:+ s).
Proof. unfold no_newline. rewrite all_bytes_app. intros. by apply andb_prop_intro. Qed.

Lemma field_no_newline n k v : no_newline (indent n +:+ k) -> scalar v -> Forall no_newline (field n k v).
Proof.
  intros Hk Hv. unfold field. destruct (str_eqb v "") eqn:E; [constructor|]. apply str_eqb_neq in E.
  destruct Hv as [|Hv]; [done|]. constructor; [|constructor]. rewrite <- string_app_assoc.
  apply prefix_no_newline; [done|]. apply (prefix_no_newline ": "); [done|by apply plain_no_newline].
Qed.

Lemma items_no_newline fs : Forall (fun f => plain f = true) fs -> Forall no_newline (items fs).
Proof.
  intros Hf. unfold items. rewrite Forall_fmap. eapply Forall_impl; [exact Hf|]. intros f Hp. cbn.
  apply (prefix_no_newline "    - "); [done|by apply plain_no_newline].
Qed.

Lemma bool_scalar (b : bool) : scalar (if b then "true" else "false").
Proof. right. by destruct b. Qed.

Lemma pretty_pos_digits p : all_bytes is_digit (pretty (Npos p)) = true.
Proof.
  unfold pretty, pretty_N. rewrite decide_False by done.
  destruct (pretty_N_go_digits (Npos p) "" ltac:(done)) as (a & d & -> & Ha & Hd). rewrite string_app_nil_r. cbn.
  apply andb_true_iff. split; [by destruct a as [[] [] [] [] [] [] [] []]|by apply Is_true_true].
Qed.

Lemma fmt_d_scalar z : scalar (fmt_d z).
Proof.
  assert (forall s, s <> "" -> all_bytes (fun a => is_digit a || byte_is 45 a) s = true -> plain s = true) as Hd.
  { intros s Hne Hs. unfold plain. rewrite !andb_true_iff, negb_true_iff. split_and!.
    - apply graphic_edged; [done|]. eapply all_bytes_impl; [|exact Hs].
      by intros [[] [] [] [] [] [] [] []].
    - eapply all_bytes_impl; [|exact Hs]. by intros [[] [] [] [] [] [] [] []].
    - apply not_true_is_false. intros [r ->]%has_suffix_spec. rewrite all_bytes_app in Hs.
      by rewrite andb_false_r in Hs. }
  assert (forall p, all_bytes (fun a => is_digit a || byte_is 45 a) (pretty (Npos p)) = true) as Hp.
  { intros p. eapply all_bytes_impl; [|apply pretty_pos_digits]. by intros a ->. }
  right. destruct z as [|p|p]; [done| |].
  - apply Hd; [|apply Hp]. destruct (pretty_pos_head p) as (a & r & Hr & _).
    change (fmt_d (Zpos p)) with (pretty (Npos p)). by rewrite Hr.
  - apply Hd; [done|]. change (fmt_d (Zneg p)) with (String (byte_of 45) (pretty (Npos p))). cbn. apply Hp.
Qed.

Lemma config_lines_no_newline cfg : printable cfg -> Forall no_newline (config_lines cfg).
Proof.
  intros (Hs & H1 & H2 & H3 & _). rewrite !Forall_cons in Hs. destruct Hs as (S1 & S2 & S3 & S4 & S5 & S6 & S7 & _).
  unfold config_lines. rewrite !Forall_app. split_and!;
    lazymatch goal with
    | |- Forall _ (field _ _ _) => apply field_no_newline; [done|]
    | |- Forall _ (items _) => by apply items_no_newline
    | |- Forall _ [_] => by apply Forall_singleton
    end; assumption || apply bool_scalar || apply fmt_d_scalar.
Qed.

(** Reading one field or one list of the file. *)
Tactic Notation "read_field" uconstr(lem) :=
  rewrite lem; [cbn [ys_cfg ys_section ys_subsection]|reflexivity
    |assumption || apply bool_scalar || apply fmt_d_scalar|reflexivity|reflexivity].
Tactic Notation "read_items" uconstr(lem) :=
  rewrite lem; [cbn [ys_cfg ys_section ys_subsection]|assumption|reflexivity
    |by intros [? ? ? ? [? ? [] []] [] ? ?]; cbn; rewrite app_nil_r|by intros; cbn; rewrite <- (assoc_L (++))].

Lemma decode_lines cfg :
  printable cfg -> ys_cfg (foldl yaml_line (mkYaml zero_config "" "") (config_lines cfg)) = cfg.
Proof.
  intros (Hs & H1 & H2 & H3 & Hm & Hpol & _). rewrite !Forall_cons in Hs.
  destruct Hs as (S1 & S2 & S3 & S4 & S5 & S6 & S7 & _). unfold config_lines. rewrite !foldl_app.
  destruct cfg as [ver prj clu ns [mode path [rel vals] [kinds]] [pr ig] pol [mx]]. cbn in *. subst pol.
  read_field (field_line _ 0 "version" ver set_version).
  read_field (field_line _ 0 "project" prj set_project).
  read_field (field_line _ 0 "clusterRef" clu set_cluster).
  read_field (field_line _ 0 "namespace" ns set_namespace).
  change (yaml_line ?st "render:") with (mkYaml (ys_cfg st) "render" "").
  read_field (field_line _ 2 "mode" mode (fun v c => set_render (set_mode v (Render c)) c)).
  read_field (field_line _ 2 "path" path (fun v c => set_render (set_path v (Render c)) c)).
  change (yaml_line ?st "  helm:") with (mkYaml (ys_cfg st) (ys_section st) "helm").
  read_field (field_line _ 4 "releaseName" rel (fun v c => set_render (set_helm
    (mkHelm v (ValuesFiles (RenderHelm (Render c)))) (Render c)) c)).
  change (yaml_line ?st "  helm.valuesFiles:") with (mkYaml (ys_cfg st) (ys_section st) "helm.valuesFiles").
  read_items (items_lines _ vals (fun l c => set_render (set_helm (mkHelm (ReleaseName (RenderHelm (Render c)))
    (ValuesFiles (RenderHelm (Render c)) ++ l)) (Render c)) c)).
  change (yaml_line ?st "  flux.includeKinds:") with (mkYaml (ys_cfg st) (ys_section st) "flux.includeKinds").
  read_items (items_lines _ kinds (fun l c => set_render (set_flux
    (mkFlux (IncludeKinds (RenderFlux (Render c)) ++ l)) (Render c)) c)).
  change (yaml_line ?st "diff:") with (mkYaml (ys_cfg st) "diff" "").
  read_field (field_line _ 2 "prune" (if pr then "true" else "false")
    (fun v c => set_diff (mkDiff (str_eqb v "true") (IgnoreFields (DiffCfg c))) c)).
  change (yaml_line ?st "  ignoreFields:") with (mkYaml (ys_cfg st) (ys_section st) "ignoreFields").
  read_items (items_lines _ ig (fun l c => set_diff (mkDiff (Prune (DiffCfg c)) (IgnoreFields (DiffCfg c) ++ l)) c)).
  change (yaml_line ?st "comment:") with (mkYaml (ys_cfg st) "comment" "").
  read_field (field_line _ 2 "maxResourceDetails" (fmt_d mx)
    (fun v c => match atoi v with Some iv => set_comment (mkComment iv) c | None => c end)).
  rewrite atoi_fmt_d by done. by destruct pr.
Qed.

(** The files are not JSON. *)
Lemma print_config_not_json cfg : unmarshal_config (print_config cfg) = None.
Proof.
  assert (forall x l, exists t, join nl (x :: l) = x +:+ t) as Hj.
  { intros x [|y l]; [exists ""; by rewrite string_app_nil_r|by eexists]. }
  unfold print_config, config_lines. unfold field at 1 2 3 4.
  destruct (str_eqb (Version cfg) ""), (str_eqb (Project cfg) ""), (str_eqb (ClusterRef cfg) ""),
    (str_eqb (ConfigNamespace cfg) ""); cbn [app]; edestruct Hj as [t ->]; reflexivity.
Qed.

(** C23: a configuration written in the layout the line-oriented reader understands is
    read back unchanged: every field but the policy profile, with plain scalars, nested
    lists under dotted keys and no comments. The example of the README is not in this
    layout. *)
Theorem Decode_print cfg : printable cfg -> Decode (print_config cfg) = Ok cfg.
Proof.
  intros Hp. unfold Decode. rewrite print_config_not_json. unfold decodeSimpleYAML, print_config.
  rewrite split_lines; [| |by apply config_lines_no_newline].
  2:{ unfold config_lines. intros H. apply (f_equal length) in H. rewrite !length_app in H. cbn in H. lia. }
  rewrite decode_lines by done. destruct Hp as (_ & _ & _ & _ & _ & _ & Hne).
  assert (forall a, a <> "" -> str_eqb a "" = false) as Hn by (intros; by apply str_eqb_neq).
  destruct Hne as [H|[H|[H|[H|[H|H]]]]]; rewrite (Hn _ H), ?andb_false_r; done.
Qed.

(** *** What is not read *)

Lemma yaml_line_policy st raw : PolicyCfg (ys_cfg (yaml_line st raw)) = PolicyCfg (ys_cfg st).
Proof.
  unfold yaml_line, yaml_item, yaml_pair, set_render, set_diff, set_comment.
  repeat case_match; reflexivity.
Qed.

(** The line-oriented reader never sets the policy profile, so a project can only
    ask for the strict profile in a configuration written as JSON. *)
Theorem yaml_profile_unread content cfg :
  decodeSimpleYAML content = Ok cfg -> Profile (PolicyCfg cfg) = "".
Proof.
  unfold decodeSimpleYAML. set (st := foldl _ _ _).
  assert (PolicyCfg (ys_cfg st) = mkPolicy "") as Hst.
  { unfold st. generalize (split_char newline content). intros ls.
    induction ls as [|l ls IH] using rev_ind; [done|]. by rewrite foldl_snoc, yaml_line_policy. }
  case_match; [done|]. intros [= <-]. by rewrite Hst.
Qed.

Definition sample_cfg : Config :=
  mkConfig "v1" "payments" "prod-eu-1" "payments"
    (mkRender "helm" "charts/payments api" (mkHelm "payments" ["values.yaml"]) (mkFlux ["HelmRelease"; "ConfigMap"]))
    (mkDiff true ["metadata.annotations"]) (mkPolicy "") (mkComment (-5)).

Lemma Decode_print_witness : Decode (print_config sample_cfg) = Ok sample_cfg.
Proof.
  apply Decode_print. split; [repeat constructor; by right|]. do 3 (split; [repeat constructor|]).
  split; [split; vm_compute; discriminate|]. split; [reflexivity|]. left. discriminate.
Defined.

Definition readme_config : string :=
  join nl ["version: v1"; "project: payments"; "clusterRef: prod-eu-1"; "namespace: payments"; "render:";
    "  mode: flux"; "  path: manifests"; "  flux:"; "    includeKinds:"; "      - HelmRelease";
    "policy:"; "  profile: strict"].

Lemma yaml_profile_unread_witness :
  exists cfg, decodeSimpleYAML readme_config = Ok cfg /\ Profile (PolicyCfg cfg) = "".
Proof.
  destruct (decodeSimpleYAML readme_config) as [cfg|e] eqn:E.
  - exists cfg. split; [reflexivity|]. exact (yaml_profile_unread readme_config cfg E).
  - exfalso. assert (is_ok (decodeSimpleYAML readme_config) = true) as H by (vm_compute; reflexivity).
    rewrite E in H. discriminate H.
Defined.

(** Nested lists are not read either, and neither is a scalar after a comment sign, a
    top-level scalar below a section, or a scalar of [render] below a subsection. *)
Example yaml_include_kinds_unread :
  match Decode readme_config with
  | Ok cfg => IncludeKinds (RenderFlux (Render cfg)) = []
  | Err _ => False
  end.
Proof. vm_compute. reflexivity. Qed.

Example yaml_inline_comment_rejected :
  ValidateBytes (join nl ["version: v1"; "project: p"; "clusterRef: c"; "namespace: n"; "render:";
    "  mode: flux # yaml|kustomize|helm|flux"; "  path: manifests"]) =
  Err ("unsupported render.mode " +:+ fmt_q "flux # yaml|kustomize|helm|flux").
Proof. vm_compute. reflexivity. Qed.

Example yaml_late_top_level_unread :
  ValidateBytes (join nl ["version: v1"; "project: p"; "clusterRef: c"; "render:";
    "  mode: yaml"; "  path: manifests"; "namespace: n"]) =
  Err "missing required top-level fields: version, project, clusterRef, namespace".
Proof. vm_compute. reflexivity. Qed.

Example yaml_path_below_subsection_unread :
  ValidateBytes (join nl ["version: v1"; "project: p"; "clusterRef: c"; "namespace: n"; "render:";
    "  mode: helm"; "  helm:"; "    releaseName: r"; "  path: manifests"]) =
  Err "render.path is required".
Proof. vm_compute. reflexivity. Qed.
