(* ===== verification/Render.v ===== *)
(** * Rendering desired resources: internal/render/render.go

    The file system and gopkg.in/yaml.v3 are not part of the repository: they are the
    arguments [fs] and [yaml] of the definitions that use them. *)

From Stdlib Require Import Ascii.
From stdpp Require Import options.
From S2P Require Import Prelude GoStrings GoPath Value JsonNumber Config.

(** ** Resources *)

Record Resource := mkResource {
  APIVersion : string;
  Kind : string;
  Namespace : string;
  Name : string;
  Body : gmap string value;
  SourcePath : string
}.

(** [Resource.ID] *)
Definition ID (r : Resource) : string :=
  let ns := if str_eqb (Namespace r) "" then "_cluster" else Namespace r in
  APIVersion r +:+ "|" +:+ Kind r +:+ "|" +:+ ns +:+ "|" +:+ Name r.

(** ** The environment of the renderer *)

(** One call of the function [filepath.WalkDir] is given: path, entry name, whether
    it is a directory, and the error it reports. *)
Record walk_entry := mkWalk { we_path : string; we_name : string; we_dir : bool; we_err : option string }.

(** The operating system's answers: [os.Stat] (whether a directory), the sequence of
    calls [filepath.WalkDir] makes below a directory, [os.ReadFile]. *)
Record FS := mkFS {
  fs_stat : string -> result bool;
  fs_walk : string -> list walk_entry;
  fs_read : string -> result string
}.

(** yaml.v3's decoder on a text: the documents decoded into [map[string]any] before
    the end of the input ([None]) or before the first error. A null document decodes
    to a nil map, which no operation tells from an empty one. *)
Definition yaml_decoder := string -> list (gmap string value) * option string.

(** ** Flux filtering *)

Definition flux_kinds : list string :=
  ["HelmRelease"; "Kustomization"; "GitRepository"; "OCIRepository"].

Definition filterFluxResources (resources : list Resource) (cfg : Config) : list Resource :=
  let include := IncludeKinds (RenderFlux (Render cfg)) in
  match include with
  | [] => resources
  | _ =>
      let allowed : gset string := list_to_set flux_kinds ∪ list_to_set include in
      filter (fun r => Kind r ∈ allowed) resources
  end.

(** ** Parsing documents *)

(** One decoded document; [None] when it is skipped (empty, or not a resource). *)
Definition resource_of_doc (sourcePath : string) (doc : gmap string value) : option Resource :=
  if decide (doc = ∅) then None
  else
    let apiVersion := as_string (mget doc "apiVersion") in
    let kind := as_string (mget doc "kind") in
    let meta := default ∅ (mget_map doc "metadata") in
    let name := as_string (mget meta "name") in
    let namespace := as_string (mget meta "namespace") in
    if str_eqb apiVersion "" || str_eqb kind "" || str_eqb name "" then None
    else Some (mkResource apiVersion kind namespace name doc sourcePath).

Definition parseYAMLDocumentsWithSource (yaml : yaml_decoder) (content sourcePath : string)
    : result (list Resource) :=
  match yaml content with
  | (_, Some e) => Err e
  | (docs, None) => Ok (omap (resource_of_doc sourcePath) docs)
  end.

Definition parseYAMLDocuments (yaml : yaml_decoder) (content : string) : result (list Resource) :=
  parseYAMLDocumentsWithSource yaml content "".

(** The regular expressions (?m)^key:\s*\S+ : at the start of a line, [key:] followed,
    after white space of any length (which may run over line ends), by another
    character. *)
Definition re_space (a : ascii) : bool := in_range 9 10 a || in_range 12 13 a || in_range 32 32 a.

Definition key_match (key s : string) : bool :=
  match strip_prefix (key +:+ ":") s with
  | Some rest => negb (is_empty (trim_left re_space rest))
  | None => false
  end.

Fixpoint line_match (key : string) (at_start : bool) (s : string) : bool :=
  (at_start && key_match key s) ||
  match s with
  | EmptyString => false
  | String a r => line_match key (bool_decide (a = newline)) r
  end.

Definition looksLikeKubernetesManifest (content : string) : bool :=
  line_match "apiVersion" true content && line_match "kind" true content.

(** ** renderYAMLPath *)

(** The function given to [filepath.WalkDir]: stops at the first error it is handed,
    collects the YAML files. *)
Fixpoint walk_collect (l : list walk_entry) (files : list string) : result (list string) :=
  match l with
  | [] => Ok files
  | e :: l' =>
      match we_err e with
      | Some err => Err err
      | None =>
          if we_dir e then walk_collect l' files
          else if has_suffix (we_name e) ".yaml" || has_suffix (we_name e) ".yml"
          then walk_collect l' (files ++ [we_path e])
          else walk_collect l' files
      end
  end.

(** The loop over the sorted files; a file that does not parse fails the render only
    when it looks like a manifest. *)
Fixpoint parse_files (fs : FS) (yaml : yaml_decoder) (files : list string) (out : list Resource)
    : result (list Resource) :=
  match files with
  | [] => Ok out
  | f :: rest =>
      match fs_read fs f with
      | Err e => Err e
      | Ok content =>
          match parseYAMLDocumentsWithSource yaml content f with
          | Err e =>
              if looksLikeKubernetesManifest content then Err ("parse " +:+ f +:+ ": " +:+ e)
              else parse_files fs yaml rest out
          | Ok res => parse_files fs yaml rest (out ++ res)
          end
      end
  end.

Definition renderYAMLPath (fs : FS) (yaml : yaml_decoder) (path : string) : result (list Resource) :=
  match fs_stat fs path with
  | Err e => Err e
  | Ok isdir =>
      let files := if isdir then walk_collect (fs_walk fs path) [] else Ok [path] in
      let? fl := files in parse_files fs yaml (sort_strings fl) []
  end.

(** ** RenderProject *)

Definition RenderProject (fs : FS) (yaml : yaml_decoder) (projectRoot : string) (cfg : Config)
    : result (list Resource) :=
  let target := join2 projectRoot (RenderPath (Render cfg)) in
  let mode := Mode (Render cfg) in
  if str_eqb mode "yaml" || str_eqb mode "kustomize" || str_eqb mode "helm"
  then renderYAMLPath fs yaml target
  else if str_eqb mode "flux" then
    let? resources := renderYAMLPath fs yaml target in
    Ok (filterFluxResources resources cfg)
  else Err ("render mode " +:+ fmt_q mode +:+ " not implemented").
