(* ===== verification/RenderFacts.v ===== *)
(** * internal/render: theorems *)

From Stdlib Require Import Ascii.
From stdpp Require Import options.
From S2P Require Import Prelude GoStrings GoPath Value JsonNumber Config Render.

(** ** Resources *)

(** The document is a resource: it states a version, a kind and a name, all non-empty
    strings. The namespace is the one it states, or empty. *)
Definition describes (doc : gmap string value) (r : Resource) : Prop :=
  APIVersion r <> "" /\ Kind r <> "" /\ Name r <> "" /\ Body r = doc /\
  doc !! "apiVersion" = Some (VString (APIVersion r)) /\ doc !! "kind" = Some (VString (Kind r)) /\
  exists meta, doc !! "metadata" = Some (VMap meta) /\ meta !! "name" = Some (VString (Name r)) /\
    (meta !! "namespace" = Some (VString (Namespace r)) \/
     Namespace r = "" /\ forall ns, meta !! "namespace" <> Some (VString ns)).

Lemma as_string_lookup (m : gmap string value) k s :
  s <> "" -> as_string (mget m k) = s <-> m !! k = Some (VString s).
Proof.
  intros Hs. unfold mget. destruct (m !! k) as [v|]; cbn; [|naive_solver]. destruct v; cbn; naive_solver.
Qed.

Lemma as_string_or_empty (m : gmap string value) k s :
  as_string (mget m k) = s <->
  m !! k = Some (VString s) \/ s = "" /\ forall t, m !! k <> Some (VString t).
Proof.
  unfold mget. destruct (m !! k) as [v|]; cbn; [|naive_solver]. destruct v; cbn; naive_solver.
Qed.

Lemma resource_of_doc_spec path doc r :
  resource_of_doc path doc = Some r <-> describes doc r /\ SourcePath r = path.
Proof.
  unfold resource_of_doc, describes. split.
  - case_decide; [done|]. set (meta := default ∅ (mget_map doc "metadata")).
    destruct (str_eqb (as_string (mget doc "apiVersion")) "") eqn:E1; [done|].
    destruct (str_eqb (as_string (mget doc "kind")) "") eqn:E2; [done|].
    destruct (str_eqb (as_string (mget meta "name")) "") eqn:E3; [done|]. cbn [orb]. intros [= <-].
    apply str_eqb_neq in E1, E2, E3. cbn. split; [|done]. split_and!; [done..| | |].
    + by apply as_string_lookup.
    + by apply as_string_lookup.
    + exists meta. split_and!; [|by apply as_string_lookup|by apply as_string_or_empty]. unfold meta in *.
      destruct (mget_map doc "metadata") as [m|] eqn:Em; [by apply mget_map_Some|]. exfalso. by apply E3.
  - intros ((H1 & H2 & H3 & Hb & Ha & Hk & meta & Hm & Hn & Hns) & Hp).
    rewrite decide_False by (intros ->; by rewrite lookup_empty in Ha).
    rewrite (proj2 (mget_map_Some _ _ _) Hm). cbn [from_option]. unfold id.
    rewrite (proj2 (as_string_lookup _ _ _ H1) Ha), (proj2 (as_string_lookup _ _ _ H2) Hk),
      (proj2 (as_string_lookup _ _ _ H3) Hn), (proj2 (as_string_or_empty _ _ _) Hns).
    rewrite !(proj2 (str_eqb_neq _ _)) by done. cbn. destruct r. cbn in *. by subst.
Qed.

(** ** What looks like a manifest *)

(** The text has a line that starts with the key and a colon, and something other than
    white space after that. *)
Definition has_key (key content : string) : Prop :=
  exists before after, content = before +:+ key +:+ ":" +:+ after /\
    (before = "" \/ exists b, before = b +:+ nl) /\ all_bytes re_space after = false.

Lemma trim_left_empty p s : is_empty (trim_left p s) = all_bytes p s.
Proof. induction s as [|a r IH]; [done|]. cbn. by destruct (p a). Qed.

Lemma key_match_spec key s :
  key_match key s = true <-> exists after, s = key +:+ ":" +:+ after /\ all_bytes re_space after = false.
Proof.
  unfold key_match. destruct (strip_prefix (key +:+ ":") s) as [rest|] eqn:E.
  - apply strip_prefix_spec in E as ->. rewrite trim_left_empty, negb_true_iff, string_app_assoc. split; [eauto|].
    intros (after & Heq & Hb). apply (inj (String.append key)) in Heq. by injection Heq as <-.
  - split; [done|]. intros (after & -> & _). rewrite <- string_app_assoc in E.
    assert (strip_prefix (key +:+ ":") ((key +:+ ":") +:+ after) = Some after) by by apply strip_prefix_spec.
    congruence.
Qed.

Lemma line_match_spec key start s :
  line_match key start s = true <->
  exists before after, s = before +:+ key +:+ ":" +:+ after /\
    (before = "" /\ start = true \/ exists b, before = b +:+ nl) /\ all_bytes re_space after = false.
Proof.
  revert start. induction s as [|a r IH]; intros start; cbn [line_match].
  - rewrite orb_false_r, andb_true_iff, key_match_spec. split.
    + intros [-> (after & Heq & Hb)]. exists "", after. eauto.
    + intros (before & after & Heq & [[-> ->]|[b ->]] & Hb); [eauto|]. by destruct b.
  - rewrite orb_true_iff, andb_true_iff, key_match_spec, IH. split.
    + intros [[-> (after & Heq & Hb)]|(before & after & -> & Hs & Hb)]; [exists "", after; eauto|].
      exists (String a before), after. split_and!; [done| |done]. right.
      destruct Hs as [[-> ->%bool_decide_eq_true]|[b ->]]; [by exists ""|by exists (String a b)].
    + intros (before & after & Heq & [[-> ->]|[b ->]] & Hb); [left; eauto|right].
      destruct b as [|a' b]; cbn in Heq; injection Heq as -> ->.
      * exists "", after. split_and!; [done|left; by rewrite bool_decide_true|done].
      * exists (b +:+ nl), after. split_and!; [done|right; by exists b|done].
Qed.

Lemma looks_like_spec content :
  looksLikeKubernetesManifest content = true <-> has_key "apiVersion" content /\ has_key "kind" content.
Proof.
  assert (forall key, line_match key true content = true <-> has_key key content) as Hk.
  { intros key. rewrite line_match_spec. unfold has_key. split; intros (b & a & ? & Hs & ?); exists b, a.
    - split_and!; [done| |done]. destruct Hs as [[? _]|?]; auto.
    - split_and!; [done| |done]. destruct Hs as [?|?]; auto. }
  unfold looksLikeKubernetesManifest. by rewrite andb_true_iff, !Hk.
Qed.

(** ** Files *)

Section RenderFacts.
Context (fs : FS) (yaml : yaml_decoder).

(** A regular file below the path whose name ends in .yaml or .yml. *)
Definition yaml_file (path f : string) : Prop :=
  exists e stem, e ∈ fs_walk fs path /\ we_dir e = false /\ we_path e = f /\
    (we_name e = stem +:+ ".yaml" \/ we_name e = stem +:+ ".yml").

(** The file fails the rendering: it cannot be read, or it looks like a manifest and
    does not parse. *)
Definition file_error (f err : string) : Prop :=
  fs_read fs f = Err err \/
  exists content docs e, fs_read fs f = Ok content /\ yaml content = (docs, Some e) /\
    has_key "apiVersion" content /\ has_key "kind" content /\ err = "parse " +:+ f +:+ ": " +:+ e.

Lemma walk_collect_spec l acc :
  match walk_collect l acc with
  | Ok files =>
      (forall e, e ∈ l -> we_err e = None) /\
      forall f, f ∈ files <-> f ∈ acc \/ exists e stem, e ∈ l /\ we_dir e = false /\ we_path e = f /\
        (we_name e = stem +:+ ".yaml" \/ we_name e = stem +:+ ".yml")
  | Err err => exists before e after, l = before ++ e :: after /\ we_err e = Some err /\
      forall e', e' ∈ before -> we_err e' = None
  end.
Proof using Type.
  revert acc. induction l as [|e l IH]; intros acc; cbn [walk_collect].
  { split; [by intros e ?%elem_of_nil|]. intros f. split; [by left|]. by intros [?|(e & ? & ?%elem_of_nil & _)]. }
  destruct (we_err e) as [err|] eqn:Ee.
  { exists [], e, l. split_and!; [done|done|]. by intros e' ?%elem_of_nil. }
  assert (forall acc', (forall f, f ∈ acc' <-> f ∈ acc \/ exists stem, we_dir e = false /\ we_path e = f /\
      (we_name e = stem +:+ ".yaml" \/ we_name e = stem +:+ ".yml")) ->
    match walk_collect l acc' with
    | Ok files => (forall e', e' ∈ e :: l -> we_err e' = None) /\
        forall f, f ∈ files <-> f ∈ acc \/ exists e' stem, e' ∈ e :: l /\ we_dir e' = false /\ we_path e' = f /\
          (we_name e' = stem +:+ ".yaml" \/ we_name e' = stem +:+ ".yml")
    | Err err => exists before e' after, e :: l = before ++ e' :: after /\ we_err e' = Some err /\
        forall e', e' ∈ before -> we_err e' = None
    end) as Hstep.
  { intros acc' Hacc. specialize (IH acc'). destruct (walk_collect l acc') as [files|err].
    - destruct IH as [Hno Hf]. split; [by intros e' [->|?]%elem_of_cons; [|apply Hno]|]. intros f. rewrite Hf, Hacc.
      setoid_rewrite elem_of_cons. naive_solver.
    - destruct IH as (before & e' & after & -> & He' & Hb). exists (e :: before), e', after.
      split_and!; [done|done|]. by intros x [->|?]%elem_of_cons; [|apply Hb]. }
  destruct (we_dir e) eqn:Ed; [apply Hstep; naive_solver|].
  destruct (has_suffix (we_name e) ".yaml" || has_suffix (we_name e) ".yml") eqn:Es; apply Hstep; intros f.
  - rewrite elem_of_app, list_elem_of_singleton. apply orb_true_iff in Es.
    rewrite !has_suffix_spec in Es. naive_solver.
  - apply orb_false_iff in Es as [E1 E2]. split; [by left|]. intros [?|(stem & _ & _ & [Hn|Hn])]; [done|..].
    + by rewrite (proj2 (has_suffix_spec _ _)) in E1 by eauto.
    + by rewrite (proj2 (has_suffix_spec _ _)) in E2 by eauto.
Qed.

(** What one file contributes, or its error. *)
Definition file_result (f : string) : result (list Resource) :=
  match fs_read fs f with
  | Err e => Err e
  | Ok content =>
      match yaml content with
      | (docs, None) => Ok (omap (resource_of_doc f) docs)
      | (_, Some e) =>
          if looksLikeKubernetesManifest content then Err ("parse " +:+ f +:+ ": " +:+ e) else Ok []
      end
  end.

Lemma file_result_spec f :
  match file_result f with
  | Ok rs => (forall err, ~ file_error f err) /\ forall r, r ∈ rs <-> SourcePath r = f /\
      exists content docs, fs_read fs f = Ok content /\ yaml content = (docs, None) /\
        Body r ∈ docs /\ describes (Body r) r
  | Err err => file_error f err
  end.
Proof.
  unfold file_result, file_error. destruct (fs_read fs f) as [content|e]; [|by left].
  destruct (yaml content) as [docs [e|]] eqn:Ey.
  - destruct (looksLikeKubernetesManifest content) eqn:El.
    + apply looks_like_spec in El as [? ?]. right. by exists content, docs, e.
    + split.
      * intros err [|(c & d & e' & [= <-] & _ & Ha & Hk & _)]; [done|].
        by rewrite (proj2 (looks_like_spec content)) in El.
      * intros r. split; [by intros ?%elem_of_nil|]. intros (_ & c & d & [= <-] & Hy & _). congruence.
  - split; [naive_solver congruence|]. intros r. rewrite list_elem_of_omap.
    setoid_rewrite resource_of_doc_spec. split.
    + intros (doc & Hd & Hr & Hp). split; [done|]. exists content, docs.
      assert (Body r = doc) as -> by apply Hr. done.
    + intros (Hp & c & d & [= <-] & Hy & Hd & Hr). rewrite Ey in Hy. injection Hy as <-. eauto.
Qed.

(** The first error, or all resources in order. *)
Fixpoint collect (files : list string) : result (list Resource) :=
  match files with
  | [] => Ok []
  | f :: rest =>
      match file_result f with
      | Err e => Err e
      | Ok rs => match collect rest with Err e => Err e | Ok rs' => Ok (rs ++ rs') end
      end
  end.

Lemma parse_files_collect files out :
  parse_files fs yaml files out =
  match collect files with Err e => Err e | Ok rs => Ok (out ++ rs) end.
Proof.
  revert out. induction files as [|f rest IH]; intros out; cbn [parse_files collect]; [by rewrite app_nil_r|].
  unfold file_result, parseYAMLDocumentsWithSource. destruct (fs_read fs f) as [content|e]; [|done].
  destruct (yaml content) as [docs [e|]].
  - destruct (looksLikeKubernetesManifest content); [done|]. rewrite IH. by destruct (collect rest).
  - rewrite IH. destruct (collect rest); [|done]. by rewrite (assoc_L (++)).
Qed.

Lemma collect_spec files :
  StronglySorted String.le files ->
  match collect files with
  | Ok rs =>
      (forall f err, f ∈ files -> ~ file_error f err) /\ StronglySorted String.le (SourcePath <$> rs) /\
      forall r, r ∈ rs <-> SourcePath r ∈ files /\ exists content docs,
        fs_read fs (SourcePath r) = Ok content /\ yaml content = (docs, None) /\
        Body r ∈ docs /\ describes (Body r) r
  | Err err => exists f, f ∈ files /\ file_error f err /\
      forall g err', g ∈ files -> str_lt g f -> ~ file_error g err'
  end.
Proof.
  induction files as [|f rest IH]; intros Hs; cbn [collect].
  { split_and!; [by intros f err ?%elem_of_nil|constructor|]. intros r. split; [by intros ?%elem_of_nil|].
    by intros [?%elem_of_nil _]. }
  inversion Hs as [|? ? Hs' Hle]; subst. specialize (IH Hs'). rewrite Forall_forall in Hle.
  pose proof (file_result_spec f) as Hf. destruct (file_result f) as [rs1|err].
  2:{ exists f. split; [left|]. split; [done|]. intros g err' [->|Hg]%elem_of_cons [Hl Hne]; [done|].
      exfalso. apply Hne. apply (anti_symm String.le); [done|by apply Hle]. }
  destruct Hf as [Hno Hf]. destruct (collect rest) as [rs2|err].
  - destruct IH as (Hno2 & Hsort & Hr). split_and!.
    + intros g err [->|Hg]%elem_of_cons; [done|by apply Hno2].
    + rewrite fmap_app.
      assert (Forall (fun r => SourcePath r = f) rs1) as Hall by (apply Forall_forall; intros r Hr1; by apply Hf).
      clear Hf. induction Hall as [|r rs1 <- Hall IHa]; [done|]. cbn. constructor; [done|].
      rewrite Forall_forall. intros x [Hx|Hx]%elem_of_app.
      * apply list_elem_of_fmap in Hx as (r' & -> & Hin). rewrite Forall_forall in Hall. by rewrite (Hall r').
      * apply Hle. apply list_elem_of_fmap in Hx as (r' & -> & Hin). by apply Hr in Hin as [? _].
    + intros r. rewrite elem_of_app, Hf, Hr, elem_of_cons. naive_solver.
  - destruct IH as (g & Hg & Herr & Hfirst). exists g. split; [by right|]. split; [done|].
    intros h err' [->|Hh]%elem_of_cons Hlt; [done|by eapply Hfirst].
Qed.
End RenderFacts.

(** C31: rendering a directory succeeds exactly when it can be walked and no YAML file in
    it fails, and then returns the resources of the documents in its files with names
    ending in .yaml or .yml, in the order of the files: those documents that state a
    version, a kind and a name. Otherwise it returns the first error of the walk, or of
    the first file by name that cannot be read, or looks like a manifest (has lines for
    its version and kind) and does not parse. *)
Theorem renderYAMLPath_resources fs yaml path :
  fs_stat fs path = Ok true ->
  match renderYAMLPath fs yaml path with
  | Ok rs =>
      (forall e, e ∈ fs_walk fs path -> we_err e = None) /\
      (forall f err, yaml_file fs path f -> ~ file_error fs yaml f err) /\
      StronglySorted String.le (SourcePath <$> rs) /\
      forall r, r ∈ rs <-> yaml_file fs path (SourcePath r) /\ exists content docs,
        fs_read fs (SourcePath r) = Ok content /\ yaml content = (docs, None) /\
        Body r ∈ docs /\ describes (Body r) r
  | Err err =>
      (exists before e after, fs_walk fs path = before ++ e :: after /\ we_err e = Some err /\
         forall e', e' ∈ before -> we_err e' = None) \/
      exists f, yaml_file fs path f /\ file_error fs yaml f err /\
        forall g err', yaml_file fs path g -> str_lt g f -> ~ file_error fs yaml g err'
  end.
Proof.
  intros Hs. unfold renderYAMLPath. rewrite Hs. pose proof (walk_collect_spec (fs_walk fs path) []) as Hw.
  destruct (walk_collect (fs_walk fs path) []) as [files|err]; [|by left].
  destruct Hw as [Hno Hfiles]. cbn [rbind]. rewrite parse_files_collect.
  assert (forall f, f ∈ sort_strings files <-> yaml_file fs path f) as Hy.
  { intros f. rewrite elem_of_sort_strings, Hfiles. unfold yaml_file. split; [|by right].
    by intros [?%elem_of_nil|?]. }
  pose proof (collect_spec fs yaml (sort_strings files) (sort_strings_sorted files)) as Hc.
  destruct (collect fs yaml (sort_strings files)) as [rs|err]; setoid_rewrite Hy in Hc; [|by right]. done.
Qed.

(** With a list of kinds to include, the flux mode keeps exactly the resources of
    those kinds and of Flux's own; without one it keeps all. *)
Theorem filterFlux_kinds resources cfg r :
  let include := IncludeKinds (RenderFlux (Render cfg)) in
  r ∈ filterFluxResources resources cfg <->
  r ∈ resources /\ (include = [] \/ Kind r ∈ flux_kinds \/ Kind r ∈ include).
Proof.
  cbn zeta. unfold filterFluxResources. destruct (IncludeKinds (RenderFlux (Render cfg))) as [|k ks].
  - split; [by intros ?; split; [|left]|by intros [? _]].
  - rewrite list_elem_of_filter, elem_of_union, !elem_of_list_to_set. split.
    + intros [? ?]. split; [done|by right].
    + intros [? [?|?]]; done.
Qed.

(** ** Identities *)

Definition no_bar (t : string) : bool := all_bytes (fun a => negb (bool_decide (a = byte_of 124))) t.

Lemma cluster_no_bar t : no_bar t -> no_bar (if str_eqb t "" then "_cluster" else t).
Proof. by destruct (str_eqb t ""). Qed.

(** Two resources with the same identity have the same version, kind, namespace
    and name, when these contain no bar and no namespace is the one that stands for
    cluster scope. *)
Theorem ID_identifies r1 r2 :
  no_bar (APIVersion r1) -> no_bar (APIVersion r2) -> no_bar (Kind r1) -> no_bar (Kind r2) ->
  no_bar (Namespace r1) -> no_bar (Namespace r2) ->
  Namespace r1 <> "_cluster" -> Namespace r2 <> "_cluster" -> ID r1 = ID r2 ->
  APIVersion r1 = APIVersion r2 /\ Kind r1 = Kind r2 /\ Namespace r1 = Namespace r2 /\ Name r1 = Name r2.
Proof.
  intros A1 A2 K1 K2 N1 N2 C1 C2 Heq. unfold ID in Heq.
  apply (sep_app_inj (byte_of 124)) in Heq as [HA Heq]; [|done..].
  apply (sep_app_inj (byte_of 124)) in Heq as [HK Heq]; [|done..].
  apply (sep_app_inj (byte_of 124)) in Heq as [HN Heq]; [|by apply cluster_no_bar..].
  split_and!; [done|done| |done].
  destruct (str_eqb (Namespace r1) "") eqn:E1, (str_eqb (Namespace r2) "") eqn:E2;
    rewrite ?str_eqb_eq in *; congruence.
Qed.

(** ** Instances *)

Definition one_doc : gmap string value :=
  {[ "apiVersion" := VString "v1"; "kind" := VString "Secret"; "metadata" := VMap {[ "name" := VString "s" ]} ]}.
Definition one_fs : FS :=
  mkFS (fun _ => Ok true) (fun _ => [mkWalk "d/s.yaml" "s.yaml" false None]) (fun _ => Ok "text").

Lemma renderYAMLPath_resources_witness :
  exists rs r, renderYAMLPath one_fs (fun _ => ([one_doc], None)) "d" = Ok rs /\ r ∈ rs /\ Kind r = "Secret".
Proof.
  pose proof (renderYAMLPath_resources one_fs (fun _ => ([one_doc], None)) "d" eq_refl) as H.
  assert (is_ok (renderYAMLPath one_fs (fun _ => ([one_doc], None)) "d") = true) as Hok by (vm_compute; reflexivity).
  destruct (renderYAMLPath one_fs (fun _ => ([one_doc], None)) "d") as [rs|e]; [|discriminate Hok].
  destruct H as (_ & _ & _ & Hr).
  exists rs, (mkResource "v1" "Secret" "" "s" one_doc "d/s.yaml"). split; [reflexivity|].
  split; [|reflexivity]. apply Hr. split.
  - exists (mkWalk "d/s.yaml" "s.yaml" false None), "s". split; [left|]. cbn. auto.
  - exists "text", [one_doc]. do 2 (split; [reflexivity|]). split; [left|].
    do 3 (split; [discriminate|]). split; [reflexivity|]. do 2 (split; [vm_compute; reflexivity|]).
    exists {[ "name" := VString "s" ]}. split; [vm_compute; reflexivity|]. split; [vm_compute; reflexivity|].
    right. split; [reflexivity|]. intros ns. vm_compute. discriminate.
Defined.

Lemma ID_identifies_witness : exists r1 r2, ID r1 = ID r2 /\ Name r1 = Name r2.
Proof.
  exists (mkResource "v1" "Secret" "a" "s" one_doc "x.yaml"), (mkResource "v1" "Secret" "a" "s" ∅ "").
  split; [reflexivity|]. apply ID_identifies; try (vm_compute; exact I); try discriminate. reflexivity.
Defined.
