(* ===== verification/Diff.v ===== *)
(** * Comparing desired and live resources: internal/diff/diff.go

    Definitions only; DiffFacts.v has the theorems. gopkg.in/yaml.v3's encoder is the
    argument [yaml_marshal]; [fmt_any] is fmt's %v on values encoding/json refuses, a
    branch no normalized body reaches. *)

From stdpp Require Import options.
From S2P Require Import Prelude GoStrings Value Json Render.

(** ** Data *)

Inductive Action := Create | Patch | Delete | NoOp.

Definition action_text (a : Action) : string :=
  match a with Create => "CREATE" | Patch => "PATCH" | Delete => "DELETE" | NoOp => "NO-OP" end.

#[export] Instance Action_eq_dec : EqDecision Action.
Proof. solve_decision. Defined.

Record Change := mkChange {
  ChangeID : string;
  ChangeAction : Action;
  ChangedKeys : list string;
  ChangedPaths : list string;
  AttributeDiff : list string;
  Risks : list string;
  CurrentYAML : string;
  DesiredYAML : string
}.

Record Summary := mkSummary { Creates : Z; Patches : Z; Deletes : Z; NoOps : Z }.

Record Options := mkOptions {
  PruneDeletes : bool;
  OptIgnoreFields : list string;
  IgnoreActualExtraFields : bool
}.

(** What [yaml.Marshal] does: a document, an error, or a panic [mustYAML] recovers. *)
Inductive yaml_out := YamlText (s : string) | YamlErr (e : string) | YamlPanic (e : string).

(** ** Comparison by encoding *)

(** [b, _ := json.Marshal(v)]: no bytes on error. *)
Definition marshal_or_empty (v : value) : string := default "" (marshal v).

Definition equalAny (a b : value) : bool := str_eqb (marshal_or_empty a) (marshal_or_empty b).
Definition equal (a b : gmap string value) : bool := equalAny (VMap a) (VMap b).

(** ** normalize *)

Definition deepCopyMap (m : gmap string value) : gmap string value :=
  match marshal (VMap m) with
  | None => ∅
  | Some b =>
      match unmarshal_any b with
      | Some (VMap out) => out
      | _ => ∅
      end
  end.

Fixpoint pruneNilValues (v : value) : value :=
  match v with
  | VMap m =>
      VMap (omap (fun x => let clean := pruneNilValues x in
                           if is_nil clean then None else Some clean) m)
  | VList l => VList (pruneNilValues <$> l)
  | _ => v
  end.

(** A path of keys; every key but the last must lead to a map. *)
Fixpoint delete_parts (obj : gmap string value) (parts : list string) : gmap string value :=
  match parts with
  | [] => obj
  | p :: rest =>
      match rest with
      | [] => delete p obj
      | _ =>
          match mget_map obj p with
          | Some next => <[p := VMap (delete_parts next rest)]> obj
          | None => obj
          end
      end
  end.
Definition deletePath (obj : gmap string value) (path : string) : gmap string value :=
  delete_parts obj (split_char (byte_of 46) path).

Definition last_applied : string := "kubectl.kubernetes.io/last-applied-configuration".
Definition flux_name_label : string := "kustomize.toolkit.fluxcd.io/name".
Definition flux_namespace_label : string := "kustomize.toolkit.fluxcd.io/namespace".

(** Server-managed metadata. *)
Definition drop_managed (m : gmap string value) : gmap string value :=
  delete "generation" (delete "creationTimestamp" (delete "uid"
    (delete "resourceVersion" (delete "managedFields" m)))).

Definition clean_anns (m : gmap string value) : gmap string value :=
  match mget_map m "annotations" with
  | Some anns =>
      let anns := delete last_applied anns in
      if decide (anns = ∅) then delete "annotations" m
      else <["annotations" := VMap anns]> m
  | None => m
  end.

Definition clean_labels (m : gmap string value) : gmap string value :=
  match mget_map m "labels" with
  | Some labels =>
      <["labels" := VMap (delete flux_namespace_label (delete flux_name_label labels))]> m
  | None => m
  end.

Definition clean_meta (m : gmap string value) : gmap string value :=
  clean_labels (clean_anns (drop_managed m)).

(** [strings.EqualFold(fmt.Sprint(v), none)]: among the decoded values only a string
    can print as the letters n, o, n, e. *)
Definition strategy_is_none (v : value) : bool :=
  match v with VString s => equal_fold_ascii s "none" | _ => false end.

(** The defaulted conversion strategy of custom resource definitions. *)
Definition clean_crd (cp : gmap string value) : gmap string value :=
  match mget_map cp "spec" with
  | Some spec =>
      let spec := match mget_map spec "conversion" with
                  | Some conv =>
                      if strategy_is_none (mget conv "strategy") then delete "conversion" spec else spec
                  | None => spec
                  end in
      <["spec" := VMap spec]> cp
  | None => cp
  end.

Definition normalize_body (kind : string) (body : gmap string value) (ignore : list string)
    : gmap string value :=
  let cp := deepCopyMap body in
  let cp := match pruneNilValues (VMap cp) with VMap cleaned => cleaned | _ => cp end in
  let cp := delete "status" cp in
  let cp := match mget_map cp "metadata" with
            | Some m => <["metadata" := VMap (clean_meta m)]> cp
            | None => cp
            end in
  let cp := if str_eqb kind "CustomResourceDefinition" then clean_crd cp else cp in
  foldl deletePath cp ignore.

Definition normalize (r : Resource) (ignore : list string) : Resource :=
  mkResource (APIVersion r) (Kind r) (Namespace r) (Name r)
    (normalize_body (Kind r) (Body r) ignore) (SourcePath r).

(** ** projectActualToDesired *)

(** The loop over a list: positions the live list lacks become nil. *)
Section ProjectList.
Context (f : value -> value -> value).

Fixpoint project_list (ds al : list value) : list value :=
  match ds with
  | [] => []
  | d :: ds' =>
      match al with
      | [] => VNull :: project_list ds' []
      | a :: al' => f d a :: project_list ds' al'
      end
  end.
End ProjectList.

Fixpoint projectActualToDesired (desired actual : value) : value :=
  match desired with
  | VMap dv =>
      match actual with
      | VMap av =>
          let proj := projectActualToDesired <$> dv in
          VMap (map_imap (fun k f => f <$> av !! k) proj)
      | _ => actual
      end
  | VList dl =>
      match actual with
      | VList al => VList (project_list projectActualToDesired dl al)
      | _ => actual
      end
  | _ => actual
  end.

(** ** What changed *)

Definition changedTopLevelKeys (a b : gmap string value) : list string :=
  sort_strings (filter (fun k => equalAny (mget a k) (mget b k) = false) (elements (dom a ∪ dom b))).

Definition child_path (path k : string) : string :=
  if str_eqb path "" then k else path +:+ "." +:+ k.
Definition displayPath (path : string) : string := if str_eqb path "" then "<root>" else path.

(** The recursive [walk] of changedFieldPaths: the paths it adds to [seen]. A key
    absent from one side is walked with nil on that side. *)
Definition walk_leaf (path : string) (d a : value) : list string :=
  if equalAny d a then [] else [displayPath path].

Fixpoint walk_paths (d : value) (path : string) (a : value) : list string :=
  if equalAny d a then []
  else match d, a with
       | VMap dm, VMap am =>
           let sub := walk_paths <$> dm in
           mbind (fun k =>
             let next := child_path path k in
             match sub !! k with
             | Some w => w next (mget am k)
             | None => walk_leaf next VNull (mget am k)
             end) (union_keys dm am)
       | _, _ => [displayPath path]
       end.

Definition changedFieldPaths (desired actual : value) : list string :=
  sort_strings (elements (list_to_set (walk_paths desired "" actual) : gset string)).

Definition contains (items : list string) (needle : string) : bool := existsb (str_eqb needle) items.

Definition detectRisks (desired actual : Resource) (changed : list string) : list string :=
  let k := Kind desired in
  (if contains changed "spec" &&
      (str_eqb k "Deployment" || str_eqb k "StatefulSet" || str_eqb k "DaemonSet")
   then ["workload-spec-change"] else [])
  ++ (if contains changed "metadata" then ["metadata-change"] else [])
  ++ (if str_eqb k "CustomResourceDefinition" then ["crd-change"] else []).

Section Printing.
Context (yaml_marshal : value -> yaml_out) (fmt_any : value -> string).

Definition mustYAML (obj : value) : string :=
  if is_nil obj then ""
  else match yaml_marshal obj with
       | YamlText s => s
       | YamlErr e | YamlPanic e => "# failed to marshal yaml: " +:+ e +:+ nl
       end.

Definition formatValue (v : value) : string :=
  match marshal v with Some t => t | None => fmt_any v end.

Definition line_minus (path : string) (a : value) : string :=
  "- " +:+ displayPath path +:+ ": " +:+ formatValue a.
Definition line_plus (path : string) (d : value) : string :=
  "+ " +:+ displayPath path +:+ ": " +:+ formatValue d.

(** The loop over two lists of the same length, from index [i]. *)
Section AttrList.
Context (f : value -> string -> value -> list string) (path : string).

Fixpoint attr_list (i : Z) (ds al : list value) : list string :=
  match ds, al with
  | x :: ds', y :: al' =>
      f x (displayPath path +:+ "[" +:+ fmt_d i +:+ "]") y ++ attr_list (i + 1) ds' al'
  | _, _ => []
  end.
End AttrList.

(** The recursive [walk] of buildAttributeDiffLines with both sides present. *)
Fixpoint attr_walk (d : value) (path : string) (a : value) : list string :=
  match d, a with
  | VMap dm, VMap am =>
      let sub := attr_walk <$> dm in
      mbind (fun k =>
        let child := child_path path k in
        match sub !! k, am !! k with
        | Some w, Some av => w child av
        | Some _, None => [line_plus child (mget dm k)]
        | None, Some av => [line_minus child av]
        | None, None => []
        end) (union_keys dm am)
  | VList ds, VList al =>
      if negb (Nat.eqb (length ds) (length al)) then [line_minus path a; line_plus path d]
      else attr_list attr_walk path 0 ds al
  | _, _ => if equalAny d a then [] else [line_minus path a; line_plus path d]
  end.

Definition buildAttributeDiffLines (desired actual : value) : list string :=
  attr_walk desired "" actual.

(** ** Compute *)

Definition index_resources (rs : list Resource) (ignore : list string) : gmap string Resource :=
  foldl (fun m r => <[ID r := normalize r ignore]> m) ∅ rs.

Definition patch_of (k : string) (d a : Resource) (desiredBody actualBody : gmap string value)
    : Change :=
  let keys := changedTopLevelKeys desiredBody actualBody in
  mkChange k Patch keys
    (changedFieldPaths (VMap desiredBody) (VMap actualBody))
    (buildAttributeDiffLines (VMap desiredBody) (VMap actualBody))
    (detectRisks d a keys)
    (mustYAML (VMap actualBody)) (mustYAML (VMap desiredBody)).

(** The live body the desired one is compared with. *)
Definition compared_body (opts : Options) (desiredBody actualBody : gmap string value)
    : gmap string value :=
  if IgnoreActualExtraFields opts then
    match projectActualToDesired (VMap desiredBody) (VMap actualBody) with
    | VMap projected => projected
    | _ => actualBody
    end
  else actualBody.

(** One iteration of the loop over the sorted keys. *)
Definition compute_step (opts : Options) (dm am : gmap string Resource)
    (st : list Change * Summary) (k : string) : list Change * Summary :=
  let '(changes, s) := st in
  match dm !! k, am !! k with
  | Some d, None =>
      (changes ++ [mkChange k Create [] [] [] [] "" (mustYAML (VMap (Body d)))],
       mkSummary (Creates s + 1) (Patches s) (Deletes s) (NoOps s))
  | None, Some a =>
      if PruneDeletes opts then
        (changes ++ [mkChange k Delete [] [] [] [] (mustYAML (VMap (Body a))) ""],
         mkSummary (Creates s) (Patches s) (Deletes s + 1) (NoOps s))
      else st
  | Some d, Some a =>
      let actualBody := compared_body opts (Body d) (Body a) in
      if equal (Body d) actualBody then
        (changes ++ [mkChange k NoOp [] [] [] [] "" ""],
         mkSummary (Creates s) (Patches s) (Deletes s) (NoOps s + 1))
      else
        (changes ++ [patch_of k d a (Body d) actualBody],
         mkSummary (Creates s) (Patches s + 1) (Deletes s) (NoOps s))
  | None, None => st
  end.

Definition Compute (desired actual : list Resource) (opts : Options) : list Change * Summary :=
  let dm := index_resources desired (OptIgnoreFields opts) in
  let am := index_resources actual (OptIgnoreFields opts) in
  foldl (compute_step opts dm am) ([], mkSummary 0 0 0 0) (union_keys dm am).
End Printing.
