(* ===== verification/DiffFacts.v ===== *)
(** * internal/diff: lemmas

    Normalized bodies are made of encoding/json's own types and have no nil entry in
    any map; on such bodies comparing encodings is comparing values, and the functions
    that describe a change find one exactly when the bodies differ. *)

From stdpp Require Import options.
From S2P Require Import Prelude GoStrings Value JsonNumber Json JsonFacts JsonValid Render Diff.

(** ** Comparison *)

Lemma equalAny_spec a b :
  native a = true -> native b = true -> (equalAny a b = true <-> a = b).
Proof.
  intros Ha Hb. unfold equalAny. rewrite str_eqb_eq. split; [|by intros ->].
  destruct (native_marshal a Ha) as [ta Hta], (native_marshal b Hb) as [tb Htb].
  unfold marshal_or_empty. rewrite Hta, Htb. cbn. intros ->.
  apply marshal_inj; [done..|]. congruence.
Qed.

Lemma equalAny_refl a : equalAny a a = true.
Proof. apply str_eqb_refl. Qed.

Lemma equal_spec m1 m2 :
  native (VMap m1) = true -> native (VMap m2) = true -> (equal m1 m2 = true <-> m1 = m2).
Proof. intros H1 H2. unfold equal. rewrite equalAny_spec by done. split; congruence. Qed.

Lemma equalAny_false a b :
  native a = true -> native b = true -> (equalAny a b = false <-> a <> b).
Proof.
  intros Ha Hb. rewrite <- not_true_iff_false, equalAny_spec by done. done.
Qed.

(** ** Native bodies *)

Lemma native_delete m k : native (VMap m) = true -> native (VMap (delete k m)) = true.
Proof.
  rewrite !native_map. intros H k' x. rewrite lookup_delete. case_decide; [done|apply H].
Qed.

Lemma native_insert m k v :
  native (VMap m) = true -> valid_utf8 k = true -> native v = true ->
  native (VMap (<[k := v]> m)) = true.
Proof.
  rewrite !native_map. intros H Hk Hv k' x. rewrite lookup_insert.
  case_decide; [|apply H]. by intros; simplify_eq.
Qed.

Lemma native_mget m k : native (VMap m) = true -> native (mget m k) = true.
Proof.
  rewrite native_map. unfold mget. intros H. destruct (m !! k) eqn:E; [|done]. by apply (H k).
Qed.

Lemma native_mget_map m k m' :
  native (VMap m) = true -> mget_map m k = Some m' ->
  valid_utf8 k = true /\ native (VMap m') = true.
Proof. rewrite native_map, mget_map_Some. intros H Hk. by apply H. Qed.

Lemma native_empty : native (VMap ∅) = true.
Proof. apply native_map. intros k x Hk. by rewrite lookup_empty in Hk. Qed.

#[export] Hint Resolve native_delete native_insert native_mget native_empty : thule.

Lemma deepCopyMap_native m : native (VMap (deepCopyMap m)) = true.
Proof.
  unfold deepCopyMap. destruct (marshal _) as [b|]; [|auto with thule].
  destruct (unmarshal_any b) as [[]|] eqn:E; auto with thule.
  by apply unmarshal_any_native in E.
Qed.

(** On native bodies within encoding/json's nesting limit the copy is the body. *)
Lemma deepCopyMap_id m :
  native (VMap m) = true -> vdepth (VMap m) <= maxNestingDepth -> deepCopyMap m = m.
Proof.
  intros Hn Hd. unfold deepCopyMap. destruct (native_marshal _ Hn) as [t Ht]. rewrite Ht.
  rewrite (unmarshal_marshal _ _ Ht) by auto with thule. by rewrite json_copy_native.
Qed.

Lemma pruneNilValues_map m :
  pruneNilValues (VMap m) =
  VMap (omap (fun x => if is_nil (pruneNilValues x) then None else Some (pruneNilValues x)) m).
Proof. done. Qed.

Lemma prune_native v : native v = true -> native (pruneNilValues v) = true.
Proof.
  induction v as [ | b | z | tx | tx | s | tx | l IH | m IH | l ] using value_ind; try done.
  - rewrite native_list. intros H. cbn. apply native_list.
    intros x (y & -> & Hy)%list_elem_of_fmap. auto.
  - rewrite native_map. intros H. rewrite pruneNilValues_map. apply native_map. intros k x.
    rewrite lookup_omap. intros (y & Hy & Hx)%bind_Some.
    destruct (is_nil (pruneNilValues y)); [done|]. injection Hx as <-.
    destruct (H k y Hy). split; [done|]. by apply (IH k).
Qed.

(** ** No nil entries in maps *)

Definition nil_free_node (v : value) : bool :=
  match v with
  | VMap m => map_fold (fun _ x b => negb (is_nil x) && b) true m
  | _ => true
  end.
Definition nil_free (v : value) : bool := vforall nil_free_node (fun _ => true) v.

Lemma nil_free_list l : nil_free (VList l) = true <-> forall x, x ∈ l -> nil_free x = true.
Proof. unfold nil_free. rewrite vforall_list. split; [by intros [_ H]|by intros H; split]. Qed.

Lemma nil_free_map m :
  nil_free (VMap m) = true <->
  forall k x, m !! k = Some x -> x <> VNull /\ nil_free x = true.
Proof.
  unfold nil_free. rewrite vforall_map. cbn [nil_free_node].
  rewrite (map_fold_andb (fun _ x => negb (is_nil x))). split.
  - intros [H1 H2] k x Hx. split; [|by apply (H2 k)]. intros ->. by specialize (H1 k _ Hx).
  - intros H. split; intros k x Hx; destruct (H k x Hx) as [Hn Hf]; [|done].
    by destruct x.
Qed.

Lemma nil_free_delete m k : nil_free (VMap m) = true -> nil_free (VMap (delete k m)) = true.
Proof.
  rewrite !nil_free_map. intros H k' x. rewrite lookup_delete. case_decide; [done|apply H].
Qed.

Lemma nil_free_insert_map m k m' :
  nil_free (VMap m) = true -> nil_free (VMap m') = true ->
  nil_free (VMap (<[k := VMap m']> m)) = true.
Proof.
  rewrite (nil_free_map m), (nil_free_map (<[_:=_]> _)). intros H H' k' x.
  rewrite lookup_insert. case_decide; [|apply H]. by intros [= <-].
Qed.

Lemma nil_free_mget_map m k m' :
  nil_free (VMap m) = true -> mget_map m k = Some m' -> nil_free (VMap m') = true.
Proof. rewrite nil_free_map, mget_map_Some. intros H Hk. by apply (H k). Qed.

Lemma prune_nil_free v : nil_free (pruneNilValues v) = true.
Proof.
  induction v as [ | b | z | tx | tx | s | tx | l IH | m IH | l ] using value_ind; try done.
  - cbn. apply nil_free_list. intros x (y & -> & Hy)%list_elem_of_fmap. auto.
  - rewrite pruneNilValues_map. apply nil_free_map. intros k x.
    rewrite lookup_omap. intros (y & Hy & Hx)%bind_Some.
    destruct (is_nil (pruneNilValues y)) eqn:E; [done|]. injection Hx as <-.
    split; [|by apply (IH k)]. intros Hn. by rewrite Hn in E.
Qed.

(** Pruning changes nothing where there is nothing to prune. *)
Lemma prune_id v : nil_free v = true -> pruneNilValues v = v.
Proof.
  induction v as [ | b | z | tx | tx | s | tx | l IH | m IH | l ] using value_ind; try done.
  - rewrite nil_free_list. intros H. cbn. f_equal. rewrite <- (list_fmap_id l) at 2.
    apply list_fmap_ext. intros i x Hx. apply list_elem_of_lookup_2 in Hx. unfold id. auto.
  - rewrite nil_free_map. intros H. rewrite pruneNilValues_map. f_equal. apply map_eq.
    intros k. rewrite lookup_omap. destruct (m !! k) as [x|] eqn:E; [|done]. cbn.
    destruct (H k x E) as [Hn Hf]. rewrite (IH k x E Hf). by destruct x.
Qed.

#[export] Hint Resolve nil_free_delete nil_free_insert_map prune_nil_free : thule.

(** ** Normalized bodies *)

(** Bodies on which the comparison functions are exact. *)
Definition normal (m : gmap string value) : Prop :=
  native (VMap m) = true /\ nil_free (VMap m) = true.

Lemma normal_delete m k : normal m -> normal (delete k m).
Proof. intros [? ?]. split; auto with thule. Qed.

Lemma normal_update m k m' m'' :
  normal m -> mget_map m k = Some m' -> normal m'' -> normal (<[k := VMap m'']> m).
Proof.
  intros [Hn Hf] Hk [Hn' Hf']. destruct (native_mget_map _ _ _ Hn Hk) as [Hv _].
  split; auto with thule.
Qed.

Lemma normal_mget_map m k m' : normal m -> mget_map m k = Some m' -> normal m'.
Proof.
  intros [Hn Hf] Hk. destruct (native_mget_map _ _ _ Hn Hk).
  split; [done|]. by eapply nil_free_mget_map.
Qed.

#[export] Hint Resolve normal_delete normal_update normal_mget_map : thule.

Lemma clean_meta_normal m : normal m -> normal (clean_meta m).
Proof.
  intros H. unfold clean_meta.
  assert (normal (drop_managed m)) as H0 by (unfold drop_managed; auto 10 with thule).
  assert (normal (clean_anns (drop_managed m))) as H1.
  { unfold clean_anns. destruct (mget_map (drop_managed m) "annotations") as [anns|] eqn:E; [|done].
    case_decide; [auto with thule|]. eapply normal_update; eauto with thule. }
  unfold clean_labels. destruct (mget_map _ "labels") as [labels|] eqn:E; [|done].
  eapply normal_update; eauto with thule.
Qed.

Lemma clean_crd_normal m : normal m -> normal (clean_crd m).
Proof.
  intros H. unfold clean_crd. destruct (mget_map m "spec") as [spec|] eqn:E; [|done].
  eapply normal_update; [done|done|]. assert (normal spec) by eauto with thule.
  repeat case_match; auto with thule.
Qed.

Lemma delete_parts_normal parts m : normal m -> normal (delete_parts m parts).
Proof.
  revert m. induction parts as [|p rest IH]; intros m H; [done|].
  cbn. destruct rest as [|q rest]; [auto with thule|].
  destruct (mget_map m p) as [next|] eqn:E; [|done].
  eapply normal_update; [done|done|]. apply IH. eauto with thule.
Qed.

Lemma normalize_body_normal kind body ignore : normal (normalize_body kind body ignore).
Proof.
  unfold normalize_body. rewrite pruneNilValues_map.
  set (c1 := omap _ (deepCopyMap body)).
  assert (normal c1) as H1.
  { split.
    - apply (prune_native (VMap (deepCopyMap body))), deepCopyMap_native.
    - apply (prune_nil_free (VMap (deepCopyMap body))). }
  clearbody c1. set (c2 := delete "status" c1). assert (normal c2) as H2 by (by apply normal_delete).
  clearbody c2. clear c1 H1.
  set (c3 := match mget_map c2 "metadata" with Some _ => _ | None => _ end).
  assert (normal c3) as H3.
  { unfold c3. destruct (mget_map c2 "metadata") as [m|] eqn:E; [|done].
    eapply normal_update; [done|done|]. apply clean_meta_normal. eauto with thule. }
  clearbody c3. clear c2 H2.
  set (c4 := if str_eqb kind "CustomResourceDefinition" then clean_crd c3 else c3).
  assert (normal c4) as H4 by (unfold c4; case_match; [by apply clean_crd_normal|done]).
  clearbody c4. clear c3 H3. revert c4 H4.
  induction ignore as [|p ignore IH]; intros c4 H4; [done|]. cbn. apply IH.
  by apply delete_parts_normal.
Qed.

(** ** What the projection keeps *)

(** [covers d a]: the live value [a] agrees with the desired value [d] wherever [d]
    says something. A map may have more keys; a list is compared position by
    position, more live elements are allowed, and a position the live list lacks only
    agrees with nil. *)
Inductive covers : value -> value -> Prop :=
| covers_leaf v : as_map v = None -> as_list v = None -> covers v v
| covers_map (dm am : gmap string value) :
    (forall k d, dm !! k = Some d -> exists a, am !! k = Some a /\ covers d a) ->
    covers (VMap dm) (VMap am)
| covers_list (dl al : list value) :
    (forall i d, dl !! i = Some d ->
       (exists a, al !! i = Some a /\ covers d a) \/ (al !! i = None /\ d = VNull)) ->
    covers (VList dl) (VList al).

Lemma project_map (dm am : gmap string value) :
  projectActualToDesired (VMap dm) (VMap am) =
  VMap (map_imap (fun k (f : value -> value) => f <$> am !! k) (projectActualToDesired <$> dm)).
Proof. done. Qed.

Lemma lookup_project_map (dm am : gmap string value) k :
  map_imap (fun k (f : value -> value) => f <$> am !! k) (projectActualToDesired <$> dm) !! k =
  dm !! k ≫= fun d => projectActualToDesired d <$> am !! k.
Proof. rewrite map_lookup_imap, lookup_fmap. by destruct (dm !! k). Qed.

Lemma lookup_project_list f (ds al : list value) i :
  project_list f ds al !! i =
  (fun d => match al !! i with Some a => f d a | None => VNull end) <$> ds !! i.
Proof.
  revert al i. induction ds as [|d ds IH]; intros al i; [done|].
  destruct al as [|a al], i as [|i]; cbn; try done; rewrite IH; done.
Qed.

(** The projection of the live value is the desired value exactly when it covers it. *)
Lemma project_covers d a : projectActualToDesired d a = d <-> covers d a.
Proof.
  revert a. induction d as [ | b | z | tx | tx | s | tx | l IH | m IH | l ] using value_ind;
    intros a; try (cbn; split; [intros ->; by constructor|by inversion 1; simplify_eq]).
  - destruct a as [ | | | | | | | al | | ];
      try (cbn; split; [done|by inversion 1; simplify_eq]).
    change (projectActualToDesired (VList l) (VList al))
      with (VList (project_list projectActualToDesired l al)). split.
    + intros [= Heq]. constructor. intros i d Hd. pose proof Hd as Hd'.
      rewrite <- Heq, lookup_project_list, Hd in Hd'. cbn in Hd'.
      apply list_elem_of_lookup_2 in Hd. destruct (al !! i) as [x|]; injection Hd' as Hd'.
      * left. exists x. split; [done|]. by apply IH.
      * by right.
    + inversion 1 as [? H1 H2| |? ? Hc]; simplify_eq. f_equal. apply list_eq. intros i.
      rewrite lookup_project_list. destruct (l !! i) as [d|] eqn:Hd; [|done]. cbn. f_equal.
      destruct (Hc i d Hd) as [(x & -> & Hx)|[-> ->]]; [|done].
      apply IH; [by eapply list_elem_of_lookup_2|done].
  - destruct a as [ | | | | | | | | am | ];
      try (cbn; split; [done|by inversion 1; simplify_eq]).
    rewrite project_map. split.
    + intros [= Heq]. constructor. intros k d Hd. pose proof Hd as Hd'.
      rewrite <- Heq, lookup_project_map, Hd in Hd'. cbn in Hd'.
      destruct (am !! k) as [x|]; [|done]. injection Hd' as Hd'. exists x. split; [done|].
      by apply (IH k).
    + inversion 1 as [? H1 H2|? ? Hc|]; simplify_eq. f_equal. apply map_eq. intros k.
      rewrite lookup_project_map. destruct (m !! k) as [d|] eqn:Hd; [|done]. cbn.
      destruct (Hc k d Hd) as (x & -> & Hx). cbn. f_equal. by apply (IH k).
Qed.

Lemma project_native d a : native a = true -> native (projectActualToDesired d a) = true.
Proof.
  revert a. induction d as [ | b | z | tx | tx | s | tx | l IH | m IH | l ] using value_ind;
    intros a Ha; try done.
  - destruct a as [ | | | | | | | al | | ]; try done. cbn. rewrite native_list in Ha.
    apply native_list. intros x [i Hi]%list_elem_of_lookup. rewrite lookup_project_list in Hi.
    destruct (l !! i) as [d|] eqn:Hd; [|done]. cbn in Hi. injection Hi as <-.
    destruct (al !! i) as [y|] eqn:Hy; [|done].
    apply IH; [by eapply list_elem_of_lookup_2|]. apply Ha. by eapply list_elem_of_lookup_2.
  - destruct a as [ | | | | | | | | am | ]; try done. rewrite project_map.
    rewrite native_map in Ha. apply native_map. intros k x. rewrite lookup_project_map.
    intros (d & Hd & Hx)%bind_Some. apply fmap_Some in Hx as (y & Hy & ->).
    destruct (Ha k y Hy). split; [done|]. by apply (IH k).
Qed.

Lemma project_not_nil d a : a <> VNull -> projectActualToDesired d a <> VNull.
Proof. destruct d; try done; destruct a; done. Qed.

Lemma project_nil_free d a : nil_free a = true -> nil_free (projectActualToDesired d a) = true.
Proof.
  revert a. induction d as [ | b | z | tx | tx | s | tx | l IH | m IH | l ] using value_ind;
    intros a Ha; try done.
  - destruct a as [ | | | | | | | al | | ]; try done. cbn. rewrite nil_free_list in Ha.
    apply nil_free_list. intros x [i Hi]%list_elem_of_lookup. rewrite lookup_project_list in Hi.
    destruct (l !! i) as [d|] eqn:Hd; [|done]. cbn in Hi. injection Hi as <-.
    destruct (al !! i) as [y|] eqn:Hy; [|done].
    apply IH; [by eapply list_elem_of_lookup_2|]. apply Ha. by eapply list_elem_of_lookup_2.
  - destruct a as [ | | | | | | | | am | ]; try done. rewrite project_map.
    rewrite nil_free_map in Ha. apply nil_free_map. intros k x. rewrite lookup_project_map.
    intros (d & Hd & Hx)%bind_Some. apply fmap_Some in Hx as (y & Hy & ->).
    destruct (Ha k y Hy). split; [by apply project_not_nil|]. by apply (IH k).
Qed.

Lemma compared_body_normal opts d a : normal d -> normal a -> normal (compared_body opts d a).
Proof.
  intros Hd [Hn Hf]. unfold compared_body. destruct (IgnoreActualExtraFields opts); [|done].
  rewrite project_map. split.
  - by apply (project_native (VMap d) (VMap a)).
  - by apply (project_nil_free (VMap d) (VMap a)).
Qed.

(** The comparison succeeds exactly on equal bodies, or on covered ones when fields
    only the live object has are ignored. *)
Lemma equal_compared opts d a :
  normal d -> normal a ->
  equal d (compared_body opts d a) = true <->
  (if IgnoreActualExtraFields opts then covers (VMap d) (VMap a) else d = a).
Proof.
  intros Hd Ha. rewrite equal_spec; [|apply Hd|by apply compared_body_normal].
  unfold compared_body. destruct (IgnoreActualExtraFields opts); [|done].
  rewrite <- project_covers, project_map. split; congruence.
Qed.

(** ** What the descriptions of a change say *)

Lemma mbind_nil {A B} (f : A -> list B) (l : list A) :
  mbind f l = [] <-> forall x, x ∈ l -> f x = [].
Proof.
  induction l as [|y l IH]; cbn.
  - split; [|done]. intros _ x Hx. by apply elem_of_nil in Hx.
  - change (f y ++ mbind f l = [] <-> forall x, x ∈ y :: l -> f x = []).
    rewrite app_nil, IH. setoid_rewrite elem_of_cons. split.
    + intros [H1 H2] x [->|Hx]; auto.
    + intros H. split; auto.
Qed.

Lemma mget_lookup (m1 m2 : gmap string value) k :
  nil_free (VMap m1) = true -> nil_free (VMap m2) = true ->
  (mget m1 k = mget m2 k <-> m1 !! k = m2 !! k).
Proof.
  rewrite !nil_free_map. unfold mget. intros H1 H2.
  destruct (m1 !! k) as [x|] eqn:E1, (m2 !! k) as [y|] eqn:E2; cbn; split; try congruence;
    intros Hv; exfalso; [by destruct (H1 k x E1)|by destruct (H2 k y E2)].
Qed.

Lemma elem_of_changedTopLevelKeys d a k :
  normal d -> normal a -> (k ∈ changedTopLevelKeys d a <-> d !! k <> a !! k).
Proof.
  intros [Hd Fd] [Ha Fa]. unfold changedTopLevelKeys.
  rewrite elem_of_sort_strings, list_elem_of_filter, elem_of_elements, elem_of_union, !elem_of_dom.
  rewrite equalAny_false by auto with thule. rewrite mget_lookup by done.
  split; [by intros [? _]|]. intros Hk. split; [done|].
  destruct (d !! k), (a !! k); [by left|by left|by right|done].
Qed.

(** [differs_at d a ks]: following the keys [ks] through maps on both sides leads to
    two different values that are not both maps. *)
Inductive differs_at : value -> value -> list string -> Prop :=
| differs_here d a : d <> a -> as_map d = None \/ as_map a = None -> differs_at d a []
| differs_key (dm am : gmap string value) k ks :
    differs_at (mget dm k) (mget am k) ks -> differs_at (VMap dm) (VMap am) (k :: ks).

Lemma differs_neq d a ks : differs_at d a ks -> d <> a.
Proof.
  induction 1 as [d a Hne Hm|dm am k ks _ IH]; [done|]. intros [= ->]. by apply IH.
Qed.

(** The dotted path of a list of keys below [path]. *)
Definition path_of (path : string) (ks : list string) : string := foldl child_path path ks.

Lemma walk_leaf_spec path d a p :
  native d = true -> native a = true ->
  (p ∈ walk_leaf path d a <-> d <> a /\ p = displayPath path).
Proof.
  intros Hd Ha. unfold walk_leaf. destruct (equalAny d a) eqn:E.
  - apply equalAny_spec in E; [|done..]. split; [by intros ?%elem_of_nil|by intros []].
  - apply equalAny_false in E; [|done..]. rewrite list_elem_of_singleton.
    split; [by intros ->|by intros [_ ->]].
Qed.

Lemma walk_paths_eq d path a :
  walk_paths d path a =
  if equalAny d a then []
  else match d, a with
       | VMap dm, VMap am =>
           mbind (fun k =>
             match dm !! k with
             | Some x => walk_paths x (child_path path k) (mget am k)
             | None => walk_leaf (child_path path k) VNull (mget am k)
             end) (union_keys dm am)
       | _, _ => [displayPath path]
       end.
Proof.
  destruct d as [ | | | | | | | |dm| ]; try done. cbn [walk_paths].
  destruct (equalAny _ a); [done|]. destruct a as [ | | | | | | | |am| ]; try done.
  apply list_bind_ext; [|done]. intros k. rewrite lookup_fmap. by destruct (dm !! k).
Qed.

Lemma differs_null a ks :
  differs_at VNull a ks <-> ks = [] /\ a <> VNull.
Proof.
  split.
  - inversion 1; simplify_eq. done.
  - intros [-> Hn]. constructor; [done|]. by left.
Qed.

Lemma walk_paths_spec d path a p :
  native d = true -> native a = true ->
  (p ∈ walk_paths d path a <-> exists ks, differs_at d a ks /\ p = displayPath (path_of path ks)).
Proof.
  revert path a. induction d as [ | b | z | tx | tx | s | tx | l IH | m IH | l ] using value_ind;
    intros path a Hd Ha; rewrite walk_paths_eq;
    (destruct (equalAny _ a) eqn:E;
     [apply equalAny_spec in E; [|done..];
      split; [by intros ?%elem_of_nil|intros (ks & Hks%differs_neq & _); congruence]|]);
    (apply equalAny_false in E; [|done..]).
  9: destruct a as [ | | | | | | | |am| ].
  all: try (rewrite list_elem_of_singleton; split;
    [intros ->; exists []; split; [constructor; [done|by (left + right)]|done]
    |intros (ks & Hks & ->); by inversion Hks]).
  rewrite list_elem_of_bind. split.
  - intros (k & Hp & _). destruct (m !! k) as [x|] eqn:Hx.
    + apply (IH k) in Hp as (ks & Hks & ->); [|done|by eapply native_map in Hd as [_ ?]|auto with thule].
      exists (k :: ks). split; [|done]. constructor. unfold mget at 1. by rewrite Hx.
    + apply walk_leaf_spec in Hp as [Hne ->]; [|done|auto with thule].
      exists [k]. split; [|done]. constructor. unfold mget at 1. rewrite Hx.
      apply differs_null. by split.
  - intros (ks & Hks & ->). inversion Hks as [? ? ? Hm|? ? k ks' Hk]; simplify_eq.
    { by destruct Hm. }
    exists k. destruct (m !! k) as [x|] eqn:Hx; unfold mget at 1 in Hk; rewrite Hx in Hk.
    + split; [|apply elem_of_union_keys; eauto].
      apply (IH k); [done|by eapply native_map in Hd as [_ ?]|auto with thule|]. eauto.
    + cbn in Hk. apply differs_null in Hk as [-> Hne]. split.
      * apply walk_leaf_spec; [done|auto with thule|]. done.
      * apply elem_of_union_keys. right. unfold mget in Hne. destruct (am !! k); [eauto|done].
Qed.


(** Bodies that differ differ at a top-level key. *)
Lemma normal_differs m1 m2 :
  normal m1 -> normal m2 -> m1 <> m2 -> exists k, k ∈ union_keys m1 m2 /\ m1 !! k <> m2 !! k.
Proof.
  intros H1 H2 Hne. destruct (changedTopLevelKeys m1 m2) as [|k ks] eqn:E.
  - exfalso. apply Hne, map_eq. intros k.
    destruct (equalAny (mget m1 k) (mget m2 k)) eqn:Hk.
    + apply equalAny_spec in Hk; [|apply native_mget, H1|apply native_mget, H2].
      apply mget_lookup; [apply H1|apply H2|done].
    + apply equalAny_false in Hk; [|apply native_mget, H1|apply native_mget, H2].
      rewrite mget_lookup in Hk by (apply H1 || apply H2).
      apply elem_of_changedTopLevelKeys in Hk; [|done..]. rewrite E in Hk. by apply elem_of_nil in Hk.
  - exists k. assert (m1 !! k <> m2 !! k) as Hk.
    { apply elem_of_changedTopLevelKeys; [done..|]. rewrite E. apply elem_of_cons. by left. }
    split; [|done]. apply elem_of_union_keys. destruct (m1 !! k), (m2 !! k); [by left|by left|by right|done].
Qed.

Lemma differs_exists d a :
  native d = true -> native a = true -> nil_free d = true -> nil_free a = true ->
  d <> a -> exists ks, differs_at d a ks.
Proof.
  revert a. induction d as [ | b | z | tx | tx | s | tx | l IH | m IH | l ] using value_ind;
    intros a Nd Na Hd Ha Hne; try (exists []; constructor; [done|by left]).
  destruct a as [ | | | | | | | |am| ]; try (exists []; constructor; [done|by right]).
  destruct (normal_differs m am) as (k & _ & Hk); [by split..|congruence|].
  rewrite <- mget_lookup in Hk by done. pose proof (native_mget am k Na) as Nk.
  rewrite nil_free_map in Hd, Ha. rewrite native_map in Nd. unfold mget in Hk, Nk.
  assert (exists ks, differs_at (mget m k) (mget am k) ks) as [ks Hks];
    [|exists (k :: ks); by constructor].
  unfold mget. destruct (m !! k) as [x|] eqn:Hx.
  - destruct (Hd k x Hx) as [_ Hfx]. apply (IH k); [done|by apply (Nd k)|done|done| |done].
    destruct (am !! k) as [y|] eqn:Hy; [by destruct (Ha k y Hy)|done].
  - exists []. by apply differs_null.
Qed.

Lemma changedFieldPaths_spec d a p :
  native d = true -> native a = true ->
  (p ∈ changedFieldPaths d a <-> exists ks, differs_at d a ks /\ p = displayPath (path_of "" ks)).
Proof.
  intros Hd Ha. unfold changedFieldPaths.
  by rewrite elem_of_sort_strings, elem_of_elements, elem_of_list_to_set, walk_paths_spec.
Qed.

Lemma changedFieldPaths_sorted d a : StronglySorted str_lt (changedFieldPaths d a).
Proof.
  apply StronglySorted_strict; [apply sort_strings_sorted|].
  apply NoDup_sort_strings, NoDup_elements.
Qed.

Section PrintingFacts.
Context (yaml_marshal : value -> yaml_out) (fmt_any : value -> string).

Lemma attr_walk_map (dm am : gmap string value) path :
  attr_walk fmt_any (VMap dm) path (VMap am) =
  mbind (fun k =>
    match dm !! k, am !! k with
    | Some x, Some y => attr_walk fmt_any x (child_path path k) y
    | Some x, None => [line_plus fmt_any (child_path path k) x]
    | None, Some y => [line_minus fmt_any (child_path path k) y]
    | None, None => []
    end) (union_keys dm am).
Proof.
  cbn [attr_walk]. apply list_bind_ext; [|done]. intros k. rewrite lookup_fmap.
  unfold mget. by destruct (dm !! k), (am !! k).
Qed.

Lemma attr_list_nil f path i (ds al : list value) :
  length ds = length al ->
  (forall x p y, x ∈ ds -> y ∈ al -> f x p y = [] <-> x = y) ->
  (attr_list f path i ds al = [] <-> ds = al).
Proof.
  revert i al. induction ds as [|x ds IH]; intros i [|y al] Hlen Hf; try done.
  cbn [attr_list]. rewrite app_nil, Hf by (apply elem_of_cons; by left). rewrite IH.
  - split; [by intros [-> ->]|by intros [= -> ->]].
  - by injection Hlen.
  - intros x' p y' Hx Hy. apply Hf; apply elem_of_cons; by right.
Qed.

(** The attribute diff is empty exactly on equal values. *)
Lemma attr_walk_nil d path a :
  native d = true -> native a = true -> nil_free d = true -> nil_free a = true ->
  (attr_walk fmt_any d path a = [] <-> d = a).
Proof.
  revert path a. induction d as [ | b | z | tx | tx | s | tx | l IH | m IH | l ] using value_ind;
    intros path a Hd Ha Fd Fa.
  9: destruct a as [ | | | | | | | |am| ].
  8: destruct a as [ | | | | | | |al| | ].
  all: try (cbn [attr_walk]; destruct (equalAny _ _) eqn:E;
    [apply equalAny_spec in E; done|apply equalAny_false in E; done]).
  - rewrite native_list in Hd, Ha. rewrite nil_free_list in Fd, Fa. cbn [attr_walk].
    destruct (Nat.eqb_spec (length l) (length al)) as [Hlen|Hlen]; cbn [negb].
    + rewrite attr_list_nil; [split; congruence|done|]. intros x p y Hx Hy. apply IH; auto.
    + split; [done|]. intros [= ->]. done.
  - rewrite attr_walk_map, mbind_nil. split.
    + intros H. destruct (equalAny (VMap m) (VMap am)) eqn:E;
        [by apply equalAny_spec in E|apply equalAny_false in E; [|done..]].
      destruct (normal_differs m am) as (k & Hk & Hd'); [by split..|congruence|].
      specialize (H k Hk). exfalso. rewrite native_map in Hd, Ha. rewrite nil_free_map in Fd, Fa.
      destruct (m !! k) as [x|] eqn:Hx, (am !! k) as [y|] eqn:Hy; try done.
      apply (IH k) in H;
        [congruence|done|by apply (Hd k)|by apply (Ha k)|by apply (Fd k)|by apply (Fa k)].
    + intros [= ->] k Hk. rewrite native_map in Ha. rewrite nil_free_map in Fa.
      destruct (am !! k) as [x|] eqn:Hx; [|done].
      destruct (Ha k x Hx), (Fa k x Hx). by apply (IH k).
Qed.
End PrintingFacts.
