(* ===== verification/DiffSpec.v ===== *)
(** * internal/diff: what Compute promises

    The plan has at most one change per resource identity, in the order of the
    identities; which change it is depends only on the last resource of each side with
    that identity, by the relation [agrees]; the summary counts the changes. *)

From stdpp Require Import options.
From S2P Require Import Prelude GoStrings Value JsonNumber Json JsonFacts JsonValid Render Diff DiffFacts.

(** ** The resource an identity stands for *)

(** The last resource of the list with the identity [k]. *)
Definition last_with_id (rs : list Resource) (k : string) : option Resource :=
  last (filter (fun r => ID r = k) rs).

Lemma lookup_index_resources rs ignore k :
  index_resources rs ignore !! k = (fun r => normalize r ignore) <$> last_with_id rs k.
Proof.
  unfold index_resources, last_with_id. induction rs as [|r rs IH] using rev_ind; [done|].
  rewrite foldl_snoc, filter_app, filter_cons, filter_nil, lookup_insert.
  destruct (decide (ID r = k)) as [H|H].
  - by rewrite last_snoc.
  - by rewrite app_nil_r, IH.
Qed.

Lemma last_with_id_ID rs k r : last_with_id rs k = Some r -> ID r = k /\ r ∈ rs.
Proof.
  unfold last_with_id. intros H%last_Some_elem_of. by apply list_elem_of_filter in H.
Qed.

Lemma last_with_id_None rs k : last_with_id rs k = None <-> forall r, r ∈ rs -> ID r <> k.
Proof.
  unfold last_with_id. rewrite last_None. split.
  - intros H r Hr Hid. assert (r ∈ filter (fun r => ID r = k) rs) as Hin by by apply list_elem_of_filter.
    rewrite H in Hin. by apply elem_of_nil in Hin.
  - intros H. destruct (filter _ rs) as [|r l] eqn:E; [done|].
    assert (r ∈ filter (fun r => ID r = k) rs) as Hin by (rewrite E; apply elem_of_cons; by left).
    apply list_elem_of_filter in Hin as [Hid Hr]. by destruct (H r Hr).
Qed.

(** ** Agreement of a desired resource with a live one *)

(** Bodies as Compute compares them. *)
Definition agrees (opts : Options) (d a : Resource) : Prop :=
  let db := Body (normalize d (OptIgnoreFields opts)) in
  let ab := Body (normalize a (OptIgnoreFields opts)) in
  if IgnoreActualExtraFields opts then covers (VMap db) (VMap ab) else db = ab.

Lemma covers_refl v : covers v v.
Proof.
  induction v as [ | b | z | tx | tx | s | tx | l IH | m IH | l ] using value_ind;
    try by constructor.
  - apply covers_list. intros i d Hd. left. exists d. split; [done|]. apply IH.
    by eapply list_elem_of_lookup_2.
  - apply covers_map. intros k d Hd. exists d. split; [done|]. by apply (IH k).
Qed.

Lemma agrees_refl opts r : agrees opts r r.
Proof. unfold agrees. case_match; [apply covers_refl|done]. Qed.

Lemma normalize_normal r ignore : normal (Body (normalize r ignore)).
Proof. apply normalize_body_normal. Qed.

Lemma equal_agrees opts d a :
  let db := Body (normalize d (OptIgnoreFields opts)) in
  let ab := Body (normalize a (OptIgnoreFields opts)) in
  equal db (compared_body opts db ab) = true <-> agrees opts d a.
Proof. intros db ab. apply equal_compared; apply normalize_normal. Qed.

(** ** Compute as a filtered map over the identities *)

Section Plan.
Context (yaml_marshal : value -> yaml_out) (fmt_any : value -> string).

(** The change one identity gets, if any. *)
Definition change_for (opts : Options) (dm am : gmap string Resource) (k : string) : option Change :=
  match dm !! k, am !! k with
  | Some d, None => Some (mkChange k Create [] [] [] [] "" (mustYAML yaml_marshal (VMap (Body d))))
  | None, Some a =>
      if PruneDeletes opts
      then Some (mkChange k Delete [] [] [] [] (mustYAML yaml_marshal (VMap (Body a))) "")
      else None
  | Some d, Some a =>
      let actualBody := compared_body opts (Body d) (Body a) in
      if equal (Body d) actualBody then Some (mkChange k NoOp [] [] [] [] "" "")
      else Some (patch_of yaml_marshal fmt_any k d a (Body d) actualBody)
  | None, None => None
  end.

Definition count_action (act : Action) (cs : list Change) : Z :=
  Z.of_nat (length (filter (fun c => ChangeAction c = act) cs)).

Definition summarize (cs : list Change) : Summary :=
  mkSummary (count_action Create cs) (count_action Patch cs)
            (count_action Delete cs) (count_action NoOp cs).

Lemma count_action_snoc act cs c :
  count_action act (cs ++ [c]) =
  count_action act cs + if decide (ChangeAction c = act) then 1 else 0.
Proof.
  unfold count_action. rewrite filter_app, filter_cons, filter_nil, length_app.
  destruct (decide (ChangeAction c = act)); cbn [length]; lia.
Qed.

Lemma count_action_absent cs act act' :
  (forall c, c ∈ cs -> ChangeAction c = act') -> act <> act' -> count_action act cs = 0.
Proof.
  intros H Hne. unfold count_action. destruct (filter _ cs) as [|c l] eqn:E; [done|].
  assert (c ∈ filter (fun c => ChangeAction c = act) cs) as Hc by (rewrite E; apply elem_of_cons; by left).
  apply list_elem_of_filter in Hc as [Hc Hin]. rewrite (H c Hin) in Hc. congruence.
Qed.

Lemma summarize_snoc cs c :
  summarize (cs ++ [c]) =
  let s := summarize cs in
  match ChangeAction c with
  | Create => mkSummary (Creates s + 1) (Patches s) (Deletes s) (NoOps s)
  | Patch => mkSummary (Creates s) (Patches s + 1) (Deletes s) (NoOps s)
  | Delete => mkSummary (Creates s) (Patches s) (Deletes s + 1) (NoOps s)
  | NoOp => mkSummary (Creates s) (Patches s) (Deletes s) (NoOps s + 1)
  end.
Proof.
  unfold summarize. rewrite !count_action_snoc. cbn.
  destruct (ChangeAction c); cbn; rewrite ?Z.add_0_r; reflexivity.
Qed.

Lemma compute_step_spec opts dm am cs k :
  compute_step yaml_marshal fmt_any opts dm am (cs, summarize cs) k =
  let cs' := cs ++ option_list (change_for opts dm am k) in (cs', summarize cs').
Proof.
  unfold compute_step, change_for.
  destruct (dm !! k) as [d|], (am !! k) as [a|]; cbn zeta;
    [destruct (equal _ _)| |destruct (PruneDeletes opts)|];
    unfold option_list; cbn [option_rect]; rewrite ?app_nil_r, ?summarize_snoc; done.
Qed.

Lemma compute_fold opts dm am ks cs :
  foldl (compute_step yaml_marshal fmt_any opts dm am) (cs, summarize cs) ks =
  let cs' := cs ++ omap (change_for opts dm am) ks in (cs', summarize cs').
Proof.
  revert cs. induction ks as [|k ks IH]; intros cs; [by rewrite app_nil_r|].
  cbn [foldl]. rewrite compute_step_spec. cbn zeta. rewrite IH. cbn zeta.
  rewrite <- app_assoc. cbn [omap list_omap]. destruct (change_for opts dm am k); done.
Qed.

Definition planned (desired actual : list Resource) (opts : Options) : list Change :=
  let dm := index_resources desired (OptIgnoreFields opts) in
  let am := index_resources actual (OptIgnoreFields opts) in
  omap (change_for opts dm am) (union_keys dm am).

Lemma Compute_planned desired actual opts :
  Compute yaml_marshal fmt_any desired actual opts =
  (planned desired actual opts, summarize (planned desired actual opts)).
Proof. unfold Compute, planned. by rewrite (compute_fold _ _ _ _ []). Qed.

Lemma change_for_ID opts dm am k c : change_for opts dm am k = Some c -> ChangeID c = k.
Proof. unfold change_for. intros. repeat case_match; by simplify_eq. Qed.

Lemma elem_of_planned desired actual opts c :
  c ∈ planned desired actual opts <->
  change_for opts (index_resources desired (OptIgnoreFields opts))
    (index_resources actual (OptIgnoreFields opts)) (ChangeID c) = Some c.
Proof.
  unfold planned. rewrite list_elem_of_omap. split.
  - intros (k & _ & Hk). by rewrite (change_for_ID _ _ _ _ _ Hk).
  - intros Hc. exists (ChangeID c). split; [|done]. apply elem_of_union_keys.
    unfold change_for in Hc. repeat case_match; try done; eauto.
Qed.

Lemma planned_IDs_sorted desired actual opts :
  StronglySorted str_lt (ChangeID <$> planned desired actual opts).
Proof.
  unfold planned. set (dm := index_resources desired _). set (am := index_resources actual _).
  pose proof (union_keys_sorted dm am) as Hs. induction Hs as [|k ks Hs IH Hall]; [constructor|].
  cbn. destruct (change_for opts dm am k) as [c|] eqn:E; [|done]. cbn. constructor; [done|].
  rewrite (change_for_ID _ _ _ _ _ E). rewrite Forall_forall in Hall |- *.
  intros x (c' & -> & (k' & Hk' & Hc')%list_elem_of_omap)%list_elem_of_fmap.
  rewrite (change_for_ID _ _ _ _ _ Hc'). by apply Hall.
Qed.

(** The change of an identity, by the resources that have it. *)
Lemma planned_change desired actual opts k :
  change_for opts (index_resources desired (OptIgnoreFields opts))
    (index_resources actual (OptIgnoreFields opts)) k =
  let ig := OptIgnoreFields opts in
  match last_with_id desired k, last_with_id actual k with
  | Some d, None =>
      Some (mkChange k Create [] [] [] [] "" (mustYAML yaml_marshal (VMap (Body (normalize d ig)))))
  | None, Some a =>
      if PruneDeletes opts
      then Some (mkChange k Delete [] [] [] [] (mustYAML yaml_marshal (VMap (Body (normalize a ig)))) "")
      else None
  | Some d, Some a =>
      let db := Body (normalize d ig) in
      let ab := compared_body opts db (Body (normalize a ig)) in
      if equal db ab then Some (mkChange k NoOp [] [] [] [] "" "")
      else Some (patch_of yaml_marshal fmt_any k (normalize d ig) (normalize a ig) db ab)
  | None, None => None
  end.
Proof.
  unfold change_for. rewrite !lookup_index_resources.
  destruct (last_with_id desired k), (last_with_id actual k); done.
Qed.

(** What the action of the change for [k] must be. *)
Definition action_for (desired actual : list Resource) (opts : Options) (k : string) (act : Action)
    : Prop :=
  match last_with_id desired k, last_with_id actual k with
  | Some d, None => act = Create
  | None, Some a => act = Delete /\ PruneDeletes opts = true
  | Some d, Some a => (act = NoOp /\ agrees opts d a) \/ (act = Patch /\ ~ agrees opts d a)
  | None, None => False
  end.

#[local] Ltac planned_witness Hc :=
  match type of Hc with _ = Some ?c => exists c; split; [exact Hc|done] end.

Lemma planned_action desired actual opts k act :
  (exists c, c ∈ planned desired actual opts /\ ChangeID c = k /\ ChangeAction c = act) <->
  action_for desired actual opts k act.
Proof.
  setoid_rewrite elem_of_planned. unfold action_for. pose proof (planned_change desired actual opts k) as Hc.
  cbn zeta in Hc. split.
  - intros (c & Hk & Hid & <-). rewrite Hid, Hc in Hk. clear Hc.
    destruct (last_with_id desired k) as [d|], (last_with_id actual k) as [a|].
    + destruct (equal _ _) eqn:E; injection Hk as <-; [left|right]; (split; [done|]).
      * by apply equal_agrees.
      * rewrite <- equal_agrees. cbn zeta. by rewrite E.
    + by injection Hk as <-.
    + destruct (PruneDeletes opts); [by injection Hk as <-|done].
    + done.
  - intros Ha.
    destruct (last_with_id desired k) as [d|], (last_with_id actual k) as [a|].
    + destruct Ha as [[-> Ha]|[-> Ha]]; rewrite <- equal_agrees in Ha; cbn zeta in Ha.
      * rewrite Ha in Hc. planned_witness Hc.
      * apply not_true_is_false in Ha. rewrite Ha in Hc. planned_witness Hc.
    + subst act. planned_witness Hc.
    + destruct Ha as [-> Hp]. rewrite Hp in Hc. planned_witness Hc.
    + done.
Qed.
End Plan.

(** ** Fields a server populates *)

Definition managed_keys : list string :=
  ["managedFields"; "resourceVersion"; "uid"; "creationTimestamp"; "generation"].

(** [served extra b b']: the decoded body [b'] is [b] with fields only a server, kubectl
    or Flux writes, in any number and with any values. Flux labels may be added to labels
    of the object, and to an object without any when [extra] is set. *)
Inductive served (extra : bool) (b : gmap string value) : gmap string value -> Prop :=
| served_same : served extra b b
| served_status b' v : served extra b b' -> served extra b (<["status" := v]> b')
| served_managed b' m k v :
    served extra b b' -> mget_map b' "metadata" = Some m -> k ∈ managed_keys ->
    served extra b (<["metadata" := VMap (<[k := v]> m)]> b')
| served_last_applied b' m anns v :
    served extra b b' -> mget_map b' "metadata" = Some m ->
    (m !! "annotations" = Some (VMap anns) \/ m !! "annotations" = None /\ anns = ∅) ->
    served extra b (<["metadata" := VMap (<["annotations" := VMap (<[last_applied := v]> anns)]> m)]> b')
| served_flux_label b' m labels k v :
    served extra b b' -> mget_map b' "metadata" = Some m ->
    (m !! "labels" = Some (VMap labels) \/ extra = true /\ m !! "labels" = None /\ labels = ∅) ->
    k ∈ [flux_name_label; flux_namespace_label] ->
    served extra b (<["metadata" := VMap (<["labels" := VMap (<[k := v]> labels)]> m)]> b')
| served_null b' k : served extra b b' -> b' !! k = None -> served extra b (<[k := VNull]> b').

(** The part of [normalize] after the copy. *)
Definition prune_map (m : gmap string value) : gmap string value :=
  omap (fun x => if is_nil (pruneNilValues x) then None else Some (pruneNilValues x)) m.

(** Before the ignored fields are deleted. *)
Definition strip_managed (kind : string) (cp : gmap string value) : gmap string value :=
  let cp := delete "status" (prune_map cp) in
  let cp := match mget_map cp "metadata" with
            | Some m => <["metadata" := VMap (clean_meta m)]> cp
            | None => cp
            end in
  if str_eqb kind "CustomResourceDefinition" then clean_crd cp else cp.

Definition strip_body (kind : string) (cp : gmap string value) (ignore : list string)
    : gmap string value :=
  foldl deletePath (strip_managed kind cp) ignore.

Lemma normalize_body_strip kind body ignore :
  normalize_body kind body ignore = strip_body kind (deepCopyMap body) ignore.
Proof. done. Qed.

Lemma prune_map_insert m k v :
  prune_map (<[k := v]> m) =
  if is_nil (pruneNilValues v) then delete k (prune_map m)
  else <[k := pruneNilValues v]> (prune_map m).
Proof.
  unfold prune_map. destruct (is_nil (pruneNilValues v)) eqn:E.
  - apply omap_insert_None. by rewrite E.
  - apply omap_insert_Some. by rewrite E.
Qed.

Lemma prune_map_insert_map m k m' :
  prune_map (<[k := VMap m']> m) = <[k := VMap (prune_map m')]> (prune_map m).
Proof. by rewrite prune_map_insert. Qed.

Lemma lookup_prune_map_map m k m' :
  m !! k = Some (VMap m') -> prune_map m !! k = Some (VMap (prune_map m')).
Proof. intros H. unfold prune_map at 1. by rewrite lookup_omap, H. Qed.

(** Only the cleaned metadata matters. *)
Lemma strip_meta kind b m m' :
  mget_map b "metadata" = Some m ->
  strip_managed kind (<["metadata" := VMap m']> b) =
    <["metadata" := VMap (clean_meta (prune_map m'))]> (strip_managed kind b) /\
  strip_managed kind b !! "metadata" = Some (VMap (clean_meta (prune_map m))).
Proof.
  intros Hb%mget_map_Some. unfold strip_managed. rewrite prune_map_insert_map, delete_insert_ne by done.
  assert (delete "status" (prune_map b) !! "metadata" = Some (VMap (prune_map m))) as Hp.
  { rewrite lookup_delete_ne by done. by apply lookup_prune_map_map. }
  unfold mget_map, mget. rewrite Hp, lookup_insert_eq. cbn. rewrite insert_insert_eq.
  destruct (str_eqb kind _); [|by rewrite insert_insert_eq, lookup_insert_eq].
  unfold clean_crd, mget_map, mget. rewrite !(lookup_insert_ne _ "metadata" "spec") by done.
  destruct (delete "status" (prune_map b) !! "spec") as [[]|]; cbn;
    rewrite ?insert_insert_eq, ?lookup_insert_eq; try done.
  repeat case_match; rewrite ?lookup_insert_ne, ?lookup_insert_eq by done;
    rewrite ?(insert_insert_ne _ "metadata" "spec"), ?insert_insert_eq by done; done.
Qed.

Lemma strip_meta_same kind b m m' :
  mget_map b "metadata" = Some m -> clean_meta (prune_map m') = clean_meta (prune_map m) ->
  strip_managed kind (<["metadata" := VMap m']> b) = strip_managed kind b.
Proof. intros Hb Hm. destruct (strip_meta kind b m m' Hb) as [-> Hl]. rewrite Hm. by apply insert_id. Qed.

(** Deleting the managed keys undoes any change to them. *)
Lemma drop_managed_lookup m k :
  drop_managed m !! k = if decide (k ∈ managed_keys) then None else m !! k.
Proof.
  unfold drop_managed, managed_keys. rewrite !lookup_delete.
  destruct (decide (k ∈ _)) as [Hk|Hk]; set_unfold in Hk; repeat case_decide;
    intuition congruence.
Qed.

Lemma drop_managed_insert_in m k v :
  k ∈ managed_keys -> drop_managed (<[k := v]> m) = drop_managed m.
Proof.
  intros Hk. apply map_eq. intros j. rewrite !drop_managed_lookup, lookup_insert.
  repeat case_decide; congruence.
Qed.

Lemma drop_managed_delete_in m k :
  k ∈ managed_keys -> drop_managed (delete k m) = drop_managed m.
Proof.
  intros Hk. apply map_eq. intros j. rewrite !drop_managed_lookup, lookup_delete.
  repeat case_decide; congruence.
Qed.

Lemma drop_managed_insert m k v :
  k ∉ managed_keys -> drop_managed (<[k := v]> m) = <[k := v]> (drop_managed m).
Proof.
  intros Hk. apply map_eq. intros j. rewrite drop_managed_lookup, !lookup_insert, drop_managed_lookup.
  repeat case_decide; congruence.
Qed.

(** [l] holds the map [m'] at [k], or nothing and [m'] is empty. *)
Definition holds_map (m : gmap string value) (k : string) (m' : gmap string value) : Prop :=
  m !! k = Some (VMap m') \/ m !! k = None /\ m' = ∅.

Lemma prune_holds m k m' : holds_map m k m' -> holds_map (prune_map m) k (prune_map m').
Proof.
  intros [H|[H ->]]; [left; by apply lookup_prune_map_map|right].
  unfold prune_map at 1. by rewrite lookup_omap, H.
Qed.

Lemma clean_anns_insert m anns anns' :
  holds_map m "annotations" anns -> delete last_applied anns' = delete last_applied anns ->
  clean_anns (<["annotations" := VMap anns']> m) = clean_anns m.
Proof.
  intros Ha Hd. unfold clean_anns, mget_map, mget. rewrite lookup_insert_eq. cbn. rewrite Hd.
  rewrite insert_insert_eq, delete_insert_eq. destruct Ha as [Ha|[Ha ->]]; rewrite Ha; [done|]. cbn.
  rewrite decide_True by apply delete_empty. by apply delete_id.
Qed.

Lemma clean_anns_labels m labels :
  clean_anns (<["labels" := VMap labels]> m) = <["labels" := VMap labels]> (clean_anns m).
Proof.
  unfold clean_anns, mget_map, mget. rewrite lookup_insert_ne by done.
  destruct (m !! "annotations") as [[]|]; cbn; try done.
  case_decide; [by rewrite delete_insert_ne|by rewrite insert_insert_ne].
Qed.

Lemma clean_labels_insert m labels labels' :
  m !! "labels" = Some (VMap labels) ->
  delete flux_namespace_label (delete flux_name_label labels') =
  delete flux_namespace_label (delete flux_name_label labels) ->
  clean_labels (clean_anns (<["labels" := VMap labels']> m)) = clean_labels (clean_anns m).
Proof.
  intros Hl Hd. rewrite clean_anns_labels.
  assert (clean_anns m !! "labels" = Some (VMap labels)) as Hl'.
  { unfold clean_anns. destruct (mget_map m "annotations"); [|done].
    case_decide; [by rewrite lookup_delete_ne|by rewrite lookup_insert_ne]. }
  unfold clean_labels, mget_map, mget. rewrite lookup_insert_eq, Hl'. cbn.
  by rewrite insert_insert_eq, Hd.
Qed.

Lemma prune_map_delete_eq m k v (f : gmap string value -> gmap string value) :
  (forall m v, f (<[k := v]> m) = f m) -> (forall m, f (delete k m) = f m) ->
  f (prune_map (<[k := v]> m)) = f (prune_map m).
Proof. intros Hi Hd. rewrite prune_map_insert. by case_match. Qed.

Lemma delete_insert_del (k : string) (m : gmap string value) v :
  delete k (<[k := v]> m) = delete k m.
Proof. apply delete_insert_eq. Qed.

Lemma delete_delete_del (k : string) (m : gmap string value) : delete k (delete k m) = delete k m.
Proof. apply delete_delete_eq. Qed.

Lemma annotations_unmanaged : "annotations" ∉ managed_keys.
Proof. by apply (bool_decide_unpack _). Qed.

Lemma labels_unmanaged : "labels" ∉ managed_keys.
Proof. by apply (bool_decide_unpack _). Qed.

(** [extends x y]: [y] is [x] with more keys in its maps. *)
Inductive extends : value -> value -> Prop :=
| extends_same v : extends v v
| extends_map (dm am : gmap string value) :
    (forall k d, dm !! k = Some d -> exists a, am !! k = Some a /\ extends d a) ->
    extends (VMap dm) (VMap am).

Lemma extends_trans x y z : extends x y -> extends y z -> extends x z.
Proof.
  revert y z. induction x as [ | b | n | tx | tx | s | tx | l IH | m IH | l ] using value_ind; intros y z Hxy Hyz;
    try (inversion Hxy; subst; exact Hyz).
  inversion Hxy as [|dm am Ham]; subst; [done|]. inversion Hyz as [|dm' cm Hcm]; subst; [done|].
  apply extends_map. intros k d Hd. destruct (Ham k d Hd) as (a & Ha & Hda). destruct (Hcm k a Ha) as (c & Hc & Hac).
  exists c. split; [done|]. by eapply IH.
Qed.

Lemma extends_covers x y : extends x y -> covers x y.
Proof.
  revert y. induction x as [ | b | n | tx | tx | s | tx | l IH | m IH | l ] using value_ind; intros y Hxy;
    inversion Hxy as [|dm am Ham]; subst; try apply covers_refl.
  apply covers_map. intros k d Hd. destruct (Ham k d Hd) as (a & Ha & Hda). eauto.
Qed.

Lemma extends_lookup x y k d :
  extends (VMap x) (VMap y) -> x !! k = Some d -> exists a, y !! k = Some a /\ extends d a.
Proof. inversion 1; subst; [|by eauto]. intros ?. exists d. split; [done|constructor]. Qed.

Lemma extends_insert x y k d a :
  extends (VMap x) (VMap y) -> extends d a -> extends (VMap (<[k := d]> x)) (VMap (<[k := a]> y)).
Proof.
  intros Hxy Hda. apply extends_map. intros j v. rewrite !lookup_insert. case_decide; [|by apply extends_lookup].
  intros [= <-]. eauto.
Qed.

Lemma extends_delete_parts parts x y :
  extends (VMap x) (VMap y) -> extends (VMap (delete_parts x parts)) (VMap (delete_parts y parts)).
Proof.
  revert x y. induction parts as [|p rest IH]; intros x y Hxy; [done|]. cbn [delete_parts].
  destruct rest as [|q rest].
  { apply extends_map. intros k d. rewrite !lookup_delete. case_decide; [done|]. by apply extends_lookup. }
  destruct (mget_map x p) as [nx|] eqn:Ex.
  - apply mget_map_Some in Ex. destruct (extends_lookup _ _ _ _ Hxy Ex) as (a & Ha & Hn).
    assert (exists ny, a = VMap ny) as [ny ->] by (inversion Hn; eauto).
    rewrite (proj2 (mget_map_Some _ _ _) Ha). by apply extends_insert, IH.
  - destruct (mget_map y p) as [ny|] eqn:Ey; [|done]. apply mget_map_Some in Ey.
    apply extends_map. intros k d Hd. destruct (extends_lookup _ _ _ _ Hxy Hd) as (a & Ha & Hda).
    rewrite lookup_insert. case_decide as Hk; [|eauto]. subst k. exfalso. rewrite Ey in Ha. injection Ha as <-.
    inversion Hda; subst; by rewrite (proj2 (mget_map_Some _ _ _) Hd) in Ex.
Qed.

Lemma extends_ignore ignore x y :
  extends (VMap x) (VMap y) -> extends (VMap (foldl deletePath x ignore)) (VMap (foldl deletePath y ignore)).
Proof.
  revert x y. induction ignore as [|p ignore IH]; intros x y Hxy; [done|]. cbn. by apply IH, extends_delete_parts.
Qed.

(** The same map, or, when more keys are allowed, one with more keys. *)
Definition same_or_more (extra : bool) (x y : gmap string value) : Prop :=
  if extra then extends (VMap x) (VMap y) else x = y.

#[local] Instance same_or_more_refl extra : Reflexive (same_or_more extra).
Proof. intros x. unfold same_or_more. destruct extra; [constructor|done]. Qed.
#[local] Instance same_or_more_trans extra : Transitive (same_or_more extra).
Proof. intros x y z. unfold same_or_more. destruct extra; [apply extends_trans|congruence]. Qed.

Lemma clean_labels_new m labels :
  m !! "labels" = None -> delete flux_namespace_label (delete flux_name_label labels) = ∅ ->
  clean_labels (clean_anns (<["labels" := VMap labels]> m)) =
    <["labels" := VMap ∅]> (clean_labels (clean_anns m)) /\ clean_labels (clean_anns m) !! "labels" = None.
Proof.
  intros Hl Hd. rewrite clean_anns_labels.
  assert (clean_anns m !! "labels" = None) as Hl'.
  { unfold clean_anns. destruct (mget_map m "annotations"); [|done].
    case_decide; [by rewrite lookup_delete_ne|by rewrite lookup_insert_ne]. }
  unfold clean_labels, mget_map, mget. rewrite lookup_insert_eq, Hl'. cbn. by rewrite insert_insert_eq, Hd.
Qed.

Lemma prune_flux_labels labels k v :
  k ∈ [flux_name_label; flux_namespace_label] ->
  delete flux_namespace_label (delete flux_name_label (prune_map (<[k := v]> labels))) =
  delete flux_namespace_label (delete flux_name_label (prune_map labels)).
Proof.
  intros Hk. apply (prune_map_delete_eq _ _ _ (fun m => delete flux_namespace_label (delete flux_name_label m)));
    intros; apply map_eq; intros j; rewrite !lookup_delete, ?lookup_insert, ?lookup_delete;
    set_unfold in Hk; repeat case_decide; intuition congruence.
Qed.

Lemma served_strip extra kind b b' :
  served extra b b' -> same_or_more extra (strip_managed kind b) (strip_managed kind b').
Proof.
  induction 1 as [|b' v _ IH|b' m k v _ IH Hm Hk|b' m anns v _ IH Hm Ha|b' m labels k v _ IH Hm Hl Hk
                 |b' k _ IH Hk]; [done|..]; etransitivity; try exact IH; clear IH.
  - unfold strip_managed. rewrite (prune_map_delete_eq _ _ _ (delete "status"));
      auto using delete_insert_del, delete_delete_del. done.
  - rewrite (strip_meta_same _ _ m); [done|done|]. unfold clean_meta. do 2 f_equal.
    apply prune_map_delete_eq; auto using drop_managed_insert_in, drop_managed_delete_in.
  - rewrite (strip_meta_same _ _ m); [done|done|]. unfold clean_meta. f_equal. rewrite prune_map_insert_map.
    rewrite drop_managed_insert by apply annotations_unmanaged.
    apply prune_holds in Ha. apply (clean_anns_insert _ (prune_map anns)).
    + unfold holds_map. rewrite drop_managed_lookup.
      rewrite decide_False by apply annotations_unmanaged. done.
    + apply prune_map_delete_eq; auto using delete_insert_del, delete_delete_del.
  - destruct Hl as [Hl|(-> & Hl & ->)].
    + rewrite (strip_meta_same _ _ m); [done|done|]. unfold clean_meta. rewrite prune_map_insert_map.
      rewrite drop_managed_insert by apply labels_unmanaged.
      apply lookup_prune_map_map in Hl. apply (clean_labels_insert _ (prune_map labels));
        [|by apply prune_flux_labels].
      rewrite drop_managed_lookup. by rewrite decide_False by apply labels_unmanaged.
    + cbn. destruct (strip_meta kind b' m (<["labels" := VMap (<[k := v]> ∅)]> m) Hm) as [-> Hmeta].
      unfold clean_meta in *. rewrite prune_map_insert_map, drop_managed_insert by apply labels_unmanaged.
      destruct (clean_labels_new (drop_managed (prune_map m)) (prune_map (<[k := v]> ∅))) as [-> Hnew].
      * rewrite drop_managed_lookup, decide_False by apply labels_unmanaged. unfold prune_map.
        by rewrite lookup_omap, Hl.
      * rewrite prune_flux_labels by done. done.
      * rewrite <- (insert_id (strip_managed kind b') _ _ Hmeta) at 1. apply extends_insert; [constructor|].
        apply extends_map. intros j d Hd. exists d. split; [|constructor].
        rewrite lookup_insert_ne; [done|]. intros <-. congruence.
  - unfold strip_managed. rewrite prune_map_insert. cbn.
    rewrite (delete_id (prune_map b') k); [done|]. unfold prune_map. by rewrite lookup_omap, Hk.
Qed.

Lemma served_normalize extra d a ignore :
  Kind a = Kind d -> served extra (deepCopyMap (Body d)) (deepCopyMap (Body a)) ->
  same_or_more extra (Body (normalize d ignore)) (Body (normalize a ignore)).
Proof.
  intros Hk Hs%(served_strip _ (Kind d)). cbn [normalize Body]. rewrite !normalize_body_strip, Hk. unfold strip_body.
  unfold same_or_more in *. destruct extra; [by apply extends_ignore|by rewrite Hs].
Qed.

(** ** Patches *)

Section Patches.
Context (yaml_marshal : value -> yaml_out) (fmt_any : value -> string).

Lemma patch_explained k d a db ab :
  normal db -> normal ab -> equal db ab = false ->
  let c := patch_of yaml_marshal fmt_any k d a db ab in
  (forall k, k ∈ ChangedKeys c <-> db !! k <> ab !! k) /\
  (forall p, p ∈ ChangedPaths c <->
     exists ks, differs_at (VMap db) (VMap ab) ks /\ p = displayPath (path_of "" ks)) /\
  ChangedKeys c <> [] /\ ChangedPaths c <> [] /\ AttributeDiff c <> [].
Proof.
  intros Hd Ha He.
  assert (db <> ab) as Hne by (intros ->; unfold equal in He; by rewrite equalAny_refl in He).
  assert (VMap db <> VMap ab) as Hne' by congruence.
  destruct Hd as [Nd Fd], Ha as [Na Fa]. cbn -[changedTopLevelKeys changedFieldPaths].
  split_and!.
  - intros k'. by apply elem_of_changedTopLevelKeys.
  - intros p. by apply changedFieldPaths_spec.
  - intros Hnil. destruct (normal_differs db ab) as (k' & _ & Hk); [done..|].
    apply elem_of_changedTopLevelKeys in Hk; [|done..]. rewrite Hnil in Hk. by apply elem_of_nil in Hk.
  - intros Hnil. destruct (differs_exists (VMap db) (VMap ab)) as [ks Hks]; [done..|].
    assert (displayPath (path_of "" ks) ∈ changedFieldPaths (VMap db) (VMap ab)) as Hin
      by (apply changedFieldPaths_spec; eauto).
    rewrite Hnil in Hin. by apply elem_of_nil in Hin.
  - intros Hnil. by apply (attr_walk_nil fmt_any (VMap db) "" (VMap ab)) in Hnil.
Qed.
End Patches.

(** ** Theorems about Compute *)

Section Theorems.
Context (yaml_marshal : value -> yaml_out) (fmt_any : value -> string).

(** C1: Compute reports a change with action [act] for the identity [k] exactly when
    the resources with that identity call for it: CREATE when only the desired side
    has it, DELETE when only the live side has it and pruning is on, NO-OP when both
    have it and agree, PATCH when both have it and differ; and nothing for an identity
    neither side has. Agreement is equality of the normalized bodies, or, when fields
    only the live object has are ignored, that every desired field has its value in
    the live object. *)
Theorem Compute_actions desired actual opts k act :
  (exists c, c ∈ (Compute yaml_marshal fmt_any desired actual opts).1 /\ ChangeID c = k /\ ChangeAction c = act) <->
  action_for desired actual opts k act.
Proof. rewrite Compute_planned. apply planned_action. Qed.

(** The plan has at most one change per identity, in strictly increasing order of
    the identities. *)
Theorem Compute_sorted desired actual opts :
  StronglySorted str_lt (ChangeID <$> (Compute yaml_marshal fmt_any desired actual opts).1).
Proof. rewrite Compute_planned. apply planned_IDs_sorted. Qed.

(** The summary counts the changes of the plan by action. *)
Theorem Compute_summary desired actual opts :
  let '(changes, s) := Compute yaml_marshal fmt_any desired actual opts in
  Creates s = count_action Create changes /\ Patches s = count_action Patch changes /\
  Deletes s = count_action Delete changes /\ NoOps s = count_action NoOp changes /\
  Creates s + Patches s + Deletes s + NoOps s = Z.of_nat (length changes).
Proof.
  rewrite Compute_planned. repeat (split; [done|]). cbn [Creates Patches Deletes NoOps summarize].
  induction (planned _ _ _ _ _) as [|c cs IH] using rev_ind; [done|].
  rewrite !count_action_snoc, length_app. destruct (ChangeAction c); cbn [length]; repeat case_decide; try done; lia.
Qed.

(** C12: a PATCH says what changed. Its keys are exactly the top-level keys at which
    the normalized desired body differs from the live body it is compared with, its
    paths exactly the places where following the keys of both leads to different
    values, and none of keys, paths and attribute lines is empty. *)
Theorem Compute_patch_explained desired actual opts c :
  c ∈ (Compute yaml_marshal fmt_any desired actual opts).1 -> ChangeAction c = Patch ->
  exists d a, last_with_id desired (ChangeID c) = Some d /\ last_with_id actual (ChangeID c) = Some a /\
    let db := Body (normalize d (OptIgnoreFields opts)) in
    let ab := compared_body opts db (Body (normalize a (OptIgnoreFields opts))) in
    (forall k, k ∈ ChangedKeys c <-> db !! k <> ab !! k) /\
    (forall p, p ∈ ChangedPaths c <->
       exists ks, differs_at (VMap db) (VMap ab) ks /\ p = displayPath (path_of "" ks)) /\
    ChangedKeys c <> [] /\ ChangedPaths c <> [] /\ AttributeDiff c <> [].
Proof.
  rewrite Compute_planned. cbn [fst]. intros Hc Hp. apply elem_of_planned in Hc.
  rewrite planned_change in Hc. cbn zeta in Hc.
  destruct (last_with_id desired (ChangeID c)) as [d|], (last_with_id actual (ChangeID c)) as [a|];
    [|by injection Hc as Hc; rewrite <- Hc in Hp
     |by destruct (PruneDeletes opts); [injection Hc as Hc; rewrite <- Hc in Hp|]|done].
  exists d, a. do 2 (split; [done|]). cbn zeta.
  set (db := Body (normalize d _)) in *. set (ab := compared_body opts db _) in *.
  destruct (equal db ab) eqn:E; injection Hc as Hc; rewrite <- Hc in Hp; [done|]. rewrite <- Hc.
  apply patch_explained; [apply normalize_normal|apply compared_body_normal; apply normalize_normal|done].
Qed.

(** Planning against a live state equal to the desired one changes nothing: every
    reported change is a NO-OP, with any options. *)
Theorem Compute_same rs opts :
  let '(changes, s) := Compute yaml_marshal fmt_any rs rs opts in
  (forall c, c ∈ changes -> ChangeAction c = NoOp) /\
  Creates s = 0 /\ Patches s = 0 /\ Deletes s = 0.
Proof.
  rewrite Compute_planned.
  assert (forall c, c ∈ planned yaml_marshal fmt_any rs rs opts -> ChangeAction c = NoOp) as H.
  { intros c Hc. assert (action_for rs rs opts (ChangeID c) (ChangeAction c)) as Ha
      by (apply (planned_action yaml_marshal fmt_any); eauto).
    unfold action_for in Ha. destruct (last_with_id rs (ChangeID c)) as [r|]; [|done].
    destruct Ha as [[Ha _]|[_ Ha]]; [done|]. by destruct (Ha (agrees_refl opts r)). }
  split; [done|]. cbn. by rewrite !(count_action_absent _ _ _ H) by done.
Qed.

(** C9: fields a server populates do not show up in a plan. When the live object, as
    JSON, is the desired one with any values of status, of the managed metadata, of
    the last-applied annotation, of null fields and of the Flux labels added, the
    resource is reported as a NO-OP. Without [IgnoreActualExtraFields], which the planner
    sets, the Flux labels must join labels of the object's own. *)
Theorem Compute_server_fields desired actual opts d a :
  last_with_id desired (ID d) = Some d -> last_with_id actual (ID d) = Some a -> Kind a = Kind d ->
  served (IgnoreActualExtraFields opts) (deepCopyMap (Body d)) (deepCopyMap (Body a)) ->
  exists c, c ∈ (Compute yaml_marshal fmt_any desired actual opts).1 /\ ChangeID c = ID d /\ ChangeAction c = NoOp.
Proof.
  intros Hd Ha Hk Hs. rewrite Compute_planned. apply planned_action. unfold action_for.
  rewrite Hd, Ha. left. split; [done|]. unfold agrees.
  apply (served_normalize _ d a (OptIgnoreFields opts)) in Hs; [|done]. unfold same_or_more in Hs.
  destruct (IgnoreActualExtraFields opts); [by apply extends_covers|done].
Qed.
End Theorems.

(** ** Instances *)

(** A YAML encoder: JSON documents are YAML documents. *)
Definition json_yaml (v : value) : yaml_out :=
  match marshal v with Some t => YamlText (t +:+ nl) | None => YamlErr "unsupported value" end.
Definition plain_fmt (v : value) : string := "?".

Definition web_meta : gmap string value := {[ "name" := VString "web" ]}.
Definition web_desired : Resource :=
  mkResource "apps/v1" "Deployment" "default" "web"
    {[ "kind" := VString "Deployment"; "metadata" := VMap web_meta;
       "spec" := VMap {[ "replicas" := VInt 3 ]} ]} "web.yaml".
Definition web_scaled : Resource :=
  mkResource "apps/v1" "Deployment" "default" "web"
    {[ "kind" := VString "Deployment"; "metadata" := VMap web_meta;
       "spec" := VMap {[ "replicas" := VInt 2 ]}; "status" := VMap {[ "ready" := VInt 2 ]} ]} "".

Lemma Compute_patch_explained_witness :
  exists c d a, c ∈ (Compute json_yaml plain_fmt [web_desired] [web_scaled] (mkOptions true [] true)).1 /\
    last_with_id [web_desired] (ChangeID c) = Some d /\ last_with_id [web_scaled] (ChangeID c) = Some a /\
    ChangedKeys c <> [].
Proof.
  set (cs := (Compute json_yaml plain_fmt [web_desired] [web_scaled] (mkOptions true [] true)).1).
  assert (ChangeAction <$> cs = [Patch]) as Hcs by (vm_compute; reflexivity).
  destruct cs as [|c l] eqn:E; [discriminate Hcs|]. injection Hcs as Hp _.
  assert (c ∈ cs) as Hc by (rewrite E; apply elem_of_cons; by left).
  destruct (Compute_patch_explained json_yaml plain_fmt [web_desired] [web_scaled]
              (mkOptions true [] true) c Hc Hp) as (d & a & Hd & Ha & _ & _ & Hk & _).
  exists c, d, a. rewrite <- E. auto.
Defined.

Definition web_flux : Resource :=
  mkResource "apps/v1" "Deployment" "default" "web"
    {[ "kind" := VString "Deployment";
       "metadata" := VMap (<["labels" := VMap {[ flux_name_label := VString "apps" ]}]> web_meta);
       "spec" := VMap {[ "replicas" := VInt 3 ]}; "status" := VMap {[ "ready" := VInt 3 ]} ]} "".

Lemma Compute_server_fields_witness :
  exists c, c ∈ (Compute json_yaml plain_fmt [web_desired] [web_flux] (mkOptions true [] true)).1 /\
    ChangeID c = ID web_desired /\ ChangeAction c = NoOp.
Proof.
  apply (Compute_server_fields json_yaml plain_fmt [web_desired] [web_flux] (mkOptions true [] true)
           web_desired web_flux); [reflexivity..|].
  replace (deepCopyMap (Body web_flux)) with
    (<["metadata" := VMap (<["labels" := VMap (<[flux_name_label := VString "apps"]> ∅)]> web_meta)]>
      (<["status" := VMap {[ "ready" := VFloat "3" ]}]> (deepCopyMap (Body web_desired))))
    by (vm_compute; reflexivity).
  apply served_flux_label; [apply served_status, served_same|vm_compute; reflexivity| |left].
  right. split; [reflexivity|]. split; reflexivity.
Defined.

(** Emptied labels, unlike emptied annotations, are not removed: when extra live fields
    count, an object whose only label is Flux's differs from one without labels. *)
Example Compute_flux_only_label_patches :
  ChangeAction <$> (Compute json_yaml plain_fmt [web_desired] [web_flux] (mkOptions true [] false)).1 = [Patch].
Proof. vm_compute. reflexivity. Qed.

(** Removing the last element of a list is not seen when fields only the live object
    has are ignored, as the planner asks for. *)
Definition args_resource (args : list value) : Resource :=
  mkResource "v1" "Pod" "default" "web"
    {[ "kind" := VString "Pod"; "spec" := VMap {[ "args" := VList args ]} ]} "".

Example Compute_shortened_list_unseen :
  ChangeAction <$> (Compute json_yaml plain_fmt [args_resource [VString "a"]]
    [args_resource [VString "a"; VString "b"]] (mkOptions true [] true)).1 = [NoOp].
Proof. vm_compute. reflexivity. Qed.

(** Ignoring the only annotation leaves an empty map behind, which differs from an
    object that never had annotations. *)
Definition annotated (anns : option (gmap string value)) : Resource :=
  mkResource "v1" "ConfigMap" "default" "cm"
    {[ "metadata" := VMap (match anns with
        | Some m => {[ "name" := VString "cm"; "annotations" := VMap m ]}
        | None => {[ "name" := VString "cm" ]} end) ]} "".

Example Compute_ignored_annotation_patches :
  ChangeAction <$> (Compute json_yaml plain_fmt [annotated (Some {[ "note" := VString "x" ]})]
    [annotated None] (mkOptions true ["metadata.annotations.note"] true)).1 = [Patch].
Proof. vm_compute. reflexivity. Qed.

(** A body encoding/json cannot encode is compared as the empty object. *)
Example Compute_unencodable_body_unseen :
  ChangeAction <$> (Compute json_yaml plain_fmt
    [mkResource "v1" "ConfigMap" "default" "cm"
       {[ "data" := VAnyMap [(VInt 1, VString "a")] ]} ""]
    [mkResource "v1" "ConfigMap" "default" "cm" {[ "data" := VString "other" ]} ""]
    (mkOptions true [] true)).1 = [NoOp].
Proof. vm_compute. reflexivity. Qed.
