(* ===== verification/Policy.v ===== *)
(** * Policy findings: internal/policy/evaluator.go *)

From stdpp Require Import options.
From S2P Require Import Prelude GoStrings Value Config Render.

Inductive Severity := SeverityWarn | SeverityError.

Definition severity_text (s : Severity) : string :=
  match s with SeverityWarn => "WARN" | SeverityError => "ERROR" end.

#[export] Instance Severity_eq_dec : EqDecision Severity.
Proof. solve_decision. Defined.

Record Finding := mkFinding {
  ResourceID : string;
  RuleID : string;
  FindingSeverity : Severity;
  Message : string
}.

Definition secret_finding (r : Resource) : Finding :=
  mkFinding (ID r) "review-secret-change" SeverityWarn
    "Secret change detected; validate secret rotation and source of truth".

Definition binding_finding (r : Resource) : Finding :=
  mkFinding (ID r) "restrict-cluster-admin-bindings" SeverityError
    ("cluster-wide RBAC binding change requires security review: " +:+ ID r).

(** [BuiltinEvaluator.Evaluate] *)
Definition Evaluate (resources : list Resource) (profile : string) : list Finding :=
  let profile := if str_eqb profile "" then "baseline" else profile in
  foldl (fun findings r =>
    let findings := if str_eqb (Kind r) "Secret" then findings ++ [secret_finding r] else findings in
    if str_eqb profile "strict" && str_eqb (Kind r) "ClusterRoleBinding"
    then findings ++ [binding_finding r] else findings) [] resources.

(** The interface the planner is given. *)
Class Evaluator (E : Type) := evaluate : E -> list Resource -> string -> list Finding.

#[export] Instance BuiltinEvaluator : Evaluator unit := fun _ => Evaluate.

(** ** Lemmas *)

Definition findings_of (profile : string) (r : Resource) : list Finding :=
  (if decide (Kind r = "Secret") then [secret_finding r] else []) ++
  (if decide (profile = "strict" /\ Kind r = "ClusterRoleBinding") then [binding_finding r] else []).

Lemma Evaluate_bind resources profile :
  Evaluate resources profile = mbind (findings_of profile) resources.
Proof.
  unfold Evaluate. set (p := if str_eqb profile "" then "baseline" else profile).
  assert (str_eqb p "strict" = bool_decide (profile = "strict")) as Hp.
  { unfold p. destruct (str_eqb profile "") eqn:E.
    - apply str_eqb_eq in E as ->. done.
    - apply eq_bool_prop_intro. rewrite bool_decide_spec, Is_true_true, str_eqb_eq. done. }
  enough (forall acc, foldl (fun findings r =>
    let findings := if str_eqb (Kind r) "Secret" then findings ++ [secret_finding r] else findings in
    if str_eqb p "strict" && str_eqb (Kind r) "ClusterRoleBinding"
    then findings ++ [binding_finding r] else findings) acc resources =
    acc ++ mbind (findings_of profile) resources) as H by apply (H []).
  induction resources as [|r rs IH]; intros acc; [by rewrite app_nil_r|].
  cbn [foldl]. rewrite IH. rewrite bind_cons, (assoc_L (++)). f_equal. rewrite Hp. unfold findings_of.
  destruct (str_eqb (Kind r) "Secret") eqn:E1; [apply str_eqb_eq in E1|apply str_eqb_neq in E1];
    (destruct (str_eqb (Kind r) "ClusterRoleBinding") eqn:E2;
      [apply str_eqb_eq in E2|apply str_eqb_neq in E2]);
    destruct (decide (profile = "strict")) as [Hs|Hs];
    repeat case_bool_decide; repeat case_decide; cbn; rewrite ?app_nil_r;
    intuition congruence.
Qed.

(** The findings are exactly one secret-review warning per rendered Secret and,
    under the strict profile only, one error per rendered ClusterRoleBinding, in the
    order of the resources; so without the strict profile no finding is an error. *)
Theorem Evaluate_findings resources profile :
  Evaluate resources profile = mbind (findings_of profile) resources /\
  ((exists f, f ∈ Evaluate resources profile /\ FindingSeverity f = SeverityError) <->
   profile = "strict" /\ exists r, r ∈ resources /\ Kind r = "ClusterRoleBinding").
Proof.
  split; [apply Evaluate_bind|]. rewrite Evaluate_bind. setoid_rewrite list_elem_of_bind. split.
  - intros (f & (r & Hf & Hr) & Hsev). unfold findings_of in Hf.
    apply elem_of_app in Hf as [Hf|Hf]; case_decide as Hd.
    + apply list_elem_of_singleton in Hf as ->. done.
    + by apply elem_of_nil in Hf.
    + destruct Hd. eauto.
    + by apply elem_of_nil in Hf.
  - intros (Hp & r & Hr & Hk). exists (binding_finding r). split; [|done]. exists r. split; [|done].
    unfold findings_of. apply elem_of_app. right. rewrite decide_True by done.
    by apply list_elem_of_singleton.
Qed.
