(* ===== verification/Report.v ===== *)
(** * Plan comments: internal/report/report.go

    A [strings.Builder] is the string written so far; [b.Len()] is its byte length. *)

From stdpp Require Import options.
From S2P Require Import Prelude GoStrings Value Config Render Diff Policy.

Definition defaultMaxResourceDetails : Z := 200.
Definition maxCommentChars : Z := 900000.
Definition maxYAMLCharsPerBlock : Z := 12000.

Record ProjectPlan := mkPlan {
  PlanProject : string;
  Changes : list Change;
  PlanSummary : Summary;
  Findings : list Finding
}.

Definition truncated_mark : string := nl +:+ "# ... truncated ...".

(** [s[:n]] for [n] within the string *)
Definition prefix_bytes (n : Z) (s : string) : string := stake (Z.to_nat n) s.

Definition truncateYAMLBlock (input : string) : string :=
  let trimmed := trim_space input in
  if zlen trimmed <=? maxYAMLCharsPerBlock then trimmed
  else trim_space (prefix_bytes maxYAMLCharsPerBlock trimmed) +:+ truncated_mark.

(** The loop of truncateDiffLines from a line that is not the first ([first = false])
    or the first one, with the builder [b] and [remaining] bytes. *)
Fixpoint diff_lines (first : bool) (b : string) (remaining : Z) (lines : list string) : string :=
  match lines with
  | [] => b
  | line :: rest =>
      let stop := negb first && (remaining <=? 1) in
      if stop then b +:+ truncated_mark
      else
        let b := if first then b else b +:+ nl in
        let remaining := if first then remaining else remaining - 1 in
        if zlen line <=? remaining then diff_lines false (b +:+ line) (remaining - zlen line) rest
        else (if 0 <? remaining then b +:+ prefix_bytes remaining line else b) +:+ truncated_mark
  end.

Definition truncateDiffLines (lines : list string) : string :=
  match lines with
  | [] => ""
  | _ => trim_space (diff_lines true "" maxYAMLCharsPerBlock lines)
  end.

Definition fence : string := "```".
Definition yaml_fence (label body : string) : string :=
  fence +:+ "yaml" +:+ nl +:+ "# " +:+ label +:+ nl +:+ truncateYAMLBlock body +:+ nl +:+ fence.

Definition renderChangeDetails (c : Change) : string :=
  match ChangeAction c with
  | Create =>
      if str_eqb (DesiredYAML c) "" then ""
      else nl +:+ yaml_fence "desired" (DesiredYAML c) +:+ nl
  | Delete =>
      if str_eqb (CurrentYAML c) "" then ""
      else nl +:+ yaml_fence "current" (CurrentYAML c) +:+ nl
  | Patch =>
      match AttributeDiff c with
      | _ :: _ =>
          nl +:+ fence +:+ "diff" +:+ nl +:+ truncateDiffLines (AttributeDiff c) +:+ nl +:+ fence +:+ nl
      | [] =>
          let parts :=
            (if str_eqb (CurrentYAML c) "" then [] else [yaml_fence "current" (CurrentYAML c)]) ++
            (if str_eqb (DesiredYAML c) "" then [] else [yaml_fence "desired" (DesiredYAML c)]) in
          match parts with
          | [] => ""
          | _ => nl +:+ join nl parts +:+ nl
          end
      end
  | NoOp => ""
  end.

Definition summaryLine (s : Summary) : string :=
  "Summary: CREATE=" +:+ fmt_d (Creates s) +:+ " PATCH=" +:+ fmt_d (Patches s) +:+
  " DELETE=" +:+ fmt_d (Deletes s) +:+ " NO-OP=" +:+ fmt_d (NoOps s).

Definition hasActionableChanges (plan : ProjectPlan) : bool :=
  let s := PlanSummary plan in
  (0 <? Creates s) || (0 <? Patches s) || (0 <? Deletes s) ||
  (0 <? Z.of_nat (length (Findings plan))).

Definition is_noop (c : Change) : bool := bool_decide (ChangeAction c = NoOp).

Definition code (s : string) : string := "`" +:+ s +:+ "`".

Definition opt_part (label : string) (l : list string) : string :=
  match l with [] => "" | _ => " " +:+ label +:+ "=" +:+ fmt_v l end.

Definition change_line (c : Change) : string :=
  "- " +:+ code (action_text (ChangeAction c)) +:+ " " +:+ ChangeID c +:+
  opt_part "changed" (ChangedKeys c) +:+ opt_part "paths" (ChangedPaths c) +:+
  opt_part "risks" (Risks c).

(** The loop over the changes: the builder, the number printed and whether the size
    limit stopped it. *)
Fixpoint change_loop (maxDetails total : Z) (b : string) (printed : Z) (changes : list Change)
    : string * Z * bool :=
  match changes with
  | [] => (b, printed, false)
  | c :: rest =>
      if is_noop c then change_loop maxDetails total b printed rest
      else if maxDetails <=? printed then
        (b +:+ "- ... truncated (" +:+ fmt_d (total - printed) +:+ " additional resources)" +:+ nl,
         printed, false)
      else
        let line := change_line c in
        if maxCommentChars <? zlen b + zlen line + 1 then (b, printed, true)
        else
          let b := b +:+ line +:+ nl in
          let details := renderChangeDetails c in
          if str_eqb details "" then change_loop maxDetails total b (printed + 1) rest
          else if maxCommentChars <? zlen b + zlen details then (b, printed, true)
          else change_loop maxDetails total (b +:+ details) (printed + 1) rest
  end.

Definition finding_line (f : Finding) : string :=
  "- " +:+ code (severity_text (FindingSeverity f)) +:+ " " +:+ code (RuleID f) +:+ " " +:+
  Message f +:+ " (" +:+ ResourceID f +:+ ")" +:+ nl.

Definition size_limit_line : string := "- ... truncated (comment size limit)" +:+ nl.

Fixpoint finding_loop (b : string) (findings : list Finding) : string :=
  match findings with
  | [] => b
  | f :: rest =>
      let line := finding_line f in
      if maxCommentChars <? zlen b + zlen line then b +:+ size_limit_line
      else finding_loop (b +:+ line) rest
  end.

Definition none_line : string := "- none" +:+ nl.

Definition appendPlanSections (b : string) (changes : list Change) (findings : list Finding)
    (maxResourceDetails : Z) (changesHeading findingsHeading : string) : string :=
  let b := b +:+ changesHeading +:+ nl in
  let nonNoopTotal := Z.of_nat (length (filter (fun c => is_noop c = false) changes)) in
  let '(b, printed, sizeTruncated) := change_loop maxResourceDetails nonNoopTotal b 0 changes in
  let b := if sizeTruncated : bool
           then b +:+ "- ... truncated (" +:+ fmt_d (nonNoopTotal - printed) +:+
                " additional resources; comment size limit)" +:+ nl
           else b in
  let b := if printed =? 0 then b +:+ none_line else b in
  let b := b +:+ nl +:+ findingsHeading +:+ nl in
  match findings with
  | [] => b +:+ none_line
  | _ => finding_loop b findings
  end.

Definition title : string := "## Thule Plan" +:+ nl +:+ nl.
Definition read_only_plan : string :=
  nl +:+ "> Thule is read-only and did not apply these changes. Flux or repository operators must reconcile/apply." +:+ nl.
Definition read_only_none : string :=
  nl +:+ "> Thule is read-only and did not apply any changes." +:+ nl.

Definition details_or_default (n : Z) : Z := if n <=? 0 then defaultMaxResourceDetails else n.

Definition BuildPlanComment (project sha : string) (changes : list Change) (summary : Summary)
    (findings : list Finding) (maxResourceDetails : Z) : string :=
  let maxResourceDetails := details_or_default maxResourceDetails in
  let b := title +:+ "Project: " +:+ code project +:+ "  " +:+ nl +:+
           "Commit: " +:+ code sha +:+ nl +:+ nl +:+ summaryLine summary +:+ nl +:+ nl in
  appendPlanSections b changes findings maxResourceDetails "### Changes" "### Policy Findings"
    +:+ read_only_plan.

(** The first [maxFiles] changed files, from index [i]. *)
Fixpoint file_lines (maxFiles total i : Z) (files : list string) : string :=
  match files with
  | [] => ""
  | f :: rest =>
      if maxFiles <=? i then "- ... truncated (" +:+ fmt_d (total - maxFiles) +:+ " additional files)" +:+ nl
      else "- " +:+ code f +:+ nl +:+ file_lines maxFiles total (i + 1) rest
  end.

Definition BuildNoChangesComment (sha : string) (changedFiles : list string) (maxFiles : Z) : string :=
  let maxFiles := if maxFiles <=? 0 then 50 else maxFiles in
  title +:+ "Commit: " +:+ code sha +:+ nl +:+ nl +:+
  "Summary: no diffs generated." +:+ nl +:+
  (match changedFiles with
   | [] => "Reason: no changed files were detected for this event." +:+ nl +:+ nl
   | _ => "Reason: changed files did not map to rendered Kubernetes resources in configured Thule projects."
          +:+ nl +:+ nl
   end) +:+
  "### Changed files" +:+ nl +:+
  (match changedFiles with
   | [] => none_line
   | _ => file_lines maxFiles (Z.of_nat (length changedFiles)) 0 changedFiles
   end) +:+
  read_only_none.

Definition BuildNoDiffComment (sha : string) (discoveredProjects : Z) : string :=
  title +:+ "Commit: " +:+ code sha +:+ nl +:+ nl +:+
  "Summary: no CREATE/PATCH/DELETE changes for touched manifests." +:+ nl +:+
  (if 0 <? discoveredProjects then "Projects checked: " +:+ code (fmt_d discoveredProjects) +:+ nl else "") +:+
  read_only_none.

(** [sort.SliceStable(visible, ...)] by project name. *)
Definition sort_plans (l : list ProjectPlan) : list ProjectPlan := sort_by PlanProject l.

Definition add_summary (t s : Summary) : Summary :=
  mkSummary (wrap64 (Creates t + Creates s)) (wrap64 (Patches t + Patches s))
            (wrap64 (Deletes t + Deletes s)) (wrap64 (NoOps t + NoOps s)).

(** The loop over the visible projects. *)
Fixpoint project_loop (maxDetails : Z) (first : bool) (b : string) (plans : list ProjectPlan) : string :=
  match plans with
  | [] => b
  | p :: rest =>
      let b := if first then b else b +:+ nl in
      let header := "### Project: " +:+ code (PlanProject p) +:+ nl in
      if maxCommentChars <? zlen b + zlen header then b +:+ nl +:+ size_limit_line
      else
        let b := b +:+ header in
        let sLine := summaryLine (PlanSummary p) +:+ nl +:+ nl in
        if maxCommentChars <? zlen b + zlen sLine then b +:+ size_limit_line
        else
          let b := b +:+ sLine in
          project_loop maxDetails false
            (appendPlanSections b (Changes p) (Findings p) maxDetails "#### Changes" "#### Policy Findings")
            rest
  end.

Definition aggregated_head (sha : string) (visible : list ProjectPlan) : string :=
  let total := foldl (fun t p => add_summary t (PlanSummary p)) (mkSummary 0 0 0 0) visible in
  title +:+ "Commit: " +:+ code sha +:+ "  " +:+ nl +:+
  "Projects: " +:+ code (fmt_d (Z.of_nat (length visible))) +:+ nl +:+ nl +:+
  summaryLine total +:+ nl +:+ nl.

Definition BuildAggregatedPlanComment (sha : string) (projects : list ProjectPlan)
    (maxResourceDetails : Z) : string :=
  let maxResourceDetails := details_or_default maxResourceDetails in
  match projects with
  | [] => BuildNoChangesComment sha [] 0
  | _ =>
      match filter (fun p => hasActionableChanges p = true) projects with
      | [] => BuildNoDiffComment sha (Z.of_nat (length projects))
      | visible =>
          let visible := sort_plans visible in
          project_loop maxResourceDetails true (aggregated_head sha visible) visible +:+ read_only_plan
      end
  end.
