(* ===== verification/ReportFacts.v ===== *)
(** * internal/report: theorems

    A comment stays within a constant of the size limit whatever the plans contain,
    lists every change that is not a NO-OP up to the configured number when it fits,
    and says how many it left out. *)

From Stdlib Require Import Lia.
From stdpp Require Import options.
From S2P Require Import Prelude GoStrings Value Config Render Diff Policy Report.

(** ** Decimal numbers are short *)

Lemma pretty_N_go_length (k : nat) (n : N) s :
  (n < 10 ^ N.of_nat k)%N -> zlen (pretty_N_go n s) <= Z.of_nat k + zlen s.
Proof.
  revert n s. induction k as [|k IH]; intros n s Hn.
  - assert (n = 0)%N as -> by (cbn in Hn; lia). rewrite pretty_N_go_0. lia.
  - destruct (decide (0 < n)%N) as [Hp|Hp]; [|assert (n = 0)%N as -> by lia; rewrite pretty_N_go_0; lia].
    rewrite pretty_N_go_step by done. etrans; [apply IH|rewrite zlen_cons; lia].
    apply N.Div0.div_lt_upper_bound. rewrite Nat2N.inj_succ, N.pow_succ_r' in Hn. lia.
Qed.

Lemma pretty_N_length (n : N) : (n < 10 ^ 19)%N -> zlen (pretty n) <= 19.
Proof.
  intros Hn. unfold pretty, pretty_N. case_decide; [done|].
  change 19 with (Z.of_nat 19 + zlen ""). by apply pretty_N_go_length.
Qed.

(** A Go [int] prints in at most 20 bytes. *)
Lemma fmt_d_length z : in_int64 z -> zlen (fmt_d z) <= 20.
Proof.
  unfold in_int64, int64_min, int64_max, fmt_d. intros Hz. destruct z as [|p|p]; [done| |].
  - change (zlen (pretty (N.pos p)) <= 20). etrans; [apply pretty_N_length|]; lia.
  - change (zlen (String (byte_of 45) (pretty (N.pos p))) <= 20). rewrite zlen_cons.
    assert (zlen (pretty (N.pos p)) <= 19) by (apply pretty_N_length; lia). lia.
Qed.

(** ** Blocks *)

(** A YAML block in a comment has at most 12000 bytes and the truncation mark,
    and is the trimmed input when that fits. *)
Theorem truncateYAMLBlock_bounded input :
  zlen (truncateYAMLBlock input) <= maxYAMLCharsPerBlock + zlen truncated_mark /\
  (zlen (trim_space input) <= maxYAMLCharsPerBlock -> truncateYAMLBlock input = trim_space input).
Proof.
  unfold truncateYAMLBlock. destruct (Z.leb_spec (zlen (trim_space input)) maxYAMLCharsPerBlock) as [H|H].
  - split; [|done]. pose proof (zlen_nonneg truncated_mark). lia.
  - split; [|lia]. rewrite zlen_app.
    pose proof (trim_space_length (prefix_bytes maxYAMLCharsPerBlock (trim_space input))).
    assert (zlen (prefix_bytes maxYAMLCharsPerBlock (trim_space input)) <= maxYAMLCharsPerBlock).
    { etrans; [apply stake_zlen_le|]. by unfold maxYAMLCharsPerBlock. }
    lia.
Qed.

Lemma zlen_join_cons sep x l :
  l <> [] -> zlen (join sep (x :: l)) = zlen x + zlen sep + zlen (join sep l).
Proof. destruct l as [|y l]; [done|]. intros _. cbn [join String.concat]. rewrite !zlen_app. unfold join. lia. Qed.

Lemma join_cons_sep sep x l : l <> [] -> join sep (x :: l) = x +:+ sep +:+ join sep l.
Proof. by destruct l. Qed.

Lemma diff_lines_length (first : bool) b remaining lines :
  0 <= remaining -> (first = true -> 1 <= remaining) ->
  zlen (diff_lines first b remaining lines) <= zlen b + remaining + zlen truncated_mark.
Proof.
  revert first b remaining. induction lines as [|line rest IH]; intros first b remaining Hr Hf.
  { cbn. zlen_lia. }
  cbn [diff_lines]. destruct (negb first && (remaining <=? 1)) eqn:Hs.
  { rewrite zlen_app. lia. }
  set (r' := if first then remaining else remaining - 1).
  set (b' := if first then b else b +:+ nl).
  assert (1 <= r' /\ zlen b' + r' = zlen b + remaining) as [Hr' Hb'].
  { unfold r', b'. destruct first; [split; [by apply Hf|lia]|].
    cbn [negb andb] in Hs. apply Z.leb_gt in Hs. rewrite zlen_app. change (zlen nl) with 1. lia. }
  destruct (Z.leb_spec (zlen line) r') as [Hl|Hl].
  - etrans; [apply IH; [lia|done]|]. rewrite zlen_app. lia.
  - rewrite zlen_app, (proj2 (Z.ltb_lt 0 r')), zlen_app by lia.
    assert (zlen (prefix_bytes r' line) <= r') by (etrans; [apply stake_zlen_le|lia]). lia.
Qed.

Lemma diff_lines_fit (first : bool) (b : string) (remaining : Z) (lines : list string) :
  lines <> [] -> (if first then 0 else 1) + zlen (join nl lines) < remaining ->
  diff_lines first b remaining lines = b +:+ (if first then "" else nl) +:+ join nl lines.
Proof.
  revert first b remaining. induction lines as [|line rest IH]; intros first b remaining Hne Hr; [done|].
  cbn [diff_lines]. pose proof (zlen_nonneg (join nl (line :: rest))).
  replace (negb first && (remaining <=? 1)) with false
    by (destruct first; cbn [negb andb]; lia).
  assert (zlen line <= zlen (join nl (line :: rest))) as Hl.
  { destruct rest as [|y rest]; [cbn; lia|]. rewrite zlen_join_cons by done.
    pose proof (zlen_nonneg nl). pose proof (zlen_nonneg (join nl (y :: rest))). lia. }
  rewrite (proj2 (Z.leb_le (zlen line) _)) by (destruct first; lia).
  destruct rest as [|y rest].
  - destruct first; cbn [diff_lines join String.concat]; by rewrite ?string_app_assoc.
  - rewrite IH; [|done|].
    + rewrite (join_cons_sep nl line) by done.
      destruct first; rewrite !string_app_assoc; done.
    + rewrite zlen_join_cons in Hr by done. change (zlen nl) with 1 in Hr.
      destruct first; cbv iota in Hr |- *; lia.
Qed.

(** A diff block has at most 12000 bytes and the truncation mark; the attribute
    lines are shown in full, one per line, when together they are shorter. *)
Theorem truncateDiffLines_bounded lines :
  zlen (truncateDiffLines lines) <= maxYAMLCharsPerBlock + zlen truncated_mark /\
  (zlen (join nl lines) < maxYAMLCharsPerBlock -> truncateDiffLines lines = trim_space (join nl lines)).
Proof.
  destruct lines as [|line rest]; [done|]. unfold truncateDiffLines. split.
  - etrans; [apply trim_space_length|]. etrans; [by apply diff_lines_length|]. rewrite zlen_nil. lia.
  - intros Hl. rewrite diff_lines_fit by (done || lia). done.
Qed.

(** ** Loops *)

Lemma Zmax_le a b c : Z.max a b <= c <-> a <= c /\ b <= c.
Proof. lia. Qed.

Definition slice_len {A} (l : list A) : Prop := Z.of_nat (length l) <= int64_max.

Definition count_line_len : Z := 100.

Lemma change_loop_printed maxDetails total b printed changes b' printed' tr :
  change_loop maxDetails total b printed changes = (b', printed', tr) ->
  printed <= printed' <= printed + Z.of_nat (length (filter (fun c => is_noop c = false) changes)).
Proof.
  revert b printed. induction changes as [|c rest IH]; intros b printed; cbn [change_loop].
  { intros [= <- <- <-]. cbn. lia. }
  rewrite filter_cons. destruct (is_noop c) eqn:Hn; cbn zeta; [apply IH|].
  rewrite decide_True by done. cbn [length].
  repeat (case_match; [by intros [= <- <- <-]; lia|]); try (intros H'; apply IH in H'; lia).
  case_match; [intros H'; apply IH in H'; lia|]. case_match; [intros [= <- <- <-]; lia|].
  intros H'; apply IH in H'; lia.
Qed.

#[local] Ltac out_builder H :=
  apply (f_equal (fun t => t.1.1)) in H; cbn [fst] in H; rewrite <- H.

Lemma change_loop_length maxDetails total b printed changes b' printed' tr :
  change_loop maxDetails total b printed changes = (b', printed', tr) ->
  total = printed + Z.of_nat (length (filter (fun c => is_noop c = false) changes)) ->
  0 <= printed -> total <= int64_max ->
  zlen b' <= Z.max (zlen b) maxCommentChars + 60.
Proof.
  revert b printed. induction changes as [|c rest IH]; intros b printed; cbn [change_loop].
  { intros Hc. out_builder Hc. lia. }
  rewrite filter_cons. destruct (is_noop c) eqn:Hn; cbn zeta; [apply IH|].
  rewrite decide_True by done. cbn [length]. intros Hc Ht H0 Hmax.
  destruct (maxDetails <=? printed).
  { out_builder Hc.
    assert (zlen (fmt_d (total - printed)) <= 20) by (apply fmt_d_length; unfold in_int64, int64_min; lia).
    rewrite !zlen_app. change (zlen nl) with 1. change (zlen "- ... truncated (") with 17.
    change (zlen " additional resources)") with 22. lia. }
  destruct (Z.ltb_spec maxCommentChars (zlen b + zlen (change_line c) + 1)) as [Hl|Hl].
  { out_builder Hc. lia. }
  assert (zlen (b +:+ change_line c +:+ nl) <= maxCommentChars) as Hb.
  { rewrite !zlen_app. change (zlen nl) with 1. lia. }
  destruct (str_eqb (renderChangeDetails c) "").
  { apply IH in Hc; lia. }
  destruct (Z.ltb_spec maxCommentChars (zlen (b +:+ change_line c +:+ nl) + zlen (renderChangeDetails c)))
    as [Hd|Hd].
  { out_builder Hc. lia. }
  apply IH in Hc; [|lia..]. rewrite zlen_app in Hc. lia.
Qed.

Lemma finding_loop_length b findings :
  zlen (finding_loop b findings) <= Z.max (zlen b) maxCommentChars + 37.
Proof.
  revert b. induction findings as [|f rest IH]; intros b; cbn [finding_loop]; [lia|].
  destruct (Z.ltb_spec maxCommentChars (zlen b + zlen (finding_line f))) as [Hl|Hl].
  - rewrite zlen_app. change (zlen size_limit_line) with 37. lia.
  - etrans; [apply IH|]. rewrite zlen_app. lia.
Qed.

Lemma appendPlanSections_length b changes findings maxDetails h fh :
  slice_len changes ->
  zlen (appendPlanSections b changes findings maxDetails h fh) <=
  Z.max (zlen b + zlen h + 1) maxCommentChars + zlen fh + 200.
Proof.
  intros Hs. unfold appendPlanSections.
  set (total := Z.of_nat (length (filter _ changes))).
  assert (0 <= total <= int64_max) as Ht.
  { unfold total. pose proof (length_filter (fun c => is_noop c = false) changes) as Hlen.
    unfold slice_len in Hs. lia. }
  destruct (change_loop _ _ _ _ _) as [[b1 printed] tr] eqn:E.
  pose proof (change_loop_printed _ _ _ _ _ _ _ _ E) as Hp. fold total in Hp.
  apply change_loop_length in E; [|unfold total; lia|lia|lia].
  rewrite !zlen_app in E. change (zlen nl) with 1 in E.
  assert (zlen (fmt_d (total - printed)) <= 20) by (apply fmt_d_length; unfold in_int64, int64_min; lia).
  match goal with |- context [if printed =? 0 then ?x +:+ none_line else _] => set (b2 := x) end.
  assert (zlen b2 <= zlen b1 + 81) as H2.
  { unfold b2. destruct tr; [|lia]. rewrite !zlen_app. change (zlen nl) with 1.
    change (zlen "- ... truncated (") with 17.
    change (zlen " additional resources; comment size limit)") with 42. lia. }
  clearbody b2. set (b3 := if printed =? 0 then b2 +:+ none_line else b2).
  assert (zlen b3 <= zlen b2 + 7) as H3.
  { unfold b3. destruct (printed =? 0); [|lia]. rewrite zlen_app. change (zlen none_line) with 7. lia. }
  clearbody b3. destruct findings as [|f fs].
  - rewrite !zlen_app. change (zlen nl) with 1. change (zlen none_line) with 7. lia.
  - etrans; [apply finding_loop_length|]. rewrite !zlen_app. change (zlen nl) with 1.
    pose proof (zlen_nonneg fh). lia.
Qed.

Lemma project_loop_length maxDetails first b plans :
  (forall p, p ∈ plans -> slice_len (Changes p)) ->
  zlen (project_loop maxDetails first b plans) <= Z.max (zlen b) (maxCommentChars + 240) + 39.
Proof.
  revert first b. induction plans as [|p rest IH]; intros first b Hp; cbn [project_loop]; [lia|].
  set (b1 := if first then b else b +:+ nl).
  assert (zlen b1 <= zlen b + 1) as H1.
  { unfold b1. destruct first; [lia|]. rewrite zlen_app. change (zlen nl) with 1. lia. }
  clearbody b1. set (header := "### Project: " +:+ _).
  destruct (Z.ltb_spec maxCommentChars (zlen b1 + zlen header)) as [Hh|Hh].
  { rewrite !zlen_app. change (zlen nl) with 1. change (zlen size_limit_line) with 37. lia. }
  set (b2 := b1 +:+ header).
  assert (zlen b2 <= maxCommentChars) as H2 by (unfold b2; rewrite zlen_app; lia). clearbody b2.
  destruct (Z.ltb_spec maxCommentChars (zlen b2 + zlen (summaryLine (PlanSummary p) +:+ nl +:+ nl)))
    as [Hl|Hl].
  { rewrite zlen_app. change (zlen size_limit_line) with 37. lia. }
  etrans; [apply IH; intros q Hq; apply Hp, elem_of_cons; by right|].
  match goal with |- Z.max (zlen (appendPlanSections ?x _ _ _ ?h ?fh)) _ + _ <= _ =>
    pose proof (appendPlanSections_length x (Changes p) (Findings p) maxDetails h fh) as Hs end.
  rewrite zlen_app in Hs. change (zlen "#### Changes") with 12 in Hs.
  change (zlen "#### Policy Findings") with 20 in Hs.
  ospecialize (Hs _); [apply Hp, elem_of_cons; by left|]. lia.
Qed.

Lemma summaryLine_length s :
  in_int64 (Creates s) -> in_int64 (Patches s) -> in_int64 (Deletes s) -> in_int64 (NoOps s) ->
  zlen (summaryLine s) <= 120.
Proof.
  intros ?%fmt_d_length ?%fmt_d_length ?%fmt_d_length ?%fmt_d_length. unfold summaryLine.
  rewrite !zlen_app. change (zlen "Summary: CREATE=") with 16. change (zlen " PATCH=") with 7.
  change (zlen " DELETE=") with 8. change (zlen " NO-OP=") with 7. lia.
Qed.

Lemma total_in_range (plans : list ProjectPlan) :
  let t := foldl (fun t p => add_summary t (PlanSummary p)) (mkSummary 0 0 0 0) plans in
  in_int64 (Creates t) /\ in_int64 (Patches t) /\ in_int64 (Deletes t) /\ in_int64 (NoOps t).
Proof.
  induction plans as [|p plans _] using rev_ind; [done|].
  rewrite foldl_snoc. cbn. split_and!; apply wrap64_range.
Qed.

Lemma sort_plans_perm l : sort_plans l ≡ₚ l.
Proof. apply sort_by_perm. Qed.

Lemma sort_plans_sorted l : StronglySorted (key_le PlanProject) (sort_plans l).
Proof. apply sort_by_sorted. Qed.

Lemma code_length s : zlen (code s) = zlen s + 2.
Proof. unfold code. rewrite !zlen_app. change (zlen "`") with 1. lia. Qed.

Lemma no_changes_length sha : zlen (BuildNoChangesComment sha [] 0) <= zlen sha + 300.
Proof.
  unfold BuildNoChangesComment. rewrite !zlen_app, code_length. change (zlen nl) with 1.
  change (zlen title) with 15. change (zlen "Commit: ") with 8.
  change (zlen "Summary: no diffs generated.") with 28.
  change (zlen "Reason: no changed files were detected for this event.") with 54.
  change (zlen "### Changed files") with 17. change (zlen none_line) with 7.
  change (zlen read_only_none) with 53. lia.
Qed.

Lemma no_diff_length sha n : in_int64 n -> zlen (BuildNoDiffComment sha n) <= zlen sha + 300.
Proof.
  intros Hn%fmt_d_length. unfold BuildNoDiffComment. rewrite !zlen_app, code_length. change (zlen nl) with 1.
  change (zlen title) with 15. change (zlen "Commit: ") with 8.
  change (zlen "Summary: no CREATE/PATCH/DELETE changes for touched manifests.") with 62.
  change (zlen read_only_none) with 53.
  match goal with |- context [zlen (if ?c then ?x else ?y)] =>
    assert (zlen (if c then x else y) <= 45) end; [|lia].
  destruct (0 <? n); [|done]. rewrite !zlen_app, code_length. change (zlen nl) with 1.
  change (zlen "Projects checked: ") with 18. lia.
Qed.

Lemma aggregated_head_length sha visible :
  slice_len visible -> zlen (aggregated_head sha visible) <= zlen sha + 200.
Proof.
  intros Hs. unfold aggregated_head.
  set (t := foldl _ _ visible). assert (zlen (summaryLine t) <= 120) as Ht.
  { pose proof (total_in_range visible) as (? & ? & ? & ?). by apply summaryLine_length. }
  assert (zlen (fmt_d (Z.of_nat (length visible))) <= 20) as Hd.
  { apply fmt_d_length. unfold slice_len in Hs. unfold in_int64, int64_min. lia. }
  rewrite !zlen_app, !code_length. change (zlen nl) with 1.
  change (zlen title) with 15. change (zlen "Commit: ") with 8. change (zlen "  ") with 2.
  change (zlen "Projects: ") with 10. lia.
Qed.

(** C10: whatever the plans contain, an aggregated comment is at most 700 bytes longer
    than the larger of the size limit of 900000 bytes and the commit id, so for a
    commit id it stays below the million characters GitLab accepts. *)
Theorem BuildAggregatedPlanComment_bounded sha projects maxDetails :
  slice_len projects -> (forall p, p ∈ projects -> slice_len (Changes p)) ->
  zlen (BuildAggregatedPlanComment sha projects maxDetails) <= Z.max (zlen sha) maxCommentChars + 700.
Proof.
  intros Hlen Hp. unfold BuildAggregatedPlanComment. destruct projects as [|p0 ps].
  { pose proof (no_changes_length sha). lia. }
  set (projects := p0 :: ps) in *. unfold slice_len in Hlen.
  destruct (filter _ projects) as [|v vs] eqn:E.
  { pose proof (no_diff_length sha (Z.of_nat (length projects))) as H. unfold in_int64, int64_min in H. lia. }
  set (visible := v :: vs) in *.
  etrans; [rewrite zlen_app; apply Z.add_le_mono_r, project_loop_length|].
  - intros q Hq. apply Hp. rewrite sort_plans_perm in Hq. rewrite <- E in Hq.
    by apply list_elem_of_filter in Hq as [_ ?].
  - pose proof (aggregated_head_length sha (sort_plans visible)) as Hh.
    pose proof (Permutation_length (sort_plans_perm visible)) as Hperm. change (zlen read_only_plan) with 106.
    pose proof (length_filter (fun p => hasActionableChanges p = true) projects) as Hf. rewrite E in Hf.
    ospecialize (Hh _); [unfold slice_len; fold visible in Hf; lia|]. unfold maxCommentChars in *. lia.
Qed.

(** ** The comment a plan calls for *)

(** The text without any size limit: every change that is not a NO-OP up to the
    configured number, and every finding. *)
Definition change_block (c : Change) : string := change_line c +:+ nl +:+ renderChangeDetails c.

Definition shown (changes : list Change) : list Change := filter (fun c => is_noop c = false) changes.

Definition left_out_line (n : Z) : string :=
  if 0 <? n then "- ... truncated (" +:+ fmt_d n +:+ " additional resources)" +:+ nl else "".

Definition full_changes (maxDetails : Z) (changes : list Change) : string :=
  let cs := shown changes in
  match cs with
  | [] => none_line
  | _ => sconcat (change_block <$> take (Z.to_nat maxDetails) cs) +:+
         left_out_line (Z.of_nat (length cs) - maxDetails)
  end.

Definition full_findings (fs : list Finding) : string :=
  match fs with [] => none_line | _ => sconcat (finding_line <$> fs) end.

Definition full_sections (changes : list Change) (findings : list Finding) (maxDetails : Z)
    (h fh : string) : string :=
  h +:+ nl +:+ full_changes maxDetails changes +:+ nl +:+ fh +:+ nl +:+ full_findings findings.

Definition full_project (maxDetails : Z) (p : ProjectPlan) : string :=
  "### Project: " +:+ code (PlanProject p) +:+ nl +:+ summaryLine (PlanSummary p) +:+ nl +:+ nl +:+
  full_sections (Changes p) (Findings p) maxDetails "#### Changes" "#### Policy Findings".

Definition full_comment (sha : string) (visible : list ProjectPlan) (maxDetails : Z) : string :=
  aggregated_head sha visible +:+ join nl (full_project maxDetails <$> visible) +:+ read_only_plan.

Lemma shown_cons c cs : shown (c :: cs) = if is_noop c then shown cs else c :: shown cs.
Proof. unfold shown. rewrite filter_cons. by destruct (is_noop c). Qed.

Lemma sconcat_cons x l : sconcat (x :: l) = x +:+ sconcat l.
Proof. done. Qed.

Definition blocks (n : Z) (cs : list Change) : string :=
  sconcat (change_block <$> take (Z.to_nat n) cs).

Lemma blocks_nil n : blocks n [] = "".
Proof. unfold blocks. by rewrite take_nil. Qed.

Lemma blocks_cons n c cs : 0 < n -> blocks n (c :: cs) = change_block c +:+ blocks (n - 1) cs.
Proof.
  intros Hn. unfold blocks. replace (Z.to_nat n) with (S (Z.to_nat (n - 1))) by lia. done.
Qed.

Lemma change_loop_full maxDetails total b printed changes :
  0 <= printed <= maxDetails -> total = printed + Z.of_nat (length (shown changes)) ->
  zlen b + zlen (blocks (maxDetails - printed) (shown changes)) <= maxCommentChars ->
  change_loop maxDetails total b printed changes =
  (b +:+ blocks (maxDetails - printed) (shown changes) +:+ left_out_line (total - maxDetails),
   Z.min maxDetails total, false).
Proof.
  revert b printed. induction changes as [|c rest IH]; intros b printed Hp Ht Hl; cbn [change_loop].
  { cbn in Ht. rewrite blocks_nil. unfold left_out_line. rewrite (proj2 (Z.ltb_ge 0 _)) by lia.
    rewrite Z.min_r by lia. rewrite !string_app_nil_r. do 2 f_equal. lia. }
  rewrite shown_cons in Ht, Hl |- *. destruct (is_noop c) eqn:Hn; [by apply IH|].
  cbn [length] in Ht. destruct (Z.leb_spec maxDetails printed) as [Hm|Hm].
  { assert (printed = maxDetails) as -> by lia. rewrite Z.sub_diag. unfold left_out_line, blocks.
    rewrite (proj2 (Z.ltb_lt 0 _)), Z.min_l by lia. done. }
  rewrite blocks_cons in Hl |- * by lia.
  replace (maxDetails - printed - 1) with (maxDetails - (printed + 1)) in * by lia.
  unfold change_block in *. rewrite !zlen_app in Hl. change (zlen nl) with 1 in Hl.
  pose proof (zlen_nonneg (renderChangeDetails c)).
  pose proof (zlen_nonneg (blocks (maxDetails - (printed + 1)) (shown rest))).
  rewrite (proj2 (Z.ltb_ge maxCommentChars (zlen b + zlen (change_line c) + 1))) by lia.
  destruct (str_eqb (renderChangeDetails c) "") eqn:Hd.
  - apply str_eqb_eq in Hd. rewrite IH; [|lia|lia|].
    + by rewrite Hd, string_app_nil_r, !string_app_assoc.
    + rewrite !zlen_app. change (zlen nl) with 1. lia.
  - rewrite (proj2 (Z.ltb_ge maxCommentChars _)) by (rewrite !zlen_app; change (zlen nl) with 1; lia).
    rewrite IH; [|lia|lia|].
    + by rewrite !string_app_assoc.
    + rewrite !zlen_app. change (zlen nl) with 1. lia.
Qed.

Lemma finding_loop_full b fs :
  zlen b + zlen (sconcat (finding_line <$> fs)) <= maxCommentChars ->
  finding_loop b fs = b +:+ sconcat (finding_line <$> fs).
Proof.
  revert b. induction fs as [|f fs IH]; intros b Hl; [by rewrite string_app_nil_r|].
  rewrite fmap_cons, sconcat_cons in Hl |- *. rewrite zlen_app in Hl.
  pose proof (zlen_nonneg (sconcat (finding_line <$> fs))). cbn [finding_loop].
  rewrite (proj2 (Z.ltb_ge maxCommentChars _)) by lia. rewrite IH by (rewrite zlen_app; lia).
  by rewrite string_app_assoc.
Qed.

Lemma appendPlanSections_full b changes findings maxDetails h fh :
  0 < maxDetails ->
  zlen b + zlen (full_sections changes findings maxDetails h fh) <= maxCommentChars ->
  appendPlanSections b changes findings maxDetails h fh =
  b +:+ full_sections changes findings maxDetails h fh.
Proof.
  intros Hm Hl. unfold full_sections, full_changes in *. unfold appendPlanSections.
  fold (shown changes). fold (blocks maxDetails (shown changes)) in *.
  set (n := Z.of_nat (length (shown changes))) in *.
  set (tail := nl +:+ fh +:+ nl +:+ full_findings findings) in *.
  rewrite !zlen_app in Hl. change (zlen nl) with 1 in Hl. pose proof (zlen_nonneg tail).
  pose proof (zlen_nonneg (left_out_line (n - maxDetails))).
  pose proof (change_loop_full maxDetails n (b +:+ h +:+ nl) 0 changes ltac:(lia) ltac:(lia)) as Hc.
  rewrite Z.sub_0_r in Hc. rewrite Hc; clear Hc.
  2:{ destruct (shown changes); [rewrite blocks_nil|rewrite !zlen_app in Hl]; rewrite !zlen_app;
        change (zlen nl) with 1; rewrite ?zlen_nil; zlen_pose; lia. }
  cbn iota beta.
  assert (forall b0, zlen b0 + zlen tail <= maxCommentChars ->
    match findings with
    | [] => (b0 +:+ nl +:+ fh +:+ nl) +:+ none_line
    | _ => finding_loop (b0 +:+ nl +:+ fh +:+ nl) findings
    end = b0 +:+ tail) as Hf.
  { intros b0 Hb0. unfold tail, full_findings in *. destruct findings as [|f fs].
    - by rewrite !string_app_assoc.
    - rewrite finding_loop_full; [by rewrite !string_app_assoc|].
      rewrite !zlen_app in Hb0 |- *. lia. }
  destruct (shown changes) as [|c cs] eqn:E.
  - cbn in n. subst n. rewrite Z.min_r, blocks_nil by lia. unfold left_out_line.
    rewrite (proj2 (Z.ltb_ge 0 _)) by lia. rewrite !string_app_nil_r. change (Z.of_nat 0 =? 0) with true. cbv iota.
    rewrite Hf; [by rewrite !string_app_assoc|]. rewrite !zlen_app. change (zlen nl) with 1. lia.
  - rewrite !zlen_app in Hl.
    rewrite (proj2 (Z.eqb_neq (Z.min maxDetails n) 0)) by (unfold n; cbn [length]; lia).
    rewrite Hf; [by rewrite !string_app_assoc|]. rewrite !zlen_app. change (zlen nl) with 1. lia.
Qed.

Lemma project_loop_full maxDetails (first : bool) b plans :
  0 < maxDetails -> plans <> [] ->
  zlen b + (if first then 0 else 1) + zlen (join nl (full_project maxDetails <$> plans)) <= maxCommentChars ->
  project_loop maxDetails first b plans =
  b +:+ (if first then "" else nl) +:+ join nl (full_project maxDetails <$> plans).
Proof.
  intros Hm. revert first b. induction plans as [|p rest IH]; intros first b Hne Hl; [done|].
  cbn [project_loop]. set (b1 := if first then b else b +:+ nl).
  assert (zlen b1 = zlen b + if first then 0 else 1) as H1.
  { unfold b1. destruct first; [lia|]. rewrite zlen_app. done. }
  assert (b +:+ (if first then "" else nl) +:+ join nl (full_project maxDetails <$> p :: rest) =
          b1 +:+ join nl (full_project maxDetails <$> p :: rest)) as ->.
  { unfold b1. destruct first; [done|]. by rewrite string_app_assoc. }
  rewrite <- H1 in Hl. clear H1. clearbody b1. clear b.
  set (header := "### Project: " +:+ code (PlanProject p) +:+ nl).
  set (sLine := summaryLine (PlanSummary p) +:+ nl +:+ nl).
  set (secs := full_sections (Changes p) (Findings p) maxDetails "#### Changes" "#### Policy Findings").
  assert (full_project maxDetails p = header +:+ sLine +:+ secs) as Hfp.
  { unfold full_project, header, sLine. by rewrite !string_app_assoc. }
  assert (zlen b1 + zlen header + zlen sLine + zlen secs <= maxCommentChars) as Hfit.
  { rewrite fmap_cons in Hl. destruct rest as [|q rest].
    - cbn [fmap list_fmap join String.concat] in Hl. rewrite Hfp, !zlen_app in Hl. lia.
    - rewrite join_cons_sep, Hfp, !zlen_app in Hl by done. zlen_pose. lia. }
  rewrite (proj2 (Z.ltb_ge maxCommentChars (zlen b1 + zlen header))) by (zlen_pose; lia).
  rewrite (proj2 (Z.ltb_ge maxCommentChars (zlen (b1 +:+ header) + zlen sLine)))
    by (rewrite zlen_app; zlen_pose; lia).
  rewrite appendPlanSections_full; [|done|fold secs; rewrite !zlen_app; lia]. fold secs.
  destruct rest as [|q rest].
  - cbn [project_loop fmap list_fmap join String.concat]. by rewrite Hfp, !string_app_assoc.
  - rewrite IH; [|done|].
    + rewrite (fmap_cons _ p), (join_cons_sep _ (full_project maxDetails p)), Hfp by done. by rewrite !string_app_assoc.
    + rewrite (fmap_cons _ p), (join_cons_sep _ (full_project maxDetails p)), Hfp, !zlen_app in Hl by done. rewrite !zlen_app.
      change (zlen nl) with 1 in Hl. cbv iota. lia.
Qed.

Lemma details_or_default_pos n : 0 < details_or_default n.
Proof. unfold details_or_default, defaultMaxResourceDetails. destruct (Z.leb_spec n 0); lia. Qed.

(** ** The comment line by line *)

(** What a reader of the comment sees, written out without the program's own helpers. *)
Module Reference.
Definition document (ls : list string) : string := sconcat ((fun l => l +:+ nl) <$> ls).

Definition summary (creates patches deletes noops : Z) : string :=
  "Summary: CREATE=" +:+ fmt_d creates +:+ " PATCH=" +:+ fmt_d patches +:+
  " DELETE=" +:+ fmt_d deletes +:+ " NO-OP=" +:+ fmt_d noops.

Definition list_of (label : string) (l : list string) : string :=
  match l with [] => "" | _ => " " +:+ label +:+ "=[" +:+ join " " l +:+ "]" end.

(** A block shows the text without surrounding space, or its first 12000 bytes. *)
Definition yaml_block (label text : string) : list string :=
  let t := trim_space text in
  ["```yaml"; "# " +:+ label;
   if zlen t <=? 12000 then t else trim_space (stake 12000 t) +:+ nl +:+ "# ... truncated ..."; "```"].

(** A diff of 12000 bytes or more is cut, see [truncateDiffLines_bounded]. *)
Definition diff_block (ls : list string) : list string :=
  let t := join nl ls in
  ["```diff"; if zlen t <? 12000 then trim_space t else truncateDiffLines ls; "```"].

Definition details (c : Change) : list string :=
  let current := if str_eqb (CurrentYAML c) "" then [] else yaml_block "current" (CurrentYAML c) in
  let desired := if str_eqb (DesiredYAML c) "" then [] else yaml_block "desired" (DesiredYAML c) in
  let blocks := match ChangeAction c, AttributeDiff c with
                | Create, _ => desired
                | Delete, _ => current
                | Patch, [] => current ++ desired
                | Patch, ls => diff_block ls
                | NoOp, _ => []
                end in
  match blocks with [] => [] | _ => "" :: blocks end.

Definition change_lines (c : Change) : list string :=
  ("- `" +:+ (match ChangeAction c with
              | Create => "CREATE" | Patch => "PATCH" | Delete => "DELETE" | NoOp => "NO-OP"
              end) +:+ "` " +:+ ChangeID c +:+
   list_of "changed" (ChangedKeys c) +:+ list_of "paths" (ChangedPaths c) +:+ list_of "risks" (Risks c)) ::
  details c.

(** The changes other than NO-OPs, up to [n] of them, and how many there are beyond. *)
Definition changes (n : Z) (cs : list Change) : list string :=
  let cs := filter (fun c => ChangeAction c <> NoOp) cs in
  let beyond := Z.of_nat (length cs) - n in
  match cs with
  | [] => ["- none"]
  | _ => mjoin (change_lines <$> take (Z.to_nat n) cs) ++
         if 0 <? beyond then ["- ... truncated (" +:+ fmt_d beyond +:+ " additional resources)"] else []
  end.

Definition finding (f : Finding) : string :=
  "- `" +:+ (match FindingSeverity f with SeverityWarn => "WARN" | SeverityError => "ERROR" end) +:+ "` `" +:+
  RuleID f +:+ "` " +:+ Message f +:+ " (" +:+ ResourceID f +:+ ")".

Definition findings (fs : list Finding) : list string :=
  match fs with [] => ["- none"] | _ => finding <$> fs end.

Definition project (n : Z) (p : ProjectPlan) : list string :=
  let s := PlanSummary p in
  ["### Project: `" +:+ PlanProject p +:+ "`"; summary (Creates s) (Patches s) (Deletes s) (NoOps s); "";
   "#### Changes"] ++ changes n (Changes p) ++
  [""; "#### Policy Findings"] ++ findings (Findings p).

(** Sums of Go's int. *)
Definition total (f : Summary -> Z) (ps : list ProjectPlan) : Z :=
  wrap64 (foldr Z.add 0 ((fun p => f (PlanSummary p)) <$> ps)).

(** The projects with an empty line between them. *)
Fixpoint projects (n : Z) (ps : list ProjectPlan) : list string :=
  match ps with
  | [] => []
  | [p] => project n p
  | p :: rest => project n p ++ [""] ++ projects n rest
  end.

Definition comment (sha : string) (n : Z) (ps : list ProjectPlan) : list string :=
  ["## Thule Plan"; ""; "Commit: `" +:+ sha +:+ "`  "; "Projects: `" +:+ fmt_d (Z.of_nat (length ps)) +:+ "`"; "";
   summary (total Creates ps) (total Patches ps) (total Deletes ps) (total NoOps ps); ""] ++
  projects n ps ++
  [""; "> Thule is read-only and did not apply these changes. Flux or repository operators must reconcile/apply."].

Definition no_difference (sha : string) (checked : Z) : list string :=
  ["## Thule Plan"; ""; "Commit: `" +:+ sha +:+ "`"; "";
   "Summary: no CREATE/PATCH/DELETE changes for touched manifests.";
   "Projects checked: `" +:+ fmt_d checked +:+ "`"; "";
   "> Thule is read-only and did not apply any changes."].

(** A project is shown when it has a change to make or a finding. *)
Definition worth_showing (p : ProjectPlan) : Prop :=
  0 < Creates (PlanSummary p) \/ 0 < Patches (PlanSummary p) \/ 0 < Deletes (PlanSummary p) \/ Findings p <> [].
#[export] Instance worth_showing_dec p : Decision (worth_showing p).
Proof. unfold worth_showing. apply _. Defined.

Lemma document_cons l ls : document (l :: ls) = l +:+ nl +:+ document ls.
Proof. unfold document. rewrite fmap_cons, sconcat_cons. apply string_app_assoc. Qed.

Lemma document_app ls1 ls2 : document (ls1 ++ ls2) = document ls1 +:+ document ls2.
Proof.
  induction ls1 as [|l ls1 IH]; [done|]. rewrite <- app_comm_cons, !document_cons, IH. by rewrite !string_app_assoc.
Qed.

Lemma list_of_part label l : list_of label l = opt_part label l.
Proof. by destruct l. Qed.

Lemma yaml_block_fence label text : document (yaml_block label text) = yaml_fence label text +:+ nl.
Proof.
  unfold yaml_block, yaml_fence, truncateYAMLBlock, maxYAMLCharsPerBlock. rewrite !document_cons.
  change (document []) with "". rewrite string_app_nil_r.
  destruct (_ <=? _); rewrite !string_app_assoc; done.
Qed.

Lemma details_text c : document (details c) = renderChangeDetails c.
Proof.
  unfold details, renderChangeDetails.
  assert (forall label text ls, document ("" :: yaml_block label text ++ ls) =
    nl +:+ yaml_fence label text +:+ nl +:+ document ls) as Hb.
  { intros label text ls. rewrite document_cons, document_app, yaml_block_fence. by rewrite !string_app_assoc. }
  assert (forall label text, document ("" :: yaml_block label text) = nl +:+ yaml_fence label text +:+ nl) as Hb1.
  { intros label text. rewrite document_cons, yaml_block_fence. done. }
  destruct (ChangeAction c); [| | |done].
  - destruct (str_eqb (DesiredYAML c) ""); [done|apply Hb1].
  - destruct (AttributeDiff c) as [|l ls].
    + destruct (str_eqb (CurrentYAML c) ""), (str_eqb (DesiredYAML c) ""); [done|apply Hb1| |].
      * rewrite app_nil_r. apply Hb1.
      * etransitivity; [apply Hb|]. rewrite yaml_block_fence. cbn [app join String.concat]. by rewrite !string_app_assoc.
    + unfold diff_block. rewrite !document_cons. change (document []) with "". rewrite string_app_nil_r.
      assert (forall t : string, t = truncateDiffLines (l :: ls) ->
        "" +:+ nl +:+ "```diff" +:+ nl +:+ t +:+ nl +:+ "```" +:+ nl =
        nl +:+ fence +:+ "diff" +:+ nl +:+ truncateDiffLines (l :: ls) +:+ nl +:+ fence +:+ nl) as Ht by by intros t ->.
      apply Ht. destruct (Z.ltb_spec (zlen (join nl (l :: ls))) 12000) as [Hl|]; [|done].
      symmetry. by apply truncateDiffLines_bounded.
  - destruct (str_eqb (CurrentYAML c) ""); [done|apply Hb1].
Qed.

Lemma change_text c : document (change_lines c) = change_block c.
Proof.
  unfold change_lines, change_block, change_line, code. rewrite document_cons, details_text, !list_of_part, !string_app_assoc.
  by destruct (ChangeAction c).
Qed.

Lemma changes_text n cs : document (changes n cs) = full_changes n cs.
Proof.
  unfold changes, full_changes, shown, left_out_line.
  assert (filter (fun c => ChangeAction c <> NoOp) cs = filter (fun c => is_noop c = false) cs) as ->.
  { apply list_filter_iff. intros c. unfold is_noop. by rewrite bool_decide_eq_false. }
  destruct (filter _ cs) as [|c l] eqn:E; [done|]. rewrite document_app. f_equal.
  - generalize (take (Z.to_nat n) (c :: l)). clear. intros k. induction k as [|c k IH]; [done|].
    rewrite !fmap_cons, sconcat_cons.
    change (mjoin (change_lines c :: (change_lines <$> k))) with (change_lines c ++ mjoin (change_lines <$> k)).
    by rewrite document_app, change_text, IH.
  - destruct (0 <? _); [|done]. rewrite document_cons. change (document []) with "". by rewrite string_app_nil_r, !string_app_assoc.
Qed.

Lemma findings_text fs : document (findings fs) = full_findings fs.
Proof.
  unfold findings, full_findings. destruct fs as [|f fs]; [done|]. generalize (f :: fs). clear. intros fs.
  induction fs as [|f fs IH]; [done|]. rewrite !fmap_cons, document_cons, sconcat_cons, IH.
  unfold finding, finding_line, code. rewrite !string_app_assoc. by destruct (FindingSeverity f).
Qed.

Lemma project_text n p : document (project n p) = full_project n p.
Proof.
  unfold project, full_project, full_sections, code. rewrite !document_app, changes_text, findings_text, !document_cons.
  change (document []) with "". rewrite !string_app_nil_r, !string_app_assoc. done.
Qed.

Lemma projects_text n ps : ps <> [] -> document (projects n ps) = join nl (full_project n <$> ps).
Proof.
  induction ps as [|p rest IH]; [done|]. intros _. destruct rest as [|q rest]; [apply project_text|].
  rewrite fmap_cons, join_cons_sep, <- IH by done. cbn [projects]. by rewrite !document_app, project_text.
Qed.

Lemma wrap64_add a b : wrap64 (wrap64 a + b) = wrap64 (a + b).
Proof.
  unfold wrap64. replace ((a + 2 ^ 63) mod 2 ^ 64 - 2 ^ 63 + b + 2 ^ 63) with ((a + 2 ^ 63) mod 2 ^ 64 + b) by lia.
  rewrite Zplus_mod_idemp_l. do 2 f_equal. lia.
Qed.

Lemma total_text ps :
  foldl (fun t p => add_summary t (PlanSummary p)) (mkSummary 0 0 0 0) ps =
  mkSummary (total Creates ps) (total Patches ps) (total Deletes ps) (total NoOps ps).
Proof.
  induction ps as [|p ps IH] using rev_ind; [done|]. rewrite foldl_snoc, IH. unfold add_summary, total. cbn.
  rewrite !wrap64_add, !fmap_app, !foldr_app. cbn.
  assert (forall (l : list Z) (x : Z), foldr Z.add (x + 0) l = foldr Z.add 0 l + x) as Hs.
  { intros l x. induction l as [|y l IHl]; cbn; lia. }
  by rewrite !Hs.
Qed.

Lemma comment_text sha n ps : ps <> [] -> document (comment sha n ps) = full_comment sha ps n.
Proof.
  intros Hne. unfold comment, full_comment, aggregated_head. rewrite total_text, !document_app, projects_text by done.
  rewrite !document_cons. change (document []) with "".
  unfold title, code, summaryLine, summary, read_only_plan. cbn [Creates Patches Deletes NoOps].
  rewrite !string_app_nil_r, !string_app_assoc. done.
Qed.

Lemma no_difference_text sha n :
  0 < n -> document (no_difference sha n) = BuildNoDiffComment sha n.
Proof.
  intros Hn. unfold no_difference, BuildNoDiffComment. rewrite (proj2 (Z.ltb_lt 0 n)) by done.
  rewrite !document_cons. change (document []) with "".
  unfold title, code, read_only_none. rewrite !string_app_nil_r, !string_app_assoc. done.
Qed.

Lemma worth_showing_spec p : hasActionableChanges p = true <-> worth_showing p.
Proof.
  unfold hasActionableChanges, worth_showing. rewrite !orb_true_iff, !Z.ltb_lt.
  assert (0 < Z.of_nat (length (Findings p)) <-> Findings p <> []) as ->.
  { destruct (Findings p); cbn; [split; [lia|done]|split; [done|lia]]. }
  tauto.
Qed.
End Reference.

(** C13: a comment of at most 900000 bytes is complete. It shows the projects with a
    change or a finding, in the order of their names, each with its summary, its
    changes other than NO-OPs up to the configured number (200 when none is configured)
    with their details, how many were left out beyond that number, and all its
    findings; the total is the sum of the summaries shown; and when no project has
    anything to show the comment says that there is no difference. *)
Theorem BuildAggregatedPlanComment_complete sha projects maxDetails :
  projects <> [] ->
  let n := if maxDetails <=? 0 then 200 else maxDetails in
  exists visible,
    StronglySorted (fun p q => String.le (PlanProject p) (PlanProject q)) visible /\
    (forall name, filter (fun p => PlanProject p = name) visible =
                  filter (fun p => PlanProject p = name) (filter Reference.worth_showing projects)) /\
    (visible = [] -> BuildAggregatedPlanComment sha projects maxDetails =
       Reference.document (Reference.no_difference sha (Z.of_nat (length projects)))) /\
    (visible <> [] -> zlen (Reference.document (Reference.comment sha n visible)) <= 900000 ->
     BuildAggregatedPlanComment sha projects maxDetails = Reference.document (Reference.comment sha n visible)).
Proof.
  intros Hne n. exists (sort_plans (filter Reference.worth_showing projects)).
  split; [apply sort_plans_sorted|]. split; [intros name; apply sort_by_stable|].
  unfold BuildAggregatedPlanComment. destruct projects as [|p0 ps]; [done|]. set (projects := p0 :: ps) in *.
  assert (filter (fun p => hasActionableChanges p = true) projects = filter Reference.worth_showing projects) as ->
    by (apply list_filter_iff, Reference.worth_showing_spec).
  set (shown := filter Reference.worth_showing projects).
  pose proof (Permutation_length (sort_plans_perm shown)) as Hlen. split.
  - intros Hv. rewrite Hv in Hlen. destruct shown; [|done]. symmetry. apply Reference.no_difference_text. cbn. lia.
  - intros Hv Hl. rewrite Reference.comment_text in Hl |- * by done.
    destruct shown as [|v vs] eqn:E; [done|]. unfold full_comment in *. rewrite !zlen_app in Hl.
    pose proof (zlen_nonneg read_only_plan). unfold details_or_default, defaultMaxResourceDetails. fold n.
    rewrite project_loop_full; [by rewrite string_app_assoc| |done|].
    + unfold n. destruct (Z.leb_spec maxDetails 0); lia.
    + cbv iota. unfold maxCommentChars. lia.
Qed.

(** ** Instances *)

Definition sample_create : Change :=
  mkChange "v1|ConfigMap|default|cm" Create [] [] [] [] "" ("kind: ConfigMap" +:+ nl).
Definition sample_noop : Change := mkChange "v1|ConfigMap|default|other" NoOp [] [] [] [] "" "".
Definition sample_plan : ProjectPlan :=
  mkPlan "web" [sample_create; sample_noop] (mkSummary 1 0 0 1) [].

Lemma BuildAggregatedPlanComment_bounded_witness :
  zlen (BuildAggregatedPlanComment "abc123" [sample_plan] 0) <= Z.max (zlen "abc123") maxCommentChars + 700.
Proof.
  apply BuildAggregatedPlanComment_bounded.
  - vm_compute. discriminate.
  - intros p Hp. apply list_elem_of_singleton in Hp as ->. vm_compute. discriminate.
Defined.

Lemma BuildAggregatedPlanComment_complete_witness :
  exists visible, length visible = 1%nat /\
    BuildAggregatedPlanComment "abc123" [sample_plan] 0 = Reference.document (Reference.comment "abc123" 200 visible).
Proof.
  destruct (BuildAggregatedPlanComment_complete "abc123" [sample_plan] 0) as (visible & _ & Hv & Hnone & Hsome);
    [discriminate|].
  assert (Reference.document (Reference.no_difference "abc123" 1) <>
    BuildAggregatedPlanComment "abc123" [sample_plan] 0) as Hd by (vm_compute; discriminate).
  assert (visible = [sample_plan]) as ->.
  { destruct visible as [|p visible]; [by destruct Hd; rewrite Hnone|].
    pose proof (Hv (PlanProject p)) as Hp. rewrite filter_cons_True in Hp by reflexivity.
    replace (filter Reference.worth_showing [sample_plan]) with [sample_plan] in Hp by (vm_compute; reflexivity).
    rewrite filter_cons in Hp. case_decide as Hw; [|discriminate Hp]. injection Hp as -> Hrest.
    f_equal. destruct visible as [|q visible]; [reflexivity|]. exfalso.
    pose proof (Hv (PlanProject q)) as Hq.
    replace (filter Reference.worth_showing [sample_plan]) with [sample_plan] in Hq by (vm_compute; reflexivity).
    destruct (decide (PlanProject sample_plan = PlanProject q)) as [He|He].
    - rewrite filter_cons_True in Hrest by (symmetry; exact He). discriminate Hrest.
    - rewrite (filter_cons_False _ sample_plan (q :: visible)), filter_cons_True in Hq by (done || reflexivity).
      rewrite filter_cons_False in Hq by done. discriminate Hq. }
  exists [sample_plan]. split; [reflexivity|]. apply Hsome; [discriminate|]. vm_compute. discriminate.
Defined.

Lemma truncateYAMLBlock_bounded_witness : truncateYAMLBlock "kind: Pod" = "kind: Pod".
Proof. apply (truncateYAMLBlock_bounded "kind: Pod"). vm_compute. discriminate. Defined.

Lemma truncateDiffLines_bounded_witness :
  truncateDiffLines ["- spec.replicas: 1"; "+ spec.replicas: 2"] =
  "- spec.replicas: 1" +:+ nl +:+ "+ spec.replicas: 2".
Proof.
  apply (truncateDiffLines_bounded ["- spec.replicas: 1"; "+ spec.replicas: 2"]).
  vm_compute. reflexivity.
Defined.
