(* ===== verification/Project.v ===== *)
(** * Project discovery: internal/project/discovery.go

    The set of candidates is a Go map; the order in which it is visited is the
    [MapOrder] of the context. *)

From stdpp Require Import options.
From S2P Require Import Prelude GoStrings GoPath.

Record DiscoveredProject := mkProject { Root : string; ConfigPath : string }.

#[export] Instance DiscoveredProject_eq_dec : EqDecision DiscoveredProject.
Proof. solve_decision. Defined.

Definition configFilename : string := "thule.conf".

(** The loop from a directory up to the root, adding a candidate per directory;
    [None] when the fuel runs out. *)
Fixpoint walk_up (fuel : nat) (d : string) (uniq : gset string) : option (gset string) :=
  match fuel with
  | O => None
  | S fuel =>
      let uniq := {[ join2 d configFilename ]} ∪ uniq in
      if str_eqb d "." || str_eqb d "/" then Some uniq
      else
        let next := dir d in
        if str_eqb next d then Some uniq else walk_up fuel next uniq
  end.

Definition walk_fuel (d : string) : nat := S (String.length d).

(** One changed file. *)
Definition discover_file (uniq : gset string) (p : string) : gset string :=
  if str_eqb (trim_space p) "" then uniq
  else
    let d := dir (clean p) in
    default uniq (walk_up (walk_fuel d) d uniq).

Definition discover_configs (changedFiles : list string) : gset string :=
  foldl discover_file ∅ changedFiles.

Definition DiscoverFromChangedFiles `{MapOrder} (changedFiles : list string) : list DiscoveredProject :=
  (fun configPath => mkProject (dir configPath) configPath)
    <$> range_order (elements (discover_configs changedFiles)).

(** ** The directories above a file *)

(** The components of the directory that holds the file [p]. *)
Definition dir_comps (p : string) : list string := take (length (clean_list p) - 1) (clean_list p).

(** The directory [n] levels below the root on the way to [p]. *)
Definition ancestor (p : string) (n : nat) : string := render_path (rooted p) (take n (dir_comps p)).

Lemma dir_comps_cleaned p : cleaned (rooted p) (dir_comps p).
Proof. unfold dir_comps. auto with thule. Qed.

Lemma config_good : good_comp configFilename.
Proof. by split_and!. Qed.

Lemma config_not_up : configFilename <> "..".
Proof. done. Qed.

Lemma dir_clean p : dir (clean p) = render_path (rooted p) (dir_comps p).
Proof.
  unfold clean, dir_comps. pose proof (clean_list_cleaned p) as H.
  destruct (clean_list p) as [|c cs _] using rev_ind; [apply dir_render_nil|].
  rewrite dir_render_snoc by done. rewrite length_app. cbn [length].
  by replace (length cs + 1 - 1)%nat with (length cs) by lia; rewrite take_app_length.
Qed.

Lemma render_root r cs :
  cleaned r cs -> (str_eqb (render_path r cs) "." || str_eqb (render_path r cs) "/" = true <-> cs = []).
Proof.
  intros H. split.
  - intros E. destruct cs as [|c cs]; [done|exfalso].
    assert (render_path r (c :: cs) = render_path false [] \/ render_path r (c :: cs) = render_path true [])
      as Hr by (apply orb_true_iff in E as [E%str_eqb_eq|E%str_eqb_eq]; [left|right]; done).
    assert (forall r', render_path r (c :: cs) = render_path r' [] -> False) as Hno; [|by destruct Hr; eauto].
    intros r' Heq. apply (f_equal clean_list) in Heq.
    rewrite !clean_list_render in Heq by (done || by constructor). done.
  - intros ->. by destruct r.
Qed.

Lemma length_join_ge cs :
  Forall (fun c => c <> "") cs -> (length cs <= String.length (join slash_str cs))%nat.
Proof.
  induction 1 as [|c cs Hc _ IH]; [done|]. destruct cs as [|c' cs].
  - cbn. destruct c; [done|]. cbn. lia.
  - rewrite join_cons by done. rewrite string_length_app. destruct c; [done|]. cbn [String.length length] in *. lia.
Qed.

Lemma length_render_ge r cs : cleaned r cs -> (length cs <= String.length (render_path r cs))%nat.
Proof.
  intros H%cleaned_nonempty%length_join_ge. unfold render_path. destruct r; cbn [String.length]; [lia|].
  destruct cs; [cbn; lia|done].
Qed.

(** The walk adds the configuration file of every ancestor and ends. *)
Lemma walk_up_spec r cs fuel uniq :
  cleaned r cs -> (length cs < fuel)%nat ->
  exists u, walk_up fuel (render_path r cs) uniq = Some u /\
    forall c, c ∈ u <-> c ∈ uniq \/ exists n, (n <= length cs)%nat /\
                                    c = render_path r (take n cs ++ [configFilename]).
Proof.
  revert fuel uniq. induction cs as [|x cs IH] using rev_ind; intros fuel uniq H Hf;
    (destruct fuel as [|fuel]; [lia|]); cbn [walk_up];
    rewrite join2_render by (done || apply config_good || apply config_not_up).
  - rewrite (proj2 (render_root r [] H)) by done. eexists. split; [done|]. intros c.
    rewrite elem_of_union, elem_of_singleton. split.
    + intros [->|Hc]; [right; exists 0%nat; split; [cbn; lia|done]|by left].
    + intros [Hc|(n & Hn & ->)]; [by right|left]. by rewrite take_nil.
  - assert (str_eqb (render_path r (cs ++ [x])) "." || str_eqb (render_path r (cs ++ [x])) "/" = false) as ->.
    { apply not_true_is_false. rewrite render_root by done. by destruct cs. }
    rewrite dir_render_snoc by done. pose proof (cleaned_removelast _ _ _ H) as Hcs.
    assert (str_eqb (render_path r cs) (render_path r (cs ++ [x])) = false) as ->.
    { apply str_eqb_neq. intros Heq. apply (f_equal clean_list) in Heq.
      rewrite !clean_list_render in Heq by done. apply (f_equal length) in Heq.
      rewrite length_app in Heq. cbn in Heq. lia. }
    rewrite length_app in *. cbn [length] in *.
    destruct (IH fuel ({[ render_path r ((cs ++ [x]) ++ [configFilename]) ]} ∪ uniq) Hcs ltac:(lia))
      as (u & Hu & Hin). exists u. split; [done|]. intros c.
    rewrite Hin, elem_of_union, elem_of_singleton. split.
    + intros [[->|Hc]|(n & Hn & ->)]; [right|by left|right].
      * exists (length cs + 1)%nat. split; [lia|]. rewrite take_ge; [done|]. rewrite length_app. cbn. lia.
      * exists n. split; [lia|]. by rewrite take_app_le by lia.
    + intros [Hc|(n & Hn & ->)]; [by left; right|].
      destruct (decide (n <= length cs)%nat) as [Hle|Hgt].
      * right. exists n. split; [done|]. by rewrite take_app_le by lia.
      * left; left. rewrite take_ge; [done|]. rewrite length_app. cbn. lia.
Qed.

(** What one file adds. *)
Lemma discover_file_spec uniq p c :
  c ∈ discover_file uniq p <->
  c ∈ uniq \/ trim_space p <> "" /\ exists n, (n <= length (dir_comps p))%nat /\
    c = render_path (rooted p) (take n (dir_comps p) ++ [configFilename]).
Proof.
  unfold discover_file. destruct (str_eqb (trim_space p) "") eqn:E.
  - apply str_eqb_eq in E. split; [by left|]. intros [?|[? _]]; done.
  - apply str_eqb_neq in E. cbn zeta. rewrite dir_clean. unfold walk_fuel.
    pose proof (length_render_ge _ _ (dir_comps_cleaned p)) as Hlen.
    destruct (walk_up_spec (rooted p) (dir_comps p)
      (S (String.length (render_path (rooted p) (dir_comps p)))) uniq (dir_comps_cleaned p) ltac:(lia))
      as (u & -> & Hu). cbn. rewrite Hu.
    split; [intros [?|?]; [by left|by right]|intros [?|[_ ?]]; [by left|by right]].
Qed.

Lemma discover_configs_spec files c :
  c ∈ discover_configs files <->
  exists p, p ∈ files /\ trim_space p <> "" /\ exists n, (n <= length (dir_comps p))%nat /\
    c = render_path (rooted p) (take n (dir_comps p) ++ [configFilename]).
Proof.
  unfold discover_configs. induction files as [|p files IH] using rev_ind.
  - cbn. split; [by intros ?%elem_of_empty|]. by intros (p & Hp%elem_of_nil & _).
  - rewrite foldl_snoc, discover_file_spec, IH. setoid_rewrite elem_of_app.
    setoid_rewrite list_elem_of_singleton. split.
    + intros [(q & Hq & H)|H]; [by exists q; split; [left|]|by exists p; split; [right|]].
    + intros (q & [Hq| ->] & H); [left; by exists q|by right].
Qed.

Lemma elem_of_discovered `{MapOrder} files d :
  d ∈ DiscoverFromChangedFiles files <->
  exists c, c ∈ discover_configs files /\ d = mkProject (dir c) c.
Proof.
  unfold DiscoverFromChangedFiles. rewrite list_elem_of_fmap. setoid_rewrite range_order_perm.
  setoid_rewrite elem_of_elements. split; intros (c & ? & ?); eauto.
Qed.

Lemma ancestor_config p n :
  render_path (rooted p) (take n (dir_comps p) ++ [configFilename]) = join2 (ancestor p n) configFilename.
Proof.
  unfold ancestor. rewrite join2_render; [done|apply cleaned_take, dir_comps_cleaned|apply config_good|done].
Qed.

Lemma ancestor_dir p n : dir (join2 (ancestor p n) configFilename) = ancestor p n.
Proof.
  rewrite <- ancestor_config. apply dir_render_snoc.
  apply cleaned_snoc; [apply cleaned_take, dir_comps_cleaned|apply config_good|done].
Qed.

Lemma discovered_spec `{MapOrder} files d :
  d ∈ DiscoverFromChangedFiles files <->
  exists p n, p ∈ files /\ trim_space p <> "" /\ (n <= length (dir_comps p))%nat /\
    d = mkProject (ancestor p n) (join2 (ancestor p n) configFilename).
Proof.
  rewrite elem_of_discovered. setoid_rewrite discover_configs_spec. split.
  - intros (c & (p & Hp & Ht & n & Hn & ->) & ->). exists p, n. split_and!; [done..|].
    by rewrite ancestor_config, ancestor_dir.
  - intros (p & n & Hp & Ht & Hn & ->). exists (join2 (ancestor p n) configFilename).
    split; [|by rewrite ancestor_dir]. exists p. split_and!; [done..|]. exists n. split; [done|].
    by rewrite ancestor_config.
Qed.

Lemma NoDup_discovered `{MapOrder} files : NoDup (ConfigPath <$> DiscoverFromChangedFiles files).
Proof.
  unfold DiscoverFromChangedFiles. rewrite <- list_fmap_compose.
  erewrite list_fmap_ext; [rewrite list_fmap_id|intros ? ? _; reflexivity].
  rewrite range_order_perm. apply NoDup_elements.
Qed.

(** C37: the walk up from the directory of a changed file ends: with one unit of fuel
    more than the directory has bytes it always returns, whatever was found before. *)
Theorem walk_up_terminates p uniq :
  is_Some (walk_up (walk_fuel (dir (clean p))) (dir (clean p)) uniq).
Proof.
  rewrite dir_clean. unfold walk_fuel.
  pose proof (length_render_ge _ _ (dir_comps_cleaned p)) as Hlen.
  destruct (walk_up_spec (rooted p) (dir_comps p)
    (S (String.length (render_path (rooted p) (dir_comps p)))) uniq (dir_comps_cleaned p) ltac:(lia))
    as (u & -> & _). eauto.
Qed.

(** C22: discovery returns exactly the directories above the changed files, from the
    one that holds the file up to the root, each with the path of its configuration
    file, each once, in whatever order the map is visited. *)
Theorem Discover_ancestors `{MapOrder} files :
  (forall d, d ∈ DiscoverFromChangedFiles files <->
     exists p n, p ∈ files /\ trim_space p <> "" /\ (n <= length (dir_comps p))%nat /\
       d = mkProject (ancestor p n) (join2 (ancestor p n) configFilename)) /\
  NoDup (ConfigPath <$> DiscoverFromChangedFiles files).
Proof. split; [intros d; apply discovered_spec|apply NoDup_discovered]. Qed.

(** Every relative changed file makes the repository root a discovered project,
    so two merge requests that touch any file of a repository always share a project
    key. *)
Theorem Discover_always_root `{MapOrder} files p :
  p ∈ files -> trim_space p <> "" -> rooted p = false ->
  mkProject "." configFilename ∈ DiscoverFromChangedFiles files.
Proof.
  intros Hp Ht Hr. apply discovered_spec. exists p, 0%nat. split_and!; [done..|lia|].
  unfold ancestor. by rewrite Hr.
Qed.

Lemma Discover_always_root_witness :
  mkProject "." configFilename ∈ @DiscoverFromChangedFiles natural_order ["apps/web/deploy.yaml"].
Proof.
  apply (@Discover_always_root natural_order ["apps/web/deploy.yaml"] "apps/web/deploy.yaml").
  - by apply list_elem_of_singleton.
  - vm_compute. discriminate.
  - reflexivity.
Defined.

Example Discover_example :
  Root <$> @DiscoverFromChangedFiles natural_order ["apps/web/deploy.yaml"; " "; "apps/x.yaml"]
  ≡ₚ ["."; "apps"; "apps/web"].
Proof. apply (bool_decide_unpack _). vm_compute. exact I. Qed.
