(* ===== verification/Context.v ===== *)
(** * What a call finds in its surroundings

    The parts of the world a single call observes and the program does not control:
    the clock, the state of its [context.Context], the scheduler's choices. Operations
    take them as an argument and theorems hold for all of them. *)

From stdpp Require Import options.
From S2P Require Import Prelude GoStrings.

(** The time in nanoseconds, the error of a context that is done, which of two ready
    cases a [select] picks ([true]: the one on the context), and whether a goroutine
    is blocked receiving from the channel the call sends on. *)
Record Ctx := mkCtx {
  ctx_now : Z;
  ctx_err : option string;
  ctx_pick : bool;
  ctx_receiver : bool
}.

Definition at_time (t : Z) : Ctx := mkCtx t None false false.

(** [context.Background()] at the same moment *)
Definition background (ctx : Ctx) : Ctx := mkCtx (ctx_now ctx) None (ctx_pick ctx) (ctx_receiver ctx).

(** A call that may wait for something that never happens. *)
Inductive call (A : Type) : Type :=
| Returns (a : A)
| Blocked.
Arguments Returns {A} a.
Arguments Blocked {A}.

(** *** Environment variables *)

(** [os.Getenv]: the empty string for a variable that is not set. *)
Definition environment := string -> string.
Definition no_env : environment := fun _ => "".

Definition getEnv (env : environment) (key fallback : string) : string :=
  if str_eqb (env key) "" then fallback else env key.

(** [strconv.Atoi]'s error, as it is printed: a sign and digits that do not fit are out
    of range, anything else is not a number. *)
Definition unsigned_part (val : string) : string :=
  match val with
  | String a rest => if in_range 43 43 a || in_range 45 45 a then rest else val
  | EmptyString => ""
  end.
Definition atoi_error (val : string) : string :=
  let digits := unsigned_part val in
  let reason := if negb (is_empty digits) && all_bytes is_digit digits
                then "value out of range" else "invalid syntax" in
  "strconv.Atoi: parsing " +:+ fmt_q val +:+ ": " +:+ reason.

Definition getEnvInt (env : environment) (key : string) (fallback : Z) : result Z :=
  let val := env key in
  if str_eqb val "" then Ok fallback
  else match atoi val with
       | Some n => Ok n
       | None => Err ("invalid " +:+ key +:+ ": " +:+ atoi_error val)
       end.
