(* ===== verification/Lock.v ===== *)
(** * Project locks: internal/lock/memory.go

    [Locker] is the interface the service is given, [LockerSpec] what it may rely on:
    the owner of every project key of a repository, as [List] shows it. Operations run
    under the store's mutex, so each is one step. *)

From stdpp Require Import options.
From S2P Require Import Prelude GoStrings.

(** ** The interface *)

Class Locker (L : Type) := {
  Acquire : string -> string -> Z -> L -> (bool * Z) * L;
  ReleaseByMR : string -> Z -> L -> L;
  LockList : string -> L -> gmap string Z
}.

Class LockerSpec (L : Type) `{Locker L} := {
  acquire_free repo key mr l :
    LockList repo l !! key = None \/ LockList repo l !! key = Some mr ->
    (Acquire repo key mr l).1 = (true, mr) /\
    forall repo', LockList repo' (Acquire repo key mr l).2 =
      if decide (repo' = repo) then <[key := mr]> (LockList repo l) else LockList repo' l;
  acquire_held repo key mr owner l :
    LockList repo l !! key = Some owner -> owner <> mr ->
    (Acquire repo key mr l).1 = (false, owner) /\
    forall repo', LockList repo' (Acquire repo key mr l).2 = LockList repo' l;
  release_list repo mr l repo' :
    LockList repo' (ReleaseByMR repo mr l) =
      if decide (repo' = repo) then filter (fun kv => kv.2 <> mr) (LockList repo l)
      else LockList repo' l
}.

(** ** MemoryLocker *)

Abbreviation MemoryLocker := (gmap string (gmap string Z)).
Definition NewMemoryLocker : MemoryLocker := ∅.

Definition mem_acquire (repo projectKey : string) (mergeReqID : Z) (locks : MemoryLocker)
    : (bool * Z) * MemoryLocker :=
  let locks := match locks !! repo with Some _ => locks | None => <[repo := ∅]> locks end in
  let inner := default ∅ (locks !! repo) in
  match inner !! projectKey with
  | Some owner =>
      if owner =? mergeReqID
      then ((true, mergeReqID), <[repo := <[projectKey := mergeReqID]> inner]> locks)
      else ((false, owner), locks)
  | None => ((true, mergeReqID), <[repo := <[projectKey := mergeReqID]> inner]> locks)
  end.

(** Deleting while ranging visits every entry once. *)
Definition mem_release (repo : string) (mergeReqID : Z) (locks : MemoryLocker) : MemoryLocker :=
  match locks !! repo with
  | Some inner => <[repo := filter (fun kv => kv.2 <> mergeReqID) inner]> locks
  | None => locks
  end.

Definition mem_list (repo : string) (locks : MemoryLocker) : gmap string Z := default ∅ (locks !! repo).

#[export] Instance MemoryLocker_Locker : Locker MemoryLocker := {|
  Acquire := mem_acquire; ReleaseByMR := mem_release; LockList := mem_list
|}.

Lemma mem_list_insert repo repo' inner (locks : MemoryLocker) :
  mem_list repo' (<[repo := inner]> locks) = if decide (repo' = repo) then inner else mem_list repo' locks.
Proof. unfold mem_list. rewrite lookup_insert. repeat case_decide; by subst. Qed.

(** The map of the repository exists after the first statement. *)
Lemma mem_list_ensure repo (locks : MemoryLocker) repo' :
  mem_list repo' (match locks !! repo with Some _ => locks | None => <[repo := ∅]> locks end) =
  mem_list repo' locks.
Proof.
  destruct (locks !! repo) eqn:E; [done|]. rewrite mem_list_insert. case_decide; [|done]. subst.
  unfold mem_list. by rewrite E.
Qed.

Lemma mem_acquire_eq repo key mr locks :
  let locks' := match locks !! repo with Some _ => locks | None => <[repo := ∅]> locks end in
  mem_acquire repo key mr locks =
  match mem_list repo locks !! key with
  | Some owner => if owner =? mr then ((true, mr), <[repo := <[key := mr]> (mem_list repo locks)]> locks')
                  else ((false, owner), locks')
  | None => ((true, mr), <[repo := <[key := mr]> (mem_list repo locks)]> locks')
  end.
Proof. intros locks'. rewrite <- (mem_list_ensure repo locks repo). done. Qed.

#[export] Instance MemoryLocker_Spec : LockerSpec MemoryLocker.
Proof.
  split.
  - intros repo key mr l H. cbn [Acquire LockList MemoryLocker_Locker] in *. rewrite mem_acquire_eq.
    cbn zeta. destruct H as [-> | ->]; [|rewrite Z.eqb_refl]; (split; [done|]); intros repo';
      cbn [snd]; by rewrite mem_list_insert, mem_list_ensure.
  - intros repo key mr owner l H Hne. cbn [Acquire LockList MemoryLocker_Locker] in *.
    rewrite mem_acquire_eq. cbn zeta. rewrite H, (proj2 (Z.eqb_neq owner mr)) by done.
    split; [done|]. intros repo'. cbn [snd]. by rewrite mem_list_ensure.
  - intros repo mr l repo'. cbn [ReleaseByMR LockList MemoryLocker_Locker]. unfold mem_release.
    destruct (l !! repo) as [inner|] eqn:E.
    + rewrite mem_list_insert. case_decide; [|done]. unfold mem_list. by rewrite E.
    + case_decide; [|done]. subst. unfold mem_list. by rewrite E.
Qed.

(** ** Consequences for any locker *)

Section LockerFacts.
#[local] Set Default Proof Using "Type*".
Context {L : Type} `{LockerSpec L}.

Lemma acquire_ok repo key mr l owner l' :
  Acquire repo key mr l = ((true, owner), l') ->
  owner = mr /\ LockList repo l' = <[key := mr]> (LockList repo l) /\
  (LockList repo l !! key = None \/ LockList repo l !! key = Some mr) /\
  forall repo', repo' <> repo -> LockList repo' l' = LockList repo' l.
Proof.
  intros Ha. destruct (LockList repo l !! key) as [o|] eqn:E.
  - destruct (decide (o = mr)) as [->|Hne].
    + destruct (acquire_free repo key mr l) as [H1 H2]; [by right|]. rewrite Ha in H1, H2.
      cbn [fst snd] in H1, H2. split; [congruence|]. split; [|split; [by right|]].
      * specialize (H2 repo). by rewrite decide_True in H2.
      * intros repo' Hr. specialize (H2 repo'). by rewrite decide_False in H2.
    + destruct (acquire_held repo key mr o l E Hne) as [H1 _]. rewrite Ha in H1. done.
  - destruct (acquire_free repo key mr l) as [H1 H2]; [by left|]. rewrite Ha in H1, H2.
    cbn [fst snd] in H1, H2. split; [congruence|]. split; [|split; [by left|]].
    + specialize (H2 repo). by rewrite decide_True in H2.
    + intros repo' Hr. specialize (H2 repo'). by rewrite decide_False in H2.
Qed.

Lemma acquire_fail repo key mr l owner l' :
  Acquire repo key mr l = ((false, owner), l') ->
  owner <> mr /\ LockList repo l !! key = Some owner /\ forall repo', LockList repo' l' = LockList repo' l.
Proof.
  intros Ha. destruct (LockList repo l !! key) as [o|] eqn:E.
  - destruct (decide (o = mr)) as [->|Hne].
    + destruct (acquire_free repo key mr l) as [H1 _]; [by right|]. rewrite Ha in H1. done.
    + destruct (acquire_held repo key mr o l E Hne) as [H1 H2]. rewrite Ha in H1, H2.
      cbn [fst snd] in H1, H2. split_and!; [congruence|congruence|done].
  - destruct (acquire_free repo key mr l) as [H1 _]; [by left|]. rewrite Ha in H1. done.
Qed.

(** Acquiring never takes a key from another merge request. *)
Lemma acquire_keeps_others repo key mr l repo' key' owner :
  owner <> mr -> LockList repo' l !! key' = Some owner ->
  LockList repo' (Acquire repo key mr l).2 !! key' = Some owner.
Proof.
  intros Hne Hl. destruct (Acquire repo key mr l) as [[[] o] l'] eqn:E; cbn [snd].
  - apply acquire_ok in E as (-> & H1 & H2 & H3).
    destruct (decide (repo' = repo)) as [->|Hr]; [|by rewrite H3].
    rewrite H1, lookup_insert_ne; [done|]. intros ->. rewrite Hl in H2. destruct H2; congruence.
  - apply acquire_fail in E as (_ & _ & H3). by rewrite H3.
Qed.
End LockerFacts.
