(* ===== verification/Storage.v ===== *)
(** * Deliveries and deduplication: internal/storage

    [DeliveryStore] and [DedupeStore] are the interfaces the service is given;
    [DeliverySpec] and [DedupeSpec] are what a store within the process keeps to;
    MemoryDeliveryStore and MemoryDedupeStore are instances. RedisDedupeStore implements
    the operations over a Redis client that is a parameter; it is no instance of the laws,
    since a command that failed for the client may have been applied. *)

From stdpp Require Import options.
From S2P Require Import Prelude GoStrings Context.

(** ** Deliveries: memory.go *)

Inductive dstate := statePending | stateCommitted.

#[export] Instance dstate_eq_dec : EqDecision dstate.
Proof. solve_decision. Defined.

Class DeliveryStore (D : Type) := {
  DReserve : string -> D -> bool * D;
  DCommit : string -> D -> D;
  DRelease : string -> D -> D;
  DSeen : string -> D -> bool
}.

(** What a delivery store promises, by the state of every delivery. *)
Class DeliverySpec (D : Type) `{DeliveryStore D} := {
  delivery : D -> string -> option dstate;
  reserve_new id d :
    delivery d id = None ->
    (DReserve id d).1 = true /\
    forall id', delivery (DReserve id d).2 id' =
      if decide (id' = id) then Some statePending else delivery d id';
  reserve_seen id d :
    is_Some (delivery d id) ->
    (DReserve id d).1 = false /\ forall id', delivery (DReserve id d).2 id' = delivery d id';
  commit_delivery id d id' :
    delivery (DCommit id d) id' =
      if decide (id' = id) then (fun _ => stateCommitted) <$> delivery d id else delivery d id';
  release_delivery id d id' :
    delivery (DRelease id d) id' =
      if decide (id' = id /\ delivery d id = Some statePending) then None else delivery d id';
  seen_delivery id d : DSeen id d = bool_decide (is_Some (delivery d id))
}.

Abbreviation MemoryDeliveryStore := (gmap string dstate).
Definition NewMemoryDeliveryStore : MemoryDeliveryStore := ∅.

Definition mem_reserve (id : string) (s : MemoryDeliveryStore) : bool * MemoryDeliveryStore :=
  match s !! id with
  | Some _ => (false, s)
  | None => (true, <[id := statePending]> s)
  end.

Definition mem_commit (id : string) (s : MemoryDeliveryStore) : MemoryDeliveryStore :=
  match s !! id with
  | Some _ => <[id := stateCommitted]> s
  | None => s
  end.

(** An absent entry reads as the zero value [statePending]; deleting it is no change. *)
Definition mem_unreserve (id : string) (s : MemoryDeliveryStore) : MemoryDeliveryStore :=
  match default statePending (s !! id) with
  | statePending => delete id s
  | stateCommitted => s
  end.

Definition mem_seen (id : string) (s : MemoryDeliveryStore) : bool :=
  match s !! id with Some _ => true | None => false end.

#[export] Instance MemoryDeliveryStore_Store : DeliveryStore MemoryDeliveryStore := {|
  DReserve := mem_reserve; DCommit := mem_commit; DRelease := mem_unreserve; DSeen := mem_seen
|}.

#[export] Program Instance MemoryDelivery_Spec : DeliverySpec MemoryDeliveryStore :=
  {| delivery s id := s !! id |}.
Next Obligation.
  intros id d H. cbn. unfold mem_reserve. rewrite H. split; [done|]. intros id'. cbn [snd].
  rewrite lookup_insert. repeat case_decide; by subst.
Qed.
Next Obligation. intros id d [x H]. cbn. unfold mem_reserve. by rewrite H. Qed.
Next Obligation.
  intros id d id'. cbn. unfold mem_commit. destruct (d !! id) eqn:E.
  - rewrite lookup_insert. repeat case_decide; by subst.
  - case_decide; [subst; by rewrite E|done].
Qed.
Next Obligation.
  intros id d id'. cbn. unfold mem_unreserve. destruct (d !! id) as [[]|] eqn:E; cbn.
  - rewrite lookup_delete. destruct (decide (id = id')) as [->|Hne].
    + by rewrite decide_True.
    + rewrite decide_False; [done|]. by intros [? _].
  - rewrite decide_False; [done|]. by intros [_ ?].
  - rewrite lookup_delete. destruct (decide (id = id')) as [<-|Hne]; rewrite decide_False; try done;
      by intros [? ?].
Qed.
Next Obligation.
  intros id d. cbn. unfold mem_seen. destruct (d !! id); symmetry;
    [by apply bool_decide_eq_true_2|by apply bool_decide_eq_false_2; intros [? ?]].
Qed.

(** ** Deduplication: dedupe.go *)

Class DedupeStore (S : Type) := {
  KReserve : Ctx -> string -> Z -> S -> result bool * S;
  KRelease : Ctx -> string -> S -> result unit * S
}.

(** [held s k t]: an event with the key [k] that arrives at time [t] is a duplicate. *)
Class DedupeSpec (S : Type) `{DedupeStore S} := {
  held : S -> string -> Z -> bool;
  held_earlier s k t t' : t <= t' -> held s k t' = true -> held s k t = true;
  dedupe_disabled ctx k ttl s : ttl <= 0 -> KReserve ctx k ttl s = (Ok true, s);
  dedupe_answer ctx k ttl s b s' :
    0 < ttl -> KReserve ctx k ttl s = (Ok b, s') -> b = negb (held s k (ctx_now ctx));
  dedupe_after ctx k ttl s b s' k' t :
    0 < ttl -> KReserve ctx k ttl s = (Ok b, s') -> ctx_now ctx <= t ->
    held s' k' t =
      if decide (k' = k) then (if b then t <? ctx_now ctx + ttl else held s k t) else held s k' t;
  dedupe_release ctx k s s' k' t :
    KRelease ctx k s = (Ok tt, s') -> ctx_now ctx <= t ->
    held s' k' t = if decide (k' = k) then false else held s k' t
}.

(** *** In memory: dedupe_memory.go *)

Record MemoryDedupeStore := mkDedupe { expiry : gmap string Z }.
Definition NewMemoryDedupeStore : MemoryDedupeStore := mkDedupe ∅.

(** Times are nanoseconds since the zero time. *)
Definition expired (now exp : Z) : bool := negb (exp =? 0) && (exp <? now).

Definition mem_dedupe_reserve (ctx : Ctx) (key : string) (ttl : Z) (s : MemoryDedupeStore)
    : result bool * MemoryDedupeStore :=
  if ttl <=? 0 then (Ok true, s)
  else
    let now := ctx_now ctx in
    let kept := filter (fun kv => expired now kv.2 = false) (expiry s) in
    match kept !! key with
    | Some exp =>
        if now <? exp then (Ok false, mkDedupe kept) else (Ok true, mkDedupe (<[key := now + ttl]> kept))
    | None => (Ok true, mkDedupe (<[key := now + ttl]> kept))
    end.

Definition mem_dedupe_release (ctx : Ctx) (key : string) (s : MemoryDedupeStore)
    : result unit * MemoryDedupeStore :=
  (Ok tt, mkDedupe (delete key (expiry s))).

#[export] Instance MemoryDedupe_Store : DedupeStore MemoryDedupeStore := {|
  KReserve := mem_dedupe_reserve; KRelease := mem_dedupe_release
|}.

Definition mem_held (s : MemoryDedupeStore) (k : string) (t : Z) : bool :=
  match expiry s !! k with Some exp => t <? exp | None => false end.

(** Dropping what has expired changes no answer from now on. *)
Lemma kept_held now (m : gmap string Z) k t :
  now <= t ->
  match (filter (fun kv => expired now kv.2 = false) m : gmap string Z) !! k with
  | Some exp => t <? exp | None => false end =
  match m !! k with Some exp => t <? exp | None => false end.
Proof.
  intros Ht. rewrite map_lookup_filter. destruct (m !! k) as [exp|]; [|done]. cbn.
  destruct (expired now exp) eqn:E; [rewrite option_guard_False by done|by rewrite option_guard_True by done].
  cbn. unfold expired in E. apply andb_prop in E as [_ E]. lia.
Qed.

#[export] Program Instance MemoryDedupe_Spec : DedupeSpec MemoryDedupeStore := {| held := mem_held |}.
Next Obligation. intros s k t t' Ht. cbn. unfold mem_held. destruct (expiry s !! k); [lia|done]. Qed.
Next Obligation. intros ctx k ttl s H. cbn. unfold mem_dedupe_reserve. by rewrite (proj2 (Z.leb_le _ _) H). Qed.
Next Obligation.
  intros ctx k ttl s b s' Ht. cbn. unfold mem_dedupe_reserve, mem_held.
  rewrite (proj2 (Z.leb_gt _ _)) by done. rewrite <- (kept_held (ctx_now ctx)) by lia.
  destruct (_ !! k) as [exp|]; [destruct (ctx_now ctx <? exp) eqn:E|]; by intros [= <- <-].
Qed.
Next Obligation.
  intros ctx k ttl s b s' k' t Ht Hr Hnow. revert Hr. cbn. unfold mem_dedupe_reserve, mem_held.
  rewrite (proj2 (Z.leb_gt _ _)) by done. rewrite <- (kept_held (ctx_now ctx) (expiry s) k') by done.
  rewrite <- (kept_held (ctx_now ctx) (expiry s) k) by done.
  set (kept := filter _ (expiry s) : gmap string Z).
  destruct (kept !! k) as [exp|] eqn:E; [destruct (ctx_now ctx <? exp) eqn:El|];
    intros [= <- <-]; cbn [expiry]; rewrite ?lookup_insert;
    (destruct (decide (k' = k)) as [->|Hne];
      [rewrite ?decide_True by done|rewrite ?decide_False by done]); try done.
  by rewrite E.
Qed.
Next Obligation.
  intros ctx k s s' k' t. cbn. intros [= <-] _. unfold mem_held. cbn. rewrite lookup_delete.
  repeat case_decide; by subst.
Qed.

(** *** In Redis: dedupe_redis.go *)

(** The client's calls: SET with NX and an expiry, and DEL. *)
Class RedisKV (R : Type) := {
  SetNX : Ctx -> string -> string -> Z -> R -> result bool * R;
  Del : Ctx -> string -> R -> result unit * R
}.

Record RedisDedupeStore (R : Type) := mkRedisDedupe { rd_client : R; rd_prefix : string }.
Arguments mkRedisDedupe {R} _ _.
Arguments rd_client {R} _.
Arguments rd_prefix {R} _.

Definition NewRedisDedupeStore {R} (client : R) (prefix : string) : RedisDedupeStore R :=
  mkRedisDedupe client (if str_eqb prefix "" then "thule:dedupe:" else prefix).

Definition redis_reserve {R} `{RedisKV R} (ctx : Ctx) (key : string) (ttl : Z) (s : RedisDedupeStore R)
    : result bool * RedisDedupeStore R :=
  if ttl <=? 0 then (Ok true, s)
  else
    let '(res, client) := SetNX ctx (rd_prefix s +:+ key) "1" ttl (rd_client s) in
    (match res with
     | Err e => Err ("redis reserve: " +:+ e)
     | Ok ok => Ok ok
     end, mkRedisDedupe client (rd_prefix s)).

Definition redis_release {R} `{RedisKV R} (ctx : Ctx) (key : string) (s : RedisDedupeStore R)
    : result unit * RedisDedupeStore R :=
  let '(res, client) := Del ctx (rd_prefix s +:+ key) (rd_client s) in
  (match res with
   | Err e => Err ("redis release: " +:+ e)
   | Ok _ => Ok tt
   end, mkRedisDedupe client (rd_prefix s)).

#[export] Instance RedisDedupe_Store {R} `{RedisKV R} : DedupeStore (RedisDedupeStore R) := {|
  KReserve := redis_reserve; KRelease := redis_release
|}.

(** ** Sequences of reservations *)

Section Sequences.
#[local] Set Default Proof Using "Type*".
Context {S : Type} `{DedupeSpec S}.

Inductive dedupe_call :=
| CallReserve (ctx : Ctx) (key : string) (ttl : Z)
| CallRelease (ctx : Ctx) (key : string).

Definition call_time (c : dedupe_call) : Z :=
  match c with CallReserve ctx _ _ | CallRelease ctx _ => ctx_now ctx end.

(** One call that does not fail; [Some b] is the answer to a reservation. *)
Definition dedupe_step (s : S) (c : dedupe_call) : result (option bool) * S :=
  match c with
  | CallReserve ctx key ttl =>
      let '(r, s') := KReserve ctx key ttl s in
      (match r with Ok b => Ok (Some b) | Err e => Err e end, s')
  | CallRelease ctx key =>
      let '(r, s') := KRelease ctx key s in
      (match r with Ok _ => Ok None | Err e => Err e end, s')
  end.

(** [dedupe_run s cs s']: the calls [cs], at non-decreasing times from [t], all
    return without error and none of them releases [k]. *)
Inductive dedupe_run (k : string) : Z -> S -> list dedupe_call -> S -> Prop :=
| run_nil t s : dedupe_run k t s [] s
| run_cons t s c a s1 cs s2 :
    t <= call_time c -> (forall ctx, c <> CallRelease ctx k) ->
    (forall ctx key ttl, c = CallReserve ctx key ttl -> 0 < ttl) ->
    dedupe_step s c = (Ok a, s1) -> dedupe_run k (call_time c) s1 cs s2 ->
    dedupe_run k t s (c :: cs) s2.

(** A reservation that is held stays held until it expires or is released. *)
Lemma dedupe_run_held k t s cs s' u :
  dedupe_run k t s cs s' -> (forall c, c ∈ cs -> call_time c <= u) -> t <= u ->
  held s k u = true -> held s' k u = true.
Proof.
  induction 1 as [t s|t s c a s1 cs s2 Ht Hrel Hpos Hstep Hrun IH]; intros Hu Htu Hheld; [done|].
  assert (call_time c <= u) as Hcu by (apply Hu, elem_of_cons; by left).
  apply IH; [intros c' Hc'; apply Hu, elem_of_cons; by right|done|].
  destruct c as [ctx key ttl|ctx key]; cbn [dedupe_step call_time] in *.
  - destruct (KReserve ctx key ttl s) as [[b|e] s''] eqn:E; [|done]. injection Hstep as <- <-.
    pose proof (Hpos _ _ _ eq_refl) as Httl.
    rewrite (dedupe_after ctx key ttl s b s'' k u Httl E Hcu).
    destruct (decide (k = key)) as [<-|Hne]; [|done]. destruct b; [|done].
    pose proof (dedupe_answer ctx k ttl s true s'' Httl E) as Ha.
    by rewrite (held_earlier s k (ctx_now ctx) u) in Ha.
  - destruct (KRelease ctx key s) as [[[]|e] s''] eqn:E; [|done]. injection Hstep as <- <-.
    rewrite (dedupe_release ctx key s s'' k u E Hcu). rewrite decide_False; [done|].
    intros ->. by apply (Hrel ctx).
Qed.
End Sequences.

(** C29: once an event's key was accepted, every event with the same key that arrives
    before the time to live has passed is refused, whatever other keys were reserved
    and released in between. *)
Theorem dedupe_no_second {S : Type} `{DedupeSpec S} ctx k ttl (s s1 : S) cs s2 ctx2 ttl2 b s3 :
  0 < ttl -> 0 < ttl2 -> KReserve ctx k ttl s = (Ok true, s1) ->
  dedupe_run k (ctx_now ctx) s1 cs s2 -> (forall c, c ∈ cs -> call_time c <= ctx_now ctx2) ->
  ctx_now ctx <= ctx_now ctx2 < ctx_now ctx + ttl ->
  KReserve ctx2 k ttl2 s2 = (Ok b, s3) -> b = false.
Proof.
  intros Httl Httl2 Hr Hrun Hcs Ht Hr2.
  rewrite (dedupe_answer ctx2 k ttl2 s2 b s3) by done.
  rewrite (dedupe_run_held k (ctx_now ctx) s1 cs s2 (ctx_now ctx2)); [done|done|done|lia|].
  rewrite (dedupe_after ctx k ttl s true s1) by (done || lia). rewrite decide_True by done. lia.
Qed.

Lemma dedupe_no_second_witness :
  (mem_dedupe_reserve (at_time 10) "k" 5
     (mem_dedupe_reserve (at_time 7) "k" 5 NewMemoryDedupeStore).2).1 = Ok false.
Proof.
  destruct (mem_dedupe_reserve (at_time 7) "k" 5 NewMemoryDedupeStore) as [r s1] eqn:E1.
  destruct (mem_dedupe_reserve (at_time 10) "k" 5 s1) as [r2 s3] eqn:E2.
  assert (r = Ok true) as -> by (change r with (r, s1).1; rewrite <- E1; reflexivity).
  cbn [snd]. rewrite E2. cbn [fst].
  assert (exists b, r2 = Ok b) as [b ->].
  { change r2 with (r2, s3).1. rewrite <- E2. unfold mem_dedupe_reserve. cbn [Z.leb].
    destruct (_ !! "k"); [destruct (_ <? _)|]; by eexists. }
  f_equal. apply (dedupe_no_second (at_time 7) "k" 5 NewMemoryDedupeStore s1 [] s1
    (at_time 10) 5 b s3); [lia|lia|done|constructor|by intros c Hc%elem_of_nil|cbn; lia|done].
Defined.
