(* ===== verification/Queue.v ===== *)
(** * The job queue: internal/queue

    [JobQueue] is the interface the service and the worker are given. [QueueSpec] is what
    a queue within one process promises, [QueueOrigin] what remains of it over a network.
    A [MemoryQueue] is a Go channel. *)

From stdpp Require Import options.
From S2P Require Import Prelude GoStrings Context.

Record Job := mkJob {
  JobDeliveryID : string;
  JobEventType : string;
  JobRepository : string;
  JobMergeReqID : Z;
  JobHeadSHA : string;
  JobBaseRef : string;
  JobChangedFiles : list string
}.

#[export] Instance Job_eq_dec : EqDecision Job.
Proof. solve_decision. Defined.

(** ** The interface *)

Class JobQueue (Q : Type) := {
  Enqueue : Ctx -> Job -> Q -> call (result unit * Q);
  Dequeue : Ctx -> Q -> call (result Job * Q)
}.

(** A queue within a process keeps the jobs it accepted in order and hands each out once,
    and a call that fails has not changed it. *)
Class QueueSpec (Q : Type) `{JobQueue Q} := {
  queued : Q -> list Job;
  enqueue_ok ctx job q q' : Enqueue ctx job q = Returns (Ok tt, q') -> queued q' = queued q ++ [job];
  enqueue_err ctx job q e q' : Enqueue ctx job q = Returns (Err e, q') -> queued q' = queued q;
  dequeue_ok ctx q job q' : Dequeue ctx q = Returns (Ok job, q') -> queued q = job :: queued q';
  dequeue_err ctx q e q' : Dequeue ctx q = Returns (Err e, q') -> queued q' = queued q
}.

(** What every queue keeps to, also one that may lose jobs, hand them out twice, or take
    a job in and report an error: a job it has to offer is one it was given, as the queue
    carries it. *)
Class QueueOrigin (Q : Type) `{JobQueue Q} := {
  offers : Q -> Job -> Prop;
  carried : Job -> Job;
  enqueue_offers ctx job q r q' j :
    Enqueue ctx job q = Returns (r, q') -> offers q' j -> offers q j \/ j = carried job;
  dequeue_offers ctx q r q' j : Dequeue ctx q = Returns (r, q') -> offers q' j -> offers q j;
  dequeue_offered ctx q job q' : Dequeue ctx q = Returns (Ok job, q') -> offers q job
}.

(** ** MemoryQueue: memory.go *)

Record MemoryQueue := mkMemoryQueue { ch_cap : Z; ch_buf : list Job }.

(** [make(chan Job, buffer)] panics on a negative size and on one beyond the limit of
    the run time, the argument [limit]. *)
Definition NewMemoryQueue (limit buffer : Z) : option MemoryQueue :=
  if (buffer <? 0) || (limit <? buffer) then None else Some (mkMemoryQueue buffer []).

(** A send can proceed when there is room or a receiver is waiting. *)
Definition can_send (ctx : Ctx) (q : MemoryQueue) : bool :=
  (Z.of_nat (length (ch_buf q)) <? ch_cap q) || ctx_receiver ctx.

Definition mem_enqueue (ctx : Ctx) (job : Job) (q : MemoryQueue) : call (result unit * MemoryQueue) :=
  let sent := mkMemoryQueue (ch_cap q) (ch_buf q ++ [job]) in
  match ctx_err ctx, can_send ctx q with
  | None, true => Returns (Ok tt, sent)
  | None, false => Blocked
  | Some e, false => Returns (Err e, q)
  | Some e, true => if ctx_pick ctx then Returns (Err e, q) else Returns (Ok tt, sent)
  end.

Definition mem_dequeue (ctx : Ctx) (q : MemoryQueue) : call (result Job * MemoryQueue) :=
  match ctx_err ctx, ch_buf q with
  | None, j :: rest => Returns (Ok j, mkMemoryQueue (ch_cap q) rest)
  | None, [] => Blocked
  | Some e, [] => Returns (Err e, q)
  | Some e, j :: rest =>
      if ctx_pick ctx then Returns (Err e, q) else Returns (Ok j, mkMemoryQueue (ch_cap q) rest)
  end.

#[export] Instance MemoryQueue_Queue : JobQueue MemoryQueue := {|
  Enqueue := mem_enqueue; Dequeue := mem_dequeue
|}.

#[export] Program Instance MemoryQueue_Spec : QueueSpec MemoryQueue := {| queued := ch_buf |}.
Next Obligation. intros ctx job q q'. cbn. unfold mem_enqueue. intros. repeat case_match; by simplify_eq. Qed.
Next Obligation. intros ctx job q e q'. cbn. unfold mem_enqueue. intros. repeat case_match; by simplify_eq. Qed.
Next Obligation. intros ctx q job q'. cbn. unfold mem_dequeue. intros. repeat case_match; by simplify_eq. Qed.
Next Obligation. intros ctx q e q'. cbn. unfold mem_dequeue. intros. repeat case_match; by simplify_eq. Qed.

(** An exact queue offers what it holds. *)
#[export] Program Instance Exact_Origin {Q} `{QueueSpec Q} : QueueOrigin Q := {|
  offers q j := j ∈ queued q; carried job := job
|}.
Next Obligation.
  intros Q iQ sQ ctx job q [[]|e] q' j E; [apply enqueue_ok in E|apply enqueue_err in E]; rewrite E; [|by left].
  rewrite elem_of_app, list_elem_of_singleton. done.
Qed.
Next Obligation.
  intros Q iQ sQ ctx q [job|e] q' j E Hj; [apply dequeue_ok in E|apply dequeue_err in E]; cbn in *.
  - rewrite E. by right.
  - by rewrite <- E.
Qed.
Next Obligation. intros Q iQ sQ ctx q job q' E. apply dequeue_ok in E. cbn. rewrite E. left. Qed.

(** ** Choosing a queue: config.go *)

Inductive queue_choice :=
| UseMemory (q : MemoryQueue)
| UseRedis (addr password : string) (db : Z) (key : string).

Inductive start_outcome (A : Type) := Started (r : result A) | Panicked.
Arguments Started {A} r.
Arguments Panicked {A}.

Definition FromEnv (limit : Z) (env : environment) : start_outcome queue_choice :=
  let mode := to_lower (getEnv env "THULE_QUEUE" "memory") in
  if str_eqb mode "redis" then
    let addr := getEnv env "THULE_REDIS_ADDR" "127.0.0.1:6379" in
    let password := env "THULE_REDIS_PASSWORD" in
    match getEnvInt env "THULE_REDIS_DB" 0 with
    | Err e => Started (Err e)
    | Ok db => Started (Ok (UseRedis addr password db (getEnv env "THULE_REDIS_QUEUE" "thule:jobs")))
    end
  else
    match getEnvInt env "THULE_QUEUE_BUFFER" 100 with
    | Err e => Started (Err e)
    | Ok buffer =>
        match NewMemoryQueue limit buffer with
        | Some q => Started (Ok (UseMemory q))
        | None => Panicked
        end
    end.

(** ** Histories *)

Section Histories.
#[local] Set Default Proof Using "Type*".
Context {Q : Type} `{QueueSpec Q}.

(** [queue_run q sent received q']: calls of any producers and consumers, in the order
    they take effect, with the jobs accepted and the jobs handed out. *)
Inductive queue_run (q : Q) : list Job -> list Job -> Q -> Prop :=
| qrun_nil : queue_run q [] [] q
| qrun_sent sent received q1 q2 ctx job :
    queue_run q sent received q1 -> Enqueue ctx job q1 = Returns (Ok tt, q2) ->
    queue_run q (sent ++ [job]) received q2
| qrun_refused sent received q1 q2 ctx job e :
    queue_run q sent received q1 -> Enqueue ctx job q1 = Returns (Err e, q2) ->
    queue_run q sent received q2
| qrun_received sent received q1 q2 ctx job :
    queue_run q sent received q1 -> Dequeue ctx q1 = Returns (Ok job, q2) ->
    queue_run q sent (received ++ [job]) q2
| qrun_gave_up sent received q1 q2 ctx e :
    queue_run q sent received q1 -> Dequeue ctx q1 = Returns (Err e, q2) ->
    queue_run q sent received q2.

Lemma queue_run_queued q sent received q' :
  queue_run q sent received q' -> queued q ++ sent = received ++ queued q'.
Proof.
  induction 1 as [|s r q1 q2 ctx job _ IH E|s r q1 q2 ctx job e _ IH E|s r q1 q2 ctx job _ IH E
                 |s r q1 q2 ctx e _ IH E].
  - by rewrite app_nil_r.
  - apply enqueue_ok in E. by rewrite E, !(assoc_L (++)), IH.
  - apply enqueue_err in E. by rewrite E.
  - apply dequeue_ok in E. rewrite IH, E. by rewrite <- (assoc_L (++)).
  - apply dequeue_err in E. by rewrite E.
Qed.
End Histories.

(** The queue loses, invents and reorders nothing: in any history the jobs handed
    out are, in order, a prefix of the jobs accepted, and the rest is still queued. A
    call that returns an error has not changed the queue. *)
Theorem queue_fifo {Q : Type} `{QueueSpec Q} (q : Q) sent received q' :
  queued q = [] -> queue_run q sent received q' -> sent = received ++ queued q'.
Proof. intros Hq Hrun. apply queue_run_queued in Hrun. by rewrite Hq in Hrun. Qed.

(** The in-memory queue never holds more than its buffer, except for a job being
    handed to a receiver that was waiting, blocks a sender exactly when the buffer is
    full, nobody is receiving and its context is not done, and blocks a receiver
    exactly when it is empty and the context is not done. *)
Theorem mem_queue_blocking ctx job q :
  (mem_enqueue ctx job q = Blocked <->
     ctx_err ctx = None /\ ctx_receiver ctx = false /\ ch_cap q <= Z.of_nat (length (ch_buf q))) /\
  (mem_dequeue ctx q = Blocked <-> ctx_err ctx = None /\ ch_buf q = []) /\
  (forall r q', mem_enqueue ctx job q = Returns (r, q') -> ctx_receiver ctx = false ->
     Z.of_nat (length (ch_buf q)) <= ch_cap q -> Z.of_nat (length (ch_buf q')) <= ch_cap q').
Proof.
  unfold mem_enqueue, mem_dequeue, can_send. split_and!.
  - destruct (ctx_err ctx), (ctx_receiver ctx), (Z.ltb_spec (Z.of_nat (length (ch_buf q))) (ch_cap q)),
      (ctx_pick ctx); cbn; split; try done; try (intros (? & ? & ?); done || lia).
  - destruct (ctx_err ctx), (ch_buf q), (ctx_pick ctx); split; try done; by intros [? ?].
  - intros r q' He Hr Hl. rewrite Hr, orb_false_r in He.
    destruct (ctx_err ctx), (Z.ltb_spec (Z.of_nat (length (ch_buf q))) (ch_cap q)), (ctx_pick ctx);
      simplify_eq; cbn; rewrite ?length_app; cbn; lia.
Qed.

Definition sample_job : Job := mkJob "d1" "merge_request.open" "group/app" 7 "abc" "main" ["a.yaml"].

Lemma queue_fifo_witness :
  exists q', queue_run (mkMemoryQueue 2 []) [sample_job] [sample_job] q' /\
    [sample_job] = [sample_job] ++ queued q'.
Proof.
  exists (mkMemoryQueue 2 []).
  assert (queue_run (mkMemoryQueue 2 []) ([] ++ [sample_job]) ([] ++ [sample_job]) (mkMemoryQueue 2 []))
    as Hrun.
  { eapply (qrun_received _ _ _ (mkMemoryQueue 2 [sample_job]) _ (at_time 0)); [|reflexivity].
    eapply (qrun_sent _ _ _ (mkMemoryQueue 2 []) _ (at_time 0)); [apply qrun_nil|reflexivity]. }
  split; [exact Hrun|]. exact (queue_fifo (mkMemoryQueue 2 []) [sample_job] [sample_job] _ eq_refl Hrun).
Defined.

Lemma mem_queue_blocking_witness : mem_enqueue (at_time 0) sample_job (mkMemoryQueue 0 []) = Blocked.
Proof. apply (mem_queue_blocking (at_time 0) sample_job (mkMemoryQueue 0 [])). done. Defined.

(** Every queue mode other than redis selects the in-memory queue with the
    configured buffer, 100 by default; a buffer that is not a number is an error, and
    a negative one, which nothing checks, panics. *)
Theorem FromEnv_memory limit env :
  to_lower (getEnv env "THULE_QUEUE" "memory") <> "redis" -> 100 <= limit ->
  FromEnv limit env =
  match getEnvInt env "THULE_QUEUE_BUFFER" 100 with
  | Err e => Started (Err e)
  | Ok buffer =>
      if decide (0 <= buffer <= limit) then Started (Ok (UseMemory (mkMemoryQueue buffer [])))
      else Panicked
  end.
Proof.
  intros Hmode Hlim. unfold FromEnv. rewrite (proj2 (str_eqb_neq _ _)) by done.
  destruct (getEnvInt env "THULE_QUEUE_BUFFER" 100) as [b|e]; [|done]. unfold NewMemoryQueue.
  destruct (Z.ltb_spec b 0), (Z.ltb_spec limit b); cbn [orb]; case_decide; (done || lia).
Qed.

Definition negative_env : environment := fun k => if str_eqb k "THULE_QUEUE_BUFFER" then "-1" else "".

Lemma FromEnv_memory_witness : FromEnv 1000 negative_env = Panicked.
Proof. rewrite FromEnv_memory; [reflexivity|discriminate|lia]. Defined.
