(* ===== verification/RedisQueue.v ===== *)
(** * The job queue in Redis: internal/queue/redis.go

    Jobs travel as JSON texts through a Redis list. The client is an argument,
    [RedisLists]; [RedisListsSpec] is what RPUSH and BLPOP do to the list on a network
    that may lose answers, and with a client that may repeat a command: an error does
    not say whether the command was applied, and an answer not how often. *)

From stdpp Require Import options.
From S2P Require Import Prelude GoStrings Value JsonNumber Json JsonFacts JsonStruct Context Queue.

(** ** Jobs as JSON *)

(** The fields have no JSON names of their own, so they are encoded under their Go
    names. A nil slice is null, an empty one is an empty array; [nil_slice] says which
    of them an empty list of changed files is. *)
Definition files_value (nil_slice : bool) (files : list string) : value :=
  match files with
  | [] => if nil_slice then VNull else VList []
  | _ => VList (VString <$> files)
  end.

Definition job_members (nil_slice : bool) (job : Job) : list (string * value) :=
  [("DeliveryID", VString (JobDeliveryID job)); ("EventType", VString (JobEventType job));
   ("Repository", VString (JobRepository job)); ("MergeReqID", VInt (JobMergeReqID job));
   ("HeadSHA", VString (JobHeadSHA job)); ("BaseRef", VString (JobBaseRef job));
   ("ChangedFiles", files_value nil_slice (JobChangedFiles job))].

Definition marshal_job (nil_slice : bool) (job : Job) : option string :=
  marshal_object (job_members nil_slice job).

Definition zero_job : Job := mkJob "" "" "" 0 "" "" [].
Definition dec_job := dec_struct (fun k x (job : Job) =>
  let '(mkJob id type repo mr sha base files) := job in
  if key_is k "DeliveryID" then s ← dec_string x id; Some (mkJob s type repo mr sha base files)
  else if key_is k "EventType" then s ← dec_string x type; Some (mkJob id s repo mr sha base files)
  else if key_is k "Repository" then s ← dec_string x repo; Some (mkJob id type s mr sha base files)
  else if key_is k "MergeReqID" then z ← dec_int x mr; Some (mkJob id type repo z sha base files)
  else if key_is k "HeadSHA" then s ← dec_string x sha; Some (mkJob id type repo mr s base files)
  else if key_is k "BaseRef" then s ← dec_string x base; Some (mkJob id type repo mr sha s files)
  else if key_is k "ChangedFiles" then l ← dec_strings x files; Some (mkJob id type repo mr sha base l)
  else Some job).
Definition unmarshal_job (text : string) : option Job := j ← parse_json text; dec_job j zero_job.

(** ** The queue *)

(** RPUSH appends to a list; BLPOP without a timeout waits for the first element of the
    list and answers with the name of the list and the element. *)
Class RedisLists (R : Type) := {
  RPush : Ctx -> string -> string -> R -> result unit * R;
  BLPop : Ctx -> string -> R -> call (result (list string) * R)
}.

Record RedisQueue (R : Type) := mkRedisQueue { rq_client : R; rq_key : string }.
Arguments mkRedisQueue {R} _ _.
Arguments rq_client {R} _.
Arguments rq_key {R} _.

Definition NewRedisQueue {R} (client : R) (key : string) : RedisQueue R :=
  mkRedisQueue client (if str_eqb key "" then "thule:jobs" else key).

Section Operations.
Context {R : Type} {iR : RedisLists R}.
(** The texts of encoding/json's errors, and which empty lists of files are nil. *)
Context (marshal_error : Job -> string) (unmarshal_error : string -> string) (nil_slice : Ctx -> Job -> bool).

Definition redis_enqueue (ctx : Ctx) (job : Job) (q : RedisQueue R) : call (result unit * RedisQueue R) :=
  match marshal_job (nil_slice ctx job) job with
  | None => Returns (Err ("marshal job: " +:+ marshal_error job), q)
  | Some payload =>
      let '(res, client) := RPush ctx (rq_key q) payload (rq_client q) in
      Returns (match res with Err e => Err ("redis enqueue: " +:+ e) | Ok _ => Ok tt end,
               mkRedisQueue client (rq_key q))
  end.

Definition redis_dequeue (ctx : Ctx) (q : RedisQueue R) : call (result Job * RedisQueue R) :=
  match BLPop ctx (rq_key q) (rq_client q) with
  | Blocked => Blocked
  | Returns (res, client) =>
      Returns (match res with
               | Err e => Err e
               | Ok (_ :: text :: _) =>
                   match unmarshal_job text with
                   | Some job => Ok job
                   | None => Err ("unmarshal job: " +:+ unmarshal_error text)
                   end
               | Ok _ => Err "redis dequeue: empty result"
               end, mkRedisQueue client (rq_key q))
  end.

Definition RedisQueue_Queue : JobQueue (RedisQueue R) := {|
  Enqueue := redis_enqueue; Dequeue := redis_dequeue
|}.
End Operations.

(** ** The round trip of a job *)

(** JSON carries texts as UTF-8: bytes that are none become the replacement character. *)
Definition coerce_job (job : Job) : Job :=
  let '(mkJob id type repo mr sha base files) := job in
  mkJob (utf8_coerce id) (utf8_coerce type) (utf8_coerce repo) mr (utf8_coerce sha) (utf8_coerce base)
    (utf8_coerce <$> files).

(** Jobs of valid UTF-8 are carried as they are. *)
Definition job_utf8 (job : Job) : bool :=
  let '(mkJob id type repo mr sha base files) := job in
  valid_utf8 id && valid_utf8 type && valid_utf8 repo && valid_utf8 sha && valid_utf8 base && forallb valid_utf8 files.

Lemma coerce_job_utf8 job : job_utf8 job = true -> coerce_job job = job.
Proof.
  destruct job as [id type repo mr sha base files]. unfold job_utf8, valid_utf8. rewrite !andb_true_iff, !str_eqb_eq.
  intros (((((H1 & H2) & H3) & H4) & H5) & H6). cbn. rewrite H1, H2, H3, H4, H5. f_equal.
  rewrite forallb_forall in H6. clear -H6. induction files as [|f files IH]; [done|]. cbn.
  rewrite IH by (intros x Hx; apply H6; by right). f_equal. apply str_eqb_eq, H6. by left.
Qed.

Lemma dec_files_copy b files :
  dec_strings (json_of (files_value b files)) [] = Some (utf8_coerce <$> files).
Proof.
  destruct files as [|f files]; [by destruct b|]. cbn [files_value]. generalize (f :: files). clear. intros l.
  cbn. induction l as [|s l IH]; [done|]. cbn in *. by rewrite IH.
Qed.

Lemma files_value_wf b files : num_wf (files_value b files) = true /\ vdepth (files_value b files) <= 1.
Proof.
  unfold files_value. destruct files as [|f files]; [by destruct b|].
  generalize (f :: files). clear. intros l. split.
  - apply vforall_list. split; [done|]. by intros x (s & -> & _)%list_elem_of_fmap.
  - cbn. induction l as [|s l IH]; cbn in *; lia.
Qed.

Lemma dec_string_any s old : dec_string (json_of (VString s)) old = Some (utf8_coerce s).
Proof. done. Qed.

(** A number of 64 bits is read back, any other is refused. *)
Lemma dec_int_any z old : dec_int (json_of (VInt z)) old = if bool_decide (in_int64 z) then Some z else None.
Proof.
  case_bool_decide as Hz; [by apply dec_int_copy|]. cbn. unfold lit_text.
  destruct (scan_number_pretty z) as [l Hl]. rewrite Hl. by apply (lit_int_pretty_big z).
Qed.

Lemma dec_job_copy b job :
  dec_job (JObj ((fun kv => (utf8_coerce kv.1, json_of kv.2)) <$> job_members b job)) zero_job =
  if bool_decide (in_int64 (JobMergeReqID job)) then Some (coerce_job job) else None.
Proof.
  destruct job as [id type repo mr sha base files]. unfold job_members.
  cbn [fmap list_fmap fst snd JobDeliveryID JobEventType JobRepository JobMergeReqID JobHeadSHA JobBaseRef
    JobChangedFiles].
  pose proof (dec_files_copy b files) as Hfiles. unfold dec_job, dec_struct. cbn [foldl]. unfold zero_job.
  repeat match goal with |- context [key_is ?k ?n] =>
    let b := eval vm_compute in (key_is k n) in change (key_is k n) with b end.
  cbn [mbind option_bind]. rewrite (dec_string_any id).
  cbn [mbind option_bind]. rewrite (dec_string_any type).
  cbn [mbind option_bind]. rewrite (dec_string_any repo).
  cbn [mbind option_bind]. rewrite (dec_int_any mr). case_bool_decide; [|done].
  cbn [mbind option_bind]. rewrite (dec_string_any sha).
  cbn [mbind option_bind]. rewrite (dec_string_any base).
  cbn [mbind option_bind]. by rewrite Hfiles.
Qed.

(** A job is always encoded, and decoded as it is carried. *)
Lemma job_roundtrip b job :
  exists text, marshal_job b job = Some text /\
    unmarshal_job text = if bool_decide (in_int64 (JobMergeReqID job)) then Some (coerce_job job) else None.
Proof.
  assert (is_Some (marshal_job b job)) as [text Ht].
  { unfold marshal_job, marshal_object, job_members, files_value. destruct (JobChangedFiles job) as [|f files];
      [destruct b; by eexists|].
    assert (is_Some (marshal (VList (VString <$> f :: files)))) as [t Ht].
    { cbn [marshal]. generalize (f :: files). clear. intros l.
      assert (mapM marshal (VString <$> l) = Some (json_string <$> l)) as ->; [|by eexists].
      induction l as [|s l IH]; [done|]. cbn in *. by rewrite IH. }
    cbn [mapM mbind option_bind fst snd]. rewrite Ht. by eexists. }
  exists text. split; [done|]. unfold unmarshal_job, parse_json.
  rewrite (parse_object maxNestingDepth _ _ Ht); [|done|].
  - apply dec_job_copy.
  - intros kv Hkv. destruct (files_value_wf b (JobChangedFiles job)) as [Hf1 Hf2]. unfold job_members in Hkv.
    unfold maxNestingDepth.
    repeat (apply elem_of_cons in Hkv as [->|Hkv]; [cbn [snd]; first [by split|split; [done|lia]]|]).
    by apply elem_of_nil in Hkv.
Qed.

(** ** What the queue promises *)

(** A push adds nothing but its value, and an answer to it means that the value was
    added. A pop answers with a value of the list and adds nothing. *)
Class RedisListsSpec (R : Type) `{RedisLists R} := {
  rl_items : R -> string -> list string;
  rpush_adds ctx k v r res r' x :
    RPush ctx k v r = (res, r') -> x ∈ rl_items r' k -> x ∈ rl_items r k \/ x = v;
  rpush_answered ctx k v r r' : RPush ctx k v r = (Ok tt, r') -> v ∈ rl_items r' k;
  blpop_answer ctx k r reply r' :
    BLPop ctx k r = Returns (Ok reply, r') -> exists v, reply = [k; v] /\ v ∈ rl_items r k;
  blpop_removes ctx k r res r' x :
    BLPop ctx k r = Returns (res, r') -> x ∈ rl_items r' k -> x ∈ rl_items r k
}.

Section RedisQueueFacts.
#[local] Set Default Proof Using "Type*".
Context {R : Type} {iR : RedisLists R} {sR : RedisListsSpec R}.
Context (marshal_error : Job -> string) (unmarshal_error : string -> string) (nil_slice : Ctx -> Job -> bool).

Abbreviation enqueue := (redis_enqueue marshal_error nil_slice).
Abbreviation dequeue := (redis_dequeue unmarshal_error).

Definition rq_items (q : RedisQueue R) : list string := rl_items (rq_client q) (rq_key q).

(** One of the texts in the list is the encoding of the job. *)
Definition rq_offers (q : RedisQueue R) (job : Job) : Prop :=
  exists text, text ∈ rq_items q /\ unmarshal_job text = Some job.

Lemma redis_enqueue_adds ctx job q r q' x :
  enqueue ctx job q = Returns (r, q') -> x ∈ rq_items q' ->
  x ∈ rq_items q \/ marshal_job (nil_slice ctx job) job = Some x.
Proof.
  unfold redis_enqueue. destruct (job_roundtrip (nil_slice ctx job) job) as (text & -> & _).
  destruct (RPush ctx (rq_key q) text (rq_client q)) as [res client] eqn:E. intros [= _ <-] Hx.
  destruct (rpush_adds _ _ _ _ _ _ _ E Hx) as [?| ->]; [by left|by right].
Qed.

Lemma redis_dequeue_removes ctx q r q' x :
  dequeue ctx q = Returns (r, q') -> x ∈ rq_items q' -> x ∈ rq_items q.
Proof.
  unfold redis_dequeue. destruct (BLPop ctx (rq_key q) (rq_client q)) as [[res client]|] eqn:E; [|done].
  intros [= _ <-] Hx. exact (blpop_removes _ _ _ _ _ _ E Hx).
Qed.

Lemma redis_dequeue_offered ctx q job q' : dequeue ctx q = Returns (Ok job, q') -> rq_offers q job.
Proof.
  unfold redis_dequeue. destruct (BLPop ctx (rq_key q) (rq_client q)) as [[[reply|e] client]|] eqn:E; [|done..].
  apply blpop_answer in E as (v & -> & Hv). destruct (unmarshal_job v) as [j|] eqn:Ej; [|done].
  intros [= <- _]. by exists v.
Qed.

(** The interface it implements. *)
Program Definition RedisQueue_Origin :
    QueueOrigin (RedisQueue R) (H := RedisQueue_Queue marshal_error unmarshal_error nil_slice) :=
  {| offers := rq_offers; carried := coerce_job |}.
Next Obligation.
  intros ctx job q r q' j E (x & Hx & Hj). destruct (redis_enqueue_adds _ _ _ _ _ _ E Hx) as [?|Hm]; [left; by exists x|].
  right. destruct (job_roundtrip (nil_slice ctx job) job) as (text & Ht & Hu). assert (x = text) as -> by congruence.
  rewrite Hu in Hj. case_bool_decide; congruence.
Qed.
Next Obligation. intros ctx q r q' j E (x & Hx & Hj). exists x. split; [|done]. exact (redis_dequeue_removes _ _ _ _ _ E Hx). Qed.
Next Obligation. intros ctx q job q' E. exact (redis_dequeue_offered _ _ _ _ E). Qed.

(** ** Histories *)

(** Producers and consumers call in any order, with any outcome: the jobs passed to
    [Enqueue] and the jobs [Dequeue] returned. *)
Inductive redis_history (q : RedisQueue R) : list Job -> list Job -> RedisQueue R -> Prop :=
| rh_nil : redis_history q [] [] q
| rh_enqueue sent received q1 q2 ctx job r :
    redis_history q sent received q1 -> enqueue ctx job q1 = Returns (r, q2) ->
    redis_history q (sent ++ [job]) received q2
| rh_dequeue sent received q1 q2 ctx r :
    redis_history q sent received q1 -> dequeue ctx q1 = Returns (r, q2) ->
    redis_history q sent (match r with Ok job => received ++ [job] | Err _ => received end) q2.

(** The texts in the list, and what was returned, come from jobs that were passed in. *)
Lemma history_sources q sent received q' :
  rq_items q = [] -> redis_history q sent received q' ->
  (forall x, x ∈ rq_items q' -> exists b job, job ∈ sent /\ marshal_job b job = Some x) /\
  (forall j, j ∈ received -> exists job, job ∈ sent /\ in_int64 (JobMergeReqID job) /\ j = coerce_job job).
Proof.
  intros Hq. induction 1 as [|sent received q1 q2 ctx job r _ [IHt IHr] E|sent received q1 q2 ctx r _ [IHt IHr] E].
  - rewrite Hq. by split; intros ? ?%elem_of_nil.
  - split.
    + intros x Hx. destruct (redis_enqueue_adds _ _ _ _ _ _ E Hx) as [(b & j & Hj & Hm)%IHt|Hm].
      * exists b, j. split; [|done]. apply elem_of_app. by left.
      * exists (nil_slice ctx job), job. split; [|done]. apply elem_of_app. right. left.
    + intros j (job' & Hj & H)%IHr. exists job'. split; [|done]. apply elem_of_app. by left.
  - split; [intros x Hx; by eapply IHt, redis_dequeue_removes|]. destruct r as [j|e]; [|done].
    intros j' [Hj|Hj]%elem_of_app; [by apply IHr|]. apply list_elem_of_singleton in Hj as ->.
    destruct (redis_dequeue_offered _ _ _ _ E) as (x & Hx & Hu). destruct (IHt x Hx) as (b & job & Hin & Hm).
    exists job. split; [done|]. destruct (job_roundtrip b job) as (text & Ht & Hut).
    assert (x = text) as -> by congruence. rewrite Hut in Hu. case_bool_decide; [|done]. by simplify_eq.
Qed.

(** C20: whatever answers are lost and however often commands are repeated, the queue
    invents and garbles nothing. Every job [Dequeue] returns was passed to [Enqueue] before
    and is equal to it field by field, up to bytes that are not UTF-8; a job whose
    [Enqueue] succeeded is in the list; and a text that was put in the list decodes. *)
Theorem redis_queue_origin q sent received q' :
  rq_items q = [] -> redis_history q sent received q' ->
  Forall (fun job => in_int64 (JobMergeReqID job)) sent ->
  (forall j, j ∈ received -> exists job, job ∈ sent /\ j = coerce_job job) /\
  (forall ctx job q2, in_int64 (JobMergeReqID job) -> enqueue ctx job q' = Returns (Ok tt, q2) ->
     exists text, text ∈ rq_items q2 /\ unmarshal_job text = Some (coerce_job job)) /\
  (forall text, text ∈ rq_items q' -> is_Some (unmarshal_job text)).
Proof.
  intros Hq Hh Hsent. rewrite Forall_forall in Hsent. destruct (history_sources _ _ _ _ Hq Hh) as [Ht Hr]. split_and!.
  - intros j (job & Hin & _ & ->)%Hr. eauto.
  - intros ctx job q2 Hz. unfold redis_enqueue. destruct (job_roundtrip (nil_slice ctx job) job) as (text & -> & Hu).
    destruct (RPush ctx (rq_key q') text (rq_client q')) as [[[]|e] client] eqn:E; intros [= <-].
    exists text. split; [by apply rpush_answered in E|]. by rewrite Hu, bool_decide_eq_true_2.
  - intros text (b & job & Hin & Hm)%Ht. destruct (job_roundtrip b job) as (t & Ht' & Hu).
    assert (text = t) as -> by congruence. rewrite Hu, bool_decide_eq_true_2 by by apply Hsent. by eexists.
Qed.

(** A history in which every command was applied as often as the client was told: once
    when it answered, not at all when it failed. *)
Inductive exact_history (q : RedisQueue R) : list Job -> list Job -> RedisQueue R -> Prop :=
| eh_nil : exact_history q [] [] q
| eh_sent sent received q1 q2 ctx job :
    exact_history q sent received q1 -> enqueue ctx job q1 = Returns (Ok tt, q2) ->
    (forall text, marshal_job (nil_slice ctx job) job = Some text -> rq_items q2 = rq_items q1 ++ [text]) ->
    exact_history q (sent ++ [job]) received q2
| eh_refused sent received q1 q2 ctx job e :
    exact_history q sent received q1 -> enqueue ctx job q1 = Returns (Err e, q2) -> rq_items q2 = rq_items q1 ->
    exact_history q sent received q2
| eh_received sent received q1 q2 ctx r text :
    exact_history q sent received q1 -> dequeue ctx q1 = Returns (r, q2) ->
    BLPop ctx (rq_key q1) (rq_client q1) = Returns (Ok [rq_key q1; text], rq_client q2) ->
    rq_items q1 = text :: rq_items q2 ->
    exact_history q sent (match r with Ok job => received ++ [job] | Err _ => received end) q2
| eh_gave_up sent received q1 q2 ctx e :
    exact_history q sent received q1 -> dequeue ctx q1 = Returns (Err e, q2) -> rq_items q2 = rq_items q1 ->
    exact_history q sent received q2.

(** The list holds the encodings of these jobs. *)
Definition represents (waiting : list Job) (q : RedisQueue R) : Prop :=
  Forall2 (fun job text => unmarshal_job text = Some job) waiting (rq_items q).

Lemma exact_history_represents q sent received q' :
  represents [] q -> Forall (fun job => in_int64 (JobMergeReqID job)) sent -> exact_history q sent received q' ->
  exists rest, coerce_job <$> sent = received ++ rest /\ represents rest q'.
Proof.
  intros Hq Hsent Hh. revert Hsent.
  induction Hh as [|s r q1 q2 ctx job _ IH E Hi|s r q1 q2 ctx job e _ IH E Hi|s r q1 q2 ctx res text _ IH E Hb Hi
                  |s r q1 q2 ctx e _ IH E Hi]; intros Hsent; [by exists []|..].
  - apply Forall_app in Hsent as [Hs Hj]. rewrite Forall_singleton in Hj. destruct (IH Hs) as (rest & Hrest & Hr).
    exists (rest ++ [coerce_job job]). rewrite fmap_app, Hrest, (assoc_L (++)). split; [done|].
    destruct (job_roundtrip (nil_slice ctx job) job) as (text & Ht & Hu). unfold represents. rewrite (Hi _ Ht).
    rewrite bool_decide_eq_true_2 in Hu by done. apply Forall2_app; [exact Hr|]. by apply Forall2_cons_2.
  - destruct (IH Hsent) as (rest & Hrest & Hr). exists rest. split; [done|]. unfold represents. by rewrite Hi.
  - destruct (IH Hsent) as (rest & Hrest & Hr). unfold represents in Hr. rewrite Hi in Hr.
    inversion Hr as [|job t rest' items Hu Hrest']; subst. exists rest'. split; [|done].
    unfold redis_dequeue in E. rewrite Hb, Hu in E. injection E as <- _. by rewrite Hrest, <- (assoc_L (++)).
  - destruct (IH Hsent) as (rest & Hrest & Hr). exists rest. split; [done|]. unfold represents. by rewrite Hi.
Qed.

(** C17: when every command is applied as often as the client is told, the queue loses and
    reorders nothing either. The jobs handed out are in order a prefix of the jobs
    accepted, equal to them field by field up to bytes that are not UTF-8, and the list
    holds the encodings of the rest. *)
Theorem redis_queue_fifo q sent received q' :
  rq_items q = [] -> Forall (fun job => in_int64 (JobMergeReqID job)) sent -> exact_history q sent received q' ->
  exists rest, coerce_job <$> sent = received ++ rest /\
    omap unmarshal_job (rq_items q') = rest /\ length (rq_items q') = length rest.
Proof.
  intros Hq Hsent Hh. assert (represents [] q) as H0 by (unfold represents; by rewrite Hq).
  destruct (exact_history_represents q sent received q' H0 Hsent Hh) as (rest & Hrest & Hr). exists rest.
  split; [done|]. split; [|symmetry; exact (Forall2_length _ _ _ Hr)].
  clear -Hr. unfold represents in Hr. induction Hr as [|job text rest items Hj _ IH]; [done|].
  cbn [omap list_omap]. by rewrite Hj, IH.
Qed.
End RedisQueueFacts.

(** ** Instances *)

(** A server that is told how the next pushes go: the command is applied so many times,
    and the client gets an answer or an error. When it has been told nothing a push is
    applied once and answered. *)
Record ListServer := mkServer { sv_lists : gmap string (list string); sv_faults : list (nat * option string) }.

Definition server_items (r : ListServer) (k : string) : list string := default [] (sv_lists r !! k).
Definition server_push (ctx : Ctx) (k v : string) (r : ListServer) : result unit * ListServer :=
  let '(n, err) := default (1%nat, None) (head (sv_faults r)) in
  let n := match err with None => Nat.max 1 n | Some _ => n end in
  (match err with None => Ok tt | Some e => Err e end,
   mkServer (<[k := server_items r k ++ replicate n v]> (sv_lists r)) (tail (sv_faults r))).
Definition server_pop (ctx : Ctx) (k : string) (r : ListServer) : call (result (list string) * ListServer) :=
  match server_items r k with
  | v :: rest => Returns (Ok [k; v], mkServer (<[k := rest]> (sv_lists r)) (sv_faults r))
  | [] => match ctx_err ctx with Some e => Returns (Err e, r) | None => Blocked end
  end.
#[export] Instance ListServer_Lists : RedisLists ListServer := {| RPush := server_push; BLPop := server_pop |}.

Lemma server_insert r k l f : server_items (mkServer (<[k := l]> (sv_lists r)) f) k = l.
Proof. unfold server_items. cbn. by rewrite lookup_insert_eq. Qed.

#[export] Program Instance ListServer_Spec : RedisListsSpec ListServer := {| rl_items := server_items |}.
Next Obligation.
  intros ctx k v r res r' x. cbn. unfold server_push. destruct (default _ _) as [n err]. intros [= _ <-].
  rewrite server_insert, elem_of_app. intros [?|[-> _]%elem_of_replicate]; auto.
Qed.
Next Obligation.
  intros ctx k v r r'. cbn. unfold server_push. destruct (default _ _) as [n [e|]]; intros [= <-].
  rewrite server_insert, elem_of_app. right. apply elem_of_replicate. split; [done|lia].
Qed.
Next Obligation.
  intros ctx k r reply r'. cbn. unfold server_pop. destruct (server_items r k) as [|v rest]; [by destruct (ctx_err ctx)|].
  intros [= <- _]. exists v. split; [done|left].
Qed.
Next Obligation.
  intros ctx k r res r' x. cbn. unfold server_pop. destruct (server_items r k) as [|v rest] eqn:E.
  - destruct (ctx_err ctx); [|done]. intros [= _ <-]. by rewrite E.
  - intros [= _ <-]. rewrite server_insert. by right.
Qed.

Definition no_text {A} (x : A) : string := "".
Definition never_nil (ctx : Ctx) (job : Job) : bool := false.

Definition redis_sample : RedisQueue ListServer := NewRedisQueue (mkServer ∅ []) "".
Definition redis_after (c : call (result unit * RedisQueue ListServer)) : RedisQueue ListServer :=
  match c with Returns (_, q) => q | Blocked => redis_sample end.
Definition redis_sent : RedisQueue ListServer :=
  redis_after (redis_enqueue no_text never_nil (at_time 0) sample_job redis_sample).

Lemma redis_queue_fifo_witness :
  exists rest, [sample_job] = [] ++ rest /\ omap unmarshal_job (rq_items redis_sent) = rest.
Proof.
  destruct (redis_queue_fifo no_text no_text never_nil redis_sample ([] ++ [sample_job]) [] redis_sent)
    as (rest & H1 & H2 & _).
  - reflexivity.
  - repeat constructor; vm_compute; discriminate.
  - eapply (eh_sent no_text no_text never_nil _ _ _ redis_sample _ (at_time 0) sample_job).
    + constructor.
    + vm_compute. reflexivity.
    + intros text Ht. vm_compute in Ht. injection Ht as <-. vm_compute. reflexivity.
  - exists rest. split; [|exact H2]. rewrite <- H1. vm_compute. reflexivity.
Defined.

(** A server on which the answer to the first push is lost. *)
Definition redis_flaky : RedisQueue ListServer := NewRedisQueue (mkServer ∅ [(1%nat, Some "i/o timeout")]) "".
Definition redis_unanswered : RedisQueue ListServer :=
  redis_after (redis_enqueue no_text never_nil (at_time 0) sample_job redis_flaky).

Lemma redis_queue_origin_witness :
  Forall (fun text => is_Some (unmarshal_job text)) (rq_items redis_unanswered).
Proof.
  apply Forall_forall.
  apply (redis_queue_origin no_text no_text never_nil redis_flaky ([] ++ [sample_job]) [] redis_unanswered).
  - reflexivity.
  - eapply (rh_enqueue no_text no_text never_nil _ _ _ redis_flaky _ (at_time 0) sample_job).
    + constructor.
    + vm_compute. reflexivity.
  - repeat constructor; vm_compute; discriminate.
Defined.

(** The push of a job that failed for the client may have been applied. *)
Example redis_failed_push_applied :
  is_ok (match redis_enqueue no_text never_nil (at_time 0) sample_job redis_flaky with
         | Returns (r, _) => r | Blocked => Ok tt end) = false /\
  omap unmarshal_job (rq_items redis_unanswered) = [sample_job].
Proof. split; vm_compute; reflexivity. Qed.
