(* ===== verification/DedupeConfig.v ===== *)
(** * Choosing a deduplication store: internal/storage/dedupe_config.go *)

From stdpp Require Import options.
From S2P Require Import Prelude GoStrings GoTime Context Storage Queue.

(** The store a configuration names; a Redis store by the options of its client. *)
Inductive dedupe_choice :=
| DedupeMemory (s : MemoryDedupeStore)
| DedupeRedis (addr password : string) (db : Z) (prefix : string).

Record DedupeConfig := mkDedupeConfig {
  DedupeStoreOf : option dedupe_choice;
  TTL : Z;
  Enabled : bool;
  StoreLabel : string
}.

(** The mode after [auto] was resolved. *)
Definition dedupe_mode (env : environment) : string :=
  let mode := to_lower (getEnv env "THULE_DEDUPE" "auto") in
  let queueMode := to_lower (getEnv env "THULE_QUEUE" "memory") in
  if str_eqb mode "auto" then (if str_eqb queueMode "redis" then "redis" else "memory") else mode.

Definition DedupeFromEnv (env : environment) : result DedupeConfig :=
  let mode := dedupe_mode env in
  if str_eqb mode "disabled" || str_eqb mode "off" || str_eqb mode "false" then
    Ok (mkDedupeConfig None 0 false "")
  else
    match ParseDuration (getEnv env "THULE_DEDUPE_TTL" "5m") with
    | Err e => Err ("invalid THULE_DEDUPE_TTL: " +:+ e)
    | Ok ttl =>
        if str_eqb mode "redis" then
          let addr := getEnv env "THULE_REDIS_ADDR" "127.0.0.1:6379" in
          let password := env "THULE_REDIS_PASSWORD" in
          let? db := getEnvInt env "THULE_REDIS_DB" 0 in
          let prefix := getEnv env "THULE_REDIS_DEDUPE_PREFIX" "thule:dedupe:" in
          Ok (mkDedupeConfig (Some (DedupeRedis addr password db prefix)) ttl true "redis")
        else if str_eqb mode "memory" then
          Ok (mkDedupeConfig (Some (DedupeMemory NewMemoryDedupeStore)) ttl true "memory")
        else Err ("invalid THULE_DEDUPE: " +:+ mode)
    end.

(** The store is kept in Redis. *)
Definition in_redis (c : DedupeConfig) : bool :=
  match DedupeStoreOf c with Some (DedupeRedis _ _ _ _) => true | _ => false end.

Definition queue_in_redis (o : start_outcome queue_choice) : bool :=
  match o with Started (Ok (UseRedis _ _ _ _)) => true | _ => false end.

(** C36: a configuration of duplicates is consistent: it is enabled exactly when it has a
    store, its time to live fits 64 bits, and unless a mode is chosen explicitly the
    store is in Redis exactly when the jobs are, on the same server. *)
Theorem DedupeFromEnv_consistent limit env c :
  DedupeFromEnv env = Ok c ->
  (Enabled c = true <-> is_Some (DedupeStoreOf c)) /\ int64_min <= TTL c <= int64_max /\
  (to_lower (getEnv env "THULE_DEDUPE" "auto") = "auto" ->
   Enabled c = true /\ in_redis c = queue_in_redis (FromEnv limit env) /\
   forall addr password db key addr' password' db' prefix,
     FromEnv limit env = Started (Ok (UseRedis addr password db key)) ->
     DedupeStoreOf c = Some (DedupeRedis addr' password' db' prefix) ->
     (addr', password', db') = (addr, password, db)).
Proof.
  unfold DedupeFromEnv. destruct (_ || _ || _) eqn:Eoff.
  { intros [= <-]. cbn. split; [split; [done|by intros [? [=]]]|].
    split; [unfold int64_min, int64_max; lia|]. intros Ha. unfold dedupe_mode in Eoff. rewrite Ha in Eoff.
    cbn in Eoff. by destruct (str_eqb (to_lower (getEnv env "THULE_QUEUE" "memory")) "redis"). }
  destruct (ParseDuration (getEnv env "THULE_DEDUPE_TTL" "5m")) as [ttl|e] eqn:Et; [|done].
  apply ParseDuration_range in Et.
  assert (to_lower (getEnv env "THULE_DEDUPE" "auto") = "auto" ->
    dedupe_mode env = if str_eqb (to_lower (getEnv env "THULE_QUEUE" "memory")) "redis" then "redis" else "memory")
    as Hauto by (intros Ha; unfold dedupe_mode; by rewrite Ha).
  destruct (str_eqb (dedupe_mode env) "redis") eqn:Er; [|destruct (str_eqb (dedupe_mode env) "memory") eqn:Em].
  - apply str_eqb_eq in Er. destruct (getEnvInt env "THULE_REDIS_DB" 0) as [db|e] eqn:Edb; [|done].
    cbn [rbind]. intros [= <-]. cbn. split; [split; [by eexists|done]|]. split; [done|]. intros Ha.
    apply Hauto in Ha. rewrite Er in Ha. unfold FromEnv.
    destruct (str_eqb (to_lower (getEnv env "THULE_QUEUE" "memory")) "redis"); [|done].
    rewrite Edb. split_and!; [done|done|]. intros. by simplify_eq.
  - apply str_eqb_eq in Em. intros [= <-]. cbn. split; [split; [by eexists|done]|]. split; [done|]. intros Ha.
    apply Hauto in Ha. rewrite Em in Ha. unfold FromEnv.
    destruct (str_eqb (to_lower (getEnv env "THULE_QUEUE" "memory")) "redis"); [done|].
    split; [done|]. split; [|by intros]. by repeat case_match.
  - done.
Qed.

(** The defaults: in memory, for five minutes. *)
Example DedupeFromEnv_default :
  DedupeFromEnv no_env = Ok (mkDedupeConfig (Some (DedupeMemory NewMemoryDedupeStore)) 300000000000 true "memory").
Proof. vm_compute. reflexivity. Qed.

(** A time to live that is not positive is accepted, and then nothing is a duplicate. *)
Example DedupeFromEnv_negative :
  exists c, DedupeFromEnv (fun k => if str_eqb k "THULE_DEDUPE_TTL" then "-5m" else "") = Ok c /\
    Enabled c = true /\ TTL c < 0.
Proof. eexists. split; [vm_compute; reflexivity|]. split; [done|]. vm_compute. done. Qed.

Definition redis_env : environment := fun k => if str_eqb k "THULE_QUEUE" then "Redis" else "".

Lemma DedupeFromEnv_consistent_witness :
  exists c, DedupeFromEnv redis_env = Ok c /\ in_redis c = queue_in_redis (FromEnv 1000 redis_env).
Proof.
  destruct (DedupeFromEnv redis_env) as [c|] eqn:E; [|vm_compute in E; discriminate E].
  exists c. split; [reflexivity|].
  destruct (DedupeFromEnv_consistent 1000 redis_env c E) as (_ & _ & H).
  apply (H ltac:(vm_compute; reflexivity)).
Defined.
