(* ===== verification/Service.v ===== *)
(** * Accepting events: internal/orchestrator/service.go

    [HandleMergeRequestEvent] is written against the interfaces of the stores; the
    theorems use only what the interfaces promise. *)

From stdpp Require Import options.
From S2P Require Import Prelude GoStrings GoPath Context Project Lock Storage Queue.

Record MergeRequestEvent := mkEvent {
  DeliveryID : string;
  EventType : string;
  Repository : string;
  MergeReqID : Z;
  HeadSHA : string;
  BaseRef : string;
  ChangedFiles : list string
}.

Definition isCloseEvent (eventType : string) : bool :=
  let e := to_lower eventType in contains_str e "closed" || contains_str e "merged".

Definition dedupeKey (event : MergeRequestEvent) : string :=
  Repository event +:+ ":" +:+ fmt_d (MergeReqID event) +:+ ":" +:+ HeadSHA event +:+ ":" +:+ EventType event.

Definition job_of (event : MergeRequestEvent) : Job :=
  mkJob (DeliveryID event) (EventType event) (Repository event) (MergeReqID event)
    (HeadSHA event) (BaseRef event) (ChangedFiles event).

Section Service.
Context {D L K Q : Type}.
Context {iD : DeliveryStore D} {iL : Locker L} {iK : DedupeStore K} {iQ : JobQueue Q} {iM : MapOrder}.

(** A nil locker or dedupe store is [None]. *)
Record Service := mkService {
  jobs : Q;
  store : D;
  locker : option L;
  dedupe : option K;
  dedupeTTL : Z
}.

Definition New (jobs : Q) (store : D) (locker : option L) (dedupe : option K) (dedupeTTL : Z) : Service :=
  mkService jobs store locker dedupe dedupeTTL.

Definition with_store (d : D) (s : Service) : Service := mkService (jobs s) d (locker s) (dedupe s) (dedupeTTL s).
Definition with_locker (l : option L) (s : Service) : Service := mkService (jobs s) (store s) l (dedupe s) (dedupeTTL s).
Definition with_dedupe (k : option K) (s : Service) : Service := mkService (jobs s) (store s) (locker s) k (dedupeTTL s).
Definition with_jobs (q : Q) (s : Service) : Service := mkService q (store s) (locker s) (dedupe s) (dedupeTTL s).

(** How a call of the handler ends: it returns, or it waits in [Enqueue]. *)
Inductive handled := Finished (r : result unit) (s : Service) | Waiting (s : Service).

Definition after (h : handled) : Service := match h with Finished _ s | Waiting s => s end.

(** The loop over the discovered projects; [Some (root, owner)] is the conflict it
    stopped at. *)
Fixpoint acquire_all (repo : string) (mr : Z) (projects : list DiscoveredProject) (l : L)
    : option (string * Z) * L :=
  match projects with
  | [] => (None, l)
  | p :: rest =>
      let '((ok, owner), l') := Acquire repo (Root p) mr l in
      if ok : bool then acquire_all repo mr rest l' else (Some (Root p, owner), l')
  end.

Definition dedupe_active (s : Service) : option K :=
  if 0 <? dedupeTTL s then dedupe s else None.

(** [_ = s.dedupe.Release(context.Background(), ...)] when deduplication is on *)
Definition release_dedupe (ctx : Ctx) (event : MergeRequestEvent) (s : Service) : Service :=
  match dedupe_active s with
  | Some k => with_dedupe (Some (KRelease (background ctx) (dedupeKey event) k).2) s
  | None => s
  end.

Definition release_store (event : MergeRequestEvent) (s : Service) : Service :=
  with_store (DRelease (DeliveryID event) (store s)) s.
Definition commit_store (event : MergeRequestEvent) (s : Service) : Service :=
  with_store (DCommit (DeliveryID event) (store s)) s.

(** From the [Enqueue] call on. *)
Definition enqueue_event (ctx : Ctx) (event : MergeRequestEvent) (s : Service) : handled :=
  match Enqueue ctx (job_of event) (jobs s) with
  | Blocked => Waiting s
  | Returns (Err e, q) =>
      Finished (Err e) (release_store event (release_dedupe ctx event (with_jobs q s)))
  | Returns (Ok _, q) => Finished (Ok tt) (commit_store event (with_jobs q s))
  end.

(** From the locks on. *)
Definition lock_and_enqueue (ctx : Ctx) (event : MergeRequestEvent) (s : Service) : handled :=
  match locker s with
  | None => enqueue_event ctx event s
  | Some l =>
      match acquire_all (Repository event) (MergeReqID event)
              (DiscoverFromChangedFiles (ChangedFiles event)) l with
      | (None, l') => enqueue_event ctx event (with_locker (Some l') s)
      | (Some (root, owner), l') =>
          let s := with_locker (Some l') s in
          Finished (Err ("project " +:+ fmt_q root +:+ " is locked by MR !" +:+ fmt_d owner))
            (release_store event (release_dedupe ctx event s))
      end
  end.

Definition event_complete (event : MergeRequestEvent) : bool :=
  negb (str_eqb (EventType event) "" || str_eqb (Repository event) "" ||
        str_eqb (HeadSHA event) "" || (MergeReqID event <=? 0)).

Definition HandleMergeRequestEvent (ctx : Ctx) (event : MergeRequestEvent) (s : Service) : handled :=
  if str_eqb (DeliveryID event) "" then Finished (Err "delivery_id is required") s
  else if negb (event_complete event) then Finished (Err "missing required event fields") s
  else
    let '(fresh, d) := DReserve (DeliveryID event) (store s) in
    let s := with_store d s in
    if negb fresh then Finished (Ok tt) s
    else if isCloseEvent (EventType event) then
      let s := match locker s with
               | Some l => with_locker (Some (ReleaseByMR (Repository event) (MergeReqID event) l)) s
               | None => s
               end in
      Finished (Ok tt) (commit_store event s)
    else
      match dedupe_active s with
      | None => lock_and_enqueue ctx event s
      | Some k =>
          let '(r, k') := KReserve ctx (dedupeKey event) (dedupeTTL s) k in
          let s := with_dedupe (Some k') s in
          match r with
          | Err e => Finished (Err ("dedupe reserve: " +:+ e)) (release_store event s)
          | Ok false => Finished (Ok tt) (commit_store event s)
          | Ok true => lock_and_enqueue ctx event s
          end
      end.
End Service.

Arguments Service D L K Q : clear implicits.
Arguments handled D L K Q : clear implicits.
