(* ===== verification/ServiceFacts.v ===== *)
(** * internal/orchestrator/service.go: theorems

    Deliveries are handled at most once and can be retried after an error, locks are
    never taken from another merge request, a job is only queued by a merge request
    that holds the locks of all the projects it touches. *)

From stdpp Require Import options.
From S2P Require Import Prelude GoStrings GoPath Context Project Lock Storage Queue Service.

Section ServiceFacts.
#[local] Set Default Proof Using "Type*".
Context {D L K Q : Type}.
Context {iD : DeliveryStore D} {iL : Locker L} {iK : DedupeStore K} {iQ : JobQueue Q}.
Context {sD : DeliverySpec D} {sL : LockerSpec L} {sK : DedupeSpec K} {sQ : QueueSpec Q} {iM : MapOrder}.

Implicit Types (s : Service D L K Q) (event : MergeRequestEvent).

(** ** What a service shows *)

Definition delivered s (id : string) : option dstate := delivery (store s) id.
Definition pending_jobs s : list Job := queued (jobs s).
Definition locks_of s (repo : string) : gmap string Z :=
  match locker s with Some l => LockList repo l | None => ∅ end.

(** ** Locks *)

Lemma acquire_all_ok repo mr projects l l' :
  acquire_all repo mr projects l = (None, l') ->
  (forall p, p ∈ projects -> LockList repo l' !! Root p = Some mr) /\
  (forall key, (forall p, p ∈ projects -> Root p <> key) -> LockList repo l' !! key = LockList repo l !! key) /\
  (forall repo', repo' <> repo -> LockList repo' l' = LockList repo' l).
Proof.
  revert l. induction projects as [|p rest IH]; intros l; cbn [acquire_all].
  { intros [= <-]. split_and!; [by intros p Hp%elem_of_nil|done|done]. }
  destruct (Acquire repo (Root p) mr l) as [[[] owner] l1] eqn:E; [|done]. intros H'.
  apply acquire_ok in E as (-> & H1 & _ & H3). destruct (IH _ H') as (I1 & I2 & I3). split_and!.
  - intros q [->|Hq]%elem_of_cons; [|by apply I1].
    destruct (decide (Exists (fun r => Root r = Root p) rest)) as [Hex|Hno].
    + apply Exists_exists in Hex as (r & Hr & Hroot). rewrite <- Hroot. by apply I1.
    + rewrite I2; [by rewrite H1, lookup_insert_eq|]. intros r Hr Hroot. apply Hno, Exists_exists. eauto.
  - intros key Hkey. rewrite I2, H1; [|intros q Hq; apply Hkey, elem_of_cons; by right].
    rewrite lookup_insert_ne; [done|]. apply Hkey, elem_of_cons. by left.
  - intros repo' Hr. by rewrite I3, H3.
Qed.

Lemma acquire_all_keeps repo mr projects l repo' key owner :
  owner <> mr -> LockList repo' l !! key = Some owner ->
  LockList repo' (acquire_all repo mr projects l).2 !! key = Some owner.
Proof.
  intros Hne. revert l. induction projects as [|p rest IH]; intros l Hl; cbn [acquire_all]; [done|].
  pose proof (acquire_keeps_others repo (Root p) mr l repo' key owner Hne Hl) as Hk.
  destruct (Acquire repo (Root p) mr l) as [[[] o] l1]; cbn [snd] in Hk; [by apply IH|done].
Qed.

Lemma acquire_all_conflict repo mr projects l root owner l' :
  acquire_all repo mr projects l = (Some (root, owner), l') ->
  owner <> mr /\ (exists p, p ∈ projects /\ Root p = root) /\ LockList repo l' !! root = Some owner /\
  LockList repo l !! root = Some owner.
Proof.
  revert l. induction projects as [|p rest IH]; intros l; cbn [acquire_all]; [done|].
  destruct (Acquire repo (Root p) mr l) as [[[] o] l1] eqn:E.
  - intros H'. destruct (IH _ H') as (Hne & (q & Hq & Hr) & Hl' & Hl1). split_and!; [done| |done|].
    + exists q. split; [apply elem_of_cons; by right|done].
    + apply acquire_ok in E as (-> & H1 & _ & _). rewrite H1, lookup_insert in Hl1.
      destruct (decide (Root p = root)); [|done]. congruence.
  - intros [= <- <- <-]. apply acquire_fail in E as (Hne & Hl & Hsame). split_and!; [done| | |done].
    + exists p. split; [apply elem_of_cons; by left|done].
    + by rewrite Hsame.
Qed.

(** The loop succeeds exactly when no project is locked by another merge request. *)
Lemma acquire_all_free repo mr projects l :
  (acquire_all repo mr projects l).1 = None <->
  forall p, p ∈ projects -> LockList repo l !! Root p = None \/ LockList repo l !! Root p = Some mr.
Proof.
  split.
  - intros Hn p Hp. destruct (acquire_all repo mr projects l) as [[c|] l'] eqn:E; cbn in Hn; [done|].
    destruct (LockList repo l !! Root p) as [o|] eqn:Ho; [right|by left]. f_equal.
    destruct (decide (o = mr)) as [|Hne]; [done|].
    pose proof (acquire_all_keeps repo mr projects l repo (Root p) o Hne Ho) as Hk. rewrite E in Hk.
    apply acquire_all_ok in E as (I1 & _ & _). cbn [snd] in Hk. rewrite I1 in Hk by done. congruence.
  - intros Hfree. destruct (acquire_all repo mr projects l) as [[[root o]|] l'] eqn:E; [|done].
    apply acquire_all_conflict in E as (Hne & (p & Hp & <-) & _ & Ho).
    destruct (Hfree p Hp); congruence.
Qed.

(** ** The parts of the handler *)

Lemma release_dedupe_views ctx event s :
  store (release_dedupe ctx event s) = store s /\ locker (release_dedupe ctx event s) = locker s /\
  jobs (release_dedupe ctx event s) = jobs s.
Proof. unfold release_dedupe. by destruct (dedupe_active s). Qed.

(** The outcomes of the part from the locks on, for a delivery in state pending. *)
Inductive lock_outcome event s : handled D L K Q -> Prop :=
| lo_refused e s' :
    (forall id, delivered s' id = delivered (release_store event s) id) ->
    pending_jobs s' = pending_jobs s -> lock_outcome event s (Finished (Err e) s')
| lo_accepted s' :
    (forall id, delivered s' id = delivered (commit_store event s) id) ->
    pending_jobs s' = pending_jobs s ++ [job_of event] ->
    (forall p, p ∈ DiscoverFromChangedFiles (ChangedFiles event) -> is_Some (locker s) ->
       locks_of s' (Repository event) !! Root p = Some (MergeReqID event)) ->
    lock_outcome event s (Finished (Ok tt) s')
| lo_waiting s' :
    (forall id, delivered s' id = delivered s id) -> pending_jobs s' = pending_jobs s ->
    lock_outcome event s (Waiting s').

Lemma enqueue_outcome ctx event s :
  (forall p, p ∈ DiscoverFromChangedFiles (ChangedFiles event) -> is_Some (locker s) ->
     locks_of s (Repository event) !! Root p = Some (MergeReqID event)) ->
  lock_outcome event s (enqueue_event ctx event s).
Proof.
  intros Hl. unfold enqueue_event. destruct (Enqueue ctx (job_of event) (jobs s)) as [[[[]|e] q]|] eqn:E.
  - apply lo_accepted; [done| |done]. apply enqueue_ok in E. done.
  - apply lo_refused.
    + intros id. unfold delivered. cbn.
      by destruct (release_dedupe_views ctx event (with_jobs q s)) as (-> & _ & _).
    + unfold pending_jobs. cbn. destruct (release_dedupe_views ctx event (with_jobs q s)) as (_ & _ & ->).
      by apply enqueue_err in E.
  - by apply lo_waiting.
Qed.

Lemma lock_outcome_locker event s l' h :
  is_Some (locker s) -> lock_outcome event (with_locker (Some l') s) h -> lock_outcome event s h.
Proof.
  intros Hs [e s' H1 H2|s' H1 H2 H3|s' H1 H2]; [by apply lo_refused| |by apply lo_waiting].
  apply lo_accepted; [done|done|]. intros p Hp _. apply H3; [done|]. cbn. eauto.
Qed.

Lemma lock_and_enqueue_outcome ctx event s : lock_outcome event s (lock_and_enqueue ctx event s).
Proof.
  unfold lock_and_enqueue. destruct (locker s) as [l|] eqn:El.
  - destruct (acquire_all _ _ _ l) as [[[root owner]|] l'] eqn:E.
    + apply lo_refused.
      * intros id. unfold delivered. cbn.
        by destruct (release_dedupe_views ctx event (with_locker (Some l') s)) as (-> & _ & _).
      * unfold pending_jobs. cbn.
        by destruct (release_dedupe_views ctx event (with_locker (Some l') s)) as (_ & _ & ->).
    + apply (lock_outcome_locker _ _ l'); [by rewrite El|]. apply enqueue_outcome. intros p Hp _.
      unfold locks_of. cbn. apply acquire_all_ok in E as (I1 & _). by apply I1.
  - apply enqueue_outcome. intros p _. rewrite El. by intros [? ?].
Qed.

(** ** The whole handler *)

(** [moved s s' id st]: the delivery [id] is in state [st], the others as before. *)
Definition moved s s' (id : string) (st : option dstate) : Prop :=
  forall id', delivered s' id' = if decide (id' = id) then st else delivered s id'.

Lemma moved_same s s' id st :
  delivered s id = st -> (forall id', delivered s' id' = delivered s id') -> moved s s' id st.
Proof. intros Hs Hd id'. rewrite Hd. case_decide; by subst. Qed.

Inductive handle_outcome event s : handled D L K Q -> Prop :=
| ho_rejected e s' :
    moved s s' (DeliveryID event) (delivered s (DeliveryID event)) ->
    pending_jobs s' = pending_jobs s -> handle_outcome event s (Finished (Err e) s')
| ho_known s' :
    is_Some (delivered s (DeliveryID event)) ->
    moved s s' (DeliveryID event) (delivered s (DeliveryID event)) ->
    pending_jobs s' = pending_jobs s -> locker s' = locker s -> dedupe s' = dedupe s ->
    handle_outcome event s (Finished (Ok tt) s')
| ho_done s' :
    delivered s (DeliveryID event) = None ->
    moved s s' (DeliveryID event) (Some stateCommitted) ->
    pending_jobs s' = pending_jobs s -> handle_outcome event s (Finished (Ok tt) s')
| ho_queued s' :
    delivered s (DeliveryID event) = None -> isCloseEvent (EventType event) = false ->
    moved s s' (DeliveryID event) (Some stateCommitted) ->
    pending_jobs s' = pending_jobs s ++ [job_of event] ->
    (forall p, p ∈ DiscoverFromChangedFiles (ChangedFiles event) -> is_Some (locker s) ->
       locks_of s' (Repository event) !! Root p = Some (MergeReqID event)) ->
    handle_outcome event s (Finished (Ok tt) s')
| ho_waiting s' :
    delivered s (DeliveryID event) = None -> moved s s' (DeliveryID event) (Some statePending) ->
    pending_jobs s' = pending_jobs s -> handle_outcome event s (Waiting s').

(** Releasing or committing a delivery that was just reserved. *)
Lemma moved_release event s s1 :
  delivered s (DeliveryID event) = None -> moved s s1 (DeliveryID event) (Some statePending) ->
  moved s (release_store event s1) (DeliveryID event) None.
Proof.
  intros Hn Hm id'. change (delivery (DRelease (DeliveryID event) (store s1)) id' =
    if decide (id' = DeliveryID event) then None else delivered s id').
  rewrite release_delivery. fold (delivered s1 (DeliveryID event)) (delivered s1 id').
  assert (delivered s1 (DeliveryID event) = Some statePending) as -> by by rewrite Hm, decide_True.
  destruct (decide (id' = DeliveryID event)) as [->|Hne].
  - by rewrite decide_True.
  - rewrite decide_False by by intros [? _]. by rewrite Hm, decide_False.
Qed.

Lemma moved_commit event s s1 :
  moved s s1 (DeliveryID event) (Some statePending) ->
  moved s (commit_store event s1) (DeliveryID event) (Some stateCommitted).
Proof.
  intros Hm id'. change (delivery (DCommit (DeliveryID event) (store s1)) id' =
    if decide (id' = DeliveryID event) then Some stateCommitted else delivered s id').
  rewrite commit_delivery. fold (delivered s1 (DeliveryID event)) (delivered s1 id').
  assert (delivered s1 (DeliveryID event) = Some statePending) as -> by by rewrite Hm, decide_True.
  destruct (decide (id' = DeliveryID event)) as [->|Hne]; [done|]. by rewrite Hm, decide_False.
Qed.

Lemma moved_ext s s1 s2 id st :
  (forall id', delivered s2 id' = delivered s1 id') -> moved s s1 id st -> moved s s2 id st.
Proof. intros He Hm id'. by rewrite He. Qed.

Lemma lock_outcome_handle event s s1 h :
  delivered s (DeliveryID event) = None -> isCloseEvent (EventType event) = false ->
  moved s s1 (DeliveryID event) (Some statePending) -> pending_jobs s1 = pending_jobs s ->
  locker s1 = locker s -> lock_outcome event s1 h -> handle_outcome event s h.
Proof.
  intros Hn Hc Hm Hj Hl [e s' H1 H2|s' H1 H2 H3|s' H1 H2].
  - apply ho_rejected; [|congruence]. rewrite Hn. eapply moved_ext; [done|]. by apply moved_release.
  - apply ho_queued; [done|done| |congruence|rewrite <- Hl; done].
    eapply moved_ext; [done|]. by apply moved_commit.
  - apply ho_waiting; [done|by eapply moved_ext|congruence].
Qed.

Lemma handle_outcomes ctx event s :
  handle_outcome event s (HandleMergeRequestEvent ctx event s).
Proof.
  unfold HandleMergeRequestEvent.
  destruct (str_eqb (DeliveryID event) ""); [by apply ho_rejected; [apply moved_same|]|].
  destruct (negb (event_complete event)); [by apply ho_rejected; [apply moved_same|]|].
  destruct (delivered s (DeliveryID event)) as [st|] eqn:Hd.
  - destruct (reserve_seen (DeliveryID event) (store s)) as [H1 H2]; [by exists st|].
    destruct (DReserve (DeliveryID event) (store s)) as [fresh d]. cbn [fst snd] in H1, H2. subst fresh.
    cbn [negb]. apply ho_known; [rewrite Hd; eauto| |done..]. by apply moved_same.
  - destruct (reserve_new (DeliveryID event) (store s)) as [H1 H2]; [done|].
    destruct (DReserve (DeliveryID event) (store s)) as [fresh d]. cbn [fst snd] in H1, H2. subst fresh.
    cbn [negb]. set (s1 := with_store d s).
    assert (moved s s1 (DeliveryID event) (Some statePending)) as Hm by done.
    destruct (isCloseEvent (EventType event)) eqn:Hc.
    { apply ho_done; [done| |by destruct (locker s1)].
      apply moved_commit. by destruct (locker s1). }
    destruct (dedupe_active s1) as [k|].
    + destruct (KReserve ctx (dedupeKey event) (dedupeTTL s1) k) as [[[]|e] k'].
      * eapply lock_outcome_handle; [done|done| | | |apply lock_and_enqueue_outcome]; done.
      * apply ho_done; [done| |done]. by apply moved_commit.
      * apply ho_rejected; [|done]. rewrite Hd. by apply moved_release.
    + eapply lock_outcome_handle; [done|done| | | |apply lock_and_enqueue_outcome]; done.
Qed.

(** ** Locks across the handler *)

Lemma enqueue_locker ctx event s : locker (after (enqueue_event ctx event s)) = locker s.
Proof.
  unfold enqueue_event. destruct (Enqueue _ _ _) as [[[[]|e] q]|]; cbn; try done.
  by destruct (release_dedupe_views ctx event (with_jobs q s)) as (_ & -> & _).
Qed.

Lemma lock_and_enqueue_locker ctx event s :
  locker (after (lock_and_enqueue ctx event s)) =
  (fun l => (acquire_all (Repository event) (MergeReqID event)
               (DiscoverFromChangedFiles (ChangedFiles event)) l).2) <$> locker s.
Proof.
  unfold lock_and_enqueue. destruct (locker s) as [l|] eqn:El; cbn.
  - destruct (acquire_all _ _ _ l) as [[[root owner]|] l']; cbn [snd].
    + cbn. by destruct (release_dedupe_views ctx event (with_locker (Some l') s)) as (_ & -> & _).
    + by rewrite enqueue_locker.
  - by rewrite enqueue_locker, El.
Qed.

(** What the handler may do to the locks. *)
Lemma handle_locker ctx event s :
  let s' := after (HandleMergeRequestEvent ctx event s) in
  locker s' = locker s \/
  locker s' = ReleaseByMR (Repository event) (MergeReqID event) <$> locker s \/
  locker s' = (fun l => (acquire_all (Repository event) (MergeReqID event)
                (DiscoverFromChangedFiles (ChangedFiles event)) l).2) <$> locker s.
Proof.
  unfold HandleMergeRequestEvent. destruct (str_eqb (DeliveryID event) ""); [by left|].
  destruct (negb (event_complete event)); [by left|].
  destruct (DReserve (DeliveryID event) (store s)) as [fresh d]. destruct (negb fresh); [by left|].
  set (s1 := with_store d s). assert (locker s1 = locker s) as <- by done. clearbody s1.
  destruct (isCloseEvent (EventType event)).
  { right; left. cbn. by destruct (locker s1) eqn:E. }
  destruct (dedupe_active s1) as [k|]; [|right; right; apply lock_and_enqueue_locker].
  destruct (KReserve ctx (dedupeKey event) (dedupeTTL s1) k) as [[[]|e] k']; [|by left..].
  right; right. by rewrite lock_and_enqueue_locker.
Qed.

Lemma handle_keeps_locks ctx event s repo key owner :
  owner <> MergeReqID event -> locks_of s repo !! key = Some owner ->
  locks_of (after (HandleMergeRequestEvent ctx event s)) repo !! key = Some owner.
Proof.
  intros Hne Hl. pose proof (handle_locker ctx event s) as Hs. cbn zeta in Hs.
  unfold locks_of in *. destruct Hs as [-> |[-> | ->]]; [done| |]; (destruct (locker s) as [l|]; [|done]); cbn.
  - rewrite release_list. destruct (decide (repo = Repository event)) as [->|]; [|done].
    by apply map_lookup_filter_Some.
  - by apply acquire_all_keeps.
Qed.

(** ** Theorems *)

(** An error leaves the delivery for a retry. When the handler returns an error
    no job was queued and every delivery is in the state it was in, so that the same
    event can be sent again. *)
Theorem error_allows_retry ctx event s e s' :
  HandleMergeRequestEvent ctx event s = Finished (Err e) s' ->
  (forall id, delivered s' id = delivered s id) /\ pending_jobs s' = pending_jobs s.
Proof.
  intros Hh. pose proof (handle_outcomes ctx event s) as Ho. rewrite Hh in Ho.
  inversion Ho as [? ? Hm Hj| | | |]; subst. split; [|done]. intros id. rewrite Hm. by case_decide; subst.
Qed.

(** An event the handler accepts, or finds known, is complete and then known. *)
Lemma handle_ok_complete ctx event s s' :
  HandleMergeRequestEvent ctx event s = Finished (Ok tt) s' ->
  DeliveryID event <> "" /\ event_complete event = true.
Proof.
  unfold HandleMergeRequestEvent. destruct (str_eqb (DeliveryID event) "") eqn:E; [done|].
  intros Hh. split; [by apply str_eqb_neq|]. by destruct (event_complete event).
Qed.

Lemma handle_ok_known ctx event s s' :
  HandleMergeRequestEvent ctx event s = Finished (Ok tt) s' -> is_Some (delivered s' (DeliveryID event)).
Proof.
  intros Hh. pose proof (handle_outcomes ctx event s) as Ho. rewrite Hh in Ho.
  inversion Ho as [|? Hd Hm Hj|? Hd Hm Hj|? Hd Hc Hm Hj|]; subst;
    rewrite Hm, decide_True by done; done || by eexists.
Qed.

(** An event of a known delivery changes nothing but the delivery store's view of it. *)
Lemma handle_again ctx event s :
  DeliveryID event <> "" -> event_complete event = true -> is_Some (delivered s (DeliveryID event)) ->
  exists s2, HandleMergeRequestEvent ctx event s = Finished (Ok tt) s2 /\
    pending_jobs s2 = pending_jobs s /\ locker s2 = locker s /\ dedupe s2 = dedupe s.
Proof.
  intros Hid Hc Hsome. unfold HandleMergeRequestEvent.
  rewrite (proj2 (str_eqb_neq _ _)) by done. rewrite Hc. cbn [negb].
  destruct (reserve_seen (DeliveryID event) (store s)) as [H1 _]; [done|].
  destruct (DReserve (DeliveryID event) (store s)) as [fresh d] eqn:E. cbn [fst] in H1. subst fresh.
  cbn [negb]. eexists. split; [done|]. done.
Qed.

(** Success settles the delivery. When the handler returns without error the
    delivery is known, a job was queued only if the delivery was new and the event is
    not a close event, and handling the event again changes neither the queue, the
    locks nor the duplicates. *)
Theorem success_settles ctx event s s' :
  HandleMergeRequestEvent ctx event s = Finished (Ok tt) s' ->
  is_Some (delivered s' (DeliveryID event)) /\
  (pending_jobs s' = pending_jobs s \/
   pending_jobs s' = pending_jobs s ++ [job_of event] /\
   delivered s (DeliveryID event) = None /\ isCloseEvent (EventType event) = false) /\
  forall ctx2, exists s2, HandleMergeRequestEvent ctx2 event s' = Finished (Ok tt) s2 /\
    pending_jobs s2 = pending_jobs s' /\ locker s2 = locker s' /\ dedupe s2 = dedupe s'.
Proof.
  intros Hh. pose proof (handle_outcomes ctx event s) as Ho. rewrite Hh in Ho.
  pose proof (handle_ok_known ctx event s s' Hh) as Hsome.
  split; [done|]. split.
  - inversion Ho as [|? Hd Hm Hj|? Hd Hm Hj|? Hd Hc Hm Hj|]; subst; [by left|by left|by right].
  - intros ctx2. destruct (handle_ok_complete ctx event s s' Hh) as [Hid Hc].
    exact (handle_again ctx2 event s' Hid Hc Hsome).
Qed.

(** Locks protect a merge request. Whatever an event of one merge request does,
    the projects another merge request holds stay held by it; and when an event was
    queued by a service with a locker, its merge request holds every project above
    its changed files. *)
Theorem locks_protect ctx event s :
  let h := HandleMergeRequestEvent ctx event s in
  (forall repo key owner, owner <> MergeReqID event -> locks_of s repo !! key = Some owner ->
     locks_of (after h) repo !! key = Some owner) /\
  (forall s', h = Finished (Ok tt) s' -> pending_jobs s' <> pending_jobs s -> is_Some (locker s) ->
     forall p, p ∈ DiscoverFromChangedFiles (ChangedFiles event) ->
     locks_of s' (Repository event) !! Root p = Some (MergeReqID event)).
Proof.
  intros h. split; [intros; by apply handle_keeps_locks|]. intros s' Hh Hj Hl p Hp.
  pose proof (handle_outcomes ctx event s) as Ho. fold h in Ho. rewrite Hh in Ho.
  inversion Ho as [| | |? Hd Hc Hm Hj' Hlocks|]; subst; [done|done|]. by apply Hlocks.
Qed.

(** C27: a new close or merge event releases exactly the locks of its merge request in
    its repository, queues nothing and settles the delivery. *)
Theorem close_releases ctx event s :
  DeliveryID event <> "" -> event_complete event = true -> isCloseEvent (EventType event) = true ->
  delivered s (DeliveryID event) = None ->
  exists s', HandleMergeRequestEvent ctx event s = Finished (Ok tt) s' /\
    pending_jobs s' = pending_jobs s /\ delivered s' (DeliveryID event) = Some stateCommitted /\
    forall repo key owner, locks_of s' repo !! key = Some owner <->
      locks_of s repo !! key = Some owner /\ (repo = Repository event -> owner <> MergeReqID event).
Proof.
  intros Hid Hcomp Hclose Hnew. pose proof (handle_outcomes ctx event s) as Ho. revert Ho.
  unfold HandleMergeRequestEvent. rewrite (proj2 (str_eqb_neq _ _)), Hcomp, Hclose by done. cbn [negb].
  destruct (reserve_new (DeliveryID event) (store s)) as [H1 _]; [done|].
  destruct (DReserve (DeliveryID event) (store s)) as [fresh d]. cbn [fst] in H1. subst fresh. cbn [negb].
  set (s1 := with_store d s). intros Ho. eexists. split; [done|].
  inversion Ho as [|? Hd|? Hd Hm Hj|? Hd Hc|]; subst; [rewrite Hnew in Hd; by destruct Hd| |congruence].
  split; [done|]. split; [by rewrite Hm, decide_True|]. intros repo key owner. unfold locks_of. cbn.
  destruct (locker s) as [l|] eqn:El; cbn;
    [|rewrite El, lookup_empty; split; [done|by intros [? _]]].
  rewrite release_list. destruct (decide (repo = Repository event)) as [->|Hne].
  - rewrite map_lookup_filter_Some. cbn. split; [intros [? ?]; auto|intros [? Ho']; auto].
  - split; [by intros ?; split|by intros [? _]].
Qed.

(** C28: the events that reach the locks are refused exactly when another merge request
    holds one of the projects above their changed files; then nothing is queued. *)
Theorem conflict_refuses ctx event s l :
  locker s = Some l ->
  (exists p owner, p ∈ DiscoverFromChangedFiles (ChangedFiles event) /\
     LockList (Repository event) l !! Root p = Some owner /\ owner <> MergeReqID event) <->
  exists root owner s', lock_and_enqueue ctx event s =
    Finished (Err ("project " +:+ fmt_q root +:+ " is locked by MR !" +:+ fmt_d owner)) s' /\
    pending_jobs s' = pending_jobs s /\
    (acquire_all (Repository event) (MergeReqID event)
      (DiscoverFromChangedFiles (ChangedFiles event)) l).1 = Some (root, owner).
Proof.
  intros El. pose proof (acquire_all_free (Repository event) (MergeReqID event)
    (DiscoverFromChangedFiles (ChangedFiles event)) l) as Hfree.
  pose proof (lock_and_enqueue_outcome ctx event s) as Hout. unfold lock_and_enqueue in *. rewrite El in *.
  destruct (acquire_all _ _ _ l) as [[[root owner]|] l'] eqn:E; cbn [fst] in Hfree; split.
  - intros _. exists root, owner. eexists. split; [done|]. split; [|done].
    inversion Hout; subst; done.
  - intros _. apply acquire_all_conflict in E as (Hne & (p & Hp & <-) & _ & Ho). eauto.
  - intros (p & owner & Hp & Ho & Hne). exfalso.
    destruct (proj1 Hfree eq_refl p Hp); congruence.
  - by intros (root & owner & s' & _ & _ & ?).
Qed.

(** An event whose key was accepted less than the time to live ago is settled
    without queueing a job or touching a lock. *)
Theorem duplicate_dropped ctx event s k s' r :
  dedupe_active s = Some k -> held k (dedupeKey event) (ctx_now ctx) = true ->
  isCloseEvent (EventType event) = false ->
  HandleMergeRequestEvent ctx event s = Finished r s' ->
  pending_jobs s' = pending_jobs s /\ locker s' = locker s.
Proof.
  intros Hk Hheld Hclose. unfold HandleMergeRequestEvent.
  destruct (str_eqb (DeliveryID event) ""); [by intros [= <- <-]|].
  destruct (negb (event_complete event)); [by intros [= <- <-]|].
  destruct (DReserve (DeliveryID event) (store s)) as [fresh d]. destruct (negb fresh); [by intros [= <- <-]|].
  rewrite Hclose. assert (dedupe_active (with_store d s) = Some k) as -> by done.
  assert (0 < dedupeTTL s) as Httl.
  { unfold dedupe_active in Hk. destruct (Z.ltb_spec 0 (dedupeTTL s)); done. }
  cbn [dedupeTTL with_store].
  destruct (KReserve ctx (dedupeKey event) (dedupeTTL s) k) as [[b|e] k'] eqn:E; [|by intros [= <- <-]].
  apply dedupe_answer in E; [|done]. rewrite Hheld in E. subst b. by intros [= <- <-].
Qed.

(** Every relative file is below the repository root, so as soon as one merge request
    holds it every other merge request of the repository is refused. *)
Lemma second_merge_request_refused ctx event s l owner f :
  locker s = Some l -> LockList (Repository event) l !! "." = Some owner -> owner <> MergeReqID event ->
  f ∈ ChangedFiles event -> trim_space f <> "" -> rooted f = false ->
  exists e s', lock_and_enqueue ctx event s = Finished (Err e) s'.
Proof.
  intros El Ho Hne Hf Ht Hr.
  assert (mkProject "." configFilename ∈ DiscoverFromChangedFiles (ChangedFiles event)) as Hroot.
  { apply discovered_spec. exists f, 0%nat. split_and!; [done..|lia|]. unfold ancestor. by rewrite Hr. }
  pose proof (acquire_all_free (Repository event) (MergeReqID event)
    (DiscoverFromChangedFiles (ChangedFiles event)) l) as Hfree.
  unfold lock_and_enqueue. rewrite El.
  destruct (acquire_all _ _ _ l) as [[[root o]|] l']; [eauto|]. exfalso.
  destruct (proj1 Hfree eq_refl _ Hroot) as [Hx|Hx]; cbn in Hx; congruence.
Qed.
End ServiceFacts.

(** ** Deduplication keys *)

Definition no_colon (t : string) : bool := all_bytes (fun a => negb (bool_decide (a = byte_of 58))) t.

Lemma pretty_N_go_no_colon n t : no_colon t -> no_colon (pretty_N_go n t).
Proof.
  revert t. induction (N.lt_wf_0 n) as [n _ IH]; intros t Ht.
  destruct (decide (0 < n)%N) as [Hn|Hn]; [|by assert (n = 0)%N as -> by lia; rewrite pretty_N_go_0].
  rewrite pretty_N_go_step by done. apply IH; [by apply N.div_lt|].
  unfold no_colon in *. cbn [all_bytes]. apply andb_prop_intro. split; [|done].
  pose proof (N.mod_lt n 10 ltac:(lia)) as Hm. generalize dependent (n `mod` 10)%N.
  intros m Hm.
  assert (m = 0 \/ m = 1 \/ m = 2 \/ m = 3 \/ m = 4 \/ m = 5 \/ m = 6 \/ m = 7 \/ m = 8 \/ m = 9)%N
    as Hc by lia.
  by destruct_or! Hc; subst m.
Qed.

Lemma fmt_d_no_colon z : no_colon (fmt_d z).
Proof.
  assert (forall n : N, no_colon (pretty n)) as HN.
  { intros n. unfold pretty, pretty_N. case_decide; [done|]. by apply pretty_N_go_no_colon. }
  destruct z as [|p|p]; [done|apply (HN (N.pos p))|]. apply (HN (N.pos p)).
Qed.

(** Events with the same deduplication key are about the same repository, merge
    request, commit and event type, for repositories and commits without a colon. *)
Theorem dedupeKey_identifies e1 e2 :
  no_colon (Repository e1) -> no_colon (Repository e2) -> no_colon (HeadSHA e1) -> no_colon (HeadSHA e2) ->
  dedupeKey e1 = dedupeKey e2 ->
  Repository e1 = Repository e2 /\ MergeReqID e1 = MergeReqID e2 /\
  HeadSHA e1 = HeadSHA e2 /\ EventType e1 = EventType e2.
Proof.
  intros R1 R2 S1 S2 Heq. unfold dedupeKey in Heq.
  apply (sep_app_inj (byte_of 58)) in Heq as [Hr Heq]; [|done..].
  apply (sep_app_inj (byte_of 58)) in Heq as [Hm Heq]; [|apply fmt_d_no_colon..].
  apply (sep_app_inj (byte_of 58)) in Heq as [Hs Heq]; [|done..].
  split_and!; [done| |done|done]. by apply (inj pretty) in Hm.
Qed.

(** ** Instances *)

Abbreviation mem_service := (Service MemoryDeliveryStore MemoryLocker MemoryDedupeStore MemoryQueue).
Abbreviation mem_handle := (HandleMergeRequestEvent (D := MemoryDeliveryStore) (L := MemoryLocker)
  (K := MemoryDedupeStore) (Q := MemoryQueue) (iM := natural_order)).

Definition idle : mem_service :=
  mkService (mkMemoryQueue 1 []) ∅ (Some ∅) (Some NewMemoryDedupeStore) 300.
Definition opened : MergeRequestEvent :=
  mkEvent "d1" "merge_request.updated" "group/app" 7 "abc" "main" ["apps/web/x.yaml"].
Definition closed : MergeRequestEvent :=
  mkEvent "d2" "merge_request.closed" "group/app" 7 "abc" "main" [].
Definition rival (l : MemoryLocker) : mem_service :=
  mkService (mkMemoryQueue 1 []) ∅ (Some l) None 0.

(** The refused event of merge request 7 still holds the project it acquired before
    the conflict. *)
Example conflict_keeps_partial_locks :
  match mem_handle (at_time 1) opened (rival {[ "group/app" := {[ "apps" := 9 ]} ]}) with
  | Finished (Err _) s' => locks_of s' "group/app" !! "apps/web" = Some 7
  | _ => False
  end.
Proof. vm_compute. reflexivity. Qed.

(** How a call ended: [Some true] without error, [Some false] with one. *)
Definition ended {D L K Q} (h : handled D L K Q) : option bool :=
  match h with Finished r _ => Some (is_ok r) | Waiting _ => None end.

Lemma ended_ok {D L K Q} (h : handled D L K Q) : ended h = Some true -> h = Finished (Ok tt) (after h).
Proof. by destruct h as [[[]|e] s|s]. Qed.

Lemma ended_err {D L K Q} (h : handled D L K Q) :
  ended h = Some false -> exists e, h = Finished (Err e) (after h).
Proof. destruct h as [[[]|e] s|s]; intros [=]. by exists e. Qed.

Lemma error_allows_retry_witness :
  delivered (after (mem_handle (at_time 1) opened (rival {[ "group/app" := {[ "apps" := 9 ]} ]}))) "d1"
  = None.
Proof.
  set (s := rival _).
  destruct (ended_err (mem_handle (at_time 1) opened s)) as [e E]; [vm_compute; reflexivity|].
  destruct (error_allows_retry (iM := natural_order) (at_time 1) opened s e _ E) as [H _].
  rewrite H. reflexivity.
Defined.

(** Merge request 7 queues its event while merge request 9 keeps its lock elsewhere. *)
Lemma locks_protect_witness :
  let s := rival {[ "group/lib" := {[ "." := 9 ]} ]} in
  let s' := after (mem_handle (at_time 1) opened s) in
  locks_of s' "group/lib" !! "." = Some 9 /\ locks_of s' "group/app" !! "." = Some 7.
Proof.
  intros s s'. destruct (locks_protect (iM := natural_order) (at_time 1) opened s) as [Hkeep Hhold].
  split; [apply Hkeep; [discriminate|vm_compute; reflexivity]|].
  apply (Hhold s') with (p := mkProject "." configFilename).
  - apply ended_ok. vm_compute. reflexivity.
  - vm_compute. discriminate.
  - eexists. reflexivity.
  - apply (bool_decide_unpack _). vm_compute. exact I.
Defined.

Lemma success_settles_witness :
  is_Some (delivered (after (mem_handle (at_time 1) opened idle)) "d1").
Proof.
  assert (ended (mem_handle (at_time 1) opened idle) = Some true) as E by (vm_compute; reflexivity).
  exact (proj1 (success_settles (iM := natural_order) (at_time 1) opened idle _ (ended_ok _ E))).
Defined.

Lemma close_releases_witness :
  exists s', mem_handle (at_time 1) closed (rival {[ "group/app" := {[ "apps" := 7; "lib" := 9 ]} ]})
             = Finished (Ok tt) s' /\ locks_of s' "group/app" !! "lib" = Some 9.
Proof.
  destruct (close_releases (iM := natural_order) (at_time 1) closed
    (rival {[ "group/app" := {[ "apps" := 7; "lib" := 9 ]} ]})) as (s' & Hh & _ & _ & Hl);
    [discriminate|reflexivity|vm_compute; reflexivity|reflexivity|].
  exists s'. split; [exact Hh|]. apply Hl. split; [vm_compute; reflexivity|]. cbn. lia.
Defined.

Lemma conflict_refuses_witness :
  exists root owner s', lock_and_enqueue (iM := natural_order) (at_time 1) opened
    (rival {[ "group/app" := {[ "." := 9 ]} ]}) =
    Finished (Err ("project " +:+ fmt_q root +:+ " is locked by MR !" +:+ fmt_d owner)) s'.
Proof.
  destruct (proj1 (conflict_refuses (iM := natural_order) (at_time 1) opened
    (rival {[ "group/app" := {[ "." := 9 ]} ]}) {[ "group/app" := {[ "." := 9 ]} ]} eq_refl))
    as (root & owner & s' & Hh & _).
  - exists (mkProject "." configFilename), 9. split; [|split; [vm_compute; reflexivity|discriminate]].
    apply (bool_decide_unpack _). vm_compute. exact I.
  - exists root, owner, s'. exact Hh.
Defined.

Definition remembered : MemoryDedupeStore := mkDedupe {[ dedupeKey opened := 301 ]}.
Definition busy : mem_service := mkService (mkMemoryQueue 1 []) ∅ (Some ∅) (Some remembered) 300.

Lemma duplicate_dropped_witness :
  pending_jobs (after (mem_handle (at_time 2) opened busy)) = [].
Proof.
  assert (ended (mem_handle (at_time 2) opened busy) = Some true) as E by (vm_compute; reflexivity).
  destruct (duplicate_dropped (iM := natural_order) (at_time 2) opened busy remembered
    (after (mem_handle (at_time 2) opened busy)) (Ok tt)) as [H _];
    [reflexivity|vm_compute; reflexivity|vm_compute; reflexivity|exact (ended_ok _ E)|exact H].
Defined.

Lemma dedupeKey_identifies_witness : Repository opened = "group/app" /\ MergeReqID opened = 7.
Proof.
  destruct (dedupeKey_identifies opened (mkEvent "d9" "merge_request.updated" "group/app" 7 "abc" "" []))
    as (H1 & H2 & _); [vm_compute; exact I..|reflexivity|]. auto.
Defined.
