(* ===== verification/Handlers.v ===== *)
(** * Handlers that run at the same time: internal/orchestrator/service.go

    net/http runs every request in a goroutine of its own, so calls of
    [HandleMergeRequestEvent] interleave. The stores lock a mutex for the whole of each
    operation, and so do a channel and a Redis server: [advance] is a handler up to and
    including its next call of a store. A handler that runs alone does what
    [HandleMergeRequestEvent] says ([run_alone_handle]); the theorems about histories
    hold for every interleaving. *)

From stdpp Require Import options relations.
From S2P Require Import Prelude GoStrings GoPath Context Project Lock Storage Queue Service ServiceFacts.

(** ** A handler, one call at a time *)

(** Where a handler is: before which call. *)
Inductive pc :=
| AtReserve                                  (* s.store.Reserve *)
| AtDedupe                                   (* s.locker.ReleaseByMR or s.dedupe.Reserve *)
| AtLocks                                    (* discovery, no store *)
| AtAcquire (rest : list DiscoveredProject)  (* s.locker.Acquire for the first of them *)
| AtEnqueue                                  (* s.jobs.Enqueue *)
| AtUndedupe (err : string)                  (* s.dedupe.Release, after an error *)
| AtUnreserve (err : string)                 (* s.store.Release, after an error *)
| AtCommit                                   (* s.store.Commit *)
| Ended (r : result unit).

Section Handlers.
#[local] Set Default Proof Using "Type*".
Context {D L K Q : Type}.
Context {iD : DeliveryStore D} {iL : Locker L} {iK : DedupeStore K} {iQ : JobQueue Q} {iM : MapOrder}.

(** One call of a store; [None] when the handler has ended or is blocked. *)
Definition advance (ctx : Ctx) (event : MergeRequestEvent) (at_ : pc) (s : Service D L K Q)
    : option (pc * Service D L K Q) :=
  match at_ with
  | AtReserve =>
      if str_eqb (DeliveryID event) "" then Some (Ended (Err "delivery_id is required"), s)
      else if negb (event_complete event) then Some (Ended (Err "missing required event fields"), s)
      else
        let '(fresh, d) := DReserve (DeliveryID event) (store s) in
        Some (if fresh : bool then AtDedupe else Ended (Ok tt), with_store d s)
  | AtDedupe =>
      if isCloseEvent (EventType event) then
        Some (AtCommit,
          match locker s with
          | Some l => with_locker (Some (ReleaseByMR (Repository event) (MergeReqID event) l)) s
          | None => s
          end)
      else
        match dedupe_active s with
        | None => Some (AtLocks, s)
        | Some k =>
            let '(r, k') := KReserve ctx (dedupeKey event) (dedupeTTL s) k in
            Some (match r with
                  | Err e => AtUnreserve ("dedupe reserve: " +:+ e)
                  | Ok false => AtCommit
                  | Ok true => AtLocks
                  end, with_dedupe (Some k') s)
        end
  | AtLocks =>
      Some (match locker s with
            | None => AtEnqueue
            | Some _ => AtAcquire (DiscoverFromChangedFiles (ChangedFiles event))
            end, s)
  | AtAcquire [] => Some (AtEnqueue, s)
  | AtAcquire (p :: rest) =>
      match locker s with
      | None => None
      | Some l =>
          let '((ok, owner), l') := Acquire (Repository event) (Root p) (MergeReqID event) l in
          Some (if ok : bool then AtAcquire rest
                else AtUndedupe ("project " +:+ fmt_q (Root p) +:+ " is locked by MR !" +:+ fmt_d owner),
                with_locker (Some l') s)
      end
  | AtEnqueue =>
      match Enqueue ctx (job_of event) (jobs s) with
      | Blocked => None
      | Returns (Err e, q) => Some (AtUndedupe e, with_jobs q s)
      | Returns (Ok _, q) => Some (AtCommit, with_jobs q s)
      end
  | AtUndedupe err => Some (AtUnreserve err, release_dedupe ctx event s)
  | AtUnreserve err => Some (Ended (Err err), release_store event s)
  | AtCommit => Some (Ended (Ok tt), commit_store event s)
  | Ended _ => None
  end.

(** A handler nobody interferes with, from a point on, until it ends or blocks. *)
Fixpoint run_alone (fuel : nat) (ctx : Ctx) (event : MergeRequestEvent) (at_ : pc) (s : Service D L K Q)
    : option (handled D L K Q) :=
  match at_ with
  | Ended r => Some (Finished r s)
  | _ =>
      match fuel with
      | O => None
      | S fuel =>
          match advance ctx event at_ s with
          | Some (next, s') => run_alone fuel ctx event next s'
          | None => Some (Waiting s)
          end
      end
  end.

Definition handler_fuel (event : MergeRequestEvent) : nat :=
  (length (DiscoverFromChangedFiles (ChangedFiles event)) + 7)%nat.

(** ** Running alone *)

Lemma run_alone_ended fuel ctx event r s : run_alone fuel ctx event (Ended r) s = Some (Finished r s).
Proof. by destruct fuel. Qed.

Lemma run_alone_enqueue ctx event s fuel :
  (3 <= fuel)%nat -> run_alone fuel ctx event AtEnqueue s = Some (enqueue_event ctx event s).
Proof.
  intros Hf. destruct fuel as [|[|[|fuel]]]; try lia. cbn [run_alone advance]. unfold enqueue_event.
  destruct (Enqueue ctx (job_of event) (jobs s)) as [[[[]|e] q]|]; [| |done]; by destruct fuel.
Qed.

Lemma run_alone_acquire ctx event s l projects fuel :
  locker s = Some l -> (length projects + 4 <= fuel)%nat ->
  run_alone fuel ctx event (AtAcquire projects) s = Some
    (match acquire_all (Repository event) (MergeReqID event) projects l with
     | (None, l') => enqueue_event ctx event (with_locker (Some l') s)
     | (Some (root, owner), l') =>
         Finished (Err ("project " +:+ fmt_q root +:+ " is locked by MR !" +:+ fmt_d owner))
           (release_store event (release_dedupe ctx event (with_locker (Some l') s)))
     end).
Proof.
  revert s l fuel. induction projects as [|p rest IH]; intros s l fuel Hl Hf;
    (destruct fuel as [|fuel]; [cbn in Hf; lia|]); cbn [run_alone advance acquire_all].
  - replace (with_locker (Some l) s) with s by (destruct s; cbn in *; by subst).
    apply run_alone_enqueue. cbn in Hf. lia.
  - cbn [length] in Hf. rewrite Hl.
    destruct (Acquire (Repository event) (Root p) (MergeReqID event) l) as [[[] owner] l'].
    + rewrite (IH _ l') by (done || lia). by destruct (acquire_all _ _ rest l') as [[[]|] ?].
    + destruct fuel as [|[|fuel]]; [lia..|]. by destruct fuel.
Qed.

Lemma run_alone_locks ctx event s fuel :
  (length (DiscoverFromChangedFiles (ChangedFiles event)) + 5 <= fuel)%nat ->
  run_alone fuel ctx event AtLocks s = Some (lock_and_enqueue ctx event s).
Proof.
  intros Hf. destruct fuel as [|fuel]; [lia|]. cbn [run_alone advance]. unfold lock_and_enqueue.
  destruct (locker s) as [l|] eqn:El.
  - rewrite (run_alone_acquire ctx event s l) by (done || lia).
    by destruct (acquire_all _ _ _ l) as [[[]|] ?].
  - apply run_alone_enqueue. lia.
Qed.

Lemma run_alone_dedupe ctx event s fuel :
  (length (DiscoverFromChangedFiles (ChangedFiles event)) + 6 <= fuel)%nat ->
  run_alone fuel ctx event AtDedupe s = Some
    (if isCloseEvent (EventType event) then
       Finished (Ok tt) (commit_store event
         match locker s with
         | Some l => with_locker (Some (ReleaseByMR (Repository event) (MergeReqID event) l)) s
         | None => s
         end)
     else
       match dedupe_active s with
       | None => lock_and_enqueue ctx event s
       | Some k =>
           let '(r, k') := KReserve ctx (dedupeKey event) (dedupeTTL s) k in
           let s := with_dedupe (Some k') s in
           match r with
           | Err e => Finished (Err ("dedupe reserve: " +:+ e)) (release_store event s)
           | Ok false => Finished (Ok tt) (commit_store event s)
           | Ok true => lock_and_enqueue ctx event s
           end
       end).
Proof.
  intros Hf. destruct fuel as [|fuel]; [lia|]. cbn [run_alone advance].
  destruct (isCloseEvent (EventType event)).
  { destruct fuel as [|fuel]; [lia|]. by destruct fuel. }
  destruct (dedupe_active s) as [k|]; [|apply run_alone_locks; lia].
  destruct (KReserve ctx (dedupeKey event) (dedupeTTL s) k) as [[[]|e] k'];
    [apply run_alone_locks; lia|..]; (destruct fuel as [|fuel]; [lia|]); by destruct fuel.
Qed.

Lemma run_alone_reserve ctx event s :
  run_alone (handler_fuel event) ctx event AtReserve s = Some (HandleMergeRequestEvent ctx event s).
Proof.
  unfold handler_fuel, HandleMergeRequestEvent. set (n := length _).
  assert (n + 7 = S (n + 6))%nat as -> by lia. cbn [run_alone advance].
  destruct (str_eqb (DeliveryID event) ""); [apply run_alone_ended|].
  destruct (negb (event_complete event)); [apply run_alone_ended|].
  destruct (DReserve (DeliveryID event) (store s)) as [[] d]; cbn [negb]; [|apply run_alone_ended].
  by rewrite run_alone_dedupe by lia.
Qed.
End Handlers.
