(* ===== verification/HandlersFacts.v ===== *)
(** * Interleaved handlers: theorems

    A system of handlers, the stores they share and the consumers of the queue moves by
    single store calls, in any order. What is proved of it: no delivery is queued twice,
    and until a merge request is closed the jobs it queued keep everybody else away from
    their projects. *)

From stdpp Require Import options relations.
From S2P Require Import Prelude GoStrings GoPath Context Project Lock Storage Queue Service ServiceFacts Handlers.

Section HandlersFacts.
#[local] Set Default Proof Using "Type*".
Context {D L K Q : Type}.
Context {iD : DeliveryStore D} {iL : Locker L} {iK : DedupeStore K} {iQ : JobQueue Q}.
Context {sD : DeliverySpec D} {sL : LockerSpec L} {sK : DedupeSpec K} {sQ : QueueSpec Q} {iM : MapOrder}.
Implicit Types (s : Service D L K Q) (event : MergeRequestEvent).

(** ** The system *)

(** The shared stores, the handlers with where they are, the jobs the queue accepted and
    the jobs it handed out. *)
Record system := mkSystem {
  shared : Service D L K Q;
  handlers : list (MergeRequestEvent * pc);
  accepted : list Job;
  taken : list Job
}.
Implicit Types c : system.

Definition start s : system := mkSystem s [] [] [].

Definition arrive event c : system :=
  mkSystem (shared c) (handlers c ++ [(event, AtReserve)]) (accepted c) (taken c).

(** A handler makes its next call, or a consumer takes a job. *)
Inductive sys_move c : system -> Prop :=
| move_advances ctx i event at_ next s' new :
    handlers c !! i = Some (event, at_) -> advance ctx event at_ (shared c) = Some (next, s') ->
    pending_jobs s' = pending_jobs (shared c) ++ new ->
    sys_move c (mkSystem s' (<[i := (event, next)]> (handlers c)) (accepted c ++ new) (taken c))
| move_takes ctx job q :
    Dequeue ctx (jobs (shared c)) = Returns (Ok job, q) ->
    sys_move c (mkSystem (with_jobs q (shared c)) (handlers c) (accepted c) (taken c ++ [job])).

Inductive sys_step c : system -> Prop :=
| step_arrives event : sys_step c (arrive event c)
| step_moves c' : sys_move c c' -> sys_step c c'.

Definition reachable s c : Prop := rtc sys_step (start s) c.

(** Rule induction from the last step. *)
Lemma reachable_ind s (P : system -> Prop) :
  P (start s) -> (forall c c', reachable s c -> P c -> sys_step c c' -> P c') ->
  forall c, reachable s c -> P c.
Proof.
  intros H0 Hstep. apply (rtc_ind_r P); [done|]. intros c c' Hc Hs IH. by apply (Hstep c c').
Qed.

(** ** What a call does *)

(** The handler has reserved its delivery and has not given it back. *)
Definition active (at_ : pc) : Prop := match at_ with AtReserve | Ended _ => False | _ => True end.

(** It has also not queued its job. *)
Definition unsent (at_ : pc) : Prop := match at_ with AtReserve | AtCommit | Ended _ => False | _ => True end.

Lemma unsent_active at_ : unsent at_ -> active at_.
Proof. by destruct at_. Qed.

(** What a call does to the deliveries and the queue. *)
Inductive call_outcome event s : pc -> pc -> Service D L K Q -> Prop :=
| co_quiet at_ next s' :
    (forall id, delivered s' id = delivered s id) -> pending_jobs s' = pending_jobs s ->
    (active next -> active at_) -> (unsent next -> unsent at_) -> call_outcome event s at_ next s'
| co_reserved s' :
    delivered s (DeliveryID event) = None -> moved s s' (DeliveryID event) (Some statePending) ->
    pending_jobs s' = pending_jobs s -> call_outcome event s AtReserve AtDedupe s'
| co_queued s' :
    (forall id, delivered s' id = delivered s id) -> pending_jobs s' = pending_jobs s ++ [job_of event] ->
    call_outcome event s AtEnqueue AtCommit s'
| co_released err s' :
    (forall id, id <> DeliveryID event -> delivered s' id = delivered s id) ->
    pending_jobs s' = pending_jobs s -> call_outcome event s (AtUnreserve err) (Ended (Err err)) s'
| co_committed s' :
    (forall id, is_Some (delivered s id) -> is_Some (delivered s' id)) ->
    pending_jobs s' = pending_jobs s -> call_outcome event s AtCommit (Ended (Ok tt)) s'.

Lemma advance_outcome ctx event at_ s next s' :
  advance ctx event at_ s = Some (next, s') -> call_outcome event s at_ next s'.
Proof.
  destruct at_ as [| | |[|p rest]| |err|err| |]; cbn [advance].
  - repeat (case_match; [by intros [= <- <-]; apply co_quiet|]).
    destruct (delivered s (DeliveryID event)) as [st|] eqn:Ed.
    + destruct (reserve_seen (DeliveryID event) (store s)) as [H1 H2]; [by eexists|].
      destruct (DReserve (DeliveryID event) (store s)) as [fresh d]. cbn [fst snd] in *. subst.
      intros [= <- <-]. by apply co_quiet.
    + destruct (reserve_new (DeliveryID event) (store s) Ed) as [H1 H2].
      destruct (DReserve (DeliveryID event) (store s)) as [fresh d]. cbn [fst snd] in *. subst.
      intros [= <- <-]. by apply co_reserved.
  - intros H. repeat case_match; simplify_eq; by apply co_quiet.
  - intros [= <- <-]. by apply co_quiet; repeat case_match.
  - intros [= <- <-]. by apply co_quiet.
  - intros H. repeat case_match; simplify_eq; by apply co_quiet.
  - destruct (Enqueue ctx (job_of event) (jobs s)) as [[[[]|e] q]|] eqn:E; [| |done]; intros [= <- <-].
    + apply co_queued; [done|]. by apply enqueue_ok in E.
    + apply co_quiet; [done|by apply enqueue_err in E|done|done].
  - intros [= <- <-]. destruct (release_dedupe_views ctx event s) as (Hs & _ & Hj).
    apply co_quiet; [|by unfold pending_jobs; rewrite Hj|done|done].
    intros id. unfold delivered. by rewrite Hs.
  - intros [= <- <-]. apply co_released; [|done]. intros id Hne.
    change (delivery (DRelease (DeliveryID event) (store s)) id = delivered s id).
    rewrite release_delivery, decide_False; [done|]. by intros [? _].
  - intros [= <- <-]. apply co_committed; [|done]. intros id [st Hst].
    change (is_Some (delivery (DCommit (DeliveryID event) (store s)) id)).
    rewrite commit_delivery. unfold delivered in Hst. case_decide; subst; rewrite Hst; by eexists.
  - done.
Qed.

(** The jobs a call queued are at most the one of its event. *)
Lemma advance_new ctx event at_ s next s' new job :
  advance ctx event at_ s = Some (next, s') -> pending_jobs s' = pending_jobs s ++ new -> job ∈ new ->
  job = job_of event.
Proof.
  intros Hadv Hnew Hin.
  destruct (advance_outcome _ _ _ _ _ _ Hadv) as [? ? ? ? E| ? ? ? E| ? ? E| ? ? ? E|? ? E];
    rewrite E in Hnew; try (apply app_same_nil in Hnew; subst; by apply elem_of_nil in Hin).
  apply app_inv_head in Hnew. subst new. by apply list_elem_of_singleton in Hin.
Qed.

(** ** No delivery twice *)

(** At most one handler has a delivery; a delivery somebody has, or that was queued, is
    known; and what was queued is nobody's to queue. *)
Record once c : Prop := {
  once_active i j ei ej pi pj :
    handlers c !! i = Some (ei, pi) -> handlers c !! j = Some (ej, pj) -> active pi -> active pj ->
    DeliveryID ei = DeliveryID ej -> i = j;
  once_known i e p :
    handlers c !! i = Some (e, p) -> active p -> is_Some (delivered (shared c) (DeliveryID e));
  once_accepted : NoDup (JobDeliveryID <$> accepted c);
  once_settled j : j ∈ accepted c -> is_Some (delivered (shared c) (JobDeliveryID j));
  once_unsent i e p j :
    handlers c !! i = Some (e, p) -> unsent p -> j ∈ accepted c -> JobDeliveryID j <> DeliveryID e
}.

(** The handlers after one of them moved. *)
Lemma moved_handler (hs : list (MergeRequestEvent * pc)) i event at_ next k e p :
  hs !! i = Some (event, at_) -> <[i := (event, next)]> hs !! k = Some (e, p) ->
  (k = i /\ e = event /\ p = next) \/ (k <> i /\ hs !! k = Some (e, p)).
Proof.
  intros Hi. rewrite list_lookup_insert_Some. intros [(-> & Heq & _)|[Hne Hk]]; [left|by right].
  by simplify_eq.
Qed.

(** A handler that moved, with the same claim on its delivery or less. *)
Lemma once_quiet c i event at_ next s' :
  once c -> handlers c !! i = Some (event, at_) ->
  (active next -> active at_) -> (unsent next -> unsent at_) ->
  (forall k e p, handlers c !! k = Some (e, p) -> active p -> k <> i \/ active next ->
     is_Some (delivered s' (DeliveryID e))) ->
  (forall j, j ∈ accepted c -> is_Some (delivered s' (JobDeliveryID j))) ->
  once (mkSystem s' (<[i := (event, next)]> (handlers c)) (accepted c) (taken c)).
Proof.
  intros [Ha Hk Hn Hs Hu] Hi Hact Huns Hd Hj. split; cbn [shared handlers accepted].
  - intros k1 k2 e1 e2 p1 p2 H1 H2 A1 A2 He.
    destruct (moved_handler _ _ _ _ _ _ _ _ Hi H1) as [(-> & -> & ->)|[N1 H1']],
      (moved_handler _ _ _ _ _ _ _ _ Hi H2) as [(-> & -> & ->)|[N2 H2']]; [done|..]; eauto.
  - intros k e p Hk' A. destruct (moved_handler _ _ _ _ _ _ _ _ Hi Hk') as [(-> & -> & ->)|[N H']].
    + apply (Hd i event at_); auto.
    + apply (Hd k e p); auto.
  - done.
  - done.
  - intros k e p j Hk' U Hin. destruct (moved_handler _ _ _ _ _ _ _ _ Hi Hk') as [(-> & -> & ->)|[N H']];
      eauto.
Qed.

(** A handler that reserved a delivery nobody knew. *)
Lemma once_reserved c i event s' :
  once c -> handlers c !! i = Some (event, AtReserve) -> delivered (shared c) (DeliveryID event) = None ->
  moved (shared c) s' (DeliveryID event) (Some statePending) ->
  once (mkSystem s' (<[i := (event, AtDedupe)]> (handlers c)) (accepted c) (taken c)).
Proof.
  intros [Ha Hk Hn Hs Hu] Hi Hnone Hm.
  assert (forall id, is_Some (delivered (shared c) id) -> is_Some (delivered s' id) /\ id <> DeliveryID event)
    as Hkeep.
  { intros id Hid. rewrite Hm. destruct (decide (id = DeliveryID event)) as [->|]; [|done].
    rewrite Hnone in Hid. by destruct Hid. }
  split; cbn [shared handlers accepted].
  - intros k1 k2 e1 e2 p1 p2 H1 H2 A1 A2 He.
    destruct (moved_handler _ _ _ _ _ _ _ _ Hi H1) as [(-> & -> & ->)|[N1 H1']],
      (moved_handler _ _ _ _ _ _ _ _ Hi H2) as [(-> & -> & ->)|[N2 H2']]; [done|..|by eauto].
    + destruct (Hkeep (DeliveryID e2)) as [_ []]; eauto.
    + destruct (Hkeep (DeliveryID e1)) as [_ []]; eauto.
  - intros k e p Hk' A. destruct (moved_handler _ _ _ _ _ _ _ _ Hi Hk') as [(-> & -> & ->)|[N H']].
    + rewrite Hm, decide_True by done. by eexists.
    + apply Hkeep. eauto.
  - done.
  - intros j Hj. by apply Hkeep, Hs.
  - intros k e p j Hk' U Hin. destruct (moved_handler _ _ _ _ _ _ _ _ Hi Hk') as [(-> & -> & ->)|[N H']];
      [|by eauto]. by apply Hkeep, Hs.
Qed.

(** A handler that queued its job. *)
Lemma once_queued c i event s' :
  once c -> handlers c !! i = Some (event, AtEnqueue) ->
  (forall id, delivered s' id = delivered (shared c) id) ->
  once (mkSystem s' (<[i := (event, AtCommit)]> (handlers c)) (accepted c ++ [job_of event]) (taken c)).
Proof.
  intros Ho Hi Hd. pose proof Ho as [Ha Hk Hn Hs Hu].
  destruct (once_quiet c i event AtEnqueue AtCommit s' Ho Hi) as [Ha' Hk' _ Hs' Hu'];
    [done|done|intros; rewrite Hd; by eauto|intros; rewrite Hd; by eauto|].
  cbn [shared handlers accepted] in *. split; cbn [shared handlers accepted]; [done|done|..].
  - rewrite fmap_app. apply NoDup_app. split; [done|]. split; [|apply NoDup_singleton].
    intros id (j & -> & Hj)%list_elem_of_fmap Hid. apply list_elem_of_singleton in Hid.
    by apply (Hu i event AtEnqueue j).
  - intros j [Hj|Hj]%elem_of_app; [by apply Hs'|]. apply list_elem_of_singleton in Hj as ->.
    rewrite Hd. by apply (Hk i event AtEnqueue).
  - intros k e p j Hkk U [Hj|Hj]%elem_of_app; [by eapply Hu'|]. apply list_elem_of_singleton in Hj as ->.
    destruct (moved_handler _ _ _ _ _ _ _ _ Hi Hkk) as [(-> & -> & ->)|[N H']]; [done|].
    intros Heq. destruct N. by apply (Ha k i e event p AtEnqueue); auto using unsent_active.
Qed.

Lemma arrived_handler (hs : list (MergeRequestEvent * pc)) event k e p :
  (hs ++ [(event, AtReserve)]) !! k = Some (e, p) -> hs !! k = Some (e, p) \/ (e = event /\ p = AtReserve).
Proof.
  intros [Hk|[Hlen Hk]]%lookup_app_Some; [by left|right].
  apply list_lookup_singleton_Some in Hk as [_ Hk]. by simplify_eq.
Qed.

Lemma once_arrives c event :
  once c -> once (arrive event c).
Proof.
  intros [Ha Hk Hn Hs Hu]. split; cbn [shared handlers accepted]; [..|done|done|].
  - intros i j ei ej pi pj [Hi|[_ ->]]%arrived_handler [Hj|[_ ->]]%arrived_handler; [by eauto|done..].
  - intros i e p [Hi|[_ ->]]%arrived_handler; [by eauto|done].
  - intros i e p j [Hi|[_ ->]]%arrived_handler; [by eauto|done].
Qed.

Lemma once_advances c i event at_ next s' new :
  once c -> handlers c !! i = Some (event, at_) -> call_outcome event (shared c) at_ next s' ->
  pending_jobs s' = pending_jobs (shared c) ++ new ->
  once (mkSystem s' (<[i := (event, next)]> (handlers c)) (accepted c ++ new) (taken c)).
Proof.
  intros Ho Hi Hco Hnew. pose proof Ho as [Ha Hk Hn Hs Hu].
  destruct Hco as [at_ next s' Hd Hj Hact Huns|s' Hnone Hm Hj|s' Hd Hj|err s' Hd Hj|s' Hd Hj];
    rewrite Hj in Hnew;
    try (apply app_same_nil in Hnew as ->; rewrite app_nil_r).
  - apply (once_quiet c i event at_ next); [done..| |]; intros; rewrite Hd; by eauto.
  - by apply once_reserved.
  - apply app_inv_head in Hnew as <-. by apply once_queued.
  - apply (once_quiet c i event (AtUnreserve err)); [done..| |].
    + intros k e p Hkk A [N|[]]. rewrite Hd; [by eauto|]. intros Heq. destruct N.
      by apply (Ha k i e event p (AtUnreserve err)).
    + intros j Hin. rewrite Hd; [by apply Hs|]. by apply (Hu i event (AtUnreserve err)).
  - apply (once_quiet c i event AtCommit); [done..| |]; intros; apply Hd; by eauto.
Qed.

Lemma once_reachable s c : reachable s c -> once c.
Proof.
  apply reachable_ind.
  { split; cbn; [done|done|constructor|by intros j Hj%elem_of_nil|done]. }
  clear c. intros c c' _ Ho Hstep.
  destruct Hstep as [event|c' [ctx i event at_ next s' new Hi Hadv Hnew|ctx job q Hq]].
  - by apply once_arrives.
  - apply (once_advances c i event at_); [done|done|by eapply advance_outcome|done].
  - by destruct Ho as [Ha Hk Hn Hs Hu].
Qed.

(** Every accepted job was handed out, or is queued, in the order they were accepted. *)
Lemma taken_prefix s c :
  pending_jobs s = [] -> reachable s c -> accepted c = taken c ++ pending_jobs (shared c).
Proof.
  intros Hs Hc. revert c Hc.
  apply (reachable_ind s (fun c => accepted c = taken c ++ pending_jobs (shared c))); [by cbn; rewrite Hs|].
  intros c c' _ IH Hstep.
  destruct Hstep as [event|c' [ctx i event at_ next s' new Hi Hadv Hnew|ctx job q Hq]]; cbn.
  - done.
  - by rewrite Hnew, IH, (assoc_L (++)).
  - apply dequeue_ok in Hq. unfold pending_jobs in *. cbn. by rewrite IH, Hq, <- (assoc_L (++)).
Qed.

(** ** Locks *)

(** The merge request holds the project. *)
Definition holds s (repo : string) (mr : Z) (p : DiscoveredProject) : Prop :=
  locks_of s repo !! Root p = Some mr.

(** A close event of the merge request is among those that arrived. *)
Definition closing c (repo : string) (mr : Z) : Prop :=
  exists i e p, handlers c !! i = Some (e, p) /\ isCloseEvent (EventType e) = true /\
    Repository e = repo /\ MergeReqID e = mr.

Lemma acquire_keeps repo key mr l repo' key' owner :
  LockList repo' l !! key' = Some owner -> LockList repo' (Acquire repo key mr l).2 !! key' = Some owner.
Proof.
  intros Hl. destruct (decide (owner = mr)) as [->|Hne]; [|by apply acquire_keeps_others].
  destruct (Acquire repo key mr l) as [[[] o] l'] eqn:E; cbn [snd].
  - apply acquire_ok in E as (-> & H1 & _ & H3).
    destruct (decide (repo' = repo)) as [->|Hr]; [|by rewrite H3].
    rewrite H1, lookup_insert. by case_decide.
  - apply acquire_fail in E as (_ & _ & H3). by rewrite H3.
Qed.

(** A call takes a lock from a merge request only when it handles its close event. *)
Lemma advance_keeps ctx event at_ s next s' repo mr key :
  advance ctx event at_ s = Some (next, s') ->
  (isCloseEvent (EventType event) = true -> Repository event = repo -> MergeReqID event <> mr) ->
  locks_of s repo !! key = Some mr -> locks_of s' repo !! key = Some mr.
Proof.
  unfold locks_of. intros Hadv Hclose Hl.
  destruct at_ as [| | |[|p rest]| |err|err| |]; cbn [advance] in Hadv;
    try (assert (locker s' = locker s) as -> by (clear Hl; repeat case_match; by simplify_eq); exact Hl).
  - destruct (isCloseEvent (EventType event)).
    2: { assert (locker s' = locker s) as -> by (clear Hl; repeat case_match; by simplify_eq). exact Hl. }
    injection Hadv as <- <-. destruct (locker s) as [l|] eqn:El; [|by rewrite El].
    cbn [locker with_locker]. rewrite release_list.
    destruct (decide (repo = Repository event)) as [->|]; [|done].
    apply map_lookup_filter_Some. split; [done|]. cbn. intros Heq. by apply Hclose.
  - destruct (locker s) as [l|]; [|done].
    destruct (Acquire (Repository event) (Root p) (MergeReqID event) l) as [[ok owner] l'] eqn:E.
    injection Hadv as <- <-. cbn [locker with_locker].
    replace l' with (Acquire (Repository event) (Root p) (MergeReqID event) l).2 by by rewrite E.
    by apply acquire_keeps.
  - injection Hadv as <- <-. by destruct (release_dedupe_views ctx event s) as (_ & -> & _).
Qed.

Lemma advance_locker ctx event at_ s next s' :
  advance ctx event at_ s = Some (next, s') -> is_Some (locker s) -> is_Some (locker s').
Proof.
  intros Hadv Hs. destruct at_ as [| | |[|p rest]| |err|err| |]; cbn [advance] in Hadv;
    try (repeat case_match; simplify_eq; cbn; eauto; done).
  injection Hadv as <- <-. by destruct (release_dedupe_views ctx event s) as (_ & -> & _).
Qed.

(** What a handler holds, by where it is: the projects it went through. *)
Definition guarded s event (at_ : pc) : Prop :=
  match at_ with
  | AtAcquire rest => forall p, p ∈ DiscoverFromChangedFiles (ChangedFiles event) ->
      p ∈ rest \/ holds s (Repository event) (MergeReqID event) p
  | AtEnqueue => forall p, p ∈ DiscoverFromChangedFiles (ChangedFiles event) ->
      holds s (Repository event) (MergeReqID event) p
  | _ => True
  end.

Lemma advance_guarded ctx event at_ s next s' :
  advance ctx event at_ s = Some (next, s') -> is_Some (locker s) -> guarded s event at_ ->
  guarded s' event next.
Proof.
  intros Hadv [l Hl] Hg. destruct at_ as [| | |[|p rest]| |err|err| |]; cbn [advance] in Hadv.
  - repeat case_match; by simplify_eq.
  - repeat case_match; by simplify_eq.
  - rewrite Hl in Hadv. injection Hadv as <- <-. intros p Hp. by left.
  - injection Hadv as <- <-. intros p Hp. destruct (Hg p Hp) as [Hin|]; [|done]. by apply elem_of_nil in Hin.
  - rewrite Hl in Hadv. destruct (Acquire (Repository event) (Root p) (MergeReqID event) l)
      as [[[] owner] l'] eqn:E; injection Hadv as <- <-; [|done].
    intros p' Hp'. unfold holds, locks_of. cbn [locker with_locker].
    destruct (Hg p' Hp') as [[->|Hin]%elem_of_cons|Hheld]; [right|by left|right].
    + apply acquire_ok in E as (-> & -> & _). apply lookup_insert_eq.
    + unfold holds, locks_of in Hheld. rewrite Hl in Hheld.
      replace l' with (Acquire (Repository event) (Root p) (MergeReqID event) l).2 by by rewrite E.
      by apply acquire_keeps.
  - repeat case_match; by simplify_eq.
  - by simplify_eq.
  - by simplify_eq.
  - by simplify_eq.
  - done.
Qed.

(** While no close event of a merge request has arrived: its handlers hold what they
    went through, and its jobs hold all their projects. *)
Definition protected c : Prop :=
  is_Some (locker (shared c)) /\ forall repo mr, ~ closing c repo mr ->
  (forall i e p, handlers c !! i = Some (e, p) -> Repository e = repo -> MergeReqID e = mr ->
     guarded (shared c) e p) /\
  (forall j p, j ∈ accepted c -> JobRepository j = repo -> JobMergeReqID j = mr ->
     p ∈ DiscoverFromChangedFiles (JobChangedFiles j) -> holds (shared c) repo mr p).

Lemma closing_grows c c' repo mr : sys_step c c' -> closing c repo mr -> closing c' repo mr.
Proof.
  intros Hstep (i & e & p & Hi & Hrest). destruct Hstep as [event|c' [ctx k event at_ next s' new Hk _ _|ctx job q _]].
  - exists i, e, p. split; [|done]. cbn. by apply lookup_app_l_Some.
  - destruct (decide (i = k)) as [->|Hne].
    + exists k, e, next. split; [|done]. cbn. rewrite Hk in Hi. injection Hi as <- <-.
      apply list_lookup_insert_eq. by eapply lookup_lt_Some.
    + exists i, e, p. split; [|done]. cbn. by rewrite list_lookup_insert_ne by done.
  - by exists i, e, p.
Qed.

Lemma protected_advances c ctx i event at_ next s' new :
  protected c -> handlers c !! i = Some (event, at_) ->
  advance ctx event at_ (shared c) = Some (next, s') ->
  pending_jobs s' = pending_jobs (shared c) ++ new ->
  protected (mkSystem s' (<[i := (event, next)]> (handlers c)) (accepted c ++ new) (taken c)).
Proof.
  intros [Hl Hp] Hi Hadv Hnew. split; cbn [shared]; [by eapply advance_locker|].
  intros repo mr Hno. cbn [handlers accepted] in *.
  assert (~ closing c repo mr) as Hno'.
  { intros Hcl. apply Hno. eapply closing_grows; [|exact Hcl]. by apply step_moves, (move_advances c ctx i event at_). }
  destruct (Hp repo mr Hno') as [Hg Hj].
  assert (isCloseEvent (EventType event) = true -> Repository event = repo -> MergeReqID event <> mr) as Hcl.
  { intros H1 H2 H3. apply Hno'. by exists i, event, at_. }
  assert (forall p, holds (shared c) repo mr p -> holds s' repo mr p) as Hkeep.
  { intros p. unfold holds. by eapply advance_keeps. }
  split.
  - intros k e p Hk Hr Hm. destruct (moved_handler _ _ _ _ _ _ _ _ Hi Hk) as [(-> & -> & ->)|[_ Hk']].
    + eapply advance_guarded; [done|done|]. by eapply Hg.
    + specialize (Hg k e p Hk' Hr Hm). subst. destruct p; try done; cbn in *.
      * intros p Hin. destruct (Hg p Hin); auto.
      * auto.
  - intros j p [Hin|Hin]%elem_of_app Hr Hm Hd; [by eauto|].
    destruct (advance_outcome _ _ _ _ _ _ Hadv) as [? ? ? ? E| ? ? ? E| ? ? E| ? ? ? E|? ? E];
      rewrite E in Hnew; try (apply app_same_nil in Hnew; subst; by apply elem_of_nil in Hin).
    apply app_inv_head in Hnew. subst new. apply list_elem_of_singleton in Hin. subst j.
    cbn in Hr, Hm, Hd. subst. apply Hkeep. by apply (Hg i event AtEnqueue).
Qed.

Lemma protected_reachable s c : is_Some (locker s) -> reachable s c -> protected c.
Proof.
  intros Hl. apply reachable_ind.
  { split; [done|]. intros repo mr _. split; [done|]. by intros j p Hj%elem_of_nil. }
  clear c. intros c c' _ Hp Hstep. pose proof (closing_grows c c') as Hgrow.
  destruct Hstep as [event|c' [ctx i event at_ next s' new Hi Hadv Hnew|ctx job q Hq]].
  - destruct Hp as [Hlk Hp]. split; [done|]. intros repo mr Hno.
    destruct (Hp repo mr) as [Hg Hj]; [intros Hcl; apply Hno, Hgrow; [apply step_arrives|done]|]. split; [|done]. cbn.
    intros i e p [Hi|[-> ->]]%arrived_handler; [by eauto|done].
  - by eapply protected_advances.
  - destruct Hp as [Hlk Hp]. split; [done|]. intros repo mr Hno. by apply Hp.
Qed.

(** ** Schedules *)

(** The [i]-th handler makes up to [n] calls in a row. *)
Fixpoint run_handler (n i : nat) (ctx : Ctx) c : system :=
  match n with
  | O => c
  | S n =>
      match handlers c !! i with
      | Some (event, at_) =>
          match advance ctx event at_ (shared c) with
          | Some (next, s') =>
              let new := drop (length (pending_jobs (shared c))) (pending_jobs s') in
              run_handler n i ctx
                (mkSystem s' (<[i := (event, next)]> (handlers c)) (accepted c ++ new) (taken c))
          | None => c
          end
      | None => c
      end
  end.

Lemma run_handler_ind (P : system -> Prop) n i ctx c :
  (forall c c', P c -> sys_move c c' -> P c') -> P c -> P (run_handler n i ctx c).
Proof.
  intros Hstep. revert c. induction n as [|n IH]; intros c Hc; cbn [run_handler]; [done|].
  destruct (handlers c !! i) as [[event at_]|] eqn:Hi; [|done].
  destruct (advance ctx event at_ (shared c)) as [[next s']|] eqn:Hadv; [|done].
  apply IH, (Hstep c); [done|]. apply (move_advances c ctx i event at_); [done|done|].
  destruct (advance_outcome _ _ _ _ _ _ Hadv) as [? ? ? ? E| ? ? ? E| ? ? E| ? ? ? E|? ? E];
    rewrite E; by rewrite ?drop_all, ?app_nil_r, ?drop_app_length.
Qed.

(** ** Theorems *)

(** A handler nobody interferes with does what the sequential handler does: from any
    state, within its fuel, the calls of the stores made one at a time end, or block in
    Enqueue, as [HandleMergeRequestEvent] does and with the same state. *)
Theorem run_alone_handle ctx event s :
  run_alone (handler_fuel event) ctx event AtReserve s = Some (HandleMergeRequestEvent ctx event s).
Proof using Type. apply run_alone_reserve. Qed.

(** C2: at most one job per delivery. However the store calls of handlers for any events
    interleave, with each other and with the consumers, whatever the stores answer and
    the state of the contexts, no two jobs the queue accepted carry the same delivery id,
    and from an empty queue the jobs handed out are a prefix of the accepted ones. *)
Theorem at_most_one_job s c :
  reachable s c ->
  NoDup (JobDeliveryID <$> accepted c) /\
  (pending_jobs s = [] -> accepted c = taken c ++ pending_jobs (shared c)).
Proof.
  intros Hc. split; [by apply once_accepted, (once_reachable s)|]. intros Hs. by apply (taken_prefix s).
Qed.

(** C6: jobs exclude each other. However handlers interleave, when two queued jobs of a
    repository share a project and no close event of their merge requests has arrived,
    they belong to the same merge request. *)
Theorem jobs_exclusive s c j1 j2 p1 p2 :
  is_Some (locker s) -> reachable s c -> j1 ∈ accepted c -> j2 ∈ accepted c ->
  JobRepository j1 = JobRepository j2 ->
  p1 ∈ DiscoverFromChangedFiles (JobChangedFiles j1) ->
  p2 ∈ DiscoverFromChangedFiles (JobChangedFiles j2) -> Root p1 = Root p2 ->
  ~ closing c (JobRepository j1) (JobMergeReqID j1) -> ~ closing c (JobRepository j2) (JobMergeReqID j2) ->
  JobMergeReqID j1 = JobMergeReqID j2.
Proof.
  intros Hl Hc Hj1 Hj2 Hrepo Hp1 Hp2 Hroot Hn1 Hn2.
  destruct (protected_reachable s c Hl Hc) as [_ Hp].
  destruct (Hp _ _ Hn1) as [_ H1], (Hp _ _ Hn2) as [_ H2].
  specialize (H1 j1 p1 Hj1 eq_refl eq_refl Hp1). specialize (H2 j2 p2 Hj2 eq_refl eq_refl Hp2).
  unfold holds in H1, H2. rewrite Hrepo, Hroot, H2 in H1. by injection H1.
Qed.

(** How many calls a handler has left at most. *)
Definition calls_left event (at_ : pc) : nat :=
  let n := length (DiscoverFromChangedFiles (ChangedFiles event)) in
  match at_ with
  | AtReserve => n + 7
  | AtDedupe => n + 6
  | AtLocks => n + 5
  | AtAcquire rest => length rest + 4
  | AtEnqueue => 3
  | AtUndedupe _ => 2
  | AtUnreserve _ | AtCommit => 1
  | Ended _ => 0
  end%nat.

(** Only a service with a locker has handlers that acquire locks. *)
Lemma acquiring_locker s c i event rest :
  reachable s c -> handlers c !! i = Some (event, AtAcquire rest) -> is_Some (locker (shared c)).
Proof.
  intros Hc. revert i event rest. revert c Hc.
  apply (reachable_ind s (fun c => forall i event rest,
    handlers c !! i = Some (event, AtAcquire rest) -> is_Some (locker (shared c)))); [done|].
  intros c c' _ IH Hstep. destruct Hstep as [event|c' [ctx k event at_ next s' new Hk Hadv _|ctx job q _]].
  - intros i e rest [Hi|[_ [=]]]%arrived_handler. by eapply IH.
  - intros i e rest Hi. cbn in Hi |- *. eapply advance_locker; [done|].
    destruct (moved_handler _ _ _ _ _ _ _ _ Hk Hi) as [(-> & -> & <-)|[_ Hi']]; [|by eapply IH].
    destruct at_ as [| | |[|p rest']| |err|err| |]; cbn [advance] in Hadv; by repeat case_match; simplify_eq.
  - intros i e rest. apply IH.
Qed.

(** Every handler ends. Whatever the others do between its calls, each call brings a
    handler closer to its end, at most 7 calls and one per project away at the start; and
    where it cannot make its next call it has ended or the queue is full. *)
Theorem handler_progress ctx s c i event at_ :
  reachable s c -> handlers c !! i = Some (event, at_) ->
  match advance ctx event at_ (shared c) with
  | Some (next, _) => (calls_left event next < calls_left event at_)%nat
  | None => (exists r, at_ = Ended r) \/
      (at_ = AtEnqueue /\ Enqueue ctx (job_of event) (jobs (shared c)) = Blocked)
  end.
Proof.
  intros Hc Hi. destruct at_ as [| | |[|p rest]| |err|err| |r]; cbn [advance calls_left]; try (cbn; lia).
  - repeat case_match; simplify_eq; cbn; lia.
  - repeat case_match; simplify_eq; cbn; lia.
  - repeat case_match; simplify_eq; cbn; lia.
  - destruct (acquiring_locker s c i event (p :: rest) Hc Hi) as [l ->].
    repeat case_match; simplify_eq; cbn; lia.
  - repeat case_match; simplify_eq; cbn; try lia. by right.
  - by left; exists r.
Qed.
End HandlersFacts.

(** ** Instances *)

Definition roomy : mem_service :=
  mkService (mkMemoryQueue 4 []) ∅ (Some ∅) (Some NewMemoryDedupeStore) 300.

(** Another commit of merge request 7, and one of merge request 9 in the same project. *)
Definition pushed : MergeRequestEvent :=
  mkEvent "d3" "merge_request.updated" "group/app" 7 "def" "main" ["apps/web/x.yaml"].
Definition rivalling : MergeRequestEvent :=
  mkEvent "d4" "merge_request.updated" "group/app" 9 "fed" "main" ["apps/web/y.yaml"].

(** Three handlers that take turns: the two of merge request 7 get through, the one of
    merge request 9, which started in between, does not. *)
Definition turns : system (D := MemoryDeliveryStore) (L := MemoryLocker) (K := MemoryDedupeStore)
    (Q := MemoryQueue) :=
  let go := run_handler (iM := natural_order) in
  let c := arrive rivalling (arrive pushed (arrive opened (start roomy))) in
  go 9%nat 1%nat (at_time 3) (go 9%nat 0%nat (at_time 3) (go 9%nat 2%nat (at_time 2)
    (go 3%nat 1%nat (at_time 2) (go 4%nat 0%nat (at_time 1) c)))).

Lemma turns_reachable : reachable (iM := natural_order) roomy turns.
Proof.
  assert (forall (c c' : system (D := MemoryDeliveryStore) (L := MemoryLocker) (K := MemoryDedupeStore)
                    (Q := MemoryQueue)),
    reachable (iM := natural_order) roomy c -> sys_move (iM := natural_order) c c' ->
    reachable (iM := natural_order) roomy c') as Hm.
  { intros c c' Hc Hmove. eapply rtc_r; [exact Hc|]. apply step_moves, Hmove. }
  unfold turns. do 5 (apply run_handler_ind; [exact Hm|]).
  unfold reachable, start.
  do 3 (eapply rtc_r; [|apply step_arrives]). constructor.
Qed.

Example turns_outcome :
  accepted turns = [job_of opened; job_of pushed] /\
  (snd <$> handlers turns !! 2%nat) = Some (Ended (Err
    ("project " +:+ fmt_q "apps/web" +:+ " is locked by MR !7"))).
Proof. split; vm_compute; reflexivity. Qed.

Lemma turns_no_close repo mr : ~ closing turns repo mr.
Proof.
  assert (forallb (fun h => negb (isCloseEvent (EventType h.1))) (handlers turns) = true) as Hall
    by (vm_compute; reflexivity).
  intros (i & e & p & Hi & Hclose & _). rewrite forallb_forall in Hall.
  apply list_elem_of_lookup_2, list_elem_of_In, Hall in Hi. cbn in Hi. by rewrite Hclose in Hi.
Qed.

Lemma at_most_one_job_witness :
  accepted turns = taken turns ++ pending_jobs (shared turns) /\ NoDup (JobDeliveryID <$> accepted turns).
Proof.
  destruct (at_most_one_job (iM := natural_order) roomy turns turns_reachable) as [H1 H2].
  split; [apply H2; reflexivity|exact H1].
Defined.

Lemma jobs_exclusive_witness : JobMergeReqID (job_of opened) = JobMergeReqID (job_of pushed).
Proof.
  apply (jobs_exclusive (iM := natural_order) roomy turns (job_of opened) (job_of pushed)
    (mkProject "." configFilename) (mkProject "." configFilename)).
  - eexists. reflexivity.
  - exact turns_reachable.
  - rewrite (proj1 turns_outcome). left.
  - rewrite (proj1 turns_outcome). right. left.
  - reflexivity.
  - apply (bool_decide_unpack _). vm_compute. exact I.
  - apply (bool_decide_unpack _). vm_compute. exact I.
  - reflexivity.
  - apply turns_no_close.
  - apply turns_no_close.
Defined.

Lemma handler_progress_witness :
  match advance (iM := natural_order) (at_time 9) opened AtReserve (shared (arrive opened (start roomy))) with
  | Some (next, _) =>
      (calls_left (iM := natural_order) opened next < calls_left (iM := natural_order) opened AtReserve)%nat
  | None => False
  end.
Proof.
  exact (handler_progress (iM := natural_order) (at_time 9) roomy (arrive opened (start roomy)) 0 opened AtReserve
    (rtc_once _ _ (step_arrives _ opened)) eq_refl).
Defined.
