(* ===== verification/Webhook.v ===== *)
(** * The webhook: internal/webhook/handler.go

    [ServeHTTP] authenticates a request, decodes its body into an event and hands it to
    the service. HMAC-SHA256 is an argument; so are the text of encoding/json's errors
    and the number a conversion to int gives for a float64 beyond 64 bits, which the
    language leaves to the implementation. *)

From Stdlib Require Import Ascii.
From stdpp Require Import options.
From S2P Require Import Prelude GoStrings GoPath Value JsonNumber Json JsonStruct.
From S2P Require Import Context Project Lock Storage Queue Service.

(** ** Decoding *)

(** [json.Unmarshal(body, &direct)] *)
Definition zero_event : MergeRequestEvent := mkEvent "" "" "" 0 "" "" [].
Definition dec_event := dec_struct (fun k x (e : MergeRequestEvent) =>
  let '(mkEvent id type repo mr sha base files) := e in
  if key_is k "delivery_id" then s ← dec_string x id; Some (mkEvent s type repo mr sha base files)
  else if key_is k "event_type" then s ← dec_string x type; Some (mkEvent id s repo mr sha base files)
  else if key_is k "repository" then s ← dec_string x repo; Some (mkEvent id type s mr sha base files)
  else if key_is k "merge_request_id" then z ← dec_int x mr; Some (mkEvent id type repo z sha base files)
  else if key_is k "head_sha" then s ← dec_string x sha; Some (mkEvent id type repo mr s base files)
  else if key_is k "base_ref" then s ← dec_string x base; Some (mkEvent id type repo mr sha s files)
  else if key_is k "changed_files" then l ← dec_strings x files; Some (mkEvent id type repo mr sha base l)
  else Some e).
Definition unmarshal_event (body : string) : option MergeRequestEvent :=
  j ← parse_json body; dec_event j zero_event.

(** [json.Unmarshal(body, &payload)] for a [map[string]any]: null gives the nil map. *)
Definition unmarshal_map (body : string) : option (gmap string value) :=
  j ← parse_json body;
  match j with
  | JObj l => any_entries any_of_json l ∅
  | JNull => Some ∅
  | _ => None
  end.

Section Decode.
Context (json_error : string -> string) (int_of_big : string -> Z).

(** [int(x)] on a float64: towards zero. *)
Definition int_of_float (t : string) : Z :=
  match scan_number t with
  | Some (l, EmptyString) =>
      match lit_float l with
      | Some (m, e) =>
          let a := if 0 <=? e then m * 2 ^ e else m / 2 ^ (- e) in
          let z := if nl_neg l then - a else a in
          if (int64_min <=? z) && (z <=? int64_max) then z else int_of_big t
      | None => 0
      end
  | _ => 0
  end.

(** Only a uint64 holds an integer beyond int64; it takes the default case. *)
Definition num (v : value) : Z :=
  match v with
  | VFloat t => int_of_float t
  | VInt z => if (int64_min <=? z) && (z <=? int64_max) then z else 0
  | _ => 0
  end.

Definition str (v : value) : string := as_string v.

(** [attrs, _ := payload[key].(map[string]any)]: a nil map when it is not one *)
Definition object_at (m : gmap string value) (key : string) : gmap string value :=
  default ∅ (mget_map m key).

Definition or_else (s t : string) : string := if str_eqb s "" then t else s.

(** The id of [last_commit], or nothing. *)
Definition commit_id (m : gmap string value) : string :=
  match mget_map m "last_commit" with Some c => str (mget c "id") | None => "" end.

Definition mr_event_type (attrs : gmap string value) : string :=
  let action := to_lower (str (mget attrs "action")) in
  let state := to_lower (str (mget attrs "state")) in
  if str_eqb action "close" || str_eqb state "closed" then "merge_request.closed"
  else if str_eqb action "merge" || str_eqb state "merged" then "merge_request.merged"
  else "merge_request.updated".

Definition payload_event (payload : gmap string value) : result MergeRequestEvent :=
  let kind := str (mget payload "object_kind") in
  let deliveryID := or_else (str (mget payload "event_id")) (str (mget payload "delivery_id")) in
  let repo := match mget_map payload "project" with
              | Some p => str (mget p "path_with_namespace")
              | None => ""
              end in
  let changed := match as_list (mget payload "changed_files") with
                 | Some arr => str <$> arr
                 | None => []
                 end in
  if str_eqb kind "merge_request" then
    let attrs := object_at payload "object_attributes" in
    let head := or_else (commit_id attrs) (str (mget payload "head_sha")) in
    Ok (mkEvent deliveryID (mr_event_type attrs) repo (num (mget attrs "iid")) head
          (str (mget attrs "target_branch")) changed)
  else if str_eqb kind "note" then
    let attrs := object_at payload "object_attributes" in
    let note := trim_space (str (mget attrs "note")) in
    if negb (has_prefix note "/thule plan") then Err "unsupported note command"
    else
      let mr := object_at payload "merge_request" in
      let head := or_else (or_else (commit_id mr) (str (mget mr "last_commit")))
                    (str (mget payload "head_sha")) in
      Ok (mkEvent deliveryID "comment.plan" repo (num (mget mr "iid")) head
            (str (mget mr "target_branch")) changed)
  else Err "unsupported event kind".

(** The direct form wins when it names a delivery and a merge request. *)
Definition direct_event (body : string) : option MergeRequestEvent :=
  e ← unmarshal_event body;
  if negb (str_eqb (DeliveryID e) "") && (0 <? MergeReqID e) then Some e else None.

Definition decodeEvent (body : string) : result MergeRequestEvent :=
  match direct_event body with
  | Some e => Ok e
  | None =>
      match unmarshal_map body with
      | Some payload => payload_event payload
      | None => Err (json_error body)
      end
  end.
End Decode.

(** ** Authentication *)

Definition hex_digit (n : N) : ascii := if (n <? 10)%N then byte_of (48 + n) else byte_of (87 + n).

(** [hex.EncodeToString] *)
Fixpoint hex_encode (s : string) : string :=
  match s with
  | EmptyString => ""
  | String a r => String (hex_digit (bval a / 16)) (String (hex_digit (bval a mod 16)) (hex_encode r))
  end.

Definition verifySignature (hmac_sha256 : string -> string -> string) (secret body provided : string) : bool :=
  if str_eqb provided "" then false
  else str_eqb (hex_encode (hmac_sha256 secret body)) provided.

Definition verifyToken (secret provided : string) : bool :=
  if str_eqb provided "" then false else str_eqb secret provided.

(** ** Requests *)

(** The method, the body or the error of reading it, and [Header.Get]. *)
Record Request := mkRequest {
  ReqMethod : string;
  ReqBody : result string;
  ReqHeader : string -> string
}.

Fixpoint firstHeader (r : Request) (keys : list string) : string :=
  match keys with
  | [] => ""
  | k :: rest =>
      let v := trim_space (ReqHeader r k) in
      if str_eqb v "" then firstHeader r rest else v
  end.

Definition delivery_headers : list string :=
  ["X-Gitlab-Event-UUID"; "X-Gitlab-Webhook-UUID"; "X-Request-Id"; "X-Delivery-Id"].

Definition with_delivery (r : Request) (e : MergeRequestEvent) : MergeRequestEvent :=
  if str_eqb (DeliveryID e) "" then
    mkEvent (firstHeader r delivery_headers) (EventType e) (Repository e) (MergeReqID e) (HeadSHA e)
      (BaseRef e) (ChangedFiles e)
  else e.

(** ** The handler *)

(** How serving ends: with an answer, or waiting in the service's [Enqueue]. *)
Inductive served (A : Type) :=
| Answered (status : Z) (text : string) (a : A)
| Serving (event : MergeRequestEvent) (a : A).
Arguments Answered {A} _ _ _.
Arguments Serving {A} _ _.

Definition served_state {A} (o : served A) : A := match o with Answered _ _ a | Serving _ a => a end.

(** [http.Error] ends the text with a newline. *)
Definition http_error {A} (text : string) (status : Z) (a : A) : served A :=
  Answered status (text +:+ String newline "") a.

(** The body of the answer, an object whose status is queued. *)
Definition quote_mark : string := String (byte_of 34) "".
Definition queued_text : string :=
  "{" +:+ quote_mark +:+ "status" +:+ quote_mark +:+ ":" +:+ quote_mark +:+ "queued" +:+ quote_mark +:+ "}".

Section Handler.
Context {D L K Q : Type}.
Context {iD : DeliveryStore D} {iL : Locker L} {iK : DedupeStore K} {iQ : JobQueue Q} {iM : MapOrder}.
Context (hmac_sha256 : string -> string -> string).
Context (json_error : string -> string) (int_of_big : string -> Z).

Record Handler := mkHandler { secret : string; orch : Service D L K Q }.

Definition NewHandler (secret : string) (orch : Service D L K Q) : Handler := mkHandler secret orch.

Definition with_orch (s : Service D L K Q) (h : Handler) : Handler := mkHandler (secret h) s.

(** The check a configured secret asks for. *)
Definition authorized (h : Handler) (r : Request) (body : string) : bool :=
  if str_eqb (secret h) "" then true
  else
    let signature := trim_prefix (ReqHeader r "X-Thule-Signature") "sha256=" in
    let gitlabToken := ReqHeader r "X-Gitlab-Token" in
    verifySignature hmac_sha256 (secret h) body signature || verifyToken (secret h) gitlabToken.

Definition ServeHTTP (ctx : Ctx) (r : Request) (h : Handler) : served Handler :=
  if negb (str_eqb (ReqMethod r) "POST") then http_error "method not allowed" 405 h
  else match ReqBody r with
  | Err _ => http_error "failed to read request" 400 h
  | Ok body =>
      if negb (authorized h r body) then http_error "invalid signature" 401 h
      else match decodeEvent json_error int_of_big body with
      | Err _ => http_error "invalid payload" 400 h
      | Ok decoded =>
          let event := with_delivery r decoded in
          match HandleMergeRequestEvent ctx event (orch h) with
          | Finished (Err e) s => http_error ("event rejected: " +:+ e) 400 (with_orch s h)
          | Finished (Ok _) s => Answered 202 queued_text (with_orch s h)
          | Waiting s => Serving event (with_orch s h)
          end
      end
  end.
End Handler.
