(* ===== verification/WebhookFacts.v ===== *)
(** * internal/webhook/handler.go: theorems

    A configured secret guards everything behind the webhook; the answer tells the
    sender whether to send again; a history of requests is a history of the service. *)

From Stdlib Require Import Ascii.
From stdpp Require Import options relations.
From S2P Require Import Prelude GoStrings GoPath Value JsonNumber Json JsonFacts JsonValid JsonStruct.
From S2P Require Import Context Project Lock Storage Queue Service ServiceFacts Handlers HandlersFacts Webhook.

Section WebhookFacts.
#[local] Set Default Proof Using "Type*".
Context {D L K Q : Type}.
Context {iD : DeliveryStore D} {iL : Locker L} {iK : DedupeStore K} {iQ : JobQueue Q}.
Context {sD : DeliverySpec D} {sL : LockerSpec L} {sK : DedupeSpec K} {sQ : QueueSpec Q} {iM : MapOrder}.
Context (hmac_sha256 : string -> string -> string).
Context (json_error : string -> string) (int_of_big : string -> Z).
Implicit Types (h : Handler (D := D) (L := L) (K := K) (Q := Q)) (r : Request) (s : Service D L K Q).

Abbreviation serve := (ServeHTTP hmac_sha256 json_error int_of_big).

(** ** Requests *)

(** The request proves knowledge of the secret, if one is configured: it signs its body
    or carries the secret as its token. *)
Definition authentic (sec : string) r : Prop :=
  sec = "" \/ ReqHeader r "X-Gitlab-Token" = sec \/
  exists body, ReqBody r = Ok body /\
    trim_prefix (ReqHeader r "X-Thule-Signature") "sha256=" = hex_encode (hmac_sha256 sec body).

(** The event a request stands for. *)
Definition carries r event : Prop :=
  ReqMethod r = "POST" /\
  exists body e, ReqBody r = Ok body /\ decodeEvent json_error int_of_big body = Ok e /\
    event = with_delivery r e.

Lemma authorized_authentic h r body :
  ReqBody r = Ok body -> authorized hmac_sha256 h r body = true -> authentic (secret h) r.
Proof using Type.
  intros Hb. unfold authorized, verifySignature, verifyToken, authentic.
  destruct (str_eqb (secret h) "") eqn:Es; [apply str_eqb_eq in Es; auto|].
  intros [H|H]%orb_true_iff; case_match; try done; apply str_eqb_eq in H; eauto.
Qed.

(** ** What serving does *)

(** Either nothing was changed and the answer is an error, or the request was authentic
    and its event went through the service. *)
Inductive serve_outcome ctx r h : served (Handler (D := D) (L := L) (K := K) (Q := Q)) -> Prop :=
| so_refused status text : 400 <= status < 500 -> serve_outcome ctx r h (Answered status text h)
| so_rejected event e s text :
    authentic (secret h) r -> carries r event ->
    HandleMergeRequestEvent ctx event (orch h) = Finished (Err e) s ->
    serve_outcome ctx r h (Answered 400 text (with_orch s h))
| so_accepted event s text :
    authentic (secret h) r -> carries r event ->
    HandleMergeRequestEvent ctx event (orch h) = Finished (Ok tt) s ->
    serve_outcome ctx r h (Answered 202 text (with_orch s h))
| so_waiting event s :
    authentic (secret h) r -> carries r event ->
    HandleMergeRequestEvent ctx event (orch h) = Waiting s ->
    serve_outcome ctx r h (Serving event (with_orch s h)).

Lemma serve_outcomes ctx r h : serve_outcome ctx r h (serve ctx r h).
Proof.
  unfold ServeHTTP, http_error. destruct (str_eqb (ReqMethod r) "POST") eqn:Em; cbn [negb];
    [|by apply so_refused].
  apply str_eqb_eq in Em. destruct (ReqBody r) as [body|e] eqn:Eb; [|by apply so_refused].
  destruct (authorized hmac_sha256 h r body) eqn:Ea; cbn [negb]; [|by apply so_refused].
  apply (authorized_authentic _ _ _ Eb) in Ea.
  destruct (decodeEvent json_error int_of_big body) as [e|e] eqn:Ed; [|by apply so_refused].
  assert (carries r (with_delivery r e)) as Hc by (split; eauto).
  destruct (HandleMergeRequestEvent ctx (with_delivery r e) (orch h)) as [[[]|err] s|s] eqn:Eh.
  - by eapply so_accepted.
  - by eapply so_rejected.
  - by eapply so_waiting.
Qed.

(** ** Serving twice *)

(** A request that reaches the service. *)
Definition reaches r h event : Prop :=
  ReqMethod r = "POST" /\
  exists body e, ReqBody r = Ok body /\ authorized hmac_sha256 h r body = true /\
    decodeEvent json_error int_of_big body = Ok e /\ event = with_delivery r e.

Lemma serve_reaches ctx r h event s :
  reaches r h event -> HandleMergeRequestEvent ctx event (orch h) = Finished (Ok tt) s ->
  serve ctx r h = Answered 202 queued_text (with_orch s h).
Proof.
  intros (Hm & body & e & Hb & Ha & Hd & ->) Hh. unfold ServeHTTP.
  by rewrite Hm, Hb, Ha, Hd, Hh.
Qed.

Lemma serve_accepted ctx r h text h' :
  serve ctx r h = Answered 202 text h' ->
  exists event s, reaches r h event /\ h' = with_orch s h /\
    HandleMergeRequestEvent ctx event (orch h) = Finished (Ok tt) s.
Proof.
  unfold ServeHTTP, http_error, reaches. destruct (str_eqb (ReqMethod r) "POST") eqn:Em; [|done].
  apply str_eqb_eq in Em. destruct (ReqBody r) as [body|]; [|done].
  destruct (authorized hmac_sha256 h r body) eqn:Ea; [|done].
  destruct (decodeEvent json_error int_of_big body) as [e|] eqn:Ed; [|done]. cbn [negb].
  destruct (HandleMergeRequestEvent ctx (with_delivery r e) (orch h)) as [[[]|err] s|s] eqn:Eh; [|done..].
  intros [= _ <-]. exists (with_delivery r e), s. split; [|done]. split; eauto 10.
Qed.

Lemma reaches_with_orch r h s event : reaches r h event -> reaches r (with_orch s h) event.
Proof. done. Qed.

Lemma reaches_carries r h event : reaches r h event -> authentic (secret h) r /\ carries r event.
Proof using Type.
  intros (Hm & body & e & Hb & Ha & Hd & ->). split; [by eapply authorized_authentic|]. split; eauto.
Qed.

(** ** Histories *)

(** Requests arrive, those that reach the service start a handler there, and the
    handlers and the consumers of the queue move by single store calls. *)
Inductive webhook_run h : list Request -> system (D := D) (L := L) (K := K) (Q := Q) -> Prop :=
| wrun_nil : webhook_run h [] (start (orch h))
| wrun_reaches reqs c r event :
    webhook_run h reqs c -> reaches r (with_orch (shared c) h) event ->
    webhook_run h (reqs ++ [r]) (arrive event c)
| wrun_refused reqs c r :
    webhook_run h reqs c -> (forall event, ~ reaches r (with_orch (shared c) h) event) ->
    webhook_run h (reqs ++ [r]) c
| wrun_moves reqs c c' : webhook_run h reqs c -> sys_move c c' -> webhook_run h reqs c'.

(** A request that does not reach the service is answered with an error. *)
Lemma refused_answer ctx r h :
  (forall event, ~ reaches r h event) ->
  exists status text, 400 <= status < 500 /\ serve ctx r h = Answered status text h.
Proof.
  intros Hno. unfold ServeHTTP, http_error. destruct (str_eqb (ReqMethod r) "POST") eqn:Em; cbn [negb];
    [|do 2 eexists; split; [|reflexivity]; lia].
  apply str_eqb_eq in Em. destruct (ReqBody r) as [body|e] eqn:Eb; [|do 2 eexists; split; [|reflexivity]; lia].
  destruct (authorized hmac_sha256 h r body) eqn:Ea; cbn [negb]; [|do 2 eexists; split; [|reflexivity]; lia].
  destruct (decodeEvent json_error int_of_big body) as [e|e] eqn:Ed; [|do 2 eexists; split; [|reflexivity]; lia].
  destruct (Hno (with_delivery r e)). split; [done|]. by exists body, e.
Qed.

Lemma webhook_run_reachable h reqs c : webhook_run h reqs c -> reachable (orch h) c.
Proof.
  induction 1 as [|reqs c r event _ IH _|reqs c r _ IH _|reqs c c' _ IH Hm]; [constructor|..].
  - eapply rtc_r; [exact IH|apply step_arrives].
  - exact IH.
  - eapply rtc_r; [exact IH|by apply step_moves].
Qed.

(** The event comes from one of the requests, an authentic one. *)
Definition from_authentic (sec : string) (reqs : list Request) (event : MergeRequestEvent) : Prop :=
  exists r, r ∈ reqs /\ authentic sec r /\ carries r event.

Lemma from_authentic_app sec reqs r event :
  from_authentic sec reqs event -> from_authentic sec (reqs ++ [r]) event.
Proof using Type. intros (r0 & Hr & H). exists r0. split; [|done]. apply elem_of_app. by left. Qed.

Lemma webhook_run_sources h reqs c :
  webhook_run h reqs c ->
  (forall i event p, handlers c !! i = Some (event, p) -> from_authentic (secret h) reqs event) /\
  (forall job, job ∈ accepted c -> exists event, job = job_of event /\ from_authentic (secret h) reqs event).
Proof.
  induction 1 as [|reqs c r event _ [IHh IHa] Hr|reqs c r _ [IHh IHa] _|reqs c c' _ [IHh IHa] Hm].
  - by split; [|intros ? ?%elem_of_nil].
  - split.
    + intros i e p [Hi|[-> _]]%arrived_handler; [by eauto using from_authentic_app|].
      apply reaches_carries in Hr as [Ha Hc]. exists r. split; [|done]. apply elem_of_app. right. by left.
    + intros job (e & -> & He)%IHa. eauto using from_authentic_app.
  - split; [by eauto using from_authentic_app|]. intros job (e & -> & He)%IHa. eauto using from_authentic_app.
  - destruct Hm as [ctx i event at_ next s' new Hi Hadv Hnew|ctx job q Hq]; [|done]. split; cbn.
    + intros k e p Hk. destruct (moved_handler _ _ _ _ _ _ _ _ Hi Hk) as [(-> & -> & _)|[_ Hk']]; eauto.
    + intros job [Hin|Hin]%elem_of_app; [by eauto|]. exists event. split; [|by eauto].
      by eapply advance_new.
Qed.

(** ** Theorems *)

(** What enters through the webhook is authentic and enters once. However the
    handlers of requests and the consumers of the queue interleave, every job the queue accepted is the event
    of a request that signed its body with the configured secret or carried the secret
    as its token, and no two jobs have the same delivery id. *)
Theorem webhook_jobs h reqs c :
  webhook_run h reqs c ->
  NoDup (JobDeliveryID <$> accepted c) /\
  forall job, job ∈ accepted c -> exists r event, r ∈ reqs /\ authentic (secret h) r /\
    carries r event /\ job = job_of event.
Proof.
  intros Hrun. split; [by eapply once_accepted, once_reachable, webhook_run_reachable|].
  intros job Hin. apply webhook_run_sources in Hrun as [_ Ha].
  destruct (Ha job Hin) as (event & -> & r & Hr & Hau & Hc). by exists r, event.
Qed.

(** C25: a request that does not prove knowledge of a configured secret is answered with
    an error and changes nothing behind the webhook. *)
Theorem webhook_guarded ctx r h :
  ~ authentic (secret h) r ->
  exists status text, 400 <= status < 500 /\ ServeHTTP hmac_sha256 json_error int_of_big ctx r h =
    Answered status text h.
Proof.
  intros Hno. pose proof (serve_outcomes ctx r h) as Ho.
  inversion Ho as [status text Hst Heq| | |]; [by exists status, text|done..].
Qed.

(** C15: the answer says whether to send again. After 202 the event's delivery is known,
    and the same request sent again is answered 202 and changes neither queue nor locks;
    any other answer is a client error, and no job was queued and every delivery is in
    the state it was in. *)
Theorem webhook_answers ctx r h status text h' :
  ServeHTTP hmac_sha256 json_error int_of_big ctx r h = Answered status text h' ->
  if decide (status = 202) then
    exists event, carries r event /\ is_Some (delivered (orch h') (DeliveryID event)) /\
      forall ctx2, exists h2, ServeHTTP hmac_sha256 json_error int_of_big ctx2 r h' =
        Answered 202 queued_text h2 /\
        pending_jobs (orch h2) = pending_jobs (orch h') /\ locker (orch h2) = locker (orch h')
  else
    400 <= status < 500 /\ (forall id, delivered (orch h') id = delivered (orch h) id) /\
    pending_jobs (orch h') = pending_jobs (orch h).
Proof.
  intros Hs. case_decide as Hst.
  - subst. apply serve_accepted in Hs as (event & s & Hr & -> & Hh). exists event.
    pose proof (handle_ok_known _ _ _ _ Hh) as Hk. destruct (handle_ok_complete _ _ _ _ Hh) as [Hid Hc].
    split; [by apply (reaches_carries _ h)|]. split; [exact Hk|]. intros ctx2.
    destruct (handle_again ctx2 event s Hid Hc Hk) as (s2 & Hh2 & Hj & Hl & _).
    exists (with_orch s2 h). split; [|done].
    by apply (serve_reaches ctx2 r (with_orch s h) event s2).
  - pose proof (serve_outcomes ctx r h) as Ho. rewrite Hs in Ho.
    inversion Ho as [| event e s ? Ha Hc Hh| |]; subst; [done| |done].
    split; [lia|]. pose proof (handle_outcomes ctx event (orch h)) as Hho. rewrite Hh in Hho.
    inversion Hho as [? ? Hm Hj| | | |]; subst. split; [|done]. intros id. cbn [orch with_orch].
    rewrite Hm. by case_decide; subst.
Qed.
End WebhookFacts.

(** ** Decoding *)

Lemma unmarshal_map_any body m :
  unmarshal_map body = Some m -> m = ∅ \/ unmarshal_any body = Some (VMap m).
Proof.
  unfold unmarshal_map, unmarshal_any. destruct (parse_json body) as [j|]; [|done].
  cbn [mbind option_bind]. destruct j as [| | | | |l]; try done; [intros [= <-]; by left|].
  intros H. right. cbn. by rewrite H.
Qed.

Lemma str_text v t : t <> "" -> str v = t -> v = VString t.
Proof. intros Ht <-. by destruct v. Qed.

Lemma mget_text m k t : t <> "" -> str (mget m k) = t -> m !! k = Some (VString t).
Proof.
  intros Ht H%str_text; [|done]. unfold mget in H. destruct (m !! k); [|done]. cbn in H. by subst.
Qed.

(** What the attributes of a merge request say about its end. *)
Definition says_ended (attrs : gmap string value) : Prop :=
  to_lower (str (mget attrs "action")) ∈ ["close"; "merge"] \/
  to_lower (str (mget attrs "state")) ∈ ["closed"; "merged"].

Lemma mr_event_type_close attrs : isCloseEvent (mr_event_type attrs) = true <-> says_ended attrs.
Proof.
  unfold mr_event_type, says_ended. rewrite !elem_of_cons, !elem_of_nil.
  generalize (to_lower (str (mget attrs "action"))) (to_lower (str (mget attrs "state"))).
  intros action state.
  destruct (str_eqb action "close") eqn:E1, (str_eqb state "closed") eqn:E2,
    (str_eqb action "merge") eqn:E3, (str_eqb state "merged") eqn:E4; cbn [orb];
    rewrite ?str_eqb_eq, ?str_eqb_neq in *;
    first [split; [intros _; tauto|done] | split; [done|tauto]].
Qed.

(** How a GitLab document describes an event. *)
Definition describes (int_of_big : string -> Z) (m : gmap string value) (event : MergeRequestEvent) : Prop :=
  let attrs := object_at m "object_attributes" in
  (m !! "object_kind" = Some (VString "merge_request") /\
   (isCloseEvent (EventType event) = true <-> says_ended attrs) /\
   MergeReqID event = num int_of_big (mget attrs "iid")) \/
  (m !! "object_kind" = Some (VString "note") /\ EventType event = "comment.plan" /\
   (exists rest, trim_space (str (mget attrs "note")) = "/thule plan" +:+ rest) /\
   MergeReqID event = num int_of_big (mget (object_at m "merge_request") "iid")).

Lemma payload_event_describes int_of_big m event :
  payload_event int_of_big m = Ok event -> describes int_of_big m event.
Proof.
  unfold payload_event, describes. cbn zeta.
  destruct (str_eqb (str (mget m "object_kind")) "merge_request") eqn:E1.
  { apply str_eqb_eq, mget_text in E1; [|done]. intros [= <-]. left. split; [done|].
    split; [apply mr_event_type_close|done]. }
  destruct (str_eqb (str (mget m "object_kind")) "note") eqn:E2; [|done].
  apply str_eqb_eq, mget_text in E2; [|done].
  destruct (has_prefix _ "/thule plan") eqn:E3; [|done]. apply has_prefix_spec in E3.
  intros [= <-]. right. split_and!; done.
Qed.

(** C26: an event decoded from a request is either one the sender spelled out, with its
    delivery and its merge request, or comes from a GitLab document: from a merge
    request hook, and then the service treats it as the end of the merge request
    exactly when its action or its state says so; or from a comment that gives the plan
    command. Every other body is refused. *)
Theorem decodeEvent_kinds json_error int_of_big body event :
  decodeEvent json_error int_of_big body = Ok event ->
  (unmarshal_event body = Some event /\ DeliveryID event <> "" /\ 0 < MergeReqID event) \/
  exists m, unmarshal_any body = Some (VMap m) /\ describes int_of_big m event.
Proof.
  unfold decodeEvent. destruct (direct_event body) as [e|] eqn:Ed.
  - intros [= <-]. left. unfold direct_event in Ed. apply bind_Some in Ed as (e' & He & Hif).
    destruct (str_eqb (DeliveryID e') "") eqn:E1, (Z.ltb_spec 0 (MergeReqID e')); simplify_eq/=.
    split; [done|]. split; [by apply str_eqb_neq|done].
  - destruct (unmarshal_map body) as [m|] eqn:Em; [|done]. intros H. right. exists m.
    split; [|by apply payload_event_describes].
    destruct (unmarshal_map_any _ _ Em) as [->|Hm]; done.
Qed.

(** ** Instances *)

(** JSON texts are written below with single quotes. *)
Fixpoint with_quotes (s : string) : string :=
  match s with
  | EmptyString => ""
  | String a r => String (if byte_is 39 a then byte_of 34 else a) (with_quotes r)
  end.

Definition toy_hmac (key text : string) : string := key +:+ text.
Definition no_error (body : string) : string := "invalid JSON".
Definition min_int (t : string) : Z := int64_min.

Definition opened_body : string := with_quotes
  "{'object_kind':'merge_request','event_id':'e1','project':{'path_with_namespace':'group/app'},'changed_files':['apps/web/x.yaml'],'object_attributes':{'iid':7,'last_commit':{'id':'abc'},'action':'update'}}".
Definition note_body : string := with_quotes
  "{'object_kind':'note','event_id':'e2','object_attributes':{'note':' /thule plan '},'merge_request':{'iid':7,'last_commit':{'id':'abc'},'target_branch':'main'}}".

Example decode_opened :
  decodeEvent no_error min_int opened_body =
  Ok (mkEvent "e1" "merge_request.updated" "group/app" 7 "abc" "" ["apps/web/x.yaml"]).
Proof. vm_compute. reflexivity. Qed.

Example decode_note :
  decodeEvent no_error min_int note_body = Ok (mkEvent "e2" "comment.plan" "" 7 "abc" "main" []).
Proof. vm_compute. reflexivity. Qed.

(** A comment that only begins like the command is taken for it. *)
Example note_prefix_accepted :
  is_ok (decodeEvent no_error min_int (with_quotes
    "{'object_kind':'note','object_attributes':{'note':'/thule planned for tomorrow'}}")) = true.
Proof. vm_compute. reflexivity. Qed.

Definition guarded : Handler (D := MemoryDeliveryStore) (L := MemoryLocker) (K := MemoryDedupeStore)
    (Q := MemoryQueue) := mkHandler "s3cret" idle.
Definition token_request (token : string) : Request :=
  mkRequest "POST" (Ok opened_body) (fun k => if str_eqb k "X-Gitlab-Token" then token else "").

Abbreviation mem_serve := (ServeHTTP (iM := natural_order) toy_hmac no_error min_int).

Definition status_of {A} (o : served A) : option Z :=
  match o with Answered st _ _ => Some st | Serving _ _ => None end.

Lemma status_accepted {A} (o : served A) :
  status_of o = Some 202 -> exists text, o = Answered 202 text (served_state o).
Proof. destruct o as [st text a|]; intros [= ->]. by exists text. Qed.

Definition sample_request : Request := token_request "s3cret".
Definition sample_queued : MergeRequestEvent :=
  mkEvent "e1" "merge_request.updated" "group/app" 7 "abc" "" ["apps/web/x.yaml"].

(** The handlers of a system, each run to its end, in turn. *)
Definition sample_run : system (D := MemoryDeliveryStore) (L := MemoryLocker) (K := MemoryDedupeStore)
    (Q := MemoryQueue) := run_handler (iM := natural_order) 8 0 (at_time 1) (arrive sample_queued (start idle)).

Lemma sample_run_ok :
  webhook_run (iM := natural_order) toy_hmac no_error min_int guarded [sample_request] sample_run.
Proof.
  apply (run_handler_ind (iM := natural_order)
    (webhook_run (iM := natural_order) toy_hmac no_error min_int guarded [sample_request])).
  - intros c c' Hc Hm. exact (wrun_moves _ _ _ guarded _ c c' Hc Hm).
  - apply (wrun_reaches _ _ _ guarded []); [constructor|]. split; [reflexivity|].
    exists opened_body, sample_queued.
    split; [reflexivity|]. split; [reflexivity|]. split; [vm_compute; reflexivity|reflexivity].
Qed.

Lemma webhook_jobs_witness :
  length (accepted sample_run) = 1%nat /\ NoDup (JobDeliveryID <$> accepted sample_run).
Proof.
  split; [vm_compute; reflexivity|].
  exact (proj1 (webhook_jobs (iM := natural_order) toy_hmac no_error min_int guarded _ _ sample_run_ok)).
Defined.

Lemma webhook_guarded_witness :
  exists status text, 400 <= status < 500 /\
    mem_serve (at_time 1) (token_request "guess") guarded = Answered status text guarded.
Proof.
  apply (webhook_guarded (iM := natural_order) toy_hmac no_error min_int (at_time 1) (token_request "guess")).
  intros [H|[H|(body & Hb & H)]]; [discriminate H|discriminate H|].
  injection Hb as <-. discriminate H.
Defined.

Lemma webhook_answers_witness :
  exists h2, mem_serve (at_time 2) (token_request "s3cret")
      (served_state (mem_serve (at_time 1) (token_request "s3cret") guarded)) = Answered 202 queued_text h2 /\
    pending_jobs (orch h2) =
      pending_jobs (orch (served_state (mem_serve (at_time 1) (token_request "s3cret") guarded))).
Proof.
  destruct (status_accepted (mem_serve (at_time 1) (token_request "s3cret") guarded)) as [text E];
    [vm_compute; reflexivity|].
  destruct (webhook_answers (iM := natural_order) toy_hmac no_error min_int (at_time 1)
    (token_request "s3cret") guarded 202 text _ E) as (event & _ & _ & Hagain).
  destruct (Hagain (at_time 2)) as (h2 & H1 & H2 & _). exists h2. split; [exact H1|exact H2].
Defined.

Lemma decodeEvent_kinds_witness :
  exists m, unmarshal_any opened_body = Some (VMap m) /\
    describes min_int m (mkEvent "e1" "merge_request.updated" "group/app" 7 "abc" "" ["apps/web/x.yaml"]).
Proof.
  destruct (decodeEvent_kinds no_error min_int opened_body _ decode_opened) as [(H & _)|H]; [|exact H].
  vm_compute in H. discriminate H.
Defined.
