(* ===== verification/RunStore.v ===== *)
(** * Plan runs: internal/run/store.go

    [RunStore] is the interface the planner is given. The state of a [MemoryStore]
    includes the clock it reads: the time of its [n]-th reading, and how many it has
    made. Slicing out of range panics, which is [None]. *)

From stdpp Require Import options.
From S2P Require Import Prelude GoStrings.

Inductive State := StateRunning | StateSuccess | StateFailed | StateCanceled.

#[export] Instance State_eq_dec : EqDecision State.
Proof. solve_decision. Defined.

Record RunRecord := mkRun {
  RunID : Z;
  RunMR : Z;
  RunSHA : string;
  RunProject : string;
  RunState : State;
  CreatedAt : Z;
  UpdatedAt : Z;
  RunError : string
}.

Record Artifact := mkArtifact { ArtifactRun : Z; ArtifactName : string; ArtifactData : string }.

(** ** The interface *)

Class RunStore (R : Type) := {
  Start : Z -> string -> string -> R -> RunRecord * R;
  Complete : Z -> State -> string -> R -> R;
  ListRuns : Z -> Z -> Z -> R -> option (list RunRecord);
  AddArtifact : Z -> string -> string -> R -> R;
  ListArtifacts : Z -> Z -> Z -> R -> option (list Artifact);
  SetLatestSHA : Z -> string -> R -> R;
  IsStale : Z -> string -> R -> bool
}.

(** What the planner relies on: the state of every run, and room for [n] more ids. *)
Class RunStoreSpec (R : Type) `{RunStore R} := {
  run_state : R -> Z -> option State;
  run_room : nat -> R -> Prop;
  start_new n mr sha project r :
    run_room (S n) r ->
    let '(rr, r') := Start mr sha project r in
    0 < RunID rr /\ run_state r (RunID rr) = None /\ run_room n r' /\
    (forall id, run_state r' id = if decide (id = RunID rr) then Some StateRunning else run_state r id) /\
    (forall mr' sha', IsStale mr' sha' r' = IsStale mr' sha' r);
  complete_state id st e r id' :
    run_state (Complete id st e r) id' =
      if decide (id' = id) then (fun _ => st) <$> run_state r id else run_state r id';
  artifact_state id n d r id' : run_state (AddArtifact id n d r) id' = run_state r id';
  latest_state mr sha r id : run_state (SetLatestSHA mr sha r) id = run_state r id;
  room_less n n' r : (n' <= n)%nat -> run_room n r -> run_room n' r;
  complete_room n id st e r : run_room n r -> run_room n (Complete id st e r);
  artifact_room n id m d r : run_room n r -> run_room n (AddArtifact id m d r);
  latest_room n mr sha r : run_room n r -> run_room n (SetLatestSHA mr sha r);
  stale_latest mr sha sha' r :
    IsStale mr sha (SetLatestSHA mr sha' r) = negb (str_eqb sha' "") && negb (str_eqb sha' sha)
}.

(** ** MemoryStore *)

Record MemoryStore := mkStore {
  nextRunID : Z;
  runs : gmap Z RunRecord;
  byMR : gmap Z (list Z);
  artifacts : gmap Z (list Artifact);
  latestSHA : gmap Z string;
  clock : nat -> Z;
  readings : nat
}.

Definition NewMemoryStore (clock : nat -> Z) : MemoryStore := mkStore 1 ∅ ∅ ∅ ∅ clock 0.

Definition mem_start (mergeReqID : Z) (sha project : string) (s : MemoryStore) : RunRecord * MemoryStore :=
  let now := clock s (readings s) in
  let r := mkRun (nextRunID s) mergeReqID sha project StateRunning now now "" in
  (r, mkStore (wrap64 (nextRunID s + 1)) (<[RunID r := r]> (runs s))
        (<[mergeReqID := default [] (byMR s !! mergeReqID) ++ [RunID r]]> (byMR s))
        (artifacts s) (latestSHA s) (clock s) (readings s + 1)).

Definition mem_complete (runID : Z) (state : State) (errMsg : string) (s : MemoryStore) : MemoryStore :=
  match runs s !! runID with
  | None => s
  | Some r =>
      let r := mkRun (RunID r) (RunMR r) (RunSHA r) (RunProject r) state (CreatedAt r)
                 (clock s (readings s)) errMsg in
      mkStore (nextRunID s) (<[runID := r]> (runs s)) (byMR s) (artifacts s) (latestSHA s)
        (clock s) (readings s + 1)
  end.

Definition zero_run : RunRecord := mkRun 0 0 "" "" StateRunning 0 0 "".

(** The bounds of a page of a list of [n] items: [None] past the end, otherwise
    [start] and [end] of the slice, in 64-bit arithmetic. *)
Definition page_bounds (page pageSize n : Z) : option (Z * Z) :=
  let pageSize := if pageSize <=? 0 then 20 else pageSize in
  let page := if page <=? 0 then 1 else page in
  let start := wrap64 (wrap64 (page - 1) * pageSize) in
  if n <=? start then None
  else
    let stop := wrap64 (start + pageSize) in
    Some (start, if n <? stop then n else stop).

(** [items[start:end]]: [None] is the run-time panic. *)
Definition slice {A} (items : list A) (start stop : Z) : option (list A) :=
  if (start <? 0) || (stop <? start) then None
  else Some (take (Z.to_nat (stop - start)) (drop (Z.to_nat start) items)).

Definition paged {A} (page pageSize : Z) (items : list A) : option (list A) :=
  match page_bounds page pageSize (Z.of_nat (length items)) with
  | None => Some []
  | Some (start, stop) => slice items start stop
  end.

Definition mem_list_runs (mergeReqID page pageSize : Z) (s : MemoryStore) : option (list RunRecord) :=
  let ids := merge_sort Z.ge (default [] (byMR s !! mergeReqID)) in
  match paged page pageSize ids with
  | Some sel => Some (map (fun id => default zero_run (runs s !! id)) sel)
  | None => None
  end.

Definition mem_add_artifact (runID : Z) (name data : string) (s : MemoryStore) : MemoryStore :=
  mkStore (nextRunID s) (runs s) (byMR s)
    (<[runID := default [] (artifacts s !! runID) ++ [mkArtifact runID name data]]> (artifacts s))
    (latestSHA s) (clock s) (readings s).

Definition mem_list_artifacts (runID page pageSize : Z) (s : MemoryStore) : option (list Artifact) :=
  paged page pageSize (default [] (artifacts s !! runID)).

Definition mem_set_latest (mergeReqID : Z) (sha : string) (s : MemoryStore) : MemoryStore :=
  mkStore (nextRunID s) (runs s) (byMR s) (artifacts s) (<[mergeReqID := sha]> (latestSHA s))
    (clock s) (readings s).

Definition mem_is_stale (mergeReqID : Z) (sha : string) (s : MemoryStore) : bool :=
  let latest := default "" (latestSHA s !! mergeReqID) in
  negb (str_eqb latest "") && negb (str_eqb latest sha).

#[export] Instance MemoryStore_RunStore : RunStore MemoryStore := {|
  Start := mem_start; Complete := mem_complete; ListRuns := mem_list_runs;
  AddArtifact := mem_add_artifact; ListArtifacts := mem_list_artifacts;
  SetLatestSHA := mem_set_latest; IsStale := mem_is_stale
|}.

(** ** Invariant *)

(** Run ids are positive and below the next one, the lists of ids are increasing and
    name runs of their merge request. *)
Definition store_wf (s : MemoryStore) : Prop :=
  1 <= nextRunID s /\
  (forall id r, runs s !! id = Some r -> 1 <= id < nextRunID s /\ RunID r = id) /\
  (forall mr ids, byMR s !! mr = Some ids ->
     StronglySorted Z.lt ids /\
     forall id, id ∈ ids -> exists r, runs s !! id = Some r /\ RunMR r = mr).

Lemma NewMemoryStore_wf clk : store_wf (NewMemoryStore clk).
Proof. split_and!; cbn; [done| |]; intros; by rewrite lookup_empty in *. Qed.

Lemma StronglySorted_snoc {A} (R : relation A) (l : list A) x :
  StronglySorted R l -> (forall y, y ∈ l -> R y x) -> StronglySorted R (l ++ [x]).
Proof.
  induction 1 as [|y l Hs IH Hf]; intros Hx; [by repeat constructor|]. cbn. constructor.
  - apply IH. intros z Hz. apply Hx, elem_of_cons. by right.
  - apply Forall_app. split; [done|]. constructor; [|done]. apply Hx, elem_of_cons. by left.
Qed.

Lemma mem_start_wf mr sha project s :
  store_wf s -> nextRunID s < int64_max -> store_wf (mem_start mr sha project s).2.
Proof.
  intros (Hn & Hr & Hb) Hmax. unfold mem_start. cbn.
  assert (wrap64 (nextRunID s + 1) = nextRunID s + 1) as Hw
    by (apply wrap64_id; unfold in_int64, int64_min; lia).
  split_and!; cbn; rewrite ?Hw.
  - lia.
  - intros id r. rewrite lookup_insert. case_decide; [intros [= <-]; subst; cbn; lia|].
    intros Hr'. destruct (Hr id r Hr'). lia.
  - intros mr' ids. rewrite lookup_insert. case_decide as Hmr.
    + subst mr'. intros [= <-]. destruct (byMR s !! mr) as [l|] eqn:El; cbn.
      * destruct (Hb mr l El) as [Hs Hin]. split.
        -- apply StronglySorted_snoc; [done|]. intros y (r & Hy & _)%Hin. apply Hr in Hy. lia.
        -- intros id [Hid|Hid]%elem_of_app.
           ++ destruct (Hin id Hid) as (r & Hr' & Hmr). exists r. split; [|done].
              rewrite lookup_insert_ne; [done|]. intros <-. apply Hr in Hr'. lia.
           ++ apply list_elem_of_singleton in Hid as ->. eexists. by rewrite lookup_insert_eq.
      * split; [by repeat constructor|]. intros id Hid%list_elem_of_singleton. subst.
        eexists. by rewrite lookup_insert_eq.
    + intros Hl. destruct (Hb mr' ids Hl) as [Hs Hin]. split; [done|]. intros id Hid.
      destruct (Hin id Hid) as (r & Hr' & Hmr'). exists r. split; [|done].
      rewrite lookup_insert_ne; [done|]. intros <-. apply Hr in Hr'. lia.
Qed.

Lemma mem_complete_wf id st e s : store_wf s -> store_wf (mem_complete id st e s).
Proof.
  intros (Hn & Hr & Hb). unfold mem_complete. destruct (runs s !! id) as [r|] eqn:E; [|done].
  split_and!; cbn; [done| |].
  - intros id' r'. rewrite lookup_insert. case_decide; [|apply Hr]. intros [= <-]; subst. cbn.
    by apply Hr in E.
  - intros mr ids Hl. destruct (Hb mr ids Hl) as [Hs Hin]. split; [done|]. intros id' Hid.
    destruct (Hin id' Hid) as (r' & Hr' & Hmr). destruct (decide (id' = id)) as [->|Hne].
    + rewrite lookup_insert_eq. eexists. split; [done|]. cbn. congruence.
    + exists r'. by rewrite lookup_insert_ne.
Qed.

#[export] Program Instance MemoryStore_Spec : RunStoreSpec MemoryStore := {|
  run_state s id := RunState <$> runs s !! id;
  run_room n s := store_wf s /\ nextRunID s + Z.of_nat n <= int64_max
|}.
Next Obligation.
  intros n mr sha project s [Hwf Hroom]. cbn [Start MemoryStore_RunStore].
  pose proof (mem_start_wf mr sha project s Hwf ltac:(lia)) as Hwf'.
  destruct Hwf as (Hn & Hr & _). unfold mem_start in *. cbn in *.
  assert (wrap64 (nextRunID s + 1) = nextRunID s + 1) as Hw
    by (apply wrap64_id; unfold in_int64, int64_min; lia).
  split_and!; [lia| |done|rewrite Hw; lia| |done].
  - destruct (runs s !! nextRunID s) as [r|] eqn:E; [|done]. apply Hr in E. lia.
  - intros id. rewrite lookup_insert. repeat case_decide; subst; done.
Qed.
Next Obligation.
  intros id st e s id'. cbn. unfold mem_complete. destruct (runs s !! id) as [r|] eqn:E.
  - cbn. rewrite lookup_insert. repeat case_decide; subst; done.
  - case_decide; [subst; by rewrite E|done].
Qed.
Next Obligation. done. Qed.
Next Obligation. done. Qed.
Next Obligation. intros n n' s Hle [? ?]. split; [done|lia]. Qed.
Next Obligation.
  intros n id st e s [Hwf Hroom]. split; [by apply mem_complete_wf|]. cbn. unfold mem_complete.
  by destruct (runs s !! id).
Qed.
Next Obligation. intros n id m d s H. exact H. Qed.
Next Obligation. intros n mr sha s H. exact H. Qed.
Next Obligation.
  intros mr sha sha' s. cbn. unfold mem_is_stale. cbn. by rewrite lookup_insert_eq.
Qed.

(** ** Listing *)

(** The runs of a merge request, newest first. *)
Definition history (s : MemoryStore) (mr : Z) : list RunRecord :=
  map (fun id => default zero_run (runs s !! id)) (reverse (default [] (byMR s !! mr))).


Lemma sorted_reverse (l : list Z) : StronglySorted Z.lt l -> merge_sort Z.ge l = reverse l.
Proof.
  intros Hs.
  assert (AntiSymm eq Z.ge) by (intros x y ? ?; lia).
  assert (Transitive Z.ge) by (intros x y z ? ?; lia).
  assert (Total Z.ge) by (intros x y; lia).
  apply (StronglySorted_unique Z.ge).
  - apply StronglySorted_merge_sort; apply _.
  - induction Hs as [|x l Hs IH Hf]; [constructor|]. rewrite reverse_cons. apply StronglySorted_snoc; [done|].
    intros y Hy. rewrite elem_of_reverse in Hy. rewrite Forall_forall in Hf. specialize (Hf y Hy). lia.
  - rewrite merge_sort_Permutation. by rewrite reverse_Permutation.
Qed.

Definition page_or_first (page : Z) : Z := if page <=? 0 then 1 else page.
Definition size_or_default (size : Z) : Z := if size <=? 0 then 20 else size.

Lemma paged_spec {A} page size (items : list A) :
  page_or_first page * size_or_default size <= int64_max ->
  paged page size items =
  Some (take (Z.to_nat (size_or_default size))
         (drop (Z.to_nat ((page_or_first page - 1) * size_or_default size)) items)).
Proof.
  unfold paged, page_bounds. fold (page_or_first page) (size_or_default size).
  assert (0 < page_or_first page) as Hp by (unfold page_or_first; destruct (Z.leb_spec page 0); lia).
  assert (0 < size_or_default size) as Hs by (unfold size_or_default; destruct (Z.leb_spec size 0); lia).
  generalize dependent (page_or_first page). generalize dependent (size_or_default size). clear.
  intros n Hn p Hp Hmax. assert (p <= int64_max) as Hpm by nia.
  assert (wrap64 (p - 1) = p - 1) as -> by (apply wrap64_id; unfold in_int64, int64_min; lia).
  assert (0 <= (p - 1) * n) as H0 by nia.
  assert (wrap64 ((p - 1) * n) = (p - 1) * n) as -> by (apply wrap64_id; unfold in_int64, int64_min; nia).
  assert (wrap64 ((p - 1) * n + n) = (p - 1) * n + n) as -> by (apply wrap64_id; unfold in_int64, int64_min; nia).
  set (start := (p - 1) * n) in *. set (len := Z.of_nat (length items)).
  destruct (Z.leb_spec len start) as [Hl|Hl].
  - rewrite drop_ge by (unfold len in Hl; lia). by rewrite take_nil.
  - unfold slice. rewrite (proj2 (Z.ltb_ge start 0)) by done. cbn [orb].
    destruct (Z.ltb_spec len (start + n)) as [He|He].
    + rewrite (proj2 (Z.ltb_ge len start)) by lia. f_equal.
      rewrite !take_ge; [done|rewrite length_drop; unfold len in *; lia..].
    + rewrite (proj2 (Z.ltb_ge (start + n) start)) by lia. do 2 f_equal. lia.
Qed.

(** C33: listing pages through the runs of a merge request, newest first: a page that
    does not overflow the arithmetic is the corresponding window of the history, with
    page 1 and 20 items for values that are not positive. *)
Theorem ListRuns_window s mr page size :
  store_wf s -> page_or_first page * size_or_default size <= int64_max ->
  mem_list_runs mr page size s =
  Some (take (Z.to_nat (size_or_default size))
         (drop (Z.to_nat ((page_or_first page - 1) * size_or_default size)) (history s mr))).
Proof.
  intros (_ & _ & Hb) Hmax. unfold mem_list_runs, history.
  assert (merge_sort Z.ge (default [] (byMR s !! mr)) = reverse (default [] (byMR s !! mr))) as ->.
  { destruct (byMR s !! mr) as [ids|] eqn:E; [|done]. cbn. apply sorted_reverse. by apply (Hb mr). }
  rewrite paged_spec by done. rewrite <- firstn_map, <- skipn_map. done.
Qed.

(** Starting a run puts it first in the history of its merge request, running,
    with an id no earlier run has, and changes the history of no other; completing a
    run changes its state and error and no other run. *)
Theorem run_history mr sha project s :
  store_wf s -> nextRunID s < int64_max ->
  let '(r, s') := mem_start mr sha project s in
  store_wf s' /\ RunState r = StateRunning /\ runs s !! RunID r = None /\
  (forall mr', history s' mr' = if decide (mr' = mr) then r :: history s mr else history s mr') /\
  forall st e, store_wf (mem_complete (RunID r) st e s') /\
    forall id, (fun x => (RunState x, RunError x)) <$> runs (mem_complete (RunID r) st e s') !! id =
      if decide (id = RunID r) then Some (st, e) else (fun x => (RunState x, RunError x)) <$> runs s !! id.
Proof.
  intros Hwf Hmax. pose proof (mem_start_wf mr sha project s Hwf Hmax) as Hwf'.
  assert (forall id r, runs s !! id = Some r -> id <> nextRunID s) as Hfresh.
  { intros id r Hr. destruct Hwf as (_ & H & _). apply H in Hr. lia. }
  unfold mem_start in *. cbn [snd] in Hwf'. split_and!; [done|done| | |].
  - cbn. destruct (runs s !! nextRunID s) as [x|] eqn:E; [|done]. by destruct (Hfresh _ _ E).
  - intros mr'. unfold history. cbn.
    assert (forall ids : list Z, (forall id, id ∈ ids -> is_Some (runs s !! id)) ->
      map (fun id => default zero_run (<[nextRunID s := mkRun (nextRunID s) mr sha project StateRunning
        (clock s (readings s)) (clock s (readings s)) ""]> (runs s) !! id)) ids =
      map (fun id => default zero_run (runs s !! id)) ids) as Hsame.
    { intros ids Hids. apply map_ext_in. intros id Hid%list_elem_of_In. f_equal.
      rewrite lookup_insert_ne; [done|]. destruct (Hids id Hid) as [x Hx]. intros <-. by destruct (Hfresh _ _ Hx). }
    assert (forall m id, id ∈ reverse (default [] (byMR s !! m)) -> is_Some (runs s !! id)) as Hin.
    { intros m id Hid. rewrite elem_of_reverse in Hid. destruct Hwf as (_ & _ & Hb).
      destruct (byMR s !! m) as [ids|] eqn:E; [|by apply elem_of_nil in Hid].
      destruct (Hb m ids E) as [_ Hr]. destruct (Hr id Hid) as (r & -> & _). eauto. }
    rewrite lookup_insert. destruct (decide (mr = mr')) as [<-|Hne].
    + rewrite decide_True by done. unfold default at 2. cbn [option_rect RunID]. unfold id at 2.
      rewrite reverse_app. cbn [reverse rev_append app map]. rewrite lookup_insert_eq. cbn. f_equal.
      apply Hsame, Hin.
    + rewrite decide_False by done. apply Hsame, Hin.
  - intros st e. split; [by apply mem_complete_wf|]. intros id. unfold mem_complete. cbn.
    rewrite lookup_insert_eq. cbn. rewrite !lookup_insert. repeat case_decide; subst; done.
Qed.

Lemma ListRuns_window_witness :
  mem_list_runs 7 1 20 (mem_start 7 "abc" "web" (NewMemoryStore (fun _ => 5))).2 =
  Some [mkRun 1 7 "abc" "web" StateRunning 5 5 ""].
Proof.
  rewrite ListRuns_window; [reflexivity| |vm_compute; discriminate].
  apply mem_start_wf; [apply NewMemoryStore_wf|vm_compute; reflexivity].
Defined.

Lemma run_history_witness :
  history (mem_start 7 "abc" "web" (NewMemoryStore (fun _ => 5))).2 7 =
  [mkRun 1 7 "abc" "web" StateRunning 5 5 ""].
Proof.
  destruct (run_history 7 "abc" "web" (NewMemoryStore (fun _ => 5))) as (_ & _ & _ & H & _);
    [apply NewMemoryStore_wf|vm_compute; reflexivity|].
  cbn [snd]. rewrite H, decide_True by reflexivity. reflexivity.
Defined.

(** A page number large enough to overflow makes the slice expression panic. *)
Example ListRuns_overflow_panics :
  mem_list_runs 7 (2 ^ 62 + 1) 2 (mem_start 7 "abc" "web" (NewMemoryStore (fun _ => 5))).2 = None.
Proof. vm_compute. reflexivity. Qed.
