(* ===== verification/Vcs.v ===== *)
(** * Comments and status checks: internal/vcs/comments.go, internal/vcs/status.go

    [CommentStore] and [StatusPublisher] are the interfaces the planner is given, with
    an in-memory implementation of each. The comments of a merge request are one slice
    the store owns: [List] hands out copies. *)

From stdpp Require Import options.
From S2P Require Import Prelude GoStrings.

(** ** Comments *)

Record Comment := mkComment {
  CommentID : Z;
  CommentMR : Z;
  CommentBody : string;
  Superseded : bool;
  SupersededBy : Z
}.

Class CommentStore (C : Type) := {
  PostOrSupersede : Z -> string -> C -> Comment * C;
  ListComments : Z -> C -> list Comment
}.

Record MemoryCommentStore := mkComments { nextID : Z; comments : gmap Z (list Comment) }.
Definition NewMemoryCommentStore : MemoryCommentStore := mkComments 1 ∅.

Definition supersede (by_id : Z) (c : Comment) : Comment :=
  if Superseded c then c else mkComment (CommentID c) (CommentMR c) (CommentBody c) true by_id.

Definition mem_post (mergeReqID : Z) (body : string) (s : MemoryCommentStore)
    : Comment * MemoryCommentStore :=
  let newComment := mkComment (nextID s) mergeReqID body false 0 in
  let items := supersede (CommentID newComment) <$> default [] (comments s !! mergeReqID) in
  (newComment,
   mkComments (wrap64 (nextID s + 1)) (<[mergeReqID := items ++ [newComment]]> (comments s))).

Definition mem_comments (mergeReqID : Z) (s : MemoryCommentStore) : list Comment :=
  default [] (comments s !! mergeReqID).

#[export] Instance MemoryComments_Store : CommentStore MemoryCommentStore := {|
  PostOrSupersede := mem_post; ListComments := mem_comments
|}.

(** *** What the planner relies on *)

(** The comments that are not superseded. *)
Definition live (l : list Comment) : list Comment := filter (fun c => Superseded c = false) l.

Class CommentSpec (C : Type) `{CommentStore C} := {
  post_live mr body c :
    let '(new, c') := PostOrSupersede mr body c in
    CommentMR new = mr /\ CommentBody new = body /\ live (ListComments mr c') = [new] /\
    (CommentBody <$> ListComments mr c') = (CommentBody <$> ListComments mr c) ++ [body] /\
    forall mr', mr' <> mr -> ListComments mr' c' = ListComments mr' c
}.

Lemma live_supersede id l : live (supersede id <$> l) = [].
Proof.
  induction l as [|c l IH]; [done|]. rewrite fmap_cons. unfold live in *. rewrite filter_cons.
  rewrite decide_False; [done|]. unfold supersede. destruct (Superseded c) eqn:E; [by rewrite E|done].
Qed.

Lemma live_app l1 l2 : live (l1 ++ l2) = live l1 ++ live l2.
Proof. apply filter_app. Qed.

Lemma supersede_body id (l : list Comment) : CommentBody <$> (supersede id <$> l) = CommentBody <$> l.
Proof.
  induction l as [|c l IH]; [done|]. rewrite !fmap_cons, IH. f_equal. unfold supersede.
  by destruct (Superseded c).
Qed.

#[export] Program Instance MemoryComments_Spec : CommentSpec MemoryCommentStore.
Next Obligation.
  intros mr body s. cbn. unfold mem_comments. cbn. split_and!; [done|done| | |].
  - rewrite lookup_insert_eq. cbn. by rewrite live_app, live_supersede.
  - rewrite lookup_insert_eq. cbn. by rewrite fmap_app, supersede_body.
  - intros mr' Hne. by rewrite lookup_insert_ne.
Qed.

(** *** Histories *)

(** A comment that was replaced names the one that replaced it. *)
Inductive chained : list Comment -> Prop :=
| chained_nil : chained []
| chained_last c : Superseded c = false -> chained [c]
| chained_cons c d l :
    Superseded c = true -> SupersededBy c = CommentID d -> chained (d :: l) -> chained (c :: d :: l).

Lemma chained_post l new :
  chained l -> Superseded new = false -> chained ((supersede (CommentID new) <$> l) ++ [new]).
Proof.
  intros Hc Hn. induction Hc as [|c Hs|c d l Hs Hb Hc IH].
  - by apply chained_last.
  - cbn. unfold supersede. rewrite Hs. by apply chained_cons; [| |apply chained_last].
  - cbn in IH |- *. unfold supersede at 1. rewrite Hs.
    apply chained_cons; [done| |done]. unfold supersede. by destruct (Superseded d).
Qed.

Fixpoint post_all (posts : list (Z * string)) (s : MemoryCommentStore) : MemoryCommentStore :=
  match posts with
  | [] => s
  | (mr, body) :: rest => post_all rest (mem_post mr body s).2
  end.

Definition bodies_for (mr : Z) (posts : list (Z * string)) : list string :=
  (filter (fun p => p.1 = mr) posts).*2.

Lemma post_all_snoc posts mr body s :
  post_all (posts ++ [(mr, body)]) s = (mem_post mr body (post_all posts s)).2.
Proof. revert s. induction posts as [|[m b] posts IH]; intros s; [done|]. cbn. apply IH. Qed.

(** C32: after any sequence of posts to any merge requests, the comments of a merge
    request are its posts in order, each replaced one names its successor, and exactly
    the last is current. *)
Theorem comments_history posts mr :
  let l := mem_comments mr (post_all posts NewMemoryCommentStore) in
  CommentBody <$> l = bodies_for mr posts /\ chained l /\
  CommentBody <$> live l = option_list (last (bodies_for mr posts)).
Proof.
  cbn zeta. induction posts as [|[m b] posts IH] using rev_ind.
  { split_and!; [done|constructor|done]. }
  rewrite post_all_snoc. unfold bodies_for in *. rewrite filter_app, filter_cons, filter_nil. cbn [fst].
  destruct IH as (I1 & I2 & I3). set (s := post_all posts NewMemoryCommentStore) in *.
  unfold mem_comments, mem_post in *. cbn [snd comments]. rewrite lookup_insert.
  destruct (decide (m = mr)) as [->|Hne].
  - cbn [default option_rect id]. rewrite !fmap_app, supersede_body, I1. split_and!; [done| |].
    + by apply chained_post.
    + rewrite live_app, live_supersede. cbn. by rewrite last_snoc.
  - rewrite app_nil_r. done.
Qed.

(** ** Status checks *)

Inductive CheckState := CheckPending | CheckSuccess | CheckFailed.

#[export] Instance CheckState_eq_dec : EqDecision CheckState.
Proof. solve_decision. Defined.

Record StatusCheck := mkStatus {
  StatusMR : Z;
  StatusSHA : string;
  StatusContext : string;
  StatusState : CheckState;
  Description : string
}.

Class StatusPublisher (P : Type) := {
  SetStatus : StatusCheck -> P -> P;
  ListStatuses : Z -> string -> P -> list StatusCheck
}.

Class StatusSpec (P : Type) `{StatusPublisher P} := {
  set_status st p mr sha :
    ListStatuses mr sha (SetStatus st p) =
    ListStatuses mr sha p ++ if decide (StatusMR st = mr /\ StatusSHA st = sha) then [st] else []
}.

Abbreviation MemoryStatusPublisher := (list StatusCheck).

Definition mem_set_status (status : StatusCheck) (items : MemoryStatusPublisher) : MemoryStatusPublisher :=
  items ++ [status].

Definition mem_statuses (mergeReqID : Z) (sha : string) (items : MemoryStatusPublisher) : list StatusCheck :=
  filter (fun st => StatusMR st = mergeReqID /\ StatusSHA st = sha) items.

#[export] Instance MemoryStatus_Publisher : StatusPublisher MemoryStatusPublisher := {|
  SetStatus := mem_set_status; ListStatuses := mem_statuses
|}.

#[export] Program Instance MemoryStatus_Spec : StatusSpec MemoryStatusPublisher.
Next Obligation.
  intros st p mr sha. cbn. unfold mem_statuses, mem_set_status. by rewrite filter_app.
Qed.
