(* ===== verification/GitLab.v ===== *)
(** * The GitLab client: internal/vcs/gitlab.go

    The client over an HTTP transport that is an argument ([Http]). Every request that
    failed is logged and nothing else is done about it, so a store is the client, the
    world its requests act on and the log. *)

From Stdlib Require Import Ascii.
From stdpp Require Import options.
From S2P Require Import Prelude GoStrings GoUrl Value JsonNumber Json JsonFacts JsonStruct Context Vcs.

Definition thulePlanMarker : string := "<!-- thule:plan -->".
Definition thuleSupersededMarker : string := "<!-- thule:superseded -->".
Definition defaultGitLabTimeout : Z := 15 * 1000000000.

(** ** Options *)

(** An [http.Client] is its timeout; [None] is a nil client. *)
Record GitLabOptions := mkGitLabOptions {
  BaseURL : string;
  Token : string;
  ProjectPath : string;
  Client : option Z
}.
Definition no_options : GitLabOptions := mkGitLabOptions "" "" "" None.

Section Options.
Context (bracketed : string -> option string).

Definition parseHost (repoURL : string) : string :=
  let by_url := match url_parse bracketed repoURL with Some (host, _) => Hostname host | None => "" end in
  if str_eqb repoURL "" then ""
  else if has_prefix repoURL "git@" then
    match index_char "@"%char repoURL, index_char ":"%char repoURL with
    | Some at_, Some colon =>
        if (at_ <? colon)%nat then stake (colon - (at_ + 1)) (sdrop (at_ + 1) repoURL) else by_url
    | _, _ => by_url
    end
  else by_url.

Definition parseProjectPath (repoURL : string) : string :=
  let by_url := match url_parse bracketed repoURL with
                | Some (_, path) => trim_suffix (trim_prefix path "/") ".git"
                | None => ""
                end in
  if str_eqb repoURL "" then ""
  else if has_prefix repoURL "git@" then
    match index_char ":"%char repoURL with
    | Some idx =>
        if (idx + 1 <? String.length repoURL)%nat then trim_suffix (sdrop (idx + 1) repoURL) ".git" else by_url
    | None => by_url
    end
  else by_url.

(** The options, and whether GitLab is to be used at all. *)
Definition GitLabOptionsFromEnv (env : environment) (repoURL : string) : result (GitLabOptions * bool) :=
  let token := trim_space (env "THULE_GITLAB_TOKEN") in
  if str_eqb token "" then Ok (no_options, false)
  else
    let projectPath := trim_space (env "THULE_GITLAB_PROJECT_PATH") in
    let projectPath := if str_eqb projectPath "" then parseProjectPath repoURL else projectPath in
    if str_eqb projectPath "" then
      Err "THULE_GITLAB_PROJECT_PATH is required when project path cannot be derived"
    else
      let baseURL := trim_space (env "THULE_GITLAB_BASE_URL") in
      let baseURL :=
        if str_eqb baseURL "" then
          let host := parseHost repoURL in
          let host := if str_eqb host "" then "gl.blockstream.io" else host in
          "https://" +:+ host +:+ "/api/v4"
        else baseURL in
      Ok (mkGitLabOptions (trim_right (byte_is 47) baseURL) token projectPath (Some defaultGitLabTimeout), true).
End Options.

Record gitLabClient := mkClient {
  baseURL : string;
  token : string;
  projectPath : string;
  httpClient : Z
}.

Definition newGitLabClient (opts : GitLabOptions) : result gitLabClient :=
  if str_eqb (trim_space (BaseURL opts)) "" then Err "gitlab base url is required"
  else if str_eqb (trim_space (Token opts)) "" then Err "gitlab token is required"
  else if str_eqb (trim_space (ProjectPath opts)) "" then Err "gitlab project path is required"
  else
    let client := match Client opts with Some c => c | None => defaultGitLabTimeout end in
    Ok (mkClient (trim_right (byte_is 47) (BaseURL opts)) (Token opts) (trim_space (ProjectPath opts)) client).

(** ** Texts *)

Definition prependMarker (body : string) : string := thulePlanMarker +:+ nl +:+ nl +:+ body.
Definition stripPlanMarker (body : string) : string := trim_space (trim_prefix body thulePlanMarker).
Definition isThulePlanNote (body : string) : bool := contains_str body thulePlanMarker.
Definition isSupersededNote (body : string) : bool := contains_str body thuleSupersededMarker.
Definition buildSupersededBody (newNoteID : Z) : string :=
  thulePlanMarker +:+ nl +:+ thuleSupersededMarker +:+ nl +:+
  "<details><summary>Superseded Thule plan</summary>" +:+ nl +:+ nl +:+
  "Replaced by newer Thule run (note id: " +:+ fmt_d newNoteID +:+ ")." +:+ nl +:+ "</details>".

Definition mapState (state : CheckState) : string :=
  match state with CheckSuccess => "success" | CheckFailed => "failed" | CheckPending => "pending" end.

Definition truncate (s : string) (max : Z) : string :=
  if (max <=? 0) || (zlen s <=? max) then s else stake (Z.to_nat max) s.

(** ** JSON *)

Record gitLabNote := mkNote { NoteID : Z; NoteBody : string; System : bool }.
Definition no_note : gitLabNote := mkNote 0 "" false.

#[export] Instance gitLabNote_eq_dec : EqDecision gitLabNote.
Proof. solve_decision. Defined.

Definition dec_note := dec_struct (fun k x (n : gitLabNote) =>
  if key_is k "id" then z ← dec_int x (NoteID n); Some (mkNote z (NoteBody n) (System n))
  else if key_is k "body" then s ← dec_string x (NoteBody n); Some (mkNote (NoteID n) s (System n))
  else if key_is k "system" then b ← dec_bool x (System n); Some (mkNote (NoteID n) (NoteBody n) b)
  else Some n).

(** A slice of structs; elements an earlier member of the same name left behind are
    decoded into. *)
Fixpoint dec_slice {A} (dec : json -> A -> option A) (zero : A) (l : list json) (old : list A)
    : option (list A) :=
  match l with
  | [] => Some []
  | j :: r =>
      x ← dec j (default zero (head old));
      rest ← dec_slice dec zero r (tail old);
      Some (x :: rest)
  end.
Definition dec_slice_of {A} (dec : json -> A -> option A) (zero : A) (j : json) (old : list A)
    : option (list A) :=
  match j with JArr l => dec_slice dec zero l old | JNull => Some [] | _ => None end.

Definition dec_notes (j : json) (old : list gitLabNote) : option (list gitLabNote) :=
  dec_slice_of dec_note no_note j old.

Record change := mkFileChange { NewPath : string; OldPath : string }.
Definition dec_change := dec_struct (fun k x (c : change) =>
  if key_is k "new_path" then s ← dec_string x (NewPath c); Some (mkFileChange s (OldPath c))
  else if key_is k "old_path" then s ← dec_string x (OldPath c); Some (mkFileChange (NewPath c) s)
  else Some c).
Definition dec_changes := dec_struct (fun k x (cs : list change) =>
  if key_is k "changes" then dec_slice_of dec_change (mkFileChange "" "") x cs else Some cs).

(** ** Requests *)

Record http_request := mkHttpRequest {
  req_method : string;
  req_target : string;
  req_headers : list (string * string);
  req_body : option string
}.

(** A response, and what [io.ReadAll] makes of its body: the bytes that could be read,
    and the error if the body broke off. *)
Record http_response := mkResponse {
  StatusCode : Z;
  resp_body : string;
  resp_read_error : option string
}.

(** [http.NewRequest]'s error for a method and an address, and [Do]: the error, or the
    response. *)
Class Http (W : Type) := {
  new_request_error : string -> string -> option string;
  http_do : http_request -> W -> result http_response * W
}.

Section Client.
Context {W : Type} {iH : Http W}.
(** The texts of encoding/json's errors. *)
Context (marshal_error : value -> string) (unmarshal_error : string -> string).

Definition request_headers (c : gitLabClient) : list (string * string) :=
  [("PRIVATE-TOKEN", token c); ("Content-Type", "application/json"); ("Accept", "application/json")].

(** What follows a response; [dec] is the decoder into [out], [None] for a nil [out].
    The error of reading the body is dropped: [respBody, _ := io.ReadAll(resp.Body)]. *)
Definition read_response {A} (method target : string) (dec : option (json -> A -> option A)) (out : A)
    (resp : http_response) : result A :=
  if 300 <=? StatusCode resp then
    Err ("gitlab api " +:+ method +:+ " " +:+ target +:+ ": status=" +:+ fmt_d (StatusCode resp) +:+
         " body=" +:+ truncate (resp_body resp) 300)
  else
    match dec with
    | Some dec =>
        if 0 <? zlen (resp_body resp) then
          match (j ← parse_json (resp_body resp); dec j out) with
          | Some x => Ok x
          | None => Err ("decode gitlab response: " +:+ unmarshal_error (resp_body resp))
          end
        else Ok out
    | None => Ok out
    end.

(** The JSON body, the request and its response. *)
Definition request {A} (c : gitLabClient) (method target : string) (payload : option value)
    (dec : option (json -> A -> option A)) (out : A) (w : W) : result A * W :=
  let send body :=
    match new_request_error method target with
    | Some err => (Err ("build gitlab request: " +:+ err), w)
    | None =>
        let '(res, w') := http_do (mkHttpRequest method target (request_headers c) body) w in
        (match res with
         | Err err => Err ("gitlab request failed: " +:+ err)
         | Ok resp => read_response method target dec out resp
         end, w')
    end in
  match payload with
  | None => send None
  | Some v =>
      match marshal v with
      | None => (Err ("marshal gitlab request: " +:+ marshal_error v), w)
      | Some data => send (Some data)
      end
  end.

Definition project_url (c : gitLabClient) : string :=
  baseURL c +:+ "/projects/" +:+ PathEscape (projectPath c).
Definition notesURL (c : gitLabClient) (mergeReqID : Z) : string :=
  project_url c +:+ "/merge_requests/" +:+ fmt_d mergeReqID +:+ "/notes".

Definition listNotes (c : gitLabClient) (mergeReqID : Z) (w : W) : result (list gitLabNote) * W :=
  request c "GET" (notesURL c mergeReqID +:+ "?per_page=100&order_by=created_at&sort=asc") None
    (Some dec_notes) [] w.

Definition body_payload (body : string) : value := VMap {["body" := VString body]}.

Definition createNote (c : gitLabClient) (mergeReqID : Z) (body : string) (w : W) : result gitLabNote * W :=
  request c "POST" (notesURL c mergeReqID) (Some (body_payload body)) (Some dec_note) no_note w.

Definition noteURL (c : gitLabClient) (mergeReqID noteID : Z) : string :=
  notesURL c mergeReqID +:+ "/" +:+ fmt_d noteID.
Definition updateNote (c : gitLabClient) (mergeReqID noteID : Z) (body : string) (w : W) : result unit * W :=
  request c "PUT" (noteURL c mergeReqID noteID) (Some (body_payload body)) None tt w.

Definition status_payload (status : StatusCheck) : value :=
  VMap {["state" := VString (mapState (StatusState status)); "name" := VString (StatusContext status);
         "description" := VString (truncate (Description status) 255)]}.
Definition statusURL (c : gitLabClient) (status : StatusCheck) : string :=
  project_url c +:+ "/statuses/" +:+ PathEscape (StatusSHA status).
Definition setCommitStatus (c : gitLabClient) (status : StatusCheck) (w : W) : result unit * W :=
  request c "POST" (statusURL c status) (Some (status_payload status)) None tt w.

(** ** The stores *)

Record GitLabStore := mkGitLabStore { gl_client : gitLabClient; gl_world : W; gl_log : list string }.

Definition NewGitLabStore (opts : GitLabOptions) (w : W) (log : list string) : result GitLabStore :=
  let? client := newGitLabClient opts in Ok (mkGitLabStore client w log).

Definition no_comment : Comment := mkComment 0 0 "" false 0.
Definition log_mr (what : string) (mr : Z) (err : string) : string :=
  what +:+ " mr=" +:+ fmt_d mr +:+ " err=" +:+ err.

(** The loop over the existing notes. *)
Fixpoint supersede_notes (c : gitLabClient) (mergeReqID createdID : Z) (existing : list gitLabNote)
    (w : W) (log : list string) : W * list string :=
  match existing with
  | [] => (w, log)
  | note :: rest =>
      if (NoteID note =? createdID) || System note then supersede_notes c mergeReqID createdID rest w log
      else if negb (isThulePlanNote (NoteBody note)) || isSupersededNote (NoteBody note)
      then supersede_notes c mergeReqID createdID rest w log
      else
        let '(res, w) := updateNote c mergeReqID (NoteID note) (buildSupersededBody createdID) w in
        let log := match res with
                   | Ok _ => log
                   | Err err => log ++ ["gitlab comment supersede failed mr=" +:+ fmt_d mergeReqID +:+
                                        " note=" +:+ fmt_d (NoteID note) +:+ " err=" +:+ err]
                   end in
        supersede_notes c mergeReqID createdID rest w log
  end.

Definition gitlab_post (mergeReqID : Z) (body : string) (s : GitLabStore) : Comment * GitLabStore :=
  let c := gl_client s in
  if mergeReqID <=? 0 then (no_comment, s)
  else
    let '(listed, w) := listNotes c mergeReqID (gl_world s) in
    let '(existing, log) :=
      match listed with
      | Ok notes => (notes, gl_log s)
      | Err err => ([], gl_log s ++ [log_mr "gitlab comment list failed" mergeReqID err])
      end in
    let '(made, w) := createNote c mergeReqID (prependMarker body) w in
    match made with
    | Err err => (no_comment, mkGitLabStore c w (log ++ [log_mr "gitlab comment create failed" mergeReqID err]))
    | Ok created =>
        let '(w, log) := supersede_notes c mergeReqID (NoteID created) existing w log in
        (mkComment (NoteID created) mergeReqID body false 0, mkGitLabStore c w log)
    end.

Definition note_comment (mergeReqID : Z) (n : gitLabNote) : Comment :=
  mkComment (NoteID n) mergeReqID (stripPlanMarker (NoteBody n)) (isSupersededNote (NoteBody n)) 0.

Definition gitlab_list (mergeReqID : Z) (s : GitLabStore) : list Comment * GitLabStore :=
  let '(listed, w) := listNotes (gl_client s) mergeReqID (gl_world s) in
  match listed with
  | Err err =>
      ([], mkGitLabStore (gl_client s) w (gl_log s ++ [log_mr "gitlab comment list failed" mergeReqID err]))
  | Ok notes =>
      (note_comment mergeReqID <$> filter (fun n => isThulePlanNote (NoteBody n) = true) notes,
       mkGitLabStore (gl_client s) w (gl_log s))
  end.

Definition gitlab_set_status (status : StatusCheck) (s : GitLabStore) : GitLabStore :=
  if str_eqb (trim_space (StatusSHA status)) "" then s
  else
    let '(res, w) := setCommitStatus (gl_client s) status (gl_world s) in
    mkGitLabStore (gl_client s) w
      (match res with
       | Ok _ => gl_log s
       | Err err => gl_log s ++ ["gitlab status publish failed sha=" +:+ StatusSHA status +:+
                                 " context=" +:+ StatusContext status +:+ " err=" +:+ err]
       end).

Definition gitlab_statuses (_ : Z) (_ : string) (_ : GitLabStore) : list StatusCheck := [].

(** The path a change contributes. *)
Definition change_path (ch : change) : option string :=
  let p := trim_space (NewPath ch) in
  let p := if str_eqb p "" then trim_space (OldPath ch) else p in
  if str_eqb p "" then None else Some p.

Definition gitlab_changed_files (mergeReqID : Z) (s : GitLabStore) : result (list string) * GitLabStore :=
  if mergeReqID <=? 0 then (Err "merge request id is required", s)
  else
    let path := project_url (gl_client s) +:+ "/merge_requests/" +:+ fmt_d mergeReqID +:+ "/changes" in
    let '(res, w) := request (gl_client s) "GET" path None (Some dec_changes) [] (gl_world s) in
    (match res with Err err => Err err | Ok changes => Ok (collect change_path changes ∅ []) end,
     mkGitLabStore (gl_client s) w (gl_log s)).
End Client.

Arguments GitLabStore W : clear implicits.
