(* ===== verification/GitLabFacts.v ===== *)
(** * What the GitLab client does to a merge request

    [NotesServer] is what the notes API of GitLab is documented to do for one merge
    request, at the level of HTTP requests and JSON texts, on a connection that may fail
    or break off at any point; the theorems about comments are proved against it, and a
    small server written here satisfies it, whichever of its answers are cut short. *)

From Stdlib Require Import Ascii.
From stdpp Require Import options.
From S2P Require Import Prelude GoStrings GoUrl Value JsonNumber Json JsonFacts JsonPrefix JsonStruct.
From S2P Require Import Context Vcs GitLab.

(** ** The API *)

Definition note_key (k : string) : bool := key_is k "id" || key_is k "body" || key_is k "system".

(** A note as a JSON object: its three members that matter, once each and in any order,
    among others. *)
Definition note_object (n : gitLabNote) (j : json) : Prop :=
  exists ms l, j = JObj ms /\ lit_int l = Some (NoteID n) /\
    filter (fun kv => note_key kv.1 = true) ms ≡ₚ
      [("id", JNum l); ("body", JStr (NoteBody n)); ("system", JBool (System n))].

Definition set_body (id : Z) (body : string) (n : gitLabNote) : gitLabNote :=
  if NoteID n =? id then mkNote (NoteID n) body (System n) else n.

#[export] Instance http_request_eq_dec : EqDecision http_request.
Proof. solve_decision. Defined.

Definition list_request (c : gitLabClient) (mr : Z) : http_request :=
  mkHttpRequest "GET" (notesURL c mr +:+ "?per_page=100&order_by=created_at&sort=asc") (request_headers c) None.
Definition create_request (c : gitLabClient) (mr : Z) (data : string) : http_request :=
  mkHttpRequest "POST" (notesURL c mr) (request_headers c) (Some data).
Definition update_request (c : gitLabClient) (mr id : Z) (data : string) : http_request :=
  mkHttpRequest "PUT" (noteURL c mr id) (request_headers c) (Some data).

(** What arrived of a text: all of it, or a part if reading ended with an error. *)
Definition arrived (text : string) (resp : http_response) : Prop :=
  match resp_read_error resp with
  | None => text = resp_body resp
  | Some _ => exists rest, text = resp_body resp +:+ rest
  end.

(** The notes are kept in the order they were created. A request may fail after it took
    effect, and the answer to one that succeeds may break off. *)
Class NotesServer (W : Type) {iH : Http W} (c : gitLabClient) (mr : Z) := {
  notes : W -> list gitLabNote;
  notes_read w res w' : http_do (list_request c mr) w = (res, w') -> notes w' = notes w;
  notes_listed w resp w' :
    http_do (list_request c mr) w = (Ok resp, w') -> StatusCode resp < 300 ->
    exists answer js, arrived answer resp /\ parse_json answer = Some (JArr js) /\
      Forall2 note_object (take 100 (notes w)) js;
  note_created w data text resp w' :
    http_do (create_request c mr data) w = (Ok resp, w') -> StatusCode resp < 300 ->
    parse_json data = Some (JObj [("body", JStr text)]) ->
    exists id answer j, (id ∉ (NoteID <$> notes w)) /\ notes w' = notes w ++ [mkNote id text false] /\
      arrived answer resp /\ parse_json answer = Some j /\ note_object (mkNote id text false) j;
  note_create_failed w data text res w' :
    http_do (create_request c mr data) w = (res, w') -> parse_json data = Some (JObj [("body", JStr text)]) ->
    notes w' = notes w \/
    exists id, (id ∉ (NoteID <$> notes w)) /\ notes w' = notes w ++ [mkNote id text false];
  note_updated w id data text resp w' :
    http_do (update_request c mr id data) w = (Ok resp, w') -> StatusCode resp < 300 ->
    parse_json data = Some (JObj [("body", JStr text)]) ->
    notes w' = set_body id text <$> notes w;
  note_update_failed w id data text res w' :
    http_do (update_request c mr id data) w = (res, w') ->
    parse_json data = Some (JObj [("body", JStr text)]) ->
    notes w' = notes w \/ notes w' = set_body id text <$> notes w
}.

(** ** Decoding *)

Abbreviation note_field := (fun k x (n : gitLabNote) =>
  if key_is k "id" then z ← dec_int x (NoteID n); Some (mkNote z (NoteBody n) (System n))
  else if key_is k "body" then s ← dec_string x (NoteBody n); Some (mkNote (NoteID n) s (System n))
  else if key_is k "system" then b ← dec_bool x (System n); Some (mkNote (NoteID n) (NoteBody n) b)
  else Some n).

(** Members of other names are skipped. *)
Lemma dec_note_relevant ms old :
  foldl (fun acc '(k, x) => a ← acc; note_field k x a) old ms =
  foldl (fun acc '(k, x) => a ← acc; note_field k x a) old (filter (fun kv => note_key kv.1 = true) ms).
Proof.
  revert old. induction ms as [|[k x] ms IH]; intros old; [done|]. rewrite filter_cons. cbn [fst].
  destruct (decide (note_key k = true)) as [Hk|Hk]; cbn [foldl]; [apply IH|]. rewrite IH. f_equal.
  unfold note_key in Hk. destruct old as [n|]; [|done]. cbn [mbind option_bind].
  destruct (key_is k "id"), (key_is k "body"), (key_is k "system"); done.
Qed.

Lemma dec_note_object n j : note_object n j -> dec_note j no_note = Some n.
Proof.
  intros (ms & l & -> & Hl & Hp). unfold dec_note, dec_struct. rewrite dec_note_relevant.
  symmetry in Hp. apply permutations_Permutation in Hp. destruct n as [id body sys]. cbn [NoteID NoteBody System] in *.
  revert Hp. generalize (filter (fun kv => note_key kv.1 = true) ms). intros rs.
  cbn [permutations interleave mbind list_bind fmap list_fmap app].
  set_unfold. intros Hp.
  repeat destruct Hp as [->|Hp]; try done; cbn; by rewrite Hl.
Qed.

Lemma dec_notes_objects ns js : Forall2 note_object ns js -> dec_notes (JArr js) [] = Some ns.
Proof.
  unfold dec_notes, dec_slice_of. induction 1 as [|n j ns js Hj _ IH]; [done|].
  cbn [dec_slice head tail default]. cbn. rewrite (dec_note_object n j Hj). cbn. by rewrite IH.
Qed.

Lemma body_payload_parse text :
  exists data, marshal (body_payload text) = Some data /\
    parse_json data = Some (JObj [("body", JStr (utf8_coerce text))]).
Proof.
  assert (sorted_keys ({["body" := VString text]} : gmap string value) = ["body"]) as Hk by reflexivity.
  assert (exists data, marshal (body_payload text) = Some data) as [data Hd].
  { unfold body_payload. cbn [marshal]. rewrite Hk. cbn [mapM]. rewrite lookup_fmap, lookup_singleton_eq.
    by eexists. }
  exists data. split; [done|]. unfold parse_json. rewrite (parse_marshal _ _ _ Hd).
  - unfold body_payload. cbn [json_of]. rewrite Hk. cbn [fmap list_fmap].
    by rewrite lookup_fmap, lookup_singleton_eq.
  - by vm_compute.
  - unfold body_payload, maxNestingDepth. change (1 <= 10000). lia.
Qed.

(** Of an answer that breaks off, either nothing arrived, or it is refused, or nothing
    that matters is missing. *)
Lemma arrived_cases answer resp j :
  arrived answer resp -> parse_json answer = Some j -> is_number j = false ->
  (resp_body resp = "" /\ is_Some (resp_read_error resp)) \/
  (0 < zlen (resp_body resp) /\ (parse_json (resp_body resp) = Some j \/ parse_json (resp_body resp) = None)).
Proof.
  unfold arrived. intros Ha Hj Hn. destruct (resp_body resp) as [|a b] eqn:Eb.
  - left. split; [done|]. destruct (resp_read_error resp); [by eexists|by subst].
  - right. split; [rewrite zlen_cons; pose proof (zlen_nonneg b); lia|].
    assert (exists rest, answer = String a b +:+ rest) as [rest ->].
    { destruct (resp_read_error resp); [done|]. exists "". by rewrite string_app_nil_r. }
    destruct (parse_json (String a b)) as [j'|] eqn:Ej; [|by right]. left. f_equal. by eapply parse_prefix.
Qed.

(** ** Texts *)

Lemma utf8_coerce_ascii_app a b :
  all_bytes is_ascii a = true -> utf8_coerce (a +:+ b) = a +:+ utf8_coerce b.
Proof.
  unfold utf8_coerce. induction a as [|x a IH]; [done|]. cbn [all_bytes]. rewrite andb_true_iff. intros [Hx Ha].
  cbn [String.append]. rewrite utf8_map_ascii by done. cbn. by rewrite IH.
Qed.

Lemma utf8_coerce_marker body : utf8_coerce (prependMarker body) = prependMarker (utf8_coerce body).
Proof. unfold prependMarker. by rewrite !utf8_coerce_ascii_app. Qed.

Lemma fmt_d_ascii z : all_bytes is_ascii (fmt_d z) = true.
Proof.
  assert (forall p, all_bytes is_ascii (pretty (Npos p)) = true) as Hp.
  { intros p. unfold pretty, pretty_N. rewrite decide_False by done.
    destruct (pretty_N_go_digits (Npos p) "" ltac:(done)) as (a & d & -> & [_ Ha]%is_pos_digit_cases & Hd).
    rewrite string_app_nil_r. apply (all_bytes_impl is_digit); [|cbn; by rewrite Ha, (Is_true_true_1 _ Hd)].
    intros x. unfold is_digit, is_ascii, in_range. rewrite andb_true_iff, !N.leb_le, N.ltb_lt. lia. }
  unfold fmt_d. destruct z as [|p|p]; [done|apply Hp|].
  change (pretty (Zneg p)) with (String (byte_of 45) (pretty (Npos p))). cbn. apply Hp.
Qed.

Lemma superseded_body_ascii id : utf8_coerce (buildSupersededBody id) = buildSupersededBody id.
Proof.
  unfold buildSupersededBody. rewrite !utf8_coerce_ascii_app by (done || apply fmt_d_ascii). done.
Qed.

Lemma prepended_plan body : isThulePlanNote (prependMarker body) = true.
Proof. by apply contains_app_l. Qed.

Lemma superseded_body_marked id :
  isThulePlanNote (buildSupersededBody id) = true /\ isSupersededNote (buildSupersededBody id) = true.
Proof.
  unfold isThulePlanNote, isSupersededNote, buildSupersededBody. split; [by apply contains_app_l|].
  apply contains_str_spec. eexists (thulePlanMarker +:+ nl), _. by rewrite string_app_assoc.
Qed.

(** ** Superseding *)

(** The notes of Thule that are current plans. *)
Definition current_plan (n : gitLabNote) : bool :=
  negb (System n) && isThulePlanNote (NoteBody n) && negb (isSupersededNote (NoteBody n)).

Definition supersede_note (id : Z) (n : gitLabNote) : gitLabNote :=
  if current_plan n then mkNote (NoteID n) (buildSupersededBody id) (System n) else n.

(** The bodies of the notes with these numbers replaced. *)
Definition replace_bodies (body : string) (ids : list Z) (n : gitLabNote) : gitLabNote :=
  if bool_decide (NoteID n ∈ ids) then mkNote (NoteID n) body (System n) else n.

Lemma replace_bodies_cons body id ids n :
  replace_bodies body ids (set_body id body n) = replace_bodies body (id :: ids) n.
Proof.
  unfold replace_bodies, set_body. destruct (Z.eqb_spec (NoteID n) id) as [->|Hne]; cbn [NoteID System].
  - rewrite (bool_decide_true (id ∈ id :: ids)) by left. by case_bool_decide.
  - do 2 case_bool_decide; try done; set_solver.
Qed.

Section Superseding.
#[local] Set Default Proof Using "Type*".
Context {W : Type} {iH : Http W} (c : gitLabClient) (mr : Z) {sW : NotesServer W c mr}.
Context (marshal_error : value -> string) (unmarshal_error : string -> string).

Abbreviation list_notes := (listNotes marshal_error unmarshal_error c mr).
Abbreviation create_note := (createNote marshal_error unmarshal_error c mr).
Abbreviation update_note := (updateNote marshal_error unmarshal_error c mr).
Abbreviation supersede_loop := (supersede_notes marshal_error unmarshal_error c mr).

(** The answer to the listing breaks off before its first byte. *)
Definition list_breaks_off (w : W) : Prop :=
  exists resp w', http_do (list_request c mr) w = (Ok resp, w') /\
    resp_body resp = "" /\ is_Some (resp_read_error resp).

Lemma list_notes_outcome w res w' :
  list_notes w = (res, w') ->
  notes w' = notes w /\ forall l, res = Ok l -> l = take 100 (notes w) \/ (l = [] /\ list_breaks_off w).
Proof.
  unfold listNotes, request. destruct (new_request_error _ _) as [e|]; [by intros [= <- <-]|].
  destruct (http_do _ w) as [r w1] eqn:E. intros [= <- <-].
  pose proof (notes_read (c := c) (mr := mr) w r w1 E) as Hr. split; [done|]. intros l Hl.
  destruct r as [resp|e]; [|done]. unfold read_response in Hl.
  destruct (Z.leb_spec 300 (StatusCode resp)); [done|].
  destruct (notes_listed (c := c) (mr := mr) w resp w1 E) as (answer & js & Ha & Hj & Hjs); [lia|].
  destruct (arrived_cases _ _ _ Ha Hj eq_refl) as [[Hb He]|[Hz [Hb|Hb]]]; rewrite Hb in Hl.
  - right. injection Hl as <-. split; [done|]. by exists resp, w1.
  - rewrite (proj2 (Z.ltb_lt _ _) Hz) in Hl. cbn [mbind option_bind] in Hl.
    rewrite (dec_notes_objects _ _ Hjs) in Hl. injection Hl as <-. by left.
  - by rewrite (proj2 (Z.ltb_lt _ _) Hz) in Hl.
Qed.

Lemma create_note_outcome w text res w' :
  create_note text w = (res, w') ->
  (exists id n, res = Ok n /\ (NoteID n = id \/ NoteID n = 0) /\
     (id ∉ (NoteID <$> notes w)) /\ notes w' = notes w ++ [mkNote id (utf8_coerce text) false]) \/
  (exists e, res = Err e) /\
    (notes w' = notes w \/
     exists id, (id ∉ (NoteID <$> notes w)) /\ notes w' = notes w ++ [mkNote id (utf8_coerce text) false]).
Proof.
  unfold createNote, request. destruct (body_payload_parse text) as (data & -> & Hd).
  destruct (new_request_error _ _) as [e|]; [intros [= <- <-]; right; split; [by eexists|by left]|].
  destruct (http_do _ w) as [r w1] eqn:E. intros [= <- <-].
  pose proof (note_create_failed (c := c) (mr := mr) w data _ r w1 E Hd) as Hf.
  destruct r as [resp|e]; [|right; split; [by eexists|done]]. unfold read_response.
  destruct (Z.leb_spec 300 (StatusCode resp)); [right; split; [by eexists|done]|].
  destruct (note_created (c := c) (mr := mr) w data (utf8_coerce text) resp w1 E)
    as (id & answer & j & Hid & Hn & Ha & Hj & Ho); [lia|done|].
  assert (is_number j = false) as Hnum by (by destruct Ho as (ms & l & -> & _)).
  destruct (arrived_cases _ _ _ Ha Hj Hnum) as [[Hb He]|[Hz [Hb|Hb]]]; rewrite Hb.
  - left. exists id, no_note. split_and!; [done|by right|done..].
  - left. rewrite (proj2 (Z.ltb_lt _ _) Hz). cbn [mbind option_bind]. rewrite (dec_note_object _ _ Ho).
    exists id, (mkNote id (utf8_coerce text) false). split_and!; [done|by left|done..].
  - right. rewrite (proj2 (Z.ltb_lt _ _) Hz). split; [by eexists|done].
Qed.

Lemma update_note_outcome w id text res w' :
  update_note id text w = (res, w') ->
  (res = Ok tt /\ notes w' = set_body id (utf8_coerce text) <$> notes w) \/
  (exists e, res = Err e) /\ (notes w' = notes w \/ notes w' = set_body id (utf8_coerce text) <$> notes w).
Proof.
  unfold updateNote, request. destruct (body_payload_parse text) as (data & -> & Hd).
  destruct (new_request_error _ _) as [e|]; [intros [= <- <-]; right; split; [by eexists|by left]|].
  destruct (http_do _ w) as [r w1] eqn:E. intros [= <- <-].
  pose proof (note_update_failed (c := c) (mr := mr) w id data _ r w1 E Hd) as Hf.
  destruct r as [resp|e]; [|right; split; [by eexists|done]]. unfold read_response.
  destruct (Z.leb_spec 300 (StatusCode resp)); [right; split; [by eexists|done]|]. left.
  split; [done|]. by apply (note_updated (c := c) (mr := mr) w id data (utf8_coerce text) resp w1 E); [lia|].
Qed.

Definition targets (id : Z) (existing : list gitLabNote) : list Z :=
  NoteID <$> filter (fun n => NoteID n <> id /\ current_plan n = true) existing.

(** Only notes that are current plans are rewritten, and all of them unless a failure
    was logged. *)
Lemma supersede_loop_outcome id existing w log w' log' :
  supersede_loop id existing w log = (w', log') ->
  exists ids extra, log' = log ++ extra /\ ids ⊆ targets id existing /\
    (extra = [] -> ids = targets id existing) /\
    notes w' = replace_bodies (buildSupersededBody id) ids <$> notes w.
Proof.
  revert w log. induction existing as [|n l IH]; intros w log; cbn [supersede_notes].
  { intros [= <- <-]. exists [], []. rewrite app_nil_r. split_and!; [done..|]. symmetry.
    apply list_fmap_id. }
  destruct ((NoteID n =? id) || System n) eqn:E1;
    [|destruct (negb (isThulePlanNote (NoteBody n)) || isSupersededNote (NoteBody n)) eqn:E2].
  1-2: intros H; apply IH in H as (ids & extra & -> & Hsub & Hall & Hn); exists ids, extra;
    unfold targets in *; rewrite filter_cons, decide_False; [done|]; unfold current_plan.
  { intros [Hne Hc]. rewrite (proj2 (Z.eqb_neq _ _) Hne) in E1. cbn in E1. by rewrite E1 in Hc. }
  { intros [_ Hc]. destruct (System n), (isThulePlanNote (NoteBody n)), (isSupersededNote (NoteBody n)); done. }
  assert (targets id (n :: l) = NoteID n :: targets id l) as ->.
  { unfold targets. rewrite filter_cons, decide_True; [done|]. unfold current_plan.
    apply orb_false_iff in E1 as [E1 ->], E2 as [E2%negb_false_iff ->]. rewrite E2. apply Z.eqb_neq in E1. done. }
  destruct (update_note (NoteID n) (buildSupersededBody id) w) as [res w1] eqn:Eu. intros H.
  apply IH in H as (ids & extra & -> & Hsub & Hall & Hn).
  apply update_note_outcome in Eu as [[-> Hu]|[[e ->] [Hu|Hu]]]; rewrite ?superseded_body_ascii in Hu; rewrite Hu in Hn.
  - exists (NoteID n :: ids), extra. split_and!; [done|set_solver|by intros ->%Hall|]. rewrite Hn.
    rewrite <- list_fmap_compose. apply list_fmap_ext. intros i x _. apply replace_bodies_cons.
  - eexists ids, (_ :: extra). rewrite <- (assoc_L (++)). split_and!; [done|set_solver|done|done].
  - eexists (NoteID n :: ids), (_ :: extra). rewrite <- (assoc_L (++)). split_and!; [done|set_solver|done|].
    rewrite Hn, <- list_fmap_compose. apply list_fmap_ext. intros i x _. apply replace_bodies_cons.
Qed.

Abbreviation post_comment := (gitlab_post marshal_error unmarshal_error).

Lemma gitlab_post_outcome body s cm s' :
  gl_client s = c -> 0 < mr -> post_comment mr body s = (cm, s') ->
  let ns := notes (gl_world s) in
  exists extra, gl_log s' = gl_log s ++ extra /\ gl_client s' = c /\
  ((exists id shown ids, (id ∉ (NoteID <$> ns)) /\ (shown = id \/ shown = 0) /\
      cm = mkComment shown mr body false 0 /\ ids ⊆ targets shown (take 100 ns) /\
      (extra = [] -> ids = targets shown (take 100 ns) \/ list_breaks_off (gl_world s)) /\
      notes (gl_world s') = replace_bodies (buildSupersededBody shown) ids <$>
        (ns ++ [mkNote id (prependMarker (utf8_coerce body)) false])) \/
   (extra <> [] /\ cm = no_comment /\
      (notes (gl_world s') = ns \/
       exists id, (id ∉ (NoteID <$> ns)) /\
         notes (gl_world s') = ns ++ [mkNote id (prependMarker (utf8_coerce body)) false]))).
Proof.
  intros Hc Hmr. cbn zeta. unfold gitlab_post. rewrite (proj2 (Z.leb_gt mr 0)) by done. rewrite Hc.
  destruct (list_notes (gl_world s)) as [listed w1] eqn:El. apply list_notes_outcome in El as [Hw1 Hl].
  destruct (match listed with Ok notes => _ | Err err => _ end) as [existing log1] eqn:Ee.
  assert (exists extra1, log1 = gl_log s ++ extra1 /\ existing ⊆ take 100 (notes (gl_world s)) /\
    (extra1 = [] -> existing = take 100 (notes (gl_world s)) \/ list_breaks_off (gl_world s)))
    as (extra1 & -> & Hsub & Hall).
  { destruct listed as [l|e]; injection Ee as <- <-.
    - exists []. rewrite app_nil_r. destruct (Hl l eq_refl) as [->|[-> ?]]; split_and!; auto using list_subseteq_nil.
    - eexists. split; [done|]. split; [apply list_subseteq_nil|done]. }
  destruct (create_note (prependMarker body) w1) as [made w2] eqn:Ec.
  apply create_note_outcome in Ec. rewrite Hw1, utf8_coerce_marker in Ec.
  destruct Ec as [(id & n & -> & Hn & Hid & Hw2)|[[e ->] Hw2]].
  - destruct (supersede_loop (NoteID n) existing w2 _) as [w3 log3] eqn:Es. intros [= <- <-].
    apply supersede_loop_outcome in Es as (ids & extra2 & -> & Hsub2 & Hall2 & Hw3).
    exists (extra1 ++ extra2). rewrite (assoc_L (++)). cbn. split_and!; [done..|]. left.
    exists id, (NoteID n), ids. split_and!; [done..| | |by rewrite Hw3, Hw2].
    + etrans; [exact Hsub2|]. unfold targets. intros x (y & -> & [Hy Hin]%list_elem_of_filter)%list_elem_of_fmap.
      apply list_elem_of_fmap_2, list_elem_of_filter. split; [done|]. by apply Hsub.
    + intros [He1 He2]%app_nil. destruct (Hall He1) as [->|?]; [left; by apply Hall2|by right].
  - intros [= <- <-]. eexists. rewrite <- (assoc_L (++)). split_and!; [done..|]. right. cbn.
    split_and!; [by destruct extra1|done|done].
Qed.
End Superseding.

(** ** Pure facts about the rewriting *)

Lemma NoDup_note_id ns n m :
  NoDup (NoteID <$> ns) -> n ∈ ns -> m ∈ ns -> NoteID n = NoteID m -> n = m.
Proof.
  intros Hnd [i Hi]%list_elem_of_lookup [j Hj]%list_elem_of_lookup Heq.
  assert (i = j) as ->; [|congruence].
  apply (NoDup_lookup _ i j (NoteID n) Hnd); rewrite list_lookup_fmap; [by rewrite Hi|by rewrite Hj, Heq].
Qed.

Lemma targets_current id ns i n :
  NoDup (NoteID <$> ns) -> n ∈ ns -> NoteID n ∈ targets id (take i ns) -> n ∈ take i ns /\ current_plan n = true.
Proof.
  intros Hnd Hn. unfold targets. rewrite list_elem_of_fmap. intros (m & Heq & [[_ Hm] Hin]%list_elem_of_filter).
  rewrite (NoDup_note_id ns n m Hnd Hn); [done| |done]. by apply (elem_of_sublist (take i ns)), sublist_take.
Qed.

Lemma elem_of_targets id ns i n :
  NoDup (NoteID <$> ns) -> id ∉ (NoteID <$> ns) -> n ∈ ns ->
  NoteID n ∈ targets id (take i ns) <-> n ∈ take i ns /\ current_plan n = true.
Proof.
  intros Hnd Hid Hn. split; [by apply targets_current|]. intros [Hin Hc]. unfold targets.
  apply list_elem_of_fmap. exists n. split; [done|]. apply list_elem_of_filter. split_and!; [|done..].
  intros <-. apply Hid. by apply list_elem_of_fmap_2.
Qed.

Lemma targets_known id ns i x : x ∈ targets id (take i ns) -> x ∈ (NoteID <$> ns).
Proof.
  unfold targets. intros (n & -> & [_ Hin]%list_elem_of_filter)%list_elem_of_fmap.
  apply list_elem_of_fmap_2. by apply (elem_of_sublist (take i ns)), sublist_take.
Qed.

Lemma replace_targets id ns i :
  NoDup (NoteID <$> ns) -> id ∉ (NoteID <$> ns) ->
  replace_bodies (buildSupersededBody id) (targets id (take i ns)) <$> ns =
  (supersede_note id <$> take i ns) ++ drop i ns.
Proof.
  intros Hnd Hid. rewrite <- (take_drop i ns) at 2. rewrite fmap_app. f_equal.
  - apply list_fmap_ext. intros j n Hn%list_elem_of_lookup_2. unfold replace_bodies, supersede_note.
    assert (n ∈ ns) as Hin by (by apply (elem_of_sublist (take i ns)), sublist_take).
    pose proof (elem_of_targets id ns i n Hnd Hid Hin) as Ht.
    destruct (current_plan n) eqn:Ec; case_bool_decide; [done|tauto|by destruct (proj1 Ht)|done].
  - rewrite <- (list_fmap_id (drop i ns)) at 2. apply list_fmap_ext. intros j n Hn%list_elem_of_lookup_2.
    unfold replace_bodies. rewrite bool_decide_false; [done|]. intros Ht.
    assert (n ∈ ns) as Hin by (by apply (elem_of_sublist (drop i ns)), sublist_drop).
    apply targets_current in Ht as [Htake _]; [|done..].
    rewrite <- (take_drop i ns), fmap_app in Hnd. apply NoDup_app in Hnd as (_ & Hd & _).
    apply (Hd (NoteID n)); by apply list_elem_of_fmap_2.
Qed.

Lemma supersede_note_not_current id n : current_plan (supersede_note id n) = false.
Proof.
  unfold supersede_note. destruct (current_plan n) eqn:E; [|done]. unfold current_plan. cbn [NoteBody System].
  destruct (superseded_body_marked id) as [_ ->]. apply andb_false_r.
Qed.

Lemma current_after_supersede id ns : filter (fun n => current_plan n = true) (supersede_note id <$> ns) = [].
Proof.
  induction ns as [|n ns IH]; [done|]. rewrite fmap_cons, filter_cons, decide_False; [done|].
  by rewrite supersede_note_not_current.
Qed.


(** ** What a post leaves on the merge request *)

(** Notes Thule did not write, and system notes. *)
Definition foreign (n : gitLabNote) : bool := System n || negb (isThulePlanNote (NoteBody n)).

Lemma foreign_not_current n : foreign n = true -> current_plan n = false.
Proof. unfold foreign, current_plan. by destruct (System n), (isThulePlanNote (NoteBody n)). Qed.

Lemma foreign_supersede id (ns : list gitLabNote) :
  filter (fun n => foreign n = true) (supersede_note id <$> ns) = filter (fun n => foreign n = true) ns.
Proof.
  induction ns as [|n ns IH]; [done|]. rewrite fmap_cons, !filter_cons, IH. unfold supersede_note.
  destruct (current_plan n) eqn:Ec; [|done].
  assert (foreign n <> true) as Hn by (intros Hf%foreign_not_current; congruence).
  rewrite !decide_False; [done|done|]. unfold foreign in *. cbn [System NoteBody].
  destruct (superseded_body_marked id) as [-> _]. by destruct (System n).
Qed.

Section Posting.
#[local] Set Default Proof Using "Type*".
Context {W : Type} {iH : Http W} (c : gitLabClient) (mr : Z) {sW : NotesServer W c mr}.
Context (marshal_error : value -> string) (unmarshal_error : string -> string).

(** A post that logged nothing and whose answers did not break off before they began:
    every request of it succeeded. *)
Lemma gitlab_post_logged body (s : GitLabStore W) cm s' :
  gl_client s = c -> 0 < mr -> NoDup (NoteID <$> notes (gl_world s)) ->
  gitlab_post marshal_error unmarshal_error mr body s = (cm, s') -> gl_log s' = gl_log s ->
  ~ list_breaks_off c mr (gl_world s) -> CommentID cm <> 0 ->
  let ns := notes (gl_world s) in
  exists id, (id ∉ (NoteID <$> ns)) /\ cm = mkComment id mr body false 0 /\
    notes (gl_world s') = (supersede_note id <$> take 100 ns) ++ drop 100 ns ++
      [mkNote id (prependMarker (utf8_coerce body)) false].
Proof.
  intros Hc Hmr Hnd Hp Hlog Hcut Hnum. cbn zeta.
  apply (gitlab_post_outcome c mr) in Hp as (extra & Hx & _ & Hp); [|done..]. rewrite Hx in Hlog.
  symmetry in Hlog. apply app_same_nil in Hlog as ->.
  destruct Hp as [(id & shown & ids & Hid & [->| ->] & -> & _ & Hids & Hn)|[? _]]; [|done..].
  destruct (Hids eq_refl) as [->|?]; [|done].
  exists id. split_and!; [done..|]. rewrite Hn, fmap_app, replace_targets by done.
  rewrite <- (assoc_L (++)). do 2 f_equal. cbn. unfold replace_bodies. rewrite bool_decide_false; [done|].
  intros Ht%targets_known. done.
Qed.

(** C5: on a merge request of at most 100 notes, post a plan whose text does not contain
    the marker of superseded plans. If no failure was logged, the answer to the listing
    did not break off before its first byte, and the comment has a number, then that is
    the number GitLab gave it, every earlier plan of Thule is marked as superseded by it,
    the new note, its text up to bytes that are not UTF-8, is the only current plan, and
    the notes of others are what they were. *)
Theorem gitlab_post_supersedes body (s : GitLabStore W) cm s' :
  gl_client s = c -> 0 < mr -> NoDup (NoteID <$> notes (gl_world s)) ->
  (length (notes (gl_world s)) <= 100)%nat ->
  isSupersededNote (prependMarker (utf8_coerce body)) = false ->
  gitlab_post marshal_error unmarshal_error mr body s = (cm, s') -> gl_log s' = gl_log s ->
  ~ list_breaks_off c mr (gl_world s) -> CommentID cm <> 0 ->
  exists id, (id ∉ (NoteID <$> notes (gl_world s))) /\ cm = mkComment id mr body false 0 /\
    let new := mkNote id (prependMarker (utf8_coerce body)) false in
    notes (gl_world s') = (supersede_note id <$> notes (gl_world s)) ++ [new] /\
    filter (fun n => current_plan n = true) (notes (gl_world s')) = [new] /\
    filter (fun n => foreign n = true) (notes (gl_world s')) =
    filter (fun n => foreign n = true) (notes (gl_world s)).
Proof.
  intros Hc Hmr Hnd Hlen Hbody Hp Hlog Hcut Hnum.
  apply gitlab_post_logged in Hp as (id & Hid & -> & Hn); [|done..]. exists id. split_and!; [done..|].
  cbn zeta. rewrite take_ge, drop_ge in Hn by done. cbn [app] in Hn. rewrite Hn.
  rewrite !filter_app, current_after_supersede, foreign_supersede. split; [done|]. cbn [app].
  pose proof (prepended_plan (utf8_coerce body)) as Hm.
  split.
  - rewrite filter_cons, decide_True; [done|]. unfold current_plan. cbn [System NoteBody]. by rewrite Hm, Hbody.
  - rewrite filter_cons, decide_False; [apply app_nil_r|]. unfold foreign. cbn [System NoteBody]. by rewrite Hm.
Qed.

(** C38: only the first 100 notes of a merge request are looked at: a plan of Thule that
    is a later note stays current although a newer one was posted without any failure,
    also when answers broke off (a comment without a number is one whose creation was
    answered with nothing). *)
Theorem gitlab_page_limit body (s : GitLabStore W) cm s' old :
  gl_client s = c -> 0 < mr -> NoDup (NoteID <$> notes (gl_world s)) ->
  old ∈ drop 100 (notes (gl_world s)) -> current_plan old = true ->
  isSupersededNote (prependMarker (utf8_coerce body)) = false ->
  gitlab_post marshal_error unmarshal_error mr body s = (cm, s') -> gl_log s' = gl_log s ->
  exists new, (CommentID cm <> 0 -> NoteID new = CommentID cm) /\ NoteID new <> NoteID old /\
    old ∈ notes (gl_world s') /\ new ∈ notes (gl_world s') /\ current_plan new = true.
Proof.
  intros Hc Hmr Hnd Hold Hcur Hbody Hp Hlog.
  apply (gitlab_post_outcome c mr) in Hp as (extra & Hx & _ & Hp); [|done..]. rewrite Hx in Hlog.
  symmetry in Hlog. apply app_same_nil in Hlog as ->.
  destruct Hp as [(id & shown & ids & Hid & Hshown & -> & Hsub & _ & Hn)|[? _]]; [|done].
  assert (old ∈ notes (gl_world s)) as Hin
    by (by apply (elem_of_sublist (drop 100 (notes (gl_world s)))), sublist_drop).
  exists (mkNote id (prependMarker (utf8_coerce body)) false). rewrite Hn, fmap_app.
  split; [by destruct Hshown as [->| ->]|]. split; [|split_and!].
  - cbn. intros ->. by apply Hid, list_elem_of_fmap_2.
  - apply elem_of_app. left. apply list_elem_of_fmap. exists old. split; [|done]. unfold replace_bodies.
    rewrite bool_decide_false; [done|]. intros [Htake _]%Hsub%targets_current; [|done..].
    rewrite <- (take_drop 100 (notes (gl_world s))), fmap_app in Hnd. apply NoDup_app in Hnd as (_ & Hd & _).
    apply (Hd (NoteID old)); by apply list_elem_of_fmap_2.
  - apply elem_of_app. right. apply list_elem_of_singleton. unfold replace_bodies.
    rewrite bool_decide_false; [done|]. by intros Ht%Hsub%targets_known.
  - unfold current_plan. cbn [System NoteBody]. rewrite Hbody.
    by rewrite prepended_plan.
Qed.

(** The comments [List] finds current among notes that were superseded. *)
Lemma live_superseded_notes id ns :
  (forall n, n ∈ ns -> System n = true -> isThulePlanNote (NoteBody n) = false) ->
  live (note_comment mr <$> filter (fun n => isThulePlanNote (NoteBody n) = true) (supersede_note id <$> ns)) = [].
Proof using Type.
  induction ns as [|n ns IH]; intros Hsys; [done|]. rewrite fmap_cons, filter_cons.
  assert (forall m, m ∈ ns -> System m = true -> isThulePlanNote (NoteBody m) = false) as Hrest by (intros; apply Hsys; [by right|done]).
  case_decide as Hp; [|by apply IH]. rewrite fmap_cons. unfold live. rewrite filter_cons, decide_False; [by apply IH|].
  cbn [Superseded note_comment]. unfold supersede_note in *. destruct (current_plan n) eqn:Ec.
  - cbn [NoteBody]. by rewrite (proj2 (superseded_body_marked id)).
  - unfold current_plan in Ec. rewrite Hp in Ec. destruct (System n) eqn:Es.
    + by rewrite (Hsys n) in Hp by (done || left).
    + by destruct (isSupersededNote (NoteBody n)).
Qed.

(** Posting and listing: on a merge request with fewer than 100 notes, none of GitLab's own
    quoting a plan, [List] shows the comment just posted as the only current one, its body
    without the marker and surrounding space. *)
Theorem gitlab_post_list body (s : GitLabStore W) cm s' l s'' :
  gl_client s = c -> 0 < mr -> NoDup (NoteID <$> notes (gl_world s)) ->
  (length (notes (gl_world s)) < 100)%nat ->
  (forall n, n ∈ notes (gl_world s) -> System n = true -> isThulePlanNote (NoteBody n) = false) ->
  isSupersededNote (prependMarker (utf8_coerce body)) = false ->
  gitlab_post marshal_error unmarshal_error mr body s = (cm, s') -> gl_log s' = gl_log s ->
  ~ list_breaks_off c mr (gl_world s) -> CommentID cm <> 0 ->
  gitlab_list marshal_error unmarshal_error mr s' = (l, s'') -> gl_log s'' = gl_log s' ->
  ~ list_breaks_off c mr (gl_world s') ->
  live l = [mkComment (CommentID cm) mr (trim_space (nl +:+ nl +:+ utf8_coerce body)) false 0].
Proof.
  intros Hc Hmr Hnd Hlen Hsys Hbody Hp Hlog Hcut Hnum Hl Hlog2 Hcut2.
  pose proof Hp as Hcl. apply (gitlab_post_outcome c mr) in Hcl as (_ & _ & Hcl & _); [|done..].
  apply gitlab_post_logged in Hp as (id & Hid & -> & Hn); [|done..].
  rewrite take_ge, drop_ge in Hn by lia. cbn [app] in Hn.
  unfold gitlab_list in Hl. rewrite Hcl in Hl.
  destruct (listNotes marshal_error unmarshal_error c mr (gl_world s')) as [res w] eqn:El.
  apply (list_notes_outcome c mr) in El as [_ Hres].
  destruct res as [ns|e]; injection Hl as <- <-; [|symmetry in Hlog2; by apply app_same_nil in Hlog2].
  destruct (Hres ns eq_refl) as [->|[_ ?]]; [|done]. rewrite Hn, take_ge by (rewrite length_app, length_fmap; cbn; lia).
  rewrite filter_app, fmap_app, live_app, live_superseded_notes by done.
  rewrite filter_cons, decide_True by apply prepended_plan. cbn [fmap list_fmap]. unfold live.
  rewrite filter_cons, decide_True by done. cbn [app CommentID]. unfold note_comment. cbn [NoteID NoteBody].
  rewrite Hbody. unfold stripPlanMarker, prependMarker. by rewrite trim_prefix_app.
Qed.

(** What may happen to a note. *)
Definition kept_or_superseded (n n' : gitLabNote) : Prop :=
  n' = n \/ current_plan n = true /\ exists id, n' = mkNote (NoteID n) (buildSupersededBody id) (System n).

(** C11: whatever requests fail, and at whatever point, a post changes nothing but current
    plans of Thule, and those only to superseded ones; it adds at most one note, the
    plan itself. *)
Theorem gitlab_post_safe body (s : GitLabStore W) cm s' :
  gl_client s = c -> 0 < mr -> NoDup (NoteID <$> notes (gl_world s)) ->
  gitlab_post marshal_error unmarshal_error mr body s = (cm, s') ->
  exists kept added, notes (gl_world s') = kept ++ added /\
    Forall2 kept_or_superseded (notes (gl_world s)) kept /\
    (added = [] \/ exists id, added = [mkNote id (prependMarker (utf8_coerce body)) false]) /\
    (0 < CommentID cm -> CommentID cm ∈ (NoteID <$> added)) /\
    NoDup (NoteID <$> kept ++ added).
Proof.
  intros Hc Hmr Hnd Hp. set (ns := notes (gl_world s)) in *.
  assert (Forall2 kept_or_superseded ns ns) as Hrefl.
  { apply Forall_Forall2_diag, Forall_forall. intros n _. by left. }
  assert (forall id t, id ∉ (NoteID <$> ns) -> NoDup (NoteID <$> ns ++ [mkNote id t false])) as Hfresh.
  { intros id t Hid. rewrite fmap_app. apply NoDup_app. split; [done|]. split; [set_solver|apply NoDup_singleton]. }
  apply (gitlab_post_outcome c mr) in Hp as (extra & _ & _ & Hp); [|done..]. fold ns in Hp.
  destruct Hp as [(id & shown & ids & Hid & Hshown & -> & Hsub & _ & Hn)|(_ & -> & [Hn|(id & Hid & Hn)])].
  - set (new := mkNote id (prependMarker (utf8_coerce body)) false) in *.
    assert (id ∉ ids) as Hnew.
    { by intros Ht%Hsub%targets_known. }
    assert (forall b (k : list gitLabNote), NoteID <$> (replace_bodies b ids <$> k) = NoteID <$> k) as Hsame.
    { intros b k. rewrite <- list_fmap_compose. apply list_fmap_ext. intros i n _. unfold compose, replace_bodies.
      by destruct (bool_decide _). }
    exists (replace_bodies (buildSupersededBody shown) ids <$> ns), [new]. split_and!.
    + rewrite Hn, fmap_app. f_equal. cbn. unfold replace_bodies. by rewrite bool_decide_false.
    + apply Forall2_fmap_r, Forall_Forall2_diag, Forall_forall. intros n Hin. cbv beta.
      unfold compose, replace_bodies. case_bool_decide as Hi; [|by left]. right. split; [|by eexists].
      by apply Hsub, targets_current in Hi as [_ ?].
    + right. by eexists.
    + cbn. destruct Hshown as [->| ->]; [intros _; left|lia].
    + rewrite fmap_app, Hsame, <- fmap_app. by apply Hfresh.
  - exists ns, []. rewrite app_nil_r. split_and!; [done|done|by left|cbn; lia|done].
  - eexists ns, [_]. split_and!; [exact Hn|done|right; by eexists|cbn; lia|by apply Hfresh].
Qed.
End Posting.

(** ** A server *)

(** One merge request as a program: the notes, answered as JSON texts. Anything it
    cannot represent is refused. The answer to a request is cut after so many bytes, if
    [cut] says so. *)
Module OneMergeRequest.
Definition note_wf (n : gitLabNote) : bool :=
  valid_utf8 (NoteBody n) && (int64_min <=? NoteID n) && (NoteID n <=? int64_max).
Definition note_value (n : gitLabNote) : value :=
  VMap {["author" := VMap ∅; "body" := VString (NoteBody n); "id" := VInt (NoteID n);
         "system" := VBool (System n)]}.
Definition next_id (ns : list gitLabNote) : Z := 1 + foldr Z.max 0 (NoteID <$> ns).

Definition refused : result http_response := Ok (mkResponse 500 "" None).
Definition answer (v : value) : result http_response :=
  match marshal v with Some t => Ok (mkResponse 200 t None) | None => refused end.
Definition text_of (data : option string) : option string :=
  d ← data; j ← parse_json d;
  match j with JObj [(k, JStr text)] => if str_eqb k "body" then Some text else None | _ => None end.

Definition handle (c : gitLabClient) (mr : Z) (r : http_request) (ns : list gitLabNote)
    : result http_response * list gitLabNote :=
  if negb (forallb note_wf ns) then (refused, ns)
  else if bool_decide (r = list_request c mr) then (answer (VList (note_value <$> take 100 ns)), ns)
  else match text_of (req_body r) with
       | None => (refused, ns)
       | Some text =>
           if str_eqb (req_method r) "POST" then
             let n := mkNote (next_id ns) text false in
             if note_wf n then (answer (note_value n), ns ++ [n]) else (refused, ns)
           else (answer VNull,
                 (fun n => if str_eqb (noteURL c mr (NoteID n)) (req_target r)
                           then mkNote (NoteID n) text (System n) else n) <$> ns)
       end.

Definition cut_answer (n : option nat) (res : result http_response) : result http_response :=
  match n, res with
  | Some n, Ok resp => Ok (mkResponse (StatusCode resp) (stake n (resp_body resp)) (Some "unexpected EOF"))
  | _, _ => res
  end.
Definition serve (cut : http_request -> option nat) (c : gitLabClient) (mr : Z) (r : http_request)
    (ns : list gitLabNote) : result http_response * list gitLabNote :=
  let '(res, ns') := handle c mr r ns in (cut_answer (cut r) res, ns').

#[local] Instance http (cut : http_request -> option nat) (c : gitLabClient) (mr : Z) : Http (list gitLabNote) := {|
  new_request_error := fun _ _ => None; http_do := serve cut c mr
|}.

Lemma cut_answer_ok n res resp :
  cut_answer n res = Ok resp ->
  exists whole, res = Ok whole /\ StatusCode resp = StatusCode whole /\
    (resp_read_error whole = None -> arrived (resp_body whole) resp).
Proof.
  unfold cut_answer, arrived. destruct n as [n|], res as [whole|e]; try done; intros [= <-]; exists whole;
    (split; [done|]); (split; [done|]); intros Hw; cbn; [|by rewrite Hw].
  exists (sdrop n (resp_body whole)). symmetry. apply stake_sdrop.
Qed.

(** A request that was served, with its answer before it was cut. *)
Lemma serve_ok cut c mr r ns resp ns' :
  serve cut c mr r ns = (Ok resp, ns') ->
  exists whole, handle c mr r ns = (Ok whole, ns') /\ StatusCode resp = StatusCode whole /\
    (resp_read_error whole = None -> arrived (resp_body whole) resp).
Proof.
  unfold serve. destruct (handle c mr r ns) as [res ns1]. intros [= Hres <-].
  apply cut_answer_ok in Hres as (whole & -> & ?). by exists whole.
Qed.

Lemma serve_any cut c mr r ns res ns' : serve cut c mr r ns = (res, ns') -> exists res', handle c mr r ns = (res', ns').
Proof. unfold serve. destruct (handle c mr r ns) as [res1 ns1]. intros [= _ <-]. by exists res1. Qed.

Lemma note_value_keys n :
  sorted_keys ({["author" := VMap ∅; "body" := VString (NoteBody n); "id" := VInt (NoteID n);
                 "system" := VBool (System n)]} : gmap string value) = ["author"; "body"; "id"; "system"].
Proof. reflexivity. Qed.

Lemma note_value_object n : note_wf n = true -> note_object n (json_of (note_value n)).
Proof.
  unfold note_wf. rewrite !andb_true_iff, !Z.leb_le. intros [[Hb Hl] Hh].
  destruct (scan_number_pretty (NoteID n)) as [l Hs]. exists [("author", JObj []); ("body", JStr (NoteBody n));
    ("id", JNum l); ("system", JBool (System n))], l. split_and!.
  - unfold note_value. cbn [json_of]. rewrite note_value_keys. cbn [fmap list_fmap].
    rewrite !lookup_fmap. rewrite lookup_insert_eq, lookup_insert_ne, lookup_insert_eq by done.
    do 2 rewrite lookup_insert_ne by done. rewrite lookup_insert_eq.
    do 3 rewrite lookup_insert_ne by done. rewrite lookup_singleton_eq. cbn [fmap option_fmap option_map default json_of].
    unfold lit_text. rewrite Hs. unfold valid_utf8 in Hb. apply str_eqb_eq in Hb. by rewrite Hb.
  - by apply lit_int_pretty.
  - vm_compute filter. apply perm_swap.
Qed.

Lemma note_value_wf n : num_wf (note_value n) = true /\ vdepth (note_value n) <= 2.
Proof. destruct n. split; [reflexivity|]. change (2 <= 2). lia. Qed.

Lemma answer_object n resp :
  note_wf n = true -> answer (note_value n) = Ok resp -> StatusCode resp < 300 ->
  resp_read_error resp = None /\ exists j, parse_json (resp_body resp) = Some j /\ note_object n j.
Proof.
  intros Hw. unfold answer. destruct (marshal (note_value n)) as [t|] eqn:Hm; intros [= <-]; [|done].
  intros _. split; [done|]. eexists. split; [|by apply note_value_object]. unfold parse_json. cbn [resp_body].
  destruct (note_value_wf n). apply parse_marshal; [done|done|]. unfold maxNestingDepth. lia.
Qed.

Lemma answer_list ns resp :
  forallb note_wf ns = true -> answer (VList (note_value <$> ns)) = Ok resp -> StatusCode resp < 300 ->
  resp_read_error resp = None /\
  exists js, parse_json (resp_body resp) = Some (JArr js) /\ Forall2 note_object ns js.
Proof.
  intros Hw. unfold answer. destruct (marshal (VList (note_value <$> ns))) as [t|] eqn:Hm; intros [= <-]; [|done].
  intros _. split; [done|]. exists (json_of <$> (note_value <$> ns)). split.
  - unfold parse_json. cbn [resp_body]. rewrite (parse_marshal _ _ _ Hm); [done| |].
    + apply vforall_list. split; [done|]. intros x (n & -> & _)%list_elem_of_fmap. apply note_value_wf.
    + assert (vdepth (VList (note_value <$> ns)) <= 3); [|unfold maxNestingDepth; lia].
      clear. cbn [vdepth]. induction ns as [|n ns IH]; cbn [fmap list_fmap foldr]; [lia|].
      destruct (note_value_wf n). cbn [fmap list_fmap] in IH. lia.
  - apply Forall2_fmap_r, Forall2_fmap_r, Forall_Forall2_diag, Forall_forall. intros n Hn.
    apply note_value_object. rewrite forallb_forall in Hw. by apply Hw, list_elem_of_In.
Qed.

Lemma next_id_fresh ns : next_id ns ∉ (NoteID <$> ns).
Proof.
  assert (forall x, x ∈ (NoteID <$> ns) -> x <= foldr Z.max 0 (NoteID <$> ns)) as Hmax.
  { induction (NoteID <$> ns) as [|y l IH]; intros x Hx; [by apply elem_of_nil in Hx|].
    cbn. apply elem_of_cons in Hx as [->|Hx%IH]; lia. }
  intros Hin%Hmax. unfold next_id in Hin. lia.
Qed.

Lemma noteURL_inj c mr id id' : noteURL c mr id = noteURL c mr id' -> id = id'.
Proof.
  unfold noteURL, fmt_d. intros H. apply (inj (String.app _)) in H. apply (inj (String.app _)) in H.
  by apply (inj pretty) in H.
Qed.

Lemma put_target c mr id text (ns : list gitLabNote) :
  (fun n => if str_eqb (noteURL c mr (NoteID n)) (noteURL c mr id)
            then mkNote (NoteID n) text (System n) else n) <$> ns = set_body id text <$> ns.
Proof.
  apply list_fmap_ext. intros i n _. unfold set_body.
  destruct (Z.eqb_spec (NoteID n) id) as [->|Hne]; [by rewrite str_eqb_refl|].
  rewrite (proj2 (str_eqb_neq _ _)); [done|]. intros ?%noteURL_inj. done.
Qed.

Lemma text_of_body data text :
  parse_json data = Some (JObj [("body", JStr text)]) -> text_of (Some data) = Some text.
Proof. intros H. unfold text_of. cbn [mbind option_bind]. by rewrite H. Qed.

Lemma handle_create c mr data text ns :
  parse_json data = Some (JObj [("body", JStr text)]) ->
  let n := mkNote (next_id ns) text false in
  handle c mr (create_request c mr data) ns =
  if forallb note_wf ns && note_wf n then (answer (note_value n), ns ++ [n]) else (refused, ns).
Proof.
  intros H. unfold handle. destruct (forallb note_wf ns); [|done]. cbn [negb andb].
  rewrite bool_decide_false by done. cbn [req_body create_request]. by rewrite (text_of_body _ _ H).
Qed.

Lemma handle_update c mr id data text ns :
  parse_json data = Some (JObj [("body", JStr text)]) ->
  handle c mr (update_request c mr id data) ns =
  if forallb note_wf ns then (answer VNull, set_body id text <$> ns) else (refused, ns).
Proof.
  intros H. unfold handle. destruct (forallb note_wf ns); [|done]. cbn [negb].
  rewrite bool_decide_false by done. cbn [req_body req_method req_target update_request].
  rewrite (text_of_body _ _ H). change (str_eqb "PUT" "POST") with false. cbv iota. by rewrite put_target.
Qed.

Lemma forallb_take {A} (p : A -> bool) i l : forallb p l = true -> forallb p (take i l) = true.
Proof.
  rewrite !forallb_forall. intros Hl x Hx. apply Hl. apply list_elem_of_In. apply list_elem_of_In in Hx.
  by apply (elem_of_sublist (take i l)), sublist_take.
Qed.

#[local] Existing Instance http.
#[export] Program Instance server (cut : http_request -> option nat) (c : gitLabClient) (mr : Z) :
  NotesServer (iH := http cut c mr) (list gitLabNote) c mr := {| notes := fun ns => ns |}.
Next Obligation.
  intros cut c mr ns res ns' (res' & Hh)%serve_any. unfold handle in Hh.
  destruct (forallb note_wf ns); cbn [negb] in Hh; [|by injection Hh].
  rewrite bool_decide_true in Hh by done. by injection Hh.
Qed.
Next Obligation.
  intros cut c mr ns resp ns' (whole & Hh & Hst & Harr)%serve_ok Hs. unfold handle in Hh.
  destruct (forallb note_wf ns) eqn:Hw; cbn [negb] in Hh; [|injection Hh as <- <-; cbn in Hst; lia].
  rewrite bool_decide_true in Hh by done. apply pair_equal_spec in Hh as [Ha <-].
  destruct (answer_list (take 100 ns) whole (forallb_take _ _ _ Hw) Ha ltac:(lia)) as (He & js & Hj & Hjs).
  exists (resp_body whole), js. auto.
Qed.
Next Obligation.
  intros cut c mr ns data text resp ns' (whole & Hh & Hst & Harr)%serve_ok Hs Hd.
  rewrite (handle_create c mr data text ns Hd) in Hh.
  destruct (forallb note_wf ns && note_wf _) eqn:Hw; [|injection Hh as <- <-; cbn in Hst; lia].
  apply andb_true_iff in Hw as [_ Hw]. apply pair_equal_spec in Hh as [Ha <-].
  destruct (answer_object _ whole Hw Ha ltac:(lia)) as (He & j & Hj & Ho). exists (next_id ns), (resp_body whole), j.
  split_and!; auto using next_id_fresh.
Qed.
Next Obligation.
  intros cut c mr ns data text res ns' (res' & Hh)%serve_any Hd. rewrite (handle_create c mr data text ns Hd) in Hh.
  destruct (forallb note_wf ns && note_wf _); apply pair_equal_spec in Hh as [_ <-]; [|by left].
  right. exists (next_id ns). split; [apply next_id_fresh|done].
Qed.
Next Obligation.
  intros cut c mr ns id data text resp ns' (whole & Hh & Hst & _)%serve_ok Hs Hd.
  rewrite (handle_update c mr id data text ns Hd) in Hh.
  destruct (forallb note_wf ns); [by apply pair_equal_spec in Hh as [_ <-]|]. injection Hh as <- <-. cbn in Hst. lia.
Qed.
Next Obligation.
  intros cut c mr ns id data text res ns' (res' & Hh)%serve_any Hd. rewrite (handle_update c mr id data text ns Hd) in Hh.
  destruct (forallb note_wf ns); apply pair_equal_spec in Hh as [_ <-]; [by right|by left].
Qed.
End OneMergeRequest.

(** *** Concrete posts *)

Definition sample_client : gitLabClient := mkClient "https://gl.example.com/api/v4" "t0ken" "group/app" 0.
Definition no_error {A} (_ : A) : string := "invalid".

(** A plan, a comment of somebody who quotes nothing, a system note. *)
Definition sample_notes : list gitLabNote :=
  [mkNote 11 (prependMarker "old plan") false; mkNote 12 "LGTM" false; mkNote 13 (prependMarker "x") true].

(** Connections on which every answer arrives, and on which the answers to requests of one
    method break off before they begin. *)
Definition whole (_ : http_request) : option nat := None.
Definition cut_method (method : string) (r : http_request) : option nat :=
  if str_eqb (req_method r) method then Some 0%nat else None.

Definition post_over (cut : http_request -> option nat) (ns : list gitLabNote)
    : Comment * GitLabStore (list gitLabNote) :=
  gitlab_post (iH := OneMergeRequest.http cut sample_client 7) no_error no_error 7 "plan" (mkGitLabStore sample_client ns []).
Definition sample_post := post_over whole.

Lemma whole_arrives ns : ~ list_breaks_off (iH := OneMergeRequest.http whole sample_client 7) sample_client 7 ns.
Proof.
  intros (resp & ns' & Hh & _ & He). cbn in Hh. unfold OneMergeRequest.serve in Hh.
  destruct (OneMergeRequest.handle _ _ _ _) as [res ns1] eqn:E. injection Hh as -> <-.
  unfold OneMergeRequest.handle in E. destruct (negb (forallb OneMergeRequest.note_wf ns)).
  { injection E as <- <-. by destruct He. }
  rewrite bool_decide_true in E by done. apply pair_equal_spec in E as [E _]. unfold OneMergeRequest.answer in E.
  destruct (marshal _); injection E as <-; by destruct He.
Qed.

Lemma gitlab_post_supersedes_witness :
  filter (fun n => current_plan n = true) (gl_world (sample_post sample_notes).2) =
  [mkNote 14 (prependMarker "plan") false].
Proof.
  assert (gl_log (sample_post sample_notes).2 = []) as Hlog by (vm_compute; reflexivity).
  assert (CommentID (sample_post sample_notes).1 = 14) as Hid by (vm_compute; reflexivity).
  destruct (gitlab_post_supersedes (sW := OneMergeRequest.server whole sample_client 7) sample_client 7
    no_error no_error "plan" (mkGitLabStore sample_client sample_notes []) (sample_post sample_notes).1
    (sample_post sample_notes).2) as (id & _ & Hcm & _ & Hcur & _);
    [reflexivity|lia| |cbn; lia|vm_compute; reflexivity|apply surjective_pairing|exact Hlog|apply whole_arrives| |].
  - apply (bool_decide_unpack _). vm_compute. exact I.
  - rewrite Hid. discriminate.
  - etransitivity; [exact Hcur|]. rewrite Hcm in Hid. change (id = 14) in Hid. subst id. vm_compute. reflexivity.
Defined.

(** A hundred notes of others and then a plan. *)
Definition busy_notes : list gitLabNote :=
  ((fun i => mkNote (1000 + Z.of_nat i) "ping" false) <$> seq 0 100) ++ [mkNote 11 (prependMarker "old plan") false].

Lemma gitlab_page_limit_witness :
  exists new, NoteID new <> 11 /\ mkNote 11 (prependMarker "old plan") false ∈ gl_world (sample_post busy_notes).2 /\
    new ∈ gl_world (sample_post busy_notes).2 /\ current_plan new = true.
Proof.
  assert (gl_log (sample_post busy_notes).2 = []) as Hlog by (vm_compute; reflexivity).
  destruct (gitlab_page_limit (sW := OneMergeRequest.server whole sample_client 7) sample_client 7
    no_error no_error "plan" (mkGitLabStore sample_client busy_notes []) (sample_post busy_notes).1
    (sample_post busy_notes).2 (mkNote 11 (prependMarker "old plan") false)) as (new & _ & Hne & Hold & Hnew & Hcur);
    [reflexivity|lia| |left|vm_compute; reflexivity|vm_compute; reflexivity|apply surjective_pairing|exact Hlog|].
  - apply (bool_decide_unpack _). vm_compute. exact I.
  - exists new. split; [exact Hne|]. split; [exact Hold|]. split; [exact Hnew|exact Hcur].
Defined.

Lemma gitlab_post_list_witness :
  live (gitlab_list (iH := OneMergeRequest.http whole sample_client 7) no_error no_error 7
    (sample_post [mkNote 11 (prependMarker "old plan") false; mkNote 12 "LGTM" false]).2).1 =
  [mkComment 13 7 "plan" false 0].
Proof.
  pose (s' := (sample_post [mkNote 11 (prependMarker "old plan") false; mkNote 12 "LGTM" false]).2).
  pose (r := gitlab_list (iH := OneMergeRequest.http whole sample_client 7) no_error no_error 7 s').
  etransitivity; [apply (gitlab_post_list (sW := OneMergeRequest.server whole sample_client 7) sample_client 7
    no_error no_error "plan" (mkGitLabStore sample_client [mkNote 11 (prependMarker "old plan") false; mkNote 12 "LGTM" false] [])
    (sample_post [mkNote 11 (prependMarker "old plan") false; mkNote 12 "LGTM" false]).1 s' r.1 r.2)|].
  - reflexivity.
  - lia.
  - apply (bool_decide_unpack _). vm_compute. exact I.
  - cbn. lia.
  - intros n Hin Hs. apply elem_of_cons in Hin as [->|Hin]; [discriminate Hs|].
    apply list_elem_of_singleton in Hin as ->. discriminate Hs.
  - vm_compute. reflexivity.
  - apply surjective_pairing.
  - vm_compute. reflexivity.
  - apply whole_arrives.
  - vm_compute. discriminate.
  - apply surjective_pairing.
  - vm_compute. reflexivity.
  - apply whole_arrives.
  - vm_compute. reflexivity.
Defined.

Lemma gitlab_post_safe_witness :
  exists kept added, gl_world (sample_post sample_notes).2 = kept ++ added /\
    Forall2 kept_or_superseded sample_notes kept.
Proof.
  destruct (gitlab_post_safe (sW := OneMergeRequest.server whole sample_client 7) sample_client 7
    no_error no_error "plan" (mkGitLabStore sample_client sample_notes []) (sample_post sample_notes).1
    (sample_post sample_notes).2) as (kept & added & Hn & Hk & _);
    [reflexivity|lia| |apply surjective_pairing|].
  - apply (bool_decide_unpack _). vm_compute. exact I.
  - exists kept, added. split; [exact Hn|exact Hk].
Defined.

(** A connection that breaks before the first byte of the list of notes: the error of
    reading is dropped and the empty text counts as no notes, so nothing is logged and
    the old plan stays current. *)
Example cut_answer_keeps_plan :
  let '(cm, s') := post_over (cut_method "GET") sample_notes in
  gl_log s' = [] /\ CommentID cm = 14 /\
  (NoteID <$> filter (fun n => current_plan n = true) (gl_world s')) = [11; 14].
Proof. vm_compute. done. Qed.

(** One that breaks before the answer to the creation: again nothing is logged, and the
    old plan is marked as replaced by note 0. *)
Example cut_creation_numbers_zero :
  let '(cm, s') := post_over (cut_method "POST") sample_notes in
  gl_log s' = [] /\ CommentID cm = 0 /\
  head (gl_world s') = Some (mkNote 11 (buildSupersededBody 0) false).
Proof. vm_compute. done. Qed.

(** One that breaks in the middle of an answer leads to an error that is logged. *)
Example cut_within_is_logged :
  length (gl_log (post_over (fun r => if str_eqb (req_method r) "GET" then Some 20%nat else None) sample_notes).2) = 1%nat.
Proof. vm_compute. done. Qed.

(** ** Changed files *)

Section ChangedFiles.
Context {W : Type} {iH : Http W}.
Context (marshal_error : value -> string) (unmarshal_error : string -> string).


End ChangedFiles.

(** A server with one answer. *)
Definition canned (resp : http_response) : Http unit := {|
  new_request_error := fun _ _ => None; http_do := fun _ w => (Ok resp, w)
|}.


(** ** Commit statuses *)

(** A status is one POST of its three texts, the description cut to 255 bytes; nothing
    is sent for a blank commit. *)
Lemma status_payload_parse st :
  exists data, marshal (status_payload st) = Some data /\
    parse_json data = Some (JObj [("description", JStr (utf8_coerce (truncate (Description st) 255)));
      ("name", JStr (utf8_coerce (StatusContext st))); ("state", JStr (mapState (StatusState st)))]).
Proof.
  set (m := {["state" := VString (mapState (StatusState st)); "name" := VString (StatusContext st);
         "description" := VString (truncate (Description st) 255)]} : gmap string value).
  assert (sorted_keys m = ["description"; "name"; "state"]) as Hk by reflexivity.
  assert (m !! "description" = Some (VString (truncate (Description st) 255))) as H1 by reflexivity.
  assert (m !! "name" = Some (VString (StatusContext st))) as H2 by reflexivity.
  assert (m !! "state" = Some (VString (mapState (StatusState st)))) as H3 by reflexivity.
  assert (num_wf (VMap m) = true) as Hw by reflexivity.
  assert (vdepth (VMap m) <= maxNestingDepth) as Hd by (change (1 <= 10000); lia).
  change (status_payload st) with (VMap m). clearbody m.
  assert (exists data, marshal (VMap m) = Some data) as [data Hm].
  { cbn [marshal]. rewrite Hk. cbn [mapM]. rewrite !lookup_fmap, H1, H2, H3. by eexists. }
  exists data. split; [done|]. unfold parse_json. rewrite (parse_marshal _ _ _ Hm Hw Hd).
  cbn [json_of]. rewrite Hk. cbn [fmap list_fmap]. rewrite !lookup_fmap, H1, H2, H3.
  by destruct (StatusState st).
Qed.

Lemma truncate_prefix s max : 0 <= max -> zlen (truncate s max) <= Z.max max (zlen s) /\
  (0 < max -> zlen (truncate s max) <= max) /\ exists r, s = truncate s max +:+ r.
Proof.
  intros Hmax. unfold truncate. destruct (Z.leb_spec max 0), (Z.leb_spec (zlen s) max); cbn [orb];
    try (split_and!; [lia|lia|exists ""; by rewrite string_app_nil_r]).
  pose proof (stake_zlen_le (Z.to_nat max) s). split_and!; [lia|lia|].
  exists (sdrop (Z.to_nat max) s). by rewrite stake_sdrop.
Qed.

Section Status.
Context {W : Type} {iH : Http W}.
Context (marshal_error : value -> string) (unmarshal_error : string -> string).

Definition status_request (c : gitLabClient) (st : StatusCheck) (data : string) : http_request :=
  mkHttpRequest "POST" (statusURL c st) (request_headers c) (Some data).

(** A status is published by one POST to the address of its commit whose JSON text
    says its state, its name and at most 255 bytes of its description; a blank commit
    sends nothing, and a line is logged exactly when the request was not answered with
    success. *)
Theorem gitlab_status_request st (s : GitLabStore W) :
  new_request_error "POST" (statusURL (gl_client s) st) = None ->
  let s' := gitlab_set_status marshal_error unmarshal_error st s in
  if str_eqb (trim_space (StatusSHA st)) "" then s' = s
  else
    exists data description,
      parse_json data = Some (JObj [("description", JStr (utf8_coerce description));
        ("name", JStr (utf8_coerce (StatusContext st))); ("state", JStr (mapState (StatusState st)))]) /\
      (zlen description <= 255 /\ exists r, Description st = description +:+ r) /\
      let '(res, w) := http_do (status_request (gl_client s) st data) (gl_world s) in
      gl_world s' = w /\
      (gl_log s' = gl_log s <-> exists resp, res = Ok resp /\ StatusCode resp < 300).
Proof.
  intros Hnew. cbv zeta. unfold gitlab_set_status. destruct (str_eqb (trim_space (StatusSHA st)) ""); [reflexivity|].
  destruct (status_payload_parse st) as (data & Hm & Hp).
  exists data, (truncate (Description st) 255). split; [done|].
  split; [destruct (truncate_prefix (Description st) 255) as (_ & H1 & H2); [lia|split; [lia|done]]|].
  unfold setCommitStatus, request. rewrite Hm, Hnew. unfold status_request.
  destruct (http_do _ (gl_world s)) as [[resp|e] w]; cbn [gl_world gl_log].
  - unfold read_response. destruct (Z.leb_spec 300 (StatusCode resp)).
    + split; [done|]. split; [intros He; symmetry in He; by apply app_same_nil in He|].
      intros (r & [= <-] & ?). lia.
    + split; [done|]. split; [|done]. intros _. exists resp. split; [reflexivity|lia].
  - split; [done|]. split; [intros He; symmetry in He; by apply app_same_nil in He|]. by intros (r & [=] & _).
Qed.
End Status.

Definition long_status : StatusCheck := mkStatus 7 "abc" "thule/plan" CheckFailed (fmt_d (10 ^ 300)).

Lemma gitlab_status_request_witness :
  exists data description, (zlen description <= 255 /\ exists r, Description long_status = description +:+ r) /\
    parse_json data = Some (JObj [("description", JStr (utf8_coerce description));
      ("name", JStr "thule/plan"); ("state", JStr "failed")]).
Proof.
  destruct (gitlab_status_request (iH := canned (mkResponse 201 "{}" None)) no_error no_error long_status
    (mkGitLabStore sample_client tt []) eq_refl) as (data & description & Hd & Hl & _).
  exists data, description. split; [exact Hl|exact Hd].
Defined.

(** ** Repository addresses *)

(** An address of the form git@host:path names the API of its host and, less a
    final .git, its path as the project. *)
Theorem scp_address bracketed host path :
  index_char ":"%char host = None -> path <> "" ->
  parseHost bracketed ("git@" +:+ host +:+ ":" +:+ path) = host /\
  parseProjectPath bracketed ("git@" +:+ host +:+ ":" +:+ path) = trim_suffix path ".git".
Proof.
  intros Hh Hp. set (addr := "git@" +:+ host +:+ ":" +:+ path).
  assert (index_char ":"%char addr = Some (String.length ("git@" +:+ host))) as Hc.
  { unfold addr. change (":" +:+ path) with (String ":" path). rewrite <- string_app_assoc.
    apply index_char_app. cbn. by rewrite Hh. }
  rewrite string_length_app in Hc. change (String.length "git@") with 4%nat in Hc.
  unfold parseHost, parseProjectPath.
  change (str_eqb addr "") with false. change (has_prefix addr "git@") with true.
  change (index_char "@"%char addr) with (Some 3%nat). rewrite Hc. cbv iota. split.
  - rewrite (proj2 (Nat.ltb_lt 3 _)) by lia. change (sdrop (3 + 1) addr) with (host +:+ ":" +:+ path).
    replace (4 + String.length host - (3 + 1))%nat with (String.length host) by lia. apply stake_app.
  - assert (String.length addr = (String.length host + 5 + String.length path)%nat) as Hl.
    { unfold addr. rewrite !string_length_app. cbn. lia. }
    rewrite Hl, (proj2 (Nat.ltb_lt _ _)) by (destruct path; [done|cbn; lia]). f_equal.
    replace (4 + String.length host + 1)%nat with (String.length (("git@" +:+ host) +:+ ":"))
      by (rewrite !string_length_app; cbn; lia).
    unfold addr. rewrite <- !string_app_assoc, (string_app_assoc _ ":" path), <- string_app_assoc. apply sdrop_app.
Qed.

Lemma scp_address_witness :
  parseHost no_brackets "git@gl.example.com:group/app.git" = "gl.example.com" /\
  parseProjectPath no_brackets "git@gl.example.com:group/app.git" = "group/app".
Proof.
  destruct (scp_address no_brackets "gl.example.com" "group/app.git" eq_refl) as [H1 H2]; [discriminate|].
  split; [exact H1|exact H2].
Defined.
