(* ===== verification/Planner.v ===== *)
(** * Planning an event: internal/orchestrator/planner.go

    [PlanForEvent] against the interfaces of the comment, status and run stores, the
    cluster reader and the policy evaluator. The file system, the YAML library and the
    cluster are arguments. *)

From stdpp Require Import options.
From S2P Require Import Prelude GoStrings GoPath Value Config Render Diff.
From S2P Require Import Policy Report Project RunStore Vcs Service.

(** ** The cluster *)

(** A reader either lists a namespace or is told the project and the desired resources
    too. The first argument is the occasion of the call, so that a reader may answer
    differently each time it is asked. *)
Inductive ClusterReader :=
| NamespaceReader
    (ListResources : string -> string -> string -> result (list Resource))
| ProjectAwareReader
    (ListResourcesWithProject :
       string -> string -> string -> string -> list Resource -> result (list Resource)).

(** [MemoryClusterReader]: cluster_memory.go; [None] is a nil reader. *)
Definition MemoryClusterReader (byClusterNS : option (gmap string (list Resource))) : ClusterReader :=
  NamespaceReader (fun _ clusterRef namespace =>
    match byClusterNS with
    | None => Ok []
    | Some m => Ok (default [] (m !! (clusterRef +:+ "/" +:+ namespace)))
    end).

(** ** Filtering by changed files *)

Definition manifest_path (f : string) : option string :=
  let cleaned := clean (trim_space f) in
  let e := to_lower (ext cleaned) in
  if str_eqb e ".yaml" || str_eqb e ".yml" then Some cleaned else None.

Definition changed_manifests (changedFiles : list string) : gset string :=
  list_to_set (omap manifest_path changedFiles).

(** Whether the resource comes from one of the changed files. *)
Definition touched (changed : gset string) (repoRoot : string) (r : Resource) : bool :=
  if str_eqb (SourcePath r) "" then false
  else match rel repoRoot (SourcePath r) with
       | None => false
       | Some p => bool_decide (clean p ∈ changed)
       end.

Definition filterDesiredByChangedFiles (desired : list Resource) (changedFiles : list string)
    (repoRoot : string) : list Resource :=
  match desired, changedFiles with
  | [], _ | _, [] => desired
  | _, _ =>
      let changed := changed_manifests changedFiles in
      if decide (changed = ∅) then []
      else filter (fun r => touched changed repoRoot r = true) desired
  end.

(** ** The planner *)

Section Planner.
Context {C P R E : Type}.
Context {iC : CommentStore C} {iP : StatusPublisher P} {iR : RunStore R} {iE : Evaluator E} {iM : MapOrder}.

(** A nil interface is [None]. *)
Record Planner := mkPlanner {
  repoRoot : string;
  cluster : ClusterReader;
  pl_comments : option C;
  pl_status : option P;
  pl_runs : option R;
  policyEval : option E
}.

Definition NewPlanner (repoRoot : string) (cluster : ClusterReader) (comments : option C) (status : option P)
    (runs : option R) (policyEval : option E) : Planner :=
  mkPlanner repoRoot cluster comments status runs policyEval.

Definition with_comments (c : option C) (p : Planner) : Planner :=
  mkPlanner (repoRoot p) (cluster p) c (pl_status p) (pl_runs p) (policyEval p).
Definition with_status (s : option P) (p : Planner) : Planner :=
  mkPlanner (repoRoot p) (cluster p) (pl_comments p) s (pl_runs p) (policyEval p).
Definition with_runs (r : option R) (p : Planner) : Planner :=
  mkPlanner (repoRoot p) (cluster p) (pl_comments p) (pl_status p) r (policyEval p).

(** [if p.runs != nil { p.runs.f(...) }] and the like *)
Definition on_runs (f : R -> R) (p : Planner) : Planner := with_runs (f <$> pl_runs p) p.
Definition on_status (st : StatusCheck) (p : Planner) : Planner :=
  with_status (SetStatus st <$> pl_status p) p.

Definition check (evt : MergeRequestEvent) (st : CheckState) (description : string) : StatusCheck :=
  mkStatus (MergeReqID evt) (HeadSHA evt) "thule/plan" st description.

Definition finishWithError (evt : MergeRequestEvent) (runID : Z) (err : string) (p : Planner) : Planner :=
  let p := if 0 <? runID then on_runs (Complete runID StateFailed err) p else p in
  on_status (check evt CheckFailed err) p.

(** The closure [failRuns] over the runs started so far. *)
Definition failRuns (runIDs : list Z) (currentRunID : Z) (err : string) (p : Planner) : Planner :=
  on_runs (fun r => foldl (fun r runID =>
    if (runID <=? 0) || (runID =? currentRunID) then r else Complete runID StateFailed err r) r runIDs) p.

(** The local variables of the loop over the projects. *)
Record progress := mkProgress {
  planned : bool;
  projectPlans : list ProjectPlan;
  runIDs : list Z;
  maxResourceDetails : Z
}.

Inductive iteration :=
| Stale (p : Planner)
| Failed (err : string) (p : Planner)
| Next (p : Planner) (v : progress).

Context (fs : FS) (yaml : yaml_decoder) (yaml_marshal : value -> yaml_out) (fmt_any : value -> string).

Definition fail_with (evt : MergeRequestEvent) (v : progress) (runID : Z) (err : string) (p : Planner)
    : iteration :=
  Failed err (finishWithError evt runID err (failRuns (runIDs v) runID err p)).

Definition list_actual (p : Planner) (prj : DiscoveredProject) (cfg : Config) (desired : list Resource)
    : result (list Resource) :=
  match cluster p with
  | ProjectAwareReader f =>
      f (ConfigPath prj) (Config.Project cfg) (ClusterRef cfg) (ConfigNamespace cfg) desired
  | NamespaceReader f => f (ConfigPath prj) (ClusterRef cfg) (ConfigNamespace cfg)
  end.

Definition start_run (evt : MergeRequestEvent) (cfg : Config) (p : Planner) (v : progress)
    : Z * Planner * progress :=
  match pl_runs p with
  | None => (0, p, v)
  | Some r =>
      let '(rr, r') := Start (MergeReqID evt) (HeadSHA evt) (Config.Project cfg) r in
      (RunID rr, with_runs (Some r') p,
       mkProgress (planned v) (projectPlans v) (runIDs v ++ [RunID rr]) (maxResourceDetails v))
  end.

Definition plan_options (cfg : Config) : Options :=
  mkOptions (Prune (DiffCfg cfg)) (IgnoreFields (DiffCfg cfg)) true.

Definition is_stale (evt : MergeRequestEvent) (p : Planner) : bool :=
  match pl_runs p with
  | Some r => IsStale (MergeReqID evt) (HeadSHA evt) r
  | None => false
  end.

(** The run store is shared: before the loop reaches a project, another planner may have
    recorded a commit of the same merge request. *)
Definition record_other (evt : MergeRequestEvent) (sha : option string) (p : Planner) : Planner :=
  match sha with
  | Some sha => on_runs (SetLatestSHA (MergeReqID evt) sha) p
  | None => p
  end.

(** One iteration of the loop. *)
Definition plan_project (evt : MergeRequestEvent) (prj : DiscoveredProject) (p : Planner) (v : progress)
    : iteration :=
  if is_stale evt p then Stale p
  else
    let configPath := join2 (repoRoot p) (ConfigPath prj) in
    match fs_stat fs configPath with
    | Err _ => Next p v
    | Ok _ =>
        let v := mkProgress true (projectPlans v) (runIDs v) (maxResourceDetails v) in
        match Load (fs_read fs configPath) with
        | Err err => fail_with evt v 0 err p
        | Ok cfg =>
            let m := MaxResourceDetails (CommentCfg cfg) in
            let v := mkProgress (planned v) (projectPlans v) (runIDs v)
                       (if maxResourceDetails v <? m then m else maxResourceDetails v) in
            match RenderProject fs yaml (join2 (repoRoot p) (Root prj)) cfg with
            | Err err => fail_with evt v 0 err p
            | Ok desired =>
                match filterDesiredByChangedFiles desired (ChangedFiles evt) (repoRoot p) with
                | [] => Next p v
                | desired =>
                    let '(runID, p, v) := start_run evt cfg p v in
                    match list_actual p prj cfg desired with
                    | Err err => fail_with evt v runID err p
                    | Ok actual =>
                        let '(changes, summary) :=
                          Compute yaml_marshal fmt_any desired actual (plan_options cfg) in
                        let findings := match policyEval p with
                                        | Some e => evaluate e desired (Profile (PolicyCfg cfg))
                                        | None => []
                                        end in
                        let plan := mkPlan (Config.Project cfg) changes summary findings in
                        Next p (mkProgress (planned v) (projectPlans v ++ [plan]) (runIDs v)
                                  (maxResourceDetails v))
                    end
                end
            end
        end
    end.

(** The loop. [others] says which commit, if any, another planner recorded between the
    previous iteration and the one of the project with this configuration path. *)
Fixpoint plan_projects (others : string -> option string) (evt : MergeRequestEvent)
    (projects : list DiscoveredProject) (p : Planner) (v : progress) : iteration :=
  match projects with
  | [] => Next p v
  | prj :: rest =>
      match plan_project evt prj (record_other evt (others (ConfigPath prj)) p) v with
      | Next p v => plan_projects others evt rest p v
      | stop => stop
      end
  end.

(** [p.comments.PostOrSupersede] when there is a comment store; the id posted. *)
Definition post (evt : MergeRequestEvent) (body : string) (p : Planner) : option Z * Planner :=
  match pl_comments p with
  | Some c =>
      let '(new, c') := PostOrSupersede (MergeReqID evt) body c in
      (Some (CommentID new), with_comments (Some c') p)
  | None => (None, p)
  end.

(** What is recorded about one run of a completed plan. *)
Definition finish_run (body : string) (commentID : Z) (r : R) (runID : Z) : R :=
  if runID <=? 0 then r
  else
    let r := AddArtifact runID "plan-comment" body r in
    let r := if 0 <? commentID then AddArtifact runID "comment-id" (fmt_d commentID) r else r in
    Complete runID StateSuccess "" r.

Definition plan_body (evt : MergeRequestEvent) (v : progress) : string :=
  match projectPlans v with
  | [] => BuildNoChangesComment (HeadSHA evt) (ChangedFiles evt) 50
  | plans => BuildAggregatedPlanComment (HeadSHA evt) plans (maxResourceDetails v)
  end.

(** After the loop. *)
Definition publish (evt : MergeRequestEvent) (p : Planner) (v : progress) : Planner :=
  let p := if planned v then p
           else (post evt (BuildNoChangesComment (HeadSHA evt) (ChangedFiles evt) 50) p).2 in
  let p := if planned v then
             let body := plan_body evt v in
             let '(id, p) := post evt body p in
             on_runs (fun r => foldl (finish_run body (default 0 id)) r (runIDs v)) p
           else p in
  on_status (check evt CheckSuccess "Thule plan completed") p.

Definition sorted_projects (changedFiles : list string) : list DiscoveredProject :=
  sort_by ConfigPath (DiscoverFromChangedFiles changedFiles).

Definition begin_plan (evt : MergeRequestEvent) (p : Planner) : Planner :=
  on_status (check evt CheckPending "Thule plan running")
    (on_runs (SetLatestSHA (MergeReqID evt) (HeadSHA evt)) p).

(** Planning while other planners use the same run store. *)
Definition PlanForEvent_among (others : string -> option string) (evt : MergeRequestEvent) (p : Planner)
    : result unit * Planner :=
  let p := begin_plan evt p in
  match plan_projects others evt (sorted_projects (ChangedFiles evt)) p (mkProgress false [] [] 0) with
  | Stale p => (Ok tt, p)
  | Failed err p => (Err err, p)
  | Next p v => (Ok tt, publish evt p v)
  end.

(** Planning alone, as in a worker, whose loop is the only user of its run store. *)
Definition PlanForEvent (evt : MergeRequestEvent) (p : Planner) : result unit * Planner :=
  PlanForEvent_among (fun _ => None) evt p.
End Planner.

Arguments Planner C P R E : clear implicits.
Arguments iteration C P R E : clear implicits.
