(* ===== verification/PlannerFacts.v ===== *)
(** * internal/orchestrator/planner.go: theorems

    What planning an event does is determined by what each discovered project
    evaluates to: [eval_project] is that evaluation without any store, and
    [PlanForEvent] publishes it. *)

From stdpp Require Import options.
From S2P Require Import Prelude GoStrings GoPath Value Config Render Diff.
From S2P Require Import Policy Report Project RunStore Vcs Service Planner.

(** ** What a project evaluates to *)

Inductive project_eval :=
| Absent                                            (* no configuration file *)
| Unreadable (err : string)                         (* configuration or manifests in error *)
| Untouched (details : Z)                           (* no resource from a changed file *)
| Unlisted (name err : string) (details : Z)        (* the cluster could not be read *)
| Planned (plan : ProjectPlan) (details : Z).

Section PlannerFacts.
#[local] Set Default Proof Using "Type*".
Context {C P R E : Type}.
Context {iC : CommentStore C} {iP : StatusPublisher P} {iR : RunStore R} {iE : Evaluator E} {iM : MapOrder}.
Context {sR : RunStoreSpec R}.
Context (fs : FS) (yaml : yaml_decoder) (yaml_marshal : value -> yaml_out) (fmt_any : value -> string).
Implicit Types (p : Planner C P R E) (evt : MergeRequestEvent) (v : progress).

Definition eval_project evt p (prj : DiscoveredProject) : project_eval :=
  let configPath := join2 (repoRoot p) (ConfigPath prj) in
  match fs_stat fs configPath with
  | Err _ => Absent
  | Ok _ =>
      match Load (fs_read fs configPath) with
      | Err err => Unreadable err
      | Ok cfg =>
          let details := MaxResourceDetails (CommentCfg cfg) in
          match RenderProject fs yaml (join2 (repoRoot p) (Root prj)) cfg with
          | Err err => Unreadable err
          | Ok desired =>
              match filterDesiredByChangedFiles desired (ChangedFiles evt) (repoRoot p) with
              | [] => Untouched details
              | desired =>
                  match list_actual p prj cfg desired with
                  | Err err => Unlisted (Config.Project cfg) err details
                  | Ok actual =>
                      let '(changes, summary) :=
                        Compute yaml_marshal fmt_any desired actual (plan_options cfg) in
                      let findings := match policyEval p with
                                      | Some e => evaluate e desired (Profile (PolicyCfg cfg))
                                      | None => []
                                      end in
                      Planned (mkPlan (Config.Project cfg) changes summary findings) details
                  end
              end
          end
      end
  end.

Definition first_error (es : list project_eval) : option string :=
  head (omap (fun e => match e with Unreadable err | Unlisted _ err _ => Some err | _ => None end) es).
Definition plans_of (es : list project_eval) : list ProjectPlan :=
  omap (fun e => match e with Planned plan _ => Some plan | _ => None end) es.
Definition configured (e : project_eval) : bool := match e with Absent => false | _ => true end.
Definition details_of (e : project_eval) : Z :=
  match e with Untouched d | Unlisted _ _ d | Planned _ d => d | _ => 0 end.
Definition max_details (es : list project_eval) : Z := foldl (fun m e => Z.max m (details_of e)) 0 es.

(** The stores do not matter to the evaluation. *)
Definition same_setup p p' : Prop :=
  repoRoot p' = repoRoot p /\ cluster p' = cluster p /\ policyEval p' = policyEval p.

Lemma eval_same_setup evt p p' prj : same_setup p p' -> eval_project evt p' prj = eval_project evt p prj.
Proof. intros (H1 & H2 & H3). unfold eval_project, list_actual. by rewrite H1, H2, H3. Qed.

(** ** The runs of a plan *)

(** The runs of [p] are those of [p0] and the ids of [v], which are new and running. *)
Definition runs_inv (n : nat) p0 p v : Prop :=
  match pl_runs p0, pl_runs p with
  | None, None => runIDs v = []
  | Some r0, Some r =>
      run_room n r /\ NoDup (runIDs v) /\
      (forall id, id ∈ runIDs v -> 0 < id /\ run_state r0 id = None) /\
      (forall id, run_state r id = if decide (id ∈ runIDs v) then Some StateRunning else run_state r0 id)
  | _, _ => False
  end.

Definition stores_inv (n : nat) evt p0 p v : Prop :=
  same_setup p0 p /\ pl_comments p = pl_comments p0 /\ pl_status p = pl_status p0 /\
  runs_inv n p0 p v /\ is_stale evt p = false /\ (planned v = false -> runIDs v = []).

Lemma start_run_inv n evt cfg p0 p v id p' v' :
  stores_inv (S n) evt p0 p v -> planned v = true -> start_run evt cfg p v = (id, p', v') ->
  stores_inv n evt p0 p' v' /\ planned v' = planned v /\ projectPlans v' = projectPlans v /\
  maxResourceDetails v' = maxResourceDetails v /\
  (pl_runs p0 = None /\ id = 0 \/ id ∈ runIDs v' /\ 0 < id /\ length (runIDs v') = S (length (runIDs v))).
Proof.
  intros (Hs & Hc & Hst & Hr & Hstale & Hnone) Hpl Hstart. unfold start_run in Hstart.
  destruct (pl_runs p) as [r|] eqn:Ep.
  - destruct (Start (MergeReqID evt) (HeadSHA evt) (Config.Project cfg) r) as [rr r'] eqn:Estart.
    injection Hstart as <- <- <-. unfold runs_inv in Hr. rewrite Ep in Hr.
    destruct (pl_runs p0) as [r0|] eqn:E0; [|done]. destruct Hr as (Hroom & Hnd & Hids & Hstate).
    pose proof (start_new n (MergeReqID evt) (HeadSHA evt) (Config.Project cfg) r Hroom) as Hnew.
    rewrite Estart in Hnew. destruct Hnew as (Hpos & Hnew & Hroom' & Hstate' & Hstale').
    assert ((RunID rr ∉ runIDs v) /\ run_state r0 (RunID rr) = None) as [Hnotin Hnone0].
    { rewrite Hstate in Hnew. by destruct (decide (RunID rr ∈ runIDs v)). }
    split; [|split_and!; [done|done|done|right; split_and!;
      [apply elem_of_app; right; by apply list_elem_of_singleton|done|cbn; rewrite length_app; cbn; lia]]].
    split_and!; [apply Hs..|done|done| | |cbn; congruence].
    + unfold runs_inv. rewrite E0. cbn. split_and!; [done| | |].
      * apply NoDup_app. split_and!; [done| |apply NoDup_singleton]. by intros x Hx ->%list_elem_of_singleton.
      * intros x [Hx|Hx]%elem_of_app; [by apply Hids|]. by apply list_elem_of_singleton in Hx as ->.
      * intros x. rewrite Hstate', Hstate.
        destruct (decide (x = RunID rr)) as [->|Hne].
        -- rewrite decide_True; [done|]. apply elem_of_app. right. by apply list_elem_of_singleton.
        -- destruct (decide (x ∈ runIDs v)) as [Hx|Hx].
           ++ rewrite decide_True; [done|]. apply elem_of_app. by left.
           ++ rewrite decide_False; [done|]. by intros [?|?%list_elem_of_singleton]%elem_of_app.
    + unfold is_stale in *. rewrite Ep in Hstale. cbn. by rewrite Hstale'.
  - injection Hstart as <- <- <-.
    assert (pl_runs p0 = None) as E0 by (unfold runs_inv in Hr; rewrite Ep in Hr; by destruct (pl_runs p0)).
    split; [|split_and!; [done..|by left]]. split_and!; [apply Hs..|done|done| |done|done].
    unfold runs_inv in *. by rewrite E0, Ep in *.
Qed.

(** Completing runs one after the other. *)
Lemma fold_complete (f : R -> Z -> R) (skip : Z -> bool) (st : State) ids r x :
  (forall r id x, run_state (f r id) x =
     if decide (x = id /\ skip id = false) then (fun _ => st) <$> run_state r x else run_state r x) ->
  run_state (foldl f r ids) x =
  if decide (x ∈ ids /\ skip x = false) then (fun _ => st) <$> run_state r x else run_state r x.
Proof.
  intros Hf. revert r. induction ids as [|id ids IH]; intros r; cbn [foldl].
  { rewrite decide_False; [done|]. by intros [?%elem_of_nil _]. }
  rewrite IH, !Hf.
  destruct (decide (x = id /\ skip id = false)) as [[-> Hs]|Hne].
  - rewrite (decide_True (P := id ∈ id :: ids /\ _)) by (split; [apply elem_of_cons; by left|done]).
    destruct (decide _); [|done]. by destruct (run_state r id).
  - destruct (decide (x ∈ ids /\ skip x = false)) as [[Hin Hs]|Hnin].
    + rewrite decide_True; [done|]. split; [apply elem_of_cons; by right|done].
    + rewrite decide_False; [done|]. intros [[->|Hin]%elem_of_cons Hs]; [by apply Hne|by apply Hnin].
Qed.

Lemma fail_runs_state ids cur err r x :
  run_state (foldl (fun r runID =>
    if (runID <=? 0) || (runID =? cur) then r else Complete runID StateFailed err r) r ids) x =
  if decide (x ∈ ids /\ (x <=? 0) || (x =? cur) = false)
  then (fun _ => StateFailed) <$> run_state r x else run_state r x.
Proof.
  apply (fold_complete _ (fun id => (id <=? 0) || (id =? cur))). intros r' id y.
  destruct ((id <=? 0) || (id =? cur)) eqn:Hs.
  - rewrite decide_False; [done|]. by intros [_ ?].
  - rewrite complete_state. destruct (decide (y = id)) as [->|Hne].
    + by rewrite decide_True.
    + rewrite decide_False; [done|]. by intros [? _].
Qed.

Lemma finish_runs_state body commentID ids r x :
  run_state (foldl (finish_run body commentID) r ids) x =
  if decide (x ∈ ids /\ (x <=? 0) = false)
  then (fun _ => StateSuccess) <$> run_state r x else run_state r x.
Proof.
  apply (fold_complete _ (fun id => id <=? 0)). intros r' id y. unfold finish_run.
  destruct (id <=? 0) eqn:Hs.
  - rewrite decide_False; [done|]. by intros [_ ?].
  - rewrite complete_state.
    assert (forall z, run_state (if 0 <? commentID
      then AddArtifact id "comment-id" (fmt_d commentID) (AddArtifact id "plan-comment" body r')
      else AddArtifact id "plan-comment" body r') z = run_state r' z) as Ha
      by (intros z; destruct (0 <? commentID); by rewrite !artifact_state).
    rewrite !Ha. destruct (decide (y = id)) as [->|Hne].
    + by rewrite decide_True.
    + rewrite decide_False; [done|]. by intros [? _].
Qed.

(** All runs of [v] ended in [st]; the others are those of [p0]. *)
Definition runs_ended (st : State) p0 p v : Prop :=
  match pl_runs p0, pl_runs p with
  | None, None => True
  | Some r0, Some r =>
      (forall id, id ∈ runIDs v -> 0 < id /\ run_state r0 id = None) /\
      forall id, run_state r id = if decide (id ∈ runIDs v) then Some st else run_state r0 id
  | _, _ => False
  end.

Lemma fail_with_inv n evt p0 p v id err :
  stores_inv n evt p0 p v -> (id = 0 \/ id ∈ runIDs v /\ 0 < id) ->
  exists p', fail_with evt v id err p = Failed err p' /\ pl_comments p' = pl_comments p0 /\
    pl_status p' = SetStatus (check evt CheckFailed err) <$> pl_status p0 /\ runs_ended StateFailed p0 p' v.
Proof.
  intros (_ & Hc & Hst & Hr & _) Hid. unfold fail_with. eexists. split; [done|].
  unfold finishWithError, failRuns, on_runs, on_status, with_runs, with_status.
  split; [by destruct (0 <? id)|]. split; [by destruct (0 <? id); cbn; rewrite Hst|].
  unfold runs_inv in Hr. unfold runs_ended. cbn.
  destruct (pl_runs p0) as [r0|], (pl_runs p) as [r|] eqn:Ep; try done;
    [|by destruct (0 <? id)].
  destruct Hr as (_ & _ & Hids & Hstate).
  assert (forall x, run_state (foldl (fun r runID => if (runID <=? 0) || (runID =? id) then r
      else Complete runID StateFailed err r) r (runIDs v)) x =
    if decide (x ∈ runIDs v /\ x <> id) then Some StateFailed
    else if decide (x ∈ runIDs v) then Some StateRunning else run_state r0 x) as Hf.
  { intros x. rewrite fail_runs_state, Hstate. destruct (decide (x ∈ runIDs v)) as [Hx|Hx].
    - destruct (Hids x Hx) as [Hpos _]. rewrite (proj2 (Z.leb_gt x 0)) by done. cbn [orb].
      destruct (Z.eqb_spec x id) as [->|Hne].
      + rewrite !decide_False; [done|by intros [_ ?]|by intros [_ ?]].
      + by rewrite !decide_True.
    - rewrite !decide_False; [done|by intros [? _]|by intros [? _]]. }
  destruct Hid as [->|[Hin Hpos]].
  - cbn. split; [done|]. intros x. rewrite Hf.
    destruct (decide (x ∈ runIDs v)) as [Hx|Hx].
    + rewrite decide_True; [done|]. split; [done|]. destruct (Hids x Hx). lia.
    + rewrite decide_False; [done|]. by intros [? _].
  - rewrite (proj2 (Z.ltb_lt 0 id)) by done. cbn. split; [done|]. intros x.
    rewrite complete_state, !Hf. destruct (decide (x = id)) as [->|Hne].
    + rewrite (decide_False (P := id ∈ runIDs v /\ _)) by by intros [_ ?].
      by rewrite !decide_True.
    + destruct (decide (x ∈ runIDs v)) as [Hx|Hx]; [by rewrite decide_True|].
      rewrite decide_False; [done|]. by intros [? _].
Qed.

(** ** One project *)

Definition failure (e : project_eval) : option string :=
  match e with Unreadable err | Unlisted _ err _ => Some err | _ => None end.

(** The stores after a failure: no comment, the failed status, every run failed. *)
Definition failed_state evt p0 p (err : string) : Prop :=
  pl_comments p = pl_comments p0 /\
  pl_status p = SetStatus (check evt CheckFailed err) <$> pl_status p0 /\
  exists v, runs_ended StateFailed p0 p v.

Lemma stores_less n evt p0 p v : stores_inv (S n) evt p0 p v -> stores_inv n evt p0 p v.
Proof.
  intros (Hs & Hc & Hst & Hr & Hstale & Hnone). split_and!; [apply Hs..|done|done| |done|done].
  unfold runs_inv in *. destruct (pl_runs p0), (pl_runs p); try done. destruct Hr as (Hroom & ?). split; [|done].
  eapply room_less; [|done]. lia.
Qed.

(** The local variables are not part of what the stores hold, except for the ids. *)
Lemma stores_progress n evt p0 p v v' :
  runIDs v' = runIDs v -> planned v' = true -> stores_inv n evt p0 p v -> stores_inv n evt p0 p v'.
Proof.
  intros Hids Hp (Hs & Hc & Hst & Hr & Hstale & _). split_and!; [apply Hs..|done|done| |done|congruence].
  unfold runs_inv in *. by rewrite Hids.
Qed.

Lemma fail_with_failed n evt p0 p v id err :
  stores_inv n evt p0 p v -> (id = 0 \/ id ∈ runIDs v /\ 0 < id) ->
  exists p', fail_with evt v id err p = Failed err p' /\ failed_state evt p0 p' err.
Proof.
  intros Hi Hid. destruct (fail_with_inv n evt p0 p v id err Hi Hid) as (p' & Hf & Hc & Hst & Hr).
  exists p'. split; [done|]. split_and!; [done|done|by exists v].
Qed.

Definition advances n evt p0 v (e : project_eval) (it : iteration C P R E) : Prop :=
  match failure e with
  | Some err => exists p', it = Failed err p' /\ failed_state evt p0 p' err
  | None =>
      exists p' v', it = Next p' v' /\ stores_inv n evt p0 p' v' /\
        planned v' = planned v || configured e /\ projectPlans v' = projectPlans v ++ plans_of [e] /\
        maxResourceDetails v' = Z.max (maxResourceDetails v) (details_of e) /\
        (pl_runs p0 = None \/ length (runIDs v') = (length (runIDs v) + length (plans_of [e]))%nat)
  end.

Lemma max_or (a d : Z) : (if a <? d then d else a) = Z.max a d.
Proof. destruct (Z.ltb_spec a d); lia. Qed.

Lemma plan_project_spec n evt prj p0 p v :
  stores_inv (S n) evt p0 p v -> 0 <= maxResourceDetails v ->
  advances n evt p0 v (eval_project evt p0 prj) (plan_project fs yaml yaml_marshal fmt_any evt prj p v).
Proof.
  intros Hi Hmax. pose proof Hi as (Hsetup & _ & _ & _ & Hstale & _).
  rewrite <- (eval_same_setup evt p0 p) by done. unfold plan_project, eval_project. rewrite Hstale.
  destruct (fs_stat fs (join2 (repoRoot p) (ConfigPath prj))) as [isdir|e0].
  2:{ exists p, v. cbn. rewrite orb_false_r, app_nil_r.
      split_and!; [done|by apply stores_less|done|done|lia|right; lia]. }
  destruct (Load (fs_read fs (join2 (repoRoot p) (ConfigPath prj)))) as [cfg|err].
  2:{ eapply fail_with_failed; [|by left]. by eapply stores_progress; [| |done]. }
  destruct (RenderProject fs yaml (join2 (repoRoot p) (Root prj)) cfg) as [desired|err].
  2:{ eapply fail_with_failed; [|by left]. by eapply stores_progress; [| |done]. }
  set (v1 := mkProgress true (projectPlans v) (runIDs v)
    (if maxResourceDetails v <? MaxResourceDetails (CommentCfg cfg) then MaxResourceDetails (CommentCfg cfg)
     else maxResourceDetails v)).
  assert (stores_inv (S n) evt p0 p v1) as Hi1 by by eapply stores_progress; [| |done].
  destruct (filterDesiredByChangedFiles desired (ChangedFiles evt) (repoRoot p)) as [|d ds].
  { exists p, v1. split; [done|]. split; [by apply stores_less|]. unfold v1. cbn.
    rewrite orb_true_r, app_nil_r, max_or. split_and!; [done..|right; lia]. }
  set (ds' := d :: ds). cbn [planned projectPlans runIDs maxResourceDetails]. fold v1.
  destruct (start_run evt cfg p v1) as [[id p'] v'] eqn:Es.
  apply (start_run_inv n _ _ p0) in Es as (Hi' & Hpl & Hpp & Hmx & Hid); [|done|done].
  assert (list_actual p' prj cfg ds' = list_actual p prj cfg ds') as ->.
  { destruct Hi' as ((_ & Hcl & _) & _), Hsetup as (_ & Hcl0 & _). unfold list_actual. by rewrite Hcl, Hcl0. }
  assert (policyEval p' = policyEval p) as ->.
  { destruct Hi' as ((_ & _ & Hpe) & _), Hsetup as (_ & _ & Hpe0). by rewrite Hpe, Hpe0. }
  destruct (list_actual p prj cfg ds') as [actual|err].
  - destruct (Compute yaml_marshal fmt_any ds' actual (plan_options cfg)) as [changes summary].
    eexists p', _. split; [done|]. cbn. rewrite Hpl, Hpp, Hmx. unfold v1. cbn. rewrite orb_true_r, max_or.
    split_and!; [|done|done|done|].
    + eapply stores_progress; [| |done]; [done|]. cbn. congruence.
    + destruct Hid as [[? _]|(_ & _ & Hlen)]; [by left|right]. rewrite Hlen. unfold v1. cbn. lia.
  - eapply fail_with_failed; [done|]. destruct Hid as [[_ ->]|(? & ? & _)]; [by left|by right].
Qed.

(** ** All projects *)

Lemma first_error_cons e es :
  first_error (e :: es) = match failure e with Some err => Some err | None => first_error es end.
Proof. unfold first_error. cbn. by destruct e. Qed.

Lemma plans_of_cons e es : plans_of (e :: es) = plans_of [e] ++ plans_of es.
Proof. unfold plans_of. cbn. by destruct e. Qed.

Section Others.
Context (others : string -> option string).

(** Another planner recorded a different commit of the merge request before the loop
    reached the project. *)
Definition overtaken evt p (prj : DiscoveredProject) : bool :=
  match pl_runs p, others (ConfigPath prj) with
  | Some _, Some sha => negb (str_eqb sha "") && negb (str_eqb sha (HeadSHA evt))
  | _, _ => false
  end.

(** The projects the loop looks at, and whether it stops before the next one. *)
Fixpoint reached evt p (projects : list DiscoveredProject) : list DiscoveredProject * bool :=
  match projects with
  | [] => ([], false)
  | prj :: rest =>
      if overtaken evt p prj then ([], true)
      else let '(l, cut) := reached evt p rest in (prj :: l, cut)
  end.

Lemma record_other_inv n evt p0 p v prj :
  stores_inv n evt p0 p v -> overtaken evt p0 prj = false ->
  stores_inv n evt p0 (record_other evt (others (ConfigPath prj)) p) v.
Proof.
  intros Hi Ho. pose proof Hi as (Hs & Hc & Hst & Hr & Hstale & Hnone). unfold overtaken in Ho. unfold record_other.
  destruct (others (ConfigPath prj)) as [sha|]; [|done].
  split_and!; [apply Hs..|done|done| | |done]; unfold runs_inv, is_stale in *; cbn;
    destruct (pl_runs p0) as [r0|], (pl_runs p) as [r|]; try done; cbn.
  - destruct Hr as (? & ? & ? & Hstate). split_and!; [by apply latest_room|done|done|]. intros id.
    by rewrite latest_state.
  - by rewrite stale_latest.
Qed.

Lemma record_other_stale n evt p0 p v prj :
  stores_inv n evt p0 p v -> overtaken evt p0 prj = true ->
  exists p', record_other evt (others (ConfigPath prj)) p = p' /\ is_stale evt p' = true /\
    pl_comments p' = pl_comments p0 /\ pl_status p' = pl_status p0 /\ runs_inv n p0 p' v.
Proof.
  intros (Hs & Hc & Hst & Hr & _) Ho. eexists. split; [done|]. unfold overtaken in Ho. unfold record_other.
  unfold runs_inv in *. destruct (pl_runs p0) as [r0|], (others (ConfigPath prj)) as [sha|]; try done.
  unfold is_stale. cbn. destruct (pl_runs p) as [r|]; [|done]. cbn. destruct Hr as (? & ? & ? & Hstate).
  split_and!; [by rewrite stale_latest|done|done|by apply latest_room|done|done|]. intros id.
  by rewrite latest_state.
Qed.

(** The stores when the loop stops: nothing was published, the runs still run. *)
Definition stopped_state p0 p (es : list project_eval) : Prop :=
  pl_comments p = pl_comments p0 /\ pl_status p = pl_status p0 /\
  exists v, runs_inv 0 p0 p v /\ (pl_runs p0 = None \/ length (runIDs v) = length (plans_of es)).

Lemma plan_projects_spec evt projects p0 p v :
  stores_inv (length projects) evt p0 p v -> 0 <= maxResourceDetails v ->
  let es := eval_project evt p0 <$> (reached evt p0 projects).1 in
  let it := plan_projects fs yaml yaml_marshal fmt_any others evt projects p v in
  match first_error es with
  | Some err => exists p', it = Failed err p' /\ failed_state evt p0 p' err
  | None =>
      exists p' v', it = (if (reached evt p0 projects).2 then Stale p' else Next p' v') /\
        pl_comments p' = pl_comments p0 /\ pl_status p' = pl_status p0 /\ runs_inv 0 p0 p' v' /\
        (planned v' = false -> runIDs v' = []) /\
        planned v' = planned v || existsb configured es /\ projectPlans v' = projectPlans v ++ plans_of es /\
        maxResourceDetails v' = foldl (fun m e => Z.max m (details_of e)) (maxResourceDetails v) es /\
        (pl_runs p0 = None \/ length (runIDs v') = (length (runIDs v) + length (plans_of es))%nat)
  end.
Proof.
  revert p v. induction projects as [|prj rest IH]; intros p v Hi Hmax; cbn zeta.
  { exists p, v. cbn. rewrite orb_false_r, app_nil_r. destruct Hi as (_ & ? & ? & ? & _ & ?).
    split_and!; try done. right. lia. }
  cbn [plan_projects length reached] in *. destruct (overtaken evt p0 prj) eqn:Ho.
  { destruct (record_other_stale _ evt p0 p v prj Hi Ho) as (p' & -> & Hstale & Hc & Hst & Hr).
    exists p', v. cbn. unfold plan_project. rewrite Hstale, orb_false_r, app_nil_r.
    split_and!; [done|done|done| |by apply Hi|done|done|done|right; lia].
    unfold runs_inv in *. destruct (pl_runs p0), (pl_runs p'); try done. destruct Hr as (Hroom & ?).
    split; [|done]. eapply room_less; [|done]. lia. }
  apply (record_other_inv _ evt p0 p v prj) in Hi; [|done].
  set (p1 := record_other evt (others (ConfigPath prj)) p) in *.
  destruct (reached evt p0 rest) as [l cut] eqn:El. cbn [fst snd]. rewrite fmap_cons, first_error_cons.
  pose proof (plan_project_spec (length rest) evt prj p0 p1 v Hi Hmax) as Hstep. unfold advances in Hstep.
  destruct (failure (eval_project evt p0 prj)) as [err|].
  - destruct Hstep as (p' & -> & Hf). eauto.
  - destruct Hstep as (p' & v' & -> & Hi' & Hpl & Hpp & Hmx & Hlen).
    specialize (IH p' v' Hi' ltac:(lia)). cbn zeta in IH. cbn [fst snd] in IH.
    destruct (first_error (eval_project evt p0 <$> l)) as [err|]; [done|].
    destruct IH as (p'' & v'' & -> & Hc & Hst & Hr & Hno & Hpl' & Hpp' & Hmx' & Hlen'). exists p'', v''.
    split_and!; [done..| | | |].
    + rewrite Hpl', Hpl. cbn [existsb]. by rewrite orb_assoc.
    + rewrite Hpp', Hpp, (plans_of_cons _ (eval_project evt p0 <$> l)). by rewrite (assoc_L (++)).
    + rewrite Hmx', Hmx. done.
    + rewrite (plans_of_cons _ (eval_project evt p0 <$> l)), length_app. intuition lia.
Qed.

(** ** The whole plan *)

(** The discovered projects the loop looks at, evaluated in the order of their
    configuration files, and whether it stopped before the others. *)
Definition evals evt p : list project_eval :=
  eval_project evt p <$> (reached evt p (sorted_projects (ChangedFiles evt))).1.
Definition stopped evt p : bool := (reached evt p (sorted_projects (ChangedFiles evt))).2.

(** The comment a successful plan posts. *)
Definition comment_of evt (es : list project_eval) : string :=
  match plans_of es with
  | [] => BuildNoChangesComment (HeadSHA evt) (ChangedFiles evt) 50
  | plans => BuildAggregatedPlanComment (HeadSHA evt) plans (max_details es)
  end.

(** Room in the run store for one run per discovered project. *)
Definition room_for evt p : Prop :=
  match pl_runs p with
  | Some r => run_room (length (sorted_projects (ChangedFiles evt))) r
  | None => True
  end.

Lemma begin_stores evt p :
  room_for evt p ->
  stores_inv (length (sorted_projects (ChangedFiles evt))) evt (begin_plan evt p) (begin_plan evt p)
    (mkProgress false [] [] 0).
Proof.
  intros Hroom. unfold room_for in Hroom. split_and!; [done..| | |done].
  - unfold runs_inv, begin_plan, on_status, on_runs. cbn. destruct (pl_runs p) as [r|]; cbn; [|done].
    split_and!; [by apply latest_room|apply NoDup_nil_2|by intros id Hid%elem_of_nil|]. intros id. rewrite decide_False; [done|].
    by intros ?%elem_of_nil.
  - unfold is_stale, begin_plan, on_status, on_runs. cbn. destruct (pl_runs p) as [r|]; [|done]. cbn.
    by rewrite stale_latest, str_eqb_refl, andb_false_r.
Qed.

Lemma reached_begin evt p l : reached evt (begin_plan evt p) l = reached evt p l.
Proof.
  assert (forall prj, overtaken evt (begin_plan evt p) prj = overtaken evt p prj) as Ho.
  { intros prj. unfold overtaken, begin_plan, on_status, on_runs. cbn. by destruct (pl_runs p). }
  induction l as [|prj l IH]; [done|]. cbn [reached]. by rewrite Ho, IH.
Qed.

Lemma evals_begin evt p : evals evt (begin_plan evt p) = evals evt p.
Proof. unfold evals. rewrite reached_begin. apply list_fmap_ext. intros i prj _. by apply eval_same_setup. Qed.

(** What publishing does to the stores. *)
Lemma publish_stores evt p0 p v :
  pl_comments p = pl_comments p0 -> pl_status p = pl_status p0 -> runs_inv 0 p0 p v ->
  (planned v = false -> runIDs v = []) -> (planned v = false -> projectPlans v = []) ->
  pl_comments (publish evt p v) = (fun c => (PostOrSupersede (MergeReqID evt) (plan_body evt v) c).2) <$> pl_comments p0 /\
  pl_status (publish evt p v) = SetStatus (check evt CheckSuccess "Thule plan completed") <$> pl_status p0 /\
  runs_ended StateSuccess p0 (publish evt p v) v.
Proof.
  intros Hc Hst Hr Hnone Hempty. rewrite <- Hc, <- Hst. unfold publish, post.
  destruct (planned v) eqn:Hp.
  - cbn. destruct (pl_comments p) as [c|] eqn:Ec; cbn.
    + destruct (PostOrSupersede (MergeReqID evt) (plan_body evt v) c) as [new c'] eqn:Enew. cbn.
      split_and!; [done|done|]. unfold runs_ended, runs_inv in *. cbn.
      destruct (pl_runs p0) as [r0|], (pl_runs p) as [r|]; try done. cbn.
      destruct Hr as (_ & _ & Hids & Hstate). split; [done|]. intros id. rewrite finish_runs_state, Hstate.
      destruct (decide (id ∈ runIDs v)) as [Hin|Hin].
      * destruct (Hids id Hin). rewrite decide_True; [done|]. split; [done|]. lia.
      * rewrite decide_False; [done|]. by intros [? _].
    + rewrite Ec. cbn. split_and!; [done|done|]. unfold runs_ended, runs_inv in *. cbn.
      destruct (pl_runs p0) as [r0|], (pl_runs p) as [r|]; try done. cbn.
      destruct Hr as (_ & _ & Hids & Hstate). split; [done|]. intros id. rewrite finish_runs_state, Hstate.
      destruct (decide (id ∈ runIDs v)) as [Hin|Hin].
      * destruct (Hids id Hin). rewrite decide_True; [done|]. split; [done|]. lia.
      * rewrite decide_False; [done|]. by intros [? _].
  - pose proof (Hempty eq_refl) as Hpp. pose proof (Hnone eq_refl) as Hids. unfold plan_body. rewrite Hpp.
    assert (forall p1, pl_runs p1 = pl_runs p -> runs_ended StateSuccess p0 p1 v) as Hruns.
    { intros p1 Hp1. unfold runs_ended, runs_inv in *. rewrite Hp1, Hids in *.
      destruct (pl_runs p0), (pl_runs p); try done. destruct Hr as (_ & _ & H1 & H2). split; [done|].
      intros id. rewrite H2, !decide_False by by intros ?%elem_of_nil. done. }
    destruct (pl_comments p) as [c|] eqn:Ec; cbn.
    + destruct (PostOrSupersede _ _ c) as [new c'] eqn:Enew. cbn. split_and!; [done|done|by apply Hruns].
    + rewrite Ec. split_and!; [done|done|by apply Hruns].
Qed.

Lemma unconfigured_plans (es : list project_eval) : existsb configured es = false -> plans_of es = [].
Proof.
  induction es as [|e es IH]; [done|]. cbn [existsb]. intros [He Hes]%orb_false_iff.
  rewrite plans_of_cons, IH by done. by destruct e.
Qed.

(** Everything planning does, by what the projects evaluate to. *)
Lemma plan_outcome evt p :
  room_for evt p ->
  let '(r, p') := PlanForEvent_among fs yaml yaml_marshal fmt_any others evt p in
  match first_error (evals evt p) with
  | Some err => r = Err err /\ failed_state evt (begin_plan evt p) p' err
  | None =>
      r = Ok tt /\
      if stopped evt p then stopped_state (begin_plan evt p) p' (evals evt p)
      else
        pl_comments p' = (fun c => (PostOrSupersede (MergeReqID evt) (comment_of evt (evals evt p)) c).2)
          <$> pl_comments p /\
        pl_status p' = SetStatus (check evt CheckSuccess "Thule plan completed") <$> pl_status (begin_plan evt p) /\
        exists v, runs_ended StateSuccess (begin_plan evt p) p' v
  end.
Proof.
  intros Hroom. unfold PlanForEvent_among.
  pose proof (plan_projects_spec evt (sorted_projects (ChangedFiles evt)) (begin_plan evt p)
    (begin_plan evt p) (mkProgress false [] [] 0) (begin_stores evt p Hroom) ltac:(done)) as Hspec.
  cbn zeta in Hspec. fold (evals evt (begin_plan evt p)) (stopped evt (begin_plan evt p)) in Hspec.
  unfold stopped in Hspec. rewrite evals_begin, reached_begin in Hspec. fold (stopped evt p) in Hspec.
  destruct (first_error (evals evt p)) as [err|].
  - destruct Hspec as (p' & -> & Hf). done.
  - destruct Hspec as (p' & v & -> & Hc & Hst & Hr & Hno & Hpl & Hpp & Hmx & Hlen).
    cbn [planned projectPlans maxResourceDetails runIDs length] in *. cbn [orb] in Hpl. cbn [app] in Hpp.
    destruct (stopped evt p); [split; [done|]; split_and!; [done|done|by exists v]|].
    destruct (publish_stores evt (begin_plan evt p) p' v) as (H1 & H2 & H3); [done..| |].
    { intros Hn. rewrite Hpp. apply unconfigured_plans. congruence. }
    split_and!; [done| |done|by exists v]. rewrite H1. unfold plan_body, comment_of.
    rewrite Hpp, Hmx. done.
Qed.
End Others.
End PlannerFacts.

(** ** Theorems *)

Section Theorems.
#[local] Set Default Proof Using "Type*".
Context {C P R E : Type}.
Context {iC : CommentStore C} {iP : StatusPublisher P} {iR : RunStore R} {iE : Evaluator E}.
Context {sR : RunStoreSpec R}.
Context (fs : FS) (yaml : yaml_decoder) (yaml_marshal : value -> yaml_out) (fmt_any : value -> string).
Implicit Types (p : Planner C P R E) (evt : MergeRequestEvent) (others : string -> option string).

(** C3: for any comment store, and whatever other planners record meanwhile, planning
    returns the first error among the projects it reaches, in the order of their
    configuration files, and only then an error. It posts exactly one comment, which
    reports all the plans, when no project failed and no other commit was recorded
    before a project was reached; otherwise it posts nothing. *)
Theorem plan_comments {iM : MapOrder} others evt p :
  room_for evt p ->
  let '(r, p') := PlanForEvent_among fs yaml yaml_marshal fmt_any others evt p in
  let es := evals fs yaml yaml_marshal fmt_any others evt p in
  match first_error es, stopped others evt p with
  | Some err, _ => r = Err err /\ pl_comments p' = pl_comments p
  | None, true => r = Ok tt /\ pl_comments p' = pl_comments p
  | None, false =>
      r = Ok tt /\
      pl_comments p' = (fun c => (PostOrSupersede (MergeReqID evt) (comment_of evt es) c).2) <$> pl_comments p
  end.
Proof.
  intros Hroom. pose proof (plan_outcome fs yaml yaml_marshal fmt_any others evt p Hroom) as Hout.
  destruct (PlanForEvent_among fs yaml yaml_marshal fmt_any others evt p) as [r p']. cbn zeta.
  destruct (first_error _) as [err|]; [by destruct Hout as (Hr & Hc & _)|].
  by destruct Hout as [Hr Hout], (stopped others evt p), Hout as (Hc & _).
Qed.

(** Alone, the planner reaches every project. *)
Lemma alone_reaches {iM : MapOrder} evt p :
  stopped (fun _ => None) evt p = false /\
  evals fs yaml yaml_marshal fmt_any (fun _ => None) evt p =
    eval_project fs yaml yaml_marshal fmt_any evt p <$> sorted_projects (ChangedFiles evt).
Proof using Type.
  assert (forall l, reached (fun _ => None) evt p l = (l, false)) as Hr.
  { induction l as [|prj l IH]; [done|]. cbn [reached]. unfold overtaken. rewrite IH. by destruct (pl_runs p). }
  unfold stopped, evals. by rewrite Hr.
Qed.

(** With a store that supersedes, as the in-memory one does, the comment of a successful
    plan becomes the only current one of its merge request. *)
Theorem plan_comment_current {iM : MapOrder} {sC : CommentSpec C} evt p c :
  room_for evt p -> pl_comments p = Some c ->
  let '(r, p') := PlanForEvent fs yaml yaml_marshal fmt_any evt p in
  let es := eval_project fs yaml yaml_marshal fmt_any evt p <$> sorted_projects (ChangedFiles evt) in
  match first_error es with
  | Some err => r = Err err /\ pl_comments p' = Some c
  | None =>
      r = Ok tt /\ exists new c', pl_comments p' = Some c' /\
        CommentBody new = comment_of evt es /\ live (ListComments (MergeReqID evt) c') = [new] /\
        CommentBody <$> ListComments (MergeReqID evt) c' =
          (CommentBody <$> ListComments (MergeReqID evt) c) ++ [comment_of evt es] /\
        forall mr, mr <> MergeReqID evt -> ListComments mr c' = ListComments mr c
  end.
Proof.
  intros Hroom Hc. pose proof (plan_outcome fs yaml yaml_marshal fmt_any (fun _ => None) evt p Hroom) as Hout.
  destruct (alone_reaches evt p) as [Hs He]. rewrite Hs, He in Hout. unfold PlanForEvent.
  destruct (PlanForEvent_among fs yaml yaml_marshal fmt_any _ evt p) as [r p']. cbn zeta.
  destruct (first_error _) as [err|].
  - destruct Hout as (Hr & Hc' & _). split; [done|]. rewrite Hc'. exact Hc.
  - destruct Hout as (Hr & Hc' & _). split; [done|]. rewrite Hc in Hc'. cbn in Hc'.
    set (body := comment_of _ _) in *.
    pose proof (post_live (MergeReqID evt) body c) as Hpost.
    destruct (PostOrSupersede (MergeReqID evt) body c) as [new c'].
    destruct Hpost as (_ & Hb & Hlive & Hall & Hother). by exists new, c'.
Qed.

(** C14: for any status publisher, planning sets the pending check first and then exactly
    one more: failed with the error it returns, or success; a plan that another commit
    overtook sets none and leaves the pending one. *)
Theorem plan_statuses {iM : MapOrder} others evt p q :
  room_for evt p -> pl_status p = Some q ->
  let '(r, p') := PlanForEvent_among fs yaml yaml_marshal fmt_any others evt p in
  let pending := SetStatus (mkStatus (MergeReqID evt) (HeadSHA evt) "thule/plan" CheckPending "Thule plan running") q in
  pl_status p' = Some
    match r, stopped others evt p with
    | Err err, _ => SetStatus (mkStatus (MergeReqID evt) (HeadSHA evt) "thule/plan" CheckFailed err) pending
    | Ok _, true => pending
    | Ok _, false =>
        SetStatus (mkStatus (MergeReqID evt) (HeadSHA evt) "thule/plan" CheckSuccess "Thule plan completed") pending
    end.
Proof.
  intros Hroom Hq. pose proof (plan_outcome fs yaml yaml_marshal fmt_any others evt p Hroom) as Hout.
  destruct (PlanForEvent_among fs yaml yaml_marshal fmt_any others evt p) as [r p']. cbn zeta.
  assert (pl_status (begin_plan evt p) = Some (SetStatus (check evt CheckPending "Thule plan running") q)) as Hb.
  { unfold begin_plan, on_status. cbn. by rewrite Hq. }
  destruct (first_error _) as [err|].
  - destruct Hout as (-> & _ & Hst & _). by rewrite Hst, Hb.
  - destruct Hout as [-> Hout]. destruct (stopped others evt p); destruct Hout as (_ & Hst & _); by rewrite Hst, Hb.
Qed.

(** C21: a plan that another commit overtakes returns no error and leaves every run it
    started, one per plan it had made, running for good. *)
Theorem plan_overtaken {iM : MapOrder} others evt p r0 :
  room_for evt p -> pl_runs p = Some r0 -> stopped others evt p = true ->
  let '(r, p') := PlanForEvent_among fs yaml yaml_marshal fmt_any others evt p in
  let es := evals fs yaml yaml_marshal fmt_any others evt p in
  first_error es = None ->
  r = Ok tt /\ exists r1 ids, pl_runs p' = Some r1 /\ NoDup ids /\ length ids = length (plans_of es) /\
    forall id, run_state r1 id = (if decide (id ∈ ids) then Some StateRunning else run_state r0 id) /\
      (id ∈ ids -> run_state r0 id = None).
Proof.
  intros Hroom Hr0 Hs. pose proof (plan_outcome fs yaml yaml_marshal fmt_any others evt p Hroom) as Hout.
  destruct (PlanForEvent_among fs yaml yaml_marshal fmt_any others evt p) as [r p']. cbn zeta. intros He.
  rewrite He, Hs in Hout. destruct Hout as (-> & _ & _ & v & Hv & Hlen). split; [done|].
  unfold runs_inv in Hv. unfold begin_plan, on_status, on_runs in Hv, Hlen. cbn in Hv, Hlen.
  rewrite Hr0 in Hv, Hlen. cbn in Hv, Hlen. destruct (pl_runs p') as [r1|]; [|done].
  destruct Hv as (_ & Hnd & Hids & Hstate). exists r1, (runIDs v). split_and!; [done|done|by destruct Hlen|].
  intros id. rewrite Hstate, latest_state. split; [done|]. intros Hin. destruct (Hids id Hin) as [_ Hn].
  by rewrite latest_state in Hn.
Qed.

(** C7: no run is left running. Every run planning starts has ended when it returns,
    as a success when the plan succeeded and as a failure when it failed, and the runs
    that existed before keep their state. *)
Theorem plan_runs {iM : MapOrder} evt p r0 :
  room_for evt p -> pl_runs p = Some r0 ->
  let '(r, p') := PlanForEvent fs yaml yaml_marshal fmt_any evt p in
  exists r1, pl_runs p' = Some r1 /\ forall id,
    run_state r1 id = run_state r0 id \/
    run_state r0 id = None /\ 0 < id /\
    run_state r1 id = Some (match r with Ok _ => StateSuccess | Err _ => StateFailed end).
Proof.
  intros Hroom Hr0. pose proof (plan_outcome fs yaml yaml_marshal fmt_any (fun _ => None) evt p Hroom) as Hout.
  rewrite (proj1 (alone_reaches evt p)) in Hout. unfold PlanForEvent.
  destruct (PlanForEvent_among fs yaml yaml_marshal fmt_any _ evt p) as [r p'].
  assert (exists v, runs_ended (match r with Ok _ => StateSuccess | Err _ => StateFailed end)
    (begin_plan evt p) p' v) as [v Hv].
  { destruct (first_error _) as [err|].
    - by destruct Hout as (-> & _ & _ & Hv).
    - by destruct Hout as (-> & _ & _ & Hv). }
  unfold runs_ended in Hv. unfold begin_plan, on_status, on_runs in Hv. cbn in Hv. rewrite Hr0 in Hv. cbn in Hv.
  destruct (pl_runs p') as [r1|]; [|done]. destruct Hv as [Hids Hstate]. exists r1. split; [done|].
  intros id. rewrite Hstate. destruct (decide (id ∈ runIDs v)) as [Hin|Hin].
  - right. destruct (Hids id Hin) as [Hpos Hnone]. rewrite latest_state in Hnone. done.
  - left. apply latest_state.
Qed.

Lemma sorted_projects_order (m1 m2 : MapOrder) files :
  sorted_projects (iM := m1) files = sorted_projects (iM := m2) files.
Proof.
  unfold sorted_projects. apply sort_by_unique; [apply NoDup_discovered|].
  unfold DiscoverFromChangedFiles. by rewrite !range_order_perm.
Qed.

(** Planning is deterministic. The order in which discovery visits its map does
    not change what is returned, commented, published or recorded. *)
Theorem plan_deterministic (m1 m2 : MapOrder) evt p :
  PlanForEvent (iM := m1) fs yaml yaml_marshal fmt_any evt p =
  PlanForEvent (iM := m2) fs yaml yaml_marshal fmt_any evt p.
Proof using Type. unfold PlanForEvent, PlanForEvent_among. by rewrite (sorted_projects_order m1 m2). Qed.
End Theorems.

(** ** Filtering *)

(** The path ends in .yaml or .yml, in upper or lower case. *)
Definition yaml_named (p : string) : Prop :=
  exists stem e, p = stem +:+ e /\ (map_bytes lower_byte e = ".yaml" \/ map_bytes lower_byte e = ".yml").

Lemma manifest_path_spec f m :
  manifest_path f = Some m <-> m = clean (trim_space f) /\ yaml_named m.
Proof.
  unfold manifest_path. set (p := clean (trim_space f)).
  assert (str_eqb (to_lower (ext p)) ".yaml" || str_eqb (to_lower (ext p)) ".yml" = true <-> yaml_named p) as Hy.
  { rewrite orb_true_iff, !str_eqb_eq, (ext_lower p "yaml"), (ext_lower p "yml") by done. split.
    - intros [(stem & e & ? & ?)|(stem & e & ? & ?)]; exists stem, e; eauto.
    - intros (stem & e & ? & [?|?]); [left|right]; eauto. }
  destruct (_ || _); [|split; [done|intros [-> H%Hy]; done]].
  split; [intros [= <-]; split; [done|by apply Hy]|by intros [-> _]].
Qed.

Lemma elem_of_changed_manifests files m :
  m ∈ changed_manifests files <-> yaml_named m /\ exists f, f ∈ files /\ clean (trim_space f) = m.
Proof.
  unfold changed_manifests. rewrite elem_of_list_to_set, list_elem_of_omap.
  setoid_rewrite manifest_path_spec. naive_solver.
Qed.

Lemma touched_spec files root r :
  touched (changed_manifests files) root r = true <->
  SourcePath r <> "" /\ exists q f, rel root (SourcePath r) = Some q /\ yaml_named (clean q) /\
    f ∈ files /\ clean (trim_space f) = clean q.
Proof.
  unfold touched. destruct (str_eqb (SourcePath r) "") eqn:Es.
  - apply str_eqb_eq in Es. split; [done|]. by intros [? _].
  - apply str_eqb_neq in Es. destruct (rel root (SourcePath r)) as [q|]; [|naive_solver].
    rewrite bool_decide_eq_true, elem_of_changed_manifests. naive_solver.
Qed.

(** C30: without changed files every rendered resource is planned. Otherwise exactly those
    are, in their order, whose file, relative to the repository root, is one of the
    changed files and ends in .yaml or .yml, in upper or lower case; so when no such
    file changed nothing is planned. *)
Theorem filterDesired_touched desired changedFiles root :
  exists keep : Resource -> bool,
    filterDesiredByChangedFiles desired changedFiles root = filter (fun r => keep r = true) desired /\
    forall r, keep r = true <->
      changedFiles = [] \/
      SourcePath r <> "" /\ exists q f, rel root (SourcePath r) = Some q /\ yaml_named (clean q) /\
        f ∈ changedFiles /\ clean (trim_space f) = clean q.
Proof.
  destruct changedFiles as [|f0 fs0].
  { exists (fun _ => true). split; [|naive_solver].
    transitivity desired; [by destruct desired|]. symmetry. apply list_filter_all. done. }
  set (files := f0 :: fs0). exists (touched (changed_manifests files) root). split.
  - destruct desired as [|d ds]; [done|]. unfold filterDesiredByChangedFiles, files.
    fold files. case_decide as He; [|done]. symmetry. apply list_filter_none.
    intros r _ (_ & q & f & _ & Hy & Hf & Hc)%touched_spec.
    assert (clean q ∈ changed_manifests files) as Hin by (apply elem_of_changed_manifests; eauto).
    rewrite He in Hin. by apply elem_of_empty in Hin.
  - intros r. rewrite touched_spec. split; [by right|]. by intros [?|?].
Qed.

(** ** Instances *)

Definition sample_config : string :=
  join nl ["version: v1"; "project: web"; "clusterRef: prod"; "namespace: default"; "render:";
           "  mode: yaml"; "  path: ."].

Definition sample_doc : gmap string value :=
  {[ "apiVersion" := VString "v1"; "kind" := VString "Secret";
     "metadata" := VMap {[ "name" := VString "web"; "namespace" := VString "default" ]};
     "data" := VMap {[ "key" := VString "new" ]} ]}.

Definition sample_fs : FS :=
  mkFS (fun path => if str_eqb path "repo/web" then Ok true
                    else if str_eqb path "repo/web/thule.conf" then Ok false else Err "no such file")
       (fun path => [mkWalk "repo/web" "web" true None;
                     mkWalk "repo/web/secret.yaml" "secret.yaml" false None;
                     mkWalk "repo/web/thule.conf" "thule.conf" false None])
       (fun path => if str_eqb path "repo/web/thule.conf" then Ok sample_config else Ok "document").
Definition sample_yaml : yaml_decoder := fun content => ([sample_doc], None).
Definition sample_marshal (v : value) : yaml_out := YamlText "document".
Definition sample_fmt (v : value) : string := "?".

Definition sample_planner (reader : ClusterReader)
    : Planner MemoryCommentStore MemoryStatusPublisher MemoryStore unit :=
  mkPlanner "repo" reader (Some NewMemoryCommentStore) (Some [])
    (Some (NewMemoryStore (fun n => Z.of_nat n))) (Some tt).
Definition empty_cluster : ClusterReader := MemoryClusterReader (Some ∅).
Definition broken_cluster : ClusterReader := NamespaceReader (fun _ _ _ => Err "cluster unreachable").
Definition sample_event : MergeRequestEvent :=
  mkEvent "d1" "merge_request.updated" "group/app" 7 "abc" "main" ["web/secret.yaml"].

Abbreviation sample_plan_for reader :=
  (PlanForEvent (iM := natural_order) sample_fs sample_yaml sample_marshal sample_fmt sample_event
     (sample_planner reader)).

(** A project whose only change is a new Secret. *)
Example sample_plan_comment :
  match (sample_plan_for empty_cluster).2 with
  | mkPlanner _ _ (Some c) _ _ _ =>
      contains_str (default "" (head (CommentBody <$> mem_comments 7 c)))
        "- `CREATE` v1|Secret|default|web" = true
  | _ => False
  end.
Proof. vm_compute. reflexivity. Qed.

Lemma sample_room reader : room_for (iM := natural_order) sample_event (sample_planner reader).
Proof.
  unfold room_for. cbn [sample_planner pl_runs run_room MemoryStore_Spec].
  split; [apply NewMemoryStore_wf|]. vm_compute. discriminate.
Qed.

Lemma plan_comments_witness :
  exists p', sample_plan_for broken_cluster = (Err "cluster unreachable", p') /\
    pl_comments p' = Some NewMemoryCommentStore.
Proof.
  pose proof (plan_comments (iM := natural_order) sample_fs sample_yaml sample_marshal sample_fmt (fun _ => None)
    sample_event (sample_planner broken_cluster) (sample_room _)) as H.
  unfold PlanForEvent. destruct (PlanForEvent_among _ _ _ _ _ _ _) as [r p']. cbn zeta in H.
  assert (first_error (evals (iM := natural_order) sample_fs sample_yaml sample_marshal sample_fmt (fun _ => None)
    sample_event (sample_planner broken_cluster)) = Some "cluster unreachable") as He by (vm_compute; reflexivity).
  rewrite He in H. destruct H as [-> Hc]. exists p'. auto.
Defined.

Lemma plan_comment_current_witness :
  exists r p' c', sample_plan_for empty_cluster = (r, p') /\ pl_comments p' = Some c' /\
    length (live (mem_comments 7 c')) = 1%nat.
Proof.
  pose proof (plan_comment_current (iM := natural_order) sample_fs sample_yaml sample_marshal sample_fmt
    sample_event (sample_planner empty_cluster) NewMemoryCommentStore (sample_room _) eq_refl) as H.
  destruct (sample_plan_for empty_cluster) as [r p']. cbn zeta in H.
  set (es := eval_project _ _ _ _ _ _ <$> _) in H.
  assert (first_error es = None) as He by (vm_compute; reflexivity).
  rewrite He in H. destruct H as (_ & new & c' & Hc & _ & Hlive & _).
  exists r, p', c'. split; [reflexivity|]. split; [exact Hc|].
  change (length (live (ListComments (MergeReqID sample_event) c')) = 1%nat). by rewrite Hlive.
Defined.

Lemma plan_statuses_witness :
  exists p', sample_plan_for broken_cluster = (Err "cluster unreachable", p') /\
    (fun q => StatusState <$> mem_statuses 7 "abc" q) <$> pl_status p' = Some [CheckPending; CheckFailed].
Proof.
  pose proof (plan_statuses (iM := natural_order) sample_fs sample_yaml sample_marshal sample_fmt (fun _ => None)
    sample_event (sample_planner broken_cluster) [] (sample_room _) eq_refl) as H.
  assert ((sample_plan_for broken_cluster).1 = Err "cluster unreachable") as He by (vm_compute; reflexivity).
  unfold PlanForEvent in *. destruct (PlanForEvent_among _ _ _ _ _ _ _) as [r p']. cbn in He. subst r.
  exists p'. split; [reflexivity|]. cbn zeta in H. rewrite H. reflexivity.
Defined.

(** A plan of two directories below the project; another commit is recorded after the
    first was planned. *)
Definition overtaken_event : MergeRequestEvent :=
  mkEvent "d1" "merge_request.updated" "group/app" 7 "abc" "main" ["web/secret.yaml"; "web/x/notes.md"].
Definition overtaking (path : string) : option string :=
  if str_eqb path "web/x/thule.conf" then Some "def" else None.

Lemma plan_overtaken_witness :
  exists p' r1 id,
    PlanForEvent_among (iM := natural_order) sample_fs sample_yaml sample_marshal sample_fmt overtaking
      overtaken_event (sample_planner empty_cluster) = (Ok tt, p') /\
    pl_runs p' = Some r1 /\ run_state r1 id = Some StateRunning.
Proof.
  assert (room_for (iM := natural_order) overtaken_event (sample_planner empty_cluster)) as Hroom.
  { unfold room_for. cbn [sample_planner pl_runs run_room MemoryStore_Spec].
    split; [apply NewMemoryStore_wf|]. vm_compute. discriminate. }
  pose proof (plan_overtaken (iM := natural_order) sample_fs sample_yaml sample_marshal sample_fmt overtaking
    overtaken_event (sample_planner empty_cluster) _ Hroom eq_refl ltac:(vm_compute; reflexivity)) as H.
  destruct (PlanForEvent_among _ _ _ _ _ _ _) as [r p']. cbn zeta in H.
  destruct H as (-> & r1 & ids & Hr1 & _ & Hlen & Hids); [vm_compute; reflexivity|].
  assert (length ids = 1%nat) as Hone by (rewrite Hlen; vm_compute; reflexivity).
  destruct ids as [|id ids]; [discriminate|].
  exists p', r1, id. split; [reflexivity|]. split; [exact Hr1|].
  destruct (Hids id) as [Hid _]. rewrite Hid, decide_True; [reflexivity|left].
Defined.

(** The planner records the commit it is given before it asks whether that commit is
    stale. So an older commit planned after a newer one was recorded is planned like any
    other, and its comment becomes current. *)
Example older_commit_planned :
  let runs := SetLatestSHA 7 "newer" (NewMemoryStore (fun n => Z.of_nat n)) in
  let '(r, p') := PlanForEvent (iM := natural_order) sample_fs sample_yaml sample_marshal sample_fmt sample_event
    (with_runs (Some runs) (sample_planner empty_cluster)) in
  r = Ok tt /\
  length (mem_comments 7 (default NewMemoryCommentStore (pl_comments p'))) = 1%nat /\
  StatusState <$> mem_statuses 7 "abc" (default [] (pl_status p')) = [CheckPending; CheckSuccess].
Proof. vm_compute. auto. Qed.

Lemma plan_runs_witness :
  exists r p' r1, sample_plan_for broken_cluster = (r, p') /\ pl_runs p' = Some r1 /\
    (run_state r1 1 = None \/ run_state r1 1 = Some StateSuccess \/ run_state r1 1 = Some StateFailed).
Proof.
  pose proof (plan_runs (iM := natural_order) sample_fs sample_yaml sample_marshal sample_fmt sample_event
    (sample_planner broken_cluster) _ (sample_room _) eq_refl) as H.
  destruct (sample_plan_for broken_cluster) as [r p']. destruct H as (r1 & Hr & Hs).
  exists r, p', r1. split; [reflexivity|]. split; [exact Hr|].
  destruct (Hs 1) as [-> |(_ & _ & ->)]; [left; reflexivity|right; destruct r; auto].
Defined.

(** With pruning on, a reader that lists the namespace and a merge request that changes
    one manifest, the unchanged manifests of the project are reported as deletions:
    the desired side of the comparison was narrowed to the changed file. *)
Definition prune_config : string :=
  join nl ["version: v1"; "project: web"; "clusterRef: prod"; "namespace: default"; "render:";
           "  mode: yaml"; "  path: ."; "diff:"; "  prune: true"].
Definition other_doc : gmap string value :=
  {[ "apiVersion" := VString "v1"; "kind" := VString "ConfigMap";
     "metadata" := VMap {[ "name" := VString "other"; "namespace" := VString "default" ]} ]}.
Definition two_file_fs : FS :=
  mkFS (fs_stat sample_fs)
       (fun path => [mkWalk "repo/web/other.yaml" "other.yaml" false None;
                     mkWalk "repo/web/secret.yaml" "secret.yaml" false None])
       (fun path => if str_eqb path "repo/web/thule.conf" then Ok prune_config else Ok path).
Definition two_file_yaml : yaml_decoder :=
  fun content => ([if str_eqb content "repo/web/other.yaml" then other_doc else sample_doc], None).
Definition live_cluster : ClusterReader :=
  MemoryClusterReader (Some {[ "prod/default" :=
    [mkResource "v1" "ConfigMap" "default" "other" other_doc ""] ]}).

Example prune_reports_unchanged_manifests :
  match (PlanForEvent (iM := natural_order) two_file_fs two_file_yaml sample_marshal sample_fmt sample_event
           (sample_planner live_cluster)).2 with
  | mkPlanner _ _ (Some c) _ _ _ =>
      contains_str (default "" (head (CommentBody <$> mem_comments 7 c)))
        "- `DELETE` v1|ConfigMap|default|other" = true
  | _ => False
  end.
Proof. vm_compute. reflexivity. Qed.
