(* ===== verification/Repo.v ===== *)
(** * The repository clone: internal/repo

    [Syncer] keeps a clone of the repository at the commit of a job, [RepoChangedFiles]
    asks the clone which files differ from the base branch. go-git is an argument,
    [Git]; [GitSpec] is what its operations are documented to do to a clone. *)

From stdpp Require Import options.
From S2P Require Import Prelude GoStrings GoPath Context.

(** ** go-git *)

(** Credentials; the keys of the ssh package have type [K], and whether the host is
    checked is a field of theirs. *)
Inductive AuthMethod (K : Type) :=
| BasicAuth (Username Password : string)
| PublicKeys (keys : K) (check_host : bool).
Arguments BasicAuth {K} _ _.
Arguments PublicKeys {K} _ _.

Inductive open_outcome := OpenOk | ErrRepositoryNotExists | OpenErr (err : string).
Inductive fetch_outcome := FetchOk | NoErrAlreadyUpToDate | FetchErr (err : string).
(** Repacking and pruning: storage that cannot do it says so. *)
Inductive gc_outcome := GcOk | GcNotSupported | GcErr (err : string).

Record CloneOptions (K : Type) := mkClone {
  clone_url : string;
  clone_auth : option (AuthMethod K);
  ReferenceName : option string;
  SingleBranch : bool
}.
Arguments mkClone {K} _ _ _ _.
Record FetchOptions (K : Type) := mkFetch {
  fetch_auth : option (AuthMethod K);
  RemoteName : string;
  RefSpecs : list string
}.
Arguments mkFetch {K} _ _ _.

(** What to check out, always by force here. *)
Inductive checkout_target (H : Type) := CheckoutHash (h : H) | CheckoutBranch (ref : string).
Arguments CheckoutHash {H} _.
Arguments CheckoutBranch {H} _.

(** A file patch is the path before and the path after, each absent for a file that is
    created or deleted. *)
Record file_patch := mkPatch { from_path : option string; to_path : option string }.

(** [G] is the disk and the remote, [H] hashes, [M] commits; a repository is the
    directory it was opened in. *)
Class Git (G K H M : Type) := {
  NewHash : string -> H;
  IsHash : string -> bool;
  NewBranchReferenceName : string -> string;
  NewRemoteReferenceName : string -> string -> string;
  PlainOpen : string -> G -> open_outcome;
  MkdirAll : string -> G -> result unit * G;
  PlainClone : Ctx -> string -> CloneOptions K -> G -> result unit * G;
  Fetch : Ctx -> string -> FetchOptions K -> G -> fetch_outcome * G;
  Worktree : string -> G -> result unit;
  Checkout : string -> checkout_target H -> G -> result unit * G;
  RepackObjects : string -> G -> gc_outcome * G;
  PruneObjects : string -> Z -> G -> gc_outcome * G;
  Reference : string -> string -> G -> result H;
  CommitObject : string -> H -> G -> result M;
  MergeBase : M -> M -> G -> result (list M);
  CommitPatch : M -> M -> G -> result (list file_patch)
}.

(** ** Credentials: auth.go *)

Section Auth.
Context {K : Type}.
Context (NewPublicKeysFromFile NewPublicKeys : string -> string -> string -> result K).

Definition AuthFromEnv (env : environment) : result (option (AuthMethod K)) :=
  let token := env "THULE_GIT_HTTP_TOKEN" in
  if negb (str_eqb token "") then
    Ok (Some (BasicAuth (getEnv env "THULE_GIT_HTTP_USER" "oauth2") token))
  else
    let user := env "THULE_GIT_HTTP_USER" in
    if negb (str_eqb user "") then Ok (Some (BasicAuth user (env "THULE_GIT_HTTP_PASSWORD")))
    else
      let keyPath := env "THULE_GIT_SSH_KEY_PATH" in
      let key := env "THULE_GIT_SSH_KEY" in
      if str_eqb keyPath "" && str_eqb key "" then Ok None
      else
        let user := getEnv env "THULE_GIT_SSH_USER" "git" in
        let passphrase := env "THULE_GIT_SSH_PASSPHRASE" in
        match (if negb (str_eqb keyPath "") then NewPublicKeysFromFile user keyPath passphrase
               else NewPublicKeys user key passphrase) with
        | Err err => Err ("ssh auth: " +:+ err)
        | Ok auth => Ok (Some (PublicKeys auth false))
        end.
End Auth.

(** ** Keeping the clone: sync.go *)

Record Syncer (K : Type) := mkSyncer {
  sync_url : string;
  sync_ref : string;
  sync_dir : string;
  sync_auth : option (AuthMethod K)
}.
Arguments mkSyncer {K} _ _ _ _.
Arguments sync_url {K} _.
Arguments sync_ref {K} _.
Arguments sync_dir {K} _.
Arguments sync_auth {K} _.

Definition NewSyncer {K} (url ref dir : string) (auth : option (AuthMethod K)) : Syncer K :=
  mkSyncer url ref dir auth.
Definition SyncerEnabled {K} (s : Syncer K) : bool := negb (str_eqb (sync_url s) "").

Definition refspecs : list string :=
  ["+refs/heads/*:refs/remotes/origin/*"; "+refs/merge-requests/*:refs/merge-requests/*"].

Section Sync.
Context {G K H M : Type} {iG : Git G K H M}.

Definition normalizeRef (ref : string) : string :=
  if has_prefix ref "refs/" then ref else NewBranchReferenceName ref.

Definition clone_options (s : Syncer K) : CloneOptions K :=
  if str_eqb (sync_ref s) "" then mkClone (sync_url s) (sync_auth s) None false
  else mkClone (sync_url s) (sync_auth s) (Some (normalizeRef (sync_ref s))) true.

(** Opening the clone, or making it. *)
Definition open_or_clone (ctx : Ctx) (s : Syncer K) (g : G) : result unit * G :=
  match PlainOpen (sync_dir s) g with
  | ErrRepositoryNotExists =>
      match MkdirAll (dir (sync_dir s)) g with
      | (Err err, g) => (Err ("create repo parent: " +:+ err), g)
      | (Ok _, g) =>
          match PlainClone ctx (sync_dir s) (clone_options s) g with
          | (Err err, g) => (Err ("clone repo: " +:+ err), g)
          | (Ok _, g) => (Ok tt, g)
          end
      end
  | OpenErr err => (Err ("open repo: " +:+ err), g)
  | OpenOk => (Ok tt, g)
  end.

Definition Sync (ctx : Ctx) (s : Syncer K) (sha : string) (g : G) : result unit * G :=
  if str_eqb (sync_url s) "" then (Ok tt, g)
  else if str_eqb (sync_dir s) "" then (Err "repo dir is empty", g)
  else
    let '(opened, g) := open_or_clone ctx s g in
    match opened with
    | Err err => (Err err, g)
    | Ok _ =>
        let '(fetched, g) := Fetch ctx (sync_dir s) (mkFetch (sync_auth s) "" refspecs) g in
        match fetched with
        | FetchErr err => (Err ("fetch repo: " +:+ err), g)
        | FetchOk | NoErrAlreadyUpToDate =>
            match Worktree (sync_dir s) g with
            | Err err => (Err ("worktree: " +:+ err), g)
            | Ok _ =>
                if negb (str_eqb sha "") then
                  match Checkout (sync_dir s) (CheckoutHash (NewHash sha)) g with
                  | (Err err, g) => (Err ("checkout sha " +:+ sha +:+ ": " +:+ err), g)
                  | (Ok _, g) => (Ok tt, g)
                  end
                else if negb (str_eqb (sync_ref s) "") then
                  match Checkout (sync_dir s) (CheckoutBranch (normalizeRef (sync_ref s))) g with
                  | (Err err, g) => (Err ("checkout ref " +:+ sync_ref s +:+ ": " +:+ err), g)
                  | (Ok _, g) => (Ok tt, g)
                  end
                else (Ok tt, g)
            end
        end
    end.

Definition hour : Z := 3600 * 1000000000.

Definition Maintain (ctx : Ctx) (s : Syncer K) (g : G) : result unit * G :=
  if negb (SyncerEnabled s) then (Ok tt, g)
  else
    match PlainOpen (sync_dir s) g with
    | ErrRepositoryNotExists => (Ok tt, g)
    | OpenErr err => (Err ("open repo: " +:+ err), g)
    | OpenOk =>
        let '(fetched, g) := Fetch (background ctx) (sync_dir s) (mkFetch (sync_auth s) "origin" refspecs) g in
        match fetched with
        | FetchErr err => (Err ("prune fetch: " +:+ err), g)
        | FetchOk | NoErrAlreadyUpToDate =>
            let '(packed, g) := RepackObjects (sync_dir s) g in
            match packed with
            | GcErr _ => (Ok tt, g)
            | GcOk | GcNotSupported =>
                let '(_, g) := PruneObjects (sync_dir s) (ctx_now ctx - hour) g in (Ok tt, g)
            end
        end
    end.

(** ** The files a commit changes: diff.go *)

Fixpoint first_reference (repoDir : string) (candidates : list string) (g : G) : option H :=
  match candidates with
  | [] => None
  | name :: rest =>
      match Reference repoDir name g with
      | Ok h => Some h
      | Err _ => first_reference repoDir rest g
      end
  end.

Definition ref_candidates (ref : string) : list string :=
  if has_prefix ref "refs/" then [ref]
  else [NewRemoteReferenceName "origin" ref; NewBranchReferenceName ref].

Definition resolveRef (repoDir ref : string) (g : G) : result H :=
  if str_eqb ref "" then Err "base ref is empty"
  else if IsHash ref then Ok (NewHash ref)
  else match first_reference repoDir (ref_candidates ref) g with
       | Some h => Ok h
       | None => Err ("base ref " +:+ fmt_q ref +:+ " not found")
       end.

Definition patch_path (fp : file_patch) : option string :=
  let path := match to_path fp, from_path fp with
              | Some p, _ => p
              | None, Some p => p
              | None, None => ""
              end in
  if str_eqb path "" then None else Some (trim_prefix path "./").

Definition diff_base (headCommit baseCommit : M) (g : G) : M :=
  match MergeBase headCommit baseCommit g with
  | Ok (b :: _) => b
  | _ => baseCommit
  end.

Definition RepoChangedFiles (repoDir baseRef headSHA : string) (g : G) : result (list string) :=
  if str_eqb repoDir "" then Err "repo dir is empty"
  else if str_eqb headSHA "" then Err "head sha is empty"
  else
    match PlainOpen repoDir g with
    | OpenErr err => Err ("open repo: " +:+ err)
    | ErrRepositoryNotExists => Err "open repo: repository does not exist"
    | OpenOk =>
        let? baseHash := resolveRef repoDir baseRef g in
        match CommitObject repoDir (NewHash headSHA) g with
        | Err err => Err ("head commit: " +:+ err)
        | Ok headCommit =>
            match CommitObject repoDir baseHash g with
            | Err err => Err ("base commit: " +:+ err)
            | Ok baseCommit =>
                match CommitPatch (diff_base headCommit baseCommit g) headCommit g with
                | Err err => Err ("diff commits: " +:+ err)
                | Ok patches => Ok (collect patch_path patches ∅ [])
                end
            end
        end
    end.
End Sync.
