(* ===== verification/RepoFacts.v ===== *)
(** * What syncing does to the clone

    [GitSpec] describes a clone by the commit that is checked out and its references,
    and the remote by its branches. *)

From stdpp Require Import options.
From S2P Require Import Prelude GoStrings Context Repo.

(** ** go-git's operations on one clone *)

Definition zero_id : string := String.concat "" (replicate 40 "0").
(** A text that names a commit: a hash in full, and not the one that stands for none. *)
Definition full_id {G K H M} {iG : Git G K H M} (sha : string) : Prop := IsHash sha = true /\ sha <> zero_id.

Class GitSpec (G K H M : Type) {iG : Git G K H M} (repoDir : string) := {
  clone_head : G -> option H;
  clone_ref : G -> string -> option H;
  remote_branch : G -> string -> option H;
  zero_hash : H;
  branch_name b : NewBranchReferenceName b = "refs/heads/" +:+ b;
  remote_name r b : NewRemoteReferenceName r b = "refs/remotes/" +:+ r +:+ "/" +:+ b;
  full_id_hash sha : full_id sha -> sha <> "" /\ NewHash sha <> zero_hash;
  reference_ok name g h : Reference repoDir name g = Ok h <-> clone_ref g name = Some h;
  (** A fetch of all branches moves the remote-tracking references, not the clone's
      branches. *)
  fetched_tracking ctx o g r g' :
    Fetch ctx repoDir o g = (r, g') -> RefSpecs K o = refspecs -> (r = FetchOk \/ r = NoErrAlreadyUpToDate) ->
    forall b h, remote_branch g' b = Some h -> clone_ref g' (NewRemoteReferenceName "origin" b) = Some h;
  fetch_keeps ctx o g r g' :
    Fetch ctx repoDir o g = (r, g') -> RefSpecs K o = refspecs ->
    clone_head g' = clone_head g /\
    forall b, clone_ref g' (NewBranchReferenceName b) = clone_ref g (NewBranchReferenceName b);
  (** Checking out a commit detaches HEAD there. Without a commit and a branch the branch
      master is checked out. A checkout moves HEAD and no other reference. *)
  checkout_hash h g g' :
    h <> zero_hash -> Checkout repoDir (CheckoutHash h) g = (Ok tt, g') -> clone_head g' = Some h;
  checkout_no_hash g g' :
    Checkout repoDir (CheckoutHash zero_hash) g = (Ok tt, g') -> clone_head g' = clone_ref g "refs/heads/master";
  checkout_branch ref g g' :
    Checkout repoDir (CheckoutBranch ref) g = (Ok tt, g') -> clone_head g' = clone_ref g ref;
  checkout_keeps t g r g' name :
    Checkout repoDir t g = (r, g') -> name <> "HEAD" -> clone_ref g' name = clone_ref g name;
  repack_keeps g r g' :
    RepackObjects repoDir g = (r, g') ->
    clone_head g' = clone_head g /\ forall name, clone_ref g' name = clone_ref g name;
  prune_keeps t g r g' :
    PruneObjects repoDir t g = (r, g') ->
    clone_head g' = clone_head g /\ forall name, clone_ref g' name = clone_ref g name
}.

Section Facts.
#[local] Set Default Proof Using "Type*".
Context {G K H M : Type} {iG : Git G K H M} (s : Syncer K) {sG : GitSpec G K H M (sync_dir s)}.

(** A sync that succeeds has opened or made the clone, fetched, and checked out. *)
Lemma Sync_ok ctx sha g g' :
  sync_url s <> "" -> Sync ctx s sha g = (Ok tt, g') ->
  exists g1 r g2, open_or_clone ctx s g = (Ok tt, g1) /\
    Fetch ctx (sync_dir s) (mkFetch (sync_auth s) "" refspecs) g1 = (r, g2) /\
    (r = FetchOk \/ r = NoErrAlreadyUpToDate) /\
    (if str_eqb sha "" then
       if str_eqb (sync_ref s) "" then g' = g2
       else Checkout (sync_dir s) (CheckoutBranch (normalizeRef (sync_ref s))) g2 = (Ok tt, g')
     else Checkout (sync_dir s) (CheckoutHash (NewHash sha)) g2 = (Ok tt, g')).
Proof using Type.
  intros Hu. unfold Sync. rewrite (proj2 (str_eqb_neq _ _) Hu). destruct (str_eqb (sync_dir s) ""); [done|].
  destruct (open_or_clone ctx s g) as [[[]|e] g1]; [|done].
  destruct (Fetch _ _ _ g1) as [r g2] eqn:Ef. intros Hs.
  assert ((r = FetchOk \/ r = NoErrAlreadyUpToDate) /\ exists w, Worktree (sync_dir s) g2 = Ok w) as [Hr [w Hw]].
  { destruct r; try done; (split; [auto|]); destruct (Worktree (sync_dir s) g2); try done; by eexists. }
  exists g1, r, g2. split_and!; [done..|].
  assert (Hs' : (if negb (str_eqb sha "") then
      match Checkout (sync_dir s) (CheckoutHash (NewHash sha)) g2 with
      | (Err err, g) => (Err ("checkout sha " +:+ sha +:+ ": " +:+ err), g)
      | (Ok _, g) => (Ok tt, g)
      end
    else if negb (str_eqb (sync_ref s) "") then
      match Checkout (sync_dir s) (CheckoutBranch (normalizeRef (sync_ref s))) g2 with
      | (Err err, g) => (Err ("checkout ref " +:+ sync_ref s +:+ ": " +:+ err), g)
      | (Ok _, g) => (Ok tt, g)
      end
    else (Ok tt, g2)) = (Ok tt, g')) by (by destruct Hr as [-> | ->]; rewrite Hw in Hs).
  revert Hs'. destruct (str_eqb sha ""), (str_eqb (sync_ref s) ""); cbn [negb];
    [by intros [= ->]|match goal with |- context [Checkout ?d ?t ?x] =>
      by destruct (Checkout d t x) as [[[]|?] ?] end..].
Qed.

Lemma branch_not_head b : NewBranchReferenceName b <> "HEAD".
Proof. by rewrite branch_name. Qed.

Lemma remote_not_head r b : NewRemoteReferenceName r b <> "HEAD".
Proof. by rewrite remote_name. Qed.

Lemma Sync_head ctx sha g g' :
  sync_url s <> "" -> full_id sha -> Sync ctx s sha g = (Ok tt, g') -> clone_head g' = Some (NewHash sha).
Proof.
  intros Hu [Hsha Hid]%(full_id_hash (repoDir := sync_dir s)) (g1 & r & g2 & _ & _ & _ & Hc)%Sync_ok; [|done].
  rewrite (proj2 (str_eqb_neq _ _) Hsha) in Hc. by apply checkout_hash in Hc.
Qed.

(** C18: after a sync to a commit named by its full hash succeeded, that commit is checked
    out; a text that is read as no hash leaves the clone's own branch master checked out
    instead. In both cases the name of a base branch resolves to the commit the remote had
    for it when the sync fetched, whatever the clone's own branch of that name is. *)
Theorem Sync_checks_out ctx sha g g' :
  sync_url s <> "" -> sha <> "" -> Sync ctx s sha g = (Ok tt, g') ->
  (full_id sha -> clone_head g' = Some (NewHash sha)) /\
  (NewHash sha = zero_hash -> clone_head g' = clone_ref g' "refs/heads/master") /\
  exists g1 r g2, open_or_clone ctx s g = (Ok tt, g1) /\
    Fetch ctx (sync_dir s) (mkFetch (sync_auth s) "" refspecs) g1 = (r, g2) /\
    forall b h, b <> "" -> IsHash b = false -> has_prefix b "refs/" = false -> remote_branch g2 b = Some h ->
      resolveRef (sync_dir s) b g' = Ok h.
Proof.
  intros Hu Hsha Hs. apply Sync_ok in Hs as (g1 & r & g2 & Ho & Hf & Hr & Hc); [|done].
  rewrite (proj2 (str_eqb_neq _ _) Hsha) in Hc. split; [|split].
  - intros [_ Hid]%(full_id_hash (repoDir := sync_dir s)). by apply checkout_hash in Hc.
  - intros Hz. rewrite Hz in Hc. pose proof Hc as Hk. apply checkout_no_hash in Hc. rewrite Hc. symmetry.
    by eapply checkout_keeps.
  - exists g1, r, g2. split_and!; [done..|]. intros b h Hb Hh Hp Hrem.
    unfold resolveRef. rewrite (proj2 (str_eqb_neq _ _) Hb), Hh.
    unfold ref_candidates. rewrite Hp. cbn [first_reference].
    assert (Reference (sync_dir s) (NewRemoteReferenceName "origin" b) g' = Ok h) as ->; [|done].
    apply reference_ok. rewrite (checkout_keeps _ _ _ _ _ Hc) by apply remote_not_head.
    by eapply (fetched_tracking _ _ _ _ _ Hf).
Qed.

(** C40: syncing an existing clone without a commit checks out its own branch, which no
    fetch moves: the tree is the one of the last clone, however far the remote is. *)
Theorem Sync_stale_branch ctx g g' :
  sync_url s <> "" -> sync_ref s <> "" -> has_prefix (sync_ref s) "refs/" = false ->
  PlainOpen (sync_dir s) g = OpenOk -> Sync ctx s "" g = (Ok tt, g') ->
  clone_head g' = clone_ref g (NewBranchReferenceName (sync_ref s)) /\
  clone_ref g' (NewBranchReferenceName (sync_ref s)) = clone_ref g (NewBranchReferenceName (sync_ref s)).
Proof.
  intros Hu Href Hp Ho Hs. apply Sync_ok in Hs as (g1 & r & g2 & Hopen & Hf & _ & Hc); [|done].
  unfold open_or_clone in Hopen. rewrite Ho in Hopen. injection Hopen as <-.
  change (str_eqb "" "") with true in Hc. rewrite (proj2 (str_eqb_neq _ _) Href) in Hc.
  unfold normalizeRef in Hc. rewrite Hp in Hc. cbv iota in Hc.
  apply fetch_keeps in Hf as [_ Hf]; [|done]. rewrite <- Hf. split; [by apply checkout_branch|].
  eapply checkout_keeps; [exact Hc|apply branch_not_head].
Qed.

(** Maintenance never moves the checked out commit or the clone's branches, and once
    the clone is open and fetched it succeeds whatever repacking and pruning do. *)
Theorem Maintain_keeps ctx g r g' :
  Maintain ctx s g = (r, g') ->
  clone_head g' = clone_head g /\
  (forall b, clone_ref g' (NewBranchReferenceName b) = clone_ref g (NewBranchReferenceName b)) /\
  (forall err, r = Err err ->
     exists e, PlainOpen (sync_dir s) g = OpenErr e \/
       PlainOpen (sync_dir s) g = OpenOk /\
       exists g1, Fetch (background ctx) (sync_dir s) (mkFetch (sync_auth s) "origin" refspecs) g = (FetchErr e, g1)).
Proof.
  unfold Maintain. destruct (SyncerEnabled s); cbn [negb]; [|by intros [= <- <-]].
  destruct (PlainOpen (sync_dir s) g) as [| |e]; [|by intros [= <- <-]|].
  2: { intros [= <- <-]. split_and!; [done..|]. intros err _. exists e. by left. }
  destruct (Fetch _ _ _ g) as [f g1] eqn:Ef. destruct (fetch_keeps _ _ _ _ _ Ef eq_refl) as [Hh Hb].
  assert (forall r1 g2, (let '(packed, g0) := RepackObjects (sync_dir s) g1 in
      match packed with
      | GcErr _ => (Ok tt, g0)
      | _ => let '(_, g0) := PruneObjects (sync_dir s) (ctx_now ctx - hour) g0 in (Ok tt, g0)
      end) = (r1, g2) ->
    r1 = Ok tt /\ clone_head g2 = clone_head g1 /\ forall name, clone_ref g2 name = clone_ref g1 name) as Hgc.
  { intros r1 g2. destruct (RepackObjects _ g1) as [p g3] eqn:Er. apply repack_keeps in Er as [Er1 Er2].
    destruct (PruneObjects _ _ g3) as [q g4] eqn:Ep. apply prune_keeps in Ep as [Ep1 Ep2].
    destruct p; intros [= <- <-]; (split; [done|]); rewrite ?Ep1, ?Er1; (split; [done|]); intros name;
      by rewrite ?Ep2, ?Er2. }
  destruct f as [| |e].
  1-2: intros (-> & Hh2 & Hr2)%Hgc; rewrite Hh2, Hh; split_and!; [done| |done]; intros b; by rewrite Hr2.
  intros [= <- <-]. split_and!; [done..|]. intros err _. exists e. right. split; [done|]. by exists g1.
Qed.
End Facts.

Section Diff.
Context {G K H M : Type} {iG : Git G K H M}.

(** The files a commit changes are the paths of the patch from the first merge base
    of the base and the head, or from the base when there is none, each once and in the
    order of the patch; the base is looked up on the remote first. *)
Theorem RepoChangedFiles_spec repoDir baseRef headSHA (g : G) files :
  RepoChangedFiles repoDir baseRef headSHA g = Ok files ->
  NoDup files /\
  exists baseHash headCommit baseCommit patches,
    resolveRef repoDir baseRef g = Ok baseHash /\
    CommitObject repoDir (NewHash headSHA) g = Ok headCommit /\ CommitObject repoDir baseHash g = Ok baseCommit /\
    CommitPatch (diff_base headCommit baseCommit g) headCommit g = Ok patches /\
    files = firsts (omap patch_path patches).
Proof.
  unfold RepoChangedFiles. destruct (str_eqb repoDir ""), (str_eqb headSHA ""); try done.
  destruct (PlainOpen repoDir g); try done. destruct (resolveRef repoDir baseRef g) as [bh|]; cbn [rbind]; [|done].
  destruct (CommitObject repoDir (NewHash headSHA) g) as [hc|]; [|done].
  destruct (CommitObject repoDir bh g) as [bc|] eqn:Eb; [|done].
  destruct (CommitPatch _ hc g) as [patches|] eqn:Ep; [|done]. intros [= <-]. rewrite collect_firsts.
  split; [apply NoDup_firsts|]. by exists bh, hc, bc, patches.
Qed.
End Diff.

(** ** A small git *)

(** Commits are their names; a text that is not forty hexadecimal digits names none. A
    clone is a map of references and the commit checked out; a diff is one file. *)
Module TinyGit.
Record disk := mkDisk { cloned : bool; head_commit : option string; refs : gmap string string;
                        branches : gmap string string }.

Definition is_hash (t : string) : bool :=
  (zlen t =? 40) && all_bytes (fun a => is_digit a || in_range 97 102 a) t.
Definition read_hash (t : string) : string := if is_hash t then t else zero_id.

Definition tracking (b : string) : string := "refs/remotes/origin/" +:+ b.
Definition local (b : string) : string := "refs/heads/" +:+ b.

#[global] Instance tracking_inj : Inj (=) (=) tracking.
Proof. intros x y. apply (inj (String.app _)). Qed.

Definition fetch (g : disk) : disk :=
  mkDisk (cloned g) (head_commit g) (kmap tracking (branches g) ∪ refs g) (branches g).
Definition checkout_ref (ref : string) (g : disk) : result unit * disk :=
  match refs g !! ref with
  | Some h => (Ok tt, mkDisk (cloned g) (Some h) (<["HEAD" := h]> (refs g)) (branches g))
  | None => (Err "reference not found", g)
  end.
Definition checkout (t : checkout_target string) (g : disk) : result unit * disk :=
  match t with
  | CheckoutHash h =>
      if str_eqb h zero_id then checkout_ref "refs/heads/master" g
      else (Ok tt, mkDisk (cloned g) (Some h) (<["HEAD" := h]> (refs g)) (branches g))
  | CheckoutBranch ref => checkout_ref ref g
  end.

#[export] Instance git : Git disk unit string string := {|
  NewHash := read_hash; IsHash := is_hash;
  NewBranchReferenceName := local; NewRemoteReferenceName := fun r b => "refs/remotes/" +:+ r +:+ "/" +:+ b;
  PlainOpen := fun _ g => if cloned g then OpenOk else ErrRepositoryNotExists;
  MkdirAll := fun _ g => (Ok tt, g);
  PlainClone := fun _ _ _ g =>
    (Ok tt, mkDisk true (branches g !! "master") (kmap local (branches g)) (branches g));
  Fetch := fun _ _ _ g => (FetchOk, fetch g);
  Worktree := fun _ _ => Ok tt;
  Checkout := fun _ t g => checkout t g;
  RepackObjects := fun _ g => (GcErr "disk full", g);
  PruneObjects := fun _ _ g => (GcOk, g);
  Reference := fun _ name g => match refs g !! name with Some h => Ok h | None => Err "reference not found" end;
  CommitObject := fun _ h _ => Ok h;
  MergeBase := fun _ _ _ => Ok [];
  CommitPatch := fun _ _ _ => Ok [mkPatch None (Some "./a.yaml"); mkPatch (Some "a.yaml") None]
|}.

Lemma checkout_ref_spec ref g r g' :
  checkout_ref ref g = (r, g') ->
  (r = Ok tt -> head_commit g' = refs g !! ref) /\ forall name, name <> "HEAD" -> refs g' !! name = refs g !! name.
Proof.
  unfold checkout_ref. destruct (refs g !! ref) as [h|]; intros [= <- <-]; cbn.
  - split; [done|]. intros name Hn. by rewrite lookup_insert_ne.
  - done.
Qed.

#[export] Program Instance spec (d : string) : GitSpec disk unit string string d := {|
  clone_head := head_commit; clone_ref := fun g name => refs g !! name; remote_branch := fun g b => branches g !! b;
  zero_hash := zero_id
|}.
Next Obligation. done. Qed.
Next Obligation. done. Qed.
Next Obligation. intros d sha [Hh Hz]. cbn in *. unfold read_hash. rewrite Hh. split; [by intros ->|done]. Qed.
Next Obligation. intros d name g h. cbn. destruct (refs g !! name); split; intros; by simplify_eq. Qed.
Next Obligation.
  intros d ctx o g r g' [= <- <-] _ _ b h Hb. cbn in *.
  apply lookup_union_Some_l, lookup_kmap_Some; [apply _|]. by exists b.
Qed.
Next Obligation.
  intros d ctx o g r g' [= <- <-] _. split; [done|]. intros b. cbn. apply lookup_union_r.
  apply lookup_kmap_None; [apply _|]. by intros b' [=].
Qed.
Next Obligation. intros d h g g' Hz%str_eqb_neq. cbn [Checkout git]. unfold checkout. rewrite Hz. by intros [= <-]. Qed.
Next Obligation. intros d g g' Hc. cbn [Checkout git checkout] in Hc. change (str_eqb zero_id zero_id) with true in Hc. by apply checkout_ref_spec in Hc as [Hc _]; apply Hc. Qed.
Next Obligation. intros d ref g g' Hc. by apply checkout_ref_spec in Hc as [Hc _]; apply Hc. Qed.
Next Obligation.
  intros d [h|ref] g r g' name; cbn [Checkout git checkout]; [destruct (str_eqb h zero_id)|].
  - intros Hc. by apply checkout_ref_spec in Hc as [_ Hc]; apply Hc.
  - intros [= <- <-] Hn. cbn. by rewrite lookup_insert_ne.
  - intros Hc. by apply checkout_ref_spec in Hc as [_ Hc]; apply Hc.
Qed.
Next Obligation. by intros d g r g' [= <- <-]. Qed.
Next Obligation. by intros d t g r g' [= <- <-]. Qed.

Definition commit1 : string := "1111111111111111111111111111111111111111".
Definition commit2 : string := "2222222222222222222222222222222222222222".
Definition commit3 : string := "abcdefabcdefabcdefabcdefabcdefabcdefabcd".

(** The remote has moved master from the first to the second commit since the clone was
    made. *)
Definition behind : disk := mkDisk true (Some commit1) {[local "master" := commit1]} {["master" := commit2]}.
Definition syncer : Syncer unit := mkSyncer "https://gl.example.com/group/app.git" "master" "/repo" None.
End TinyGit.

#[local] Existing Instances TinyGit.git TinyGit.spec.

Lemma Sync_checks_out_witness :
  clone_head (repoDir := sync_dir TinyGit.syncer)
    (Sync (at_time 0) TinyGit.syncer TinyGit.commit3 TinyGit.behind).2 = Some TinyGit.commit3 /\
  resolveRef "/repo" "master" (Sync (at_time 0) TinyGit.syncer TinyGit.commit3 TinyGit.behind).2 = Ok TinyGit.commit2.
Proof.
  destruct (Sync_checks_out TinyGit.syncer (at_time 0) TinyGit.commit3 TinyGit.behind
    (Sync (at_time 0) TinyGit.syncer TinyGit.commit3 TinyGit.behind).2) as (H1 & _ & g1 & r & g2 & Ho & Hf & H2);
    [discriminate|discriminate|vm_compute; reflexivity|].
  split; [apply H1; split; [vm_compute; reflexivity|discriminate]|].
  vm_compute in Ho. injection Ho as <-. injection Hf as _ <-.
  apply (H2 "master" TinyGit.commit2); [discriminate|reflexivity|reflexivity|vm_compute; reflexivity].
Defined.

(** A job that names its commit by a text that is no hash is synced without an error, to
    the branch the clone was made with. *)
Example Sync_unreadable_commit :
  let '(r, g') := Sync (at_time 0) TinyGit.syncer "not-a-commit" TinyGit.behind in
  r = Ok tt /\ TinyGit.head_commit g' = Some TinyGit.commit1.
Proof. vm_compute. auto. Qed.

Lemma Sync_stale_branch_witness :
  let g' := (Sync (at_time 0) TinyGit.syncer "" TinyGit.behind).2 in
  clone_head (repoDir := sync_dir TinyGit.syncer) g' = Some TinyGit.commit1 /\
  remote_branch (repoDir := sync_dir TinyGit.syncer) g' "master" = Some TinyGit.commit2.
Proof.
  cbv zeta. destruct (Sync_stale_branch TinyGit.syncer (at_time 0) TinyGit.behind
    (Sync (at_time 0) TinyGit.syncer "" TinyGit.behind).2) as [H1 _];
    [discriminate|discriminate|reflexivity|reflexivity|vm_compute; reflexivity|].
  split; [exact H1|vm_compute; reflexivity].
Defined.

Lemma Maintain_keeps_witness :
  Maintain (at_time 0) TinyGit.syncer TinyGit.behind = (Ok tt, TinyGit.fetch TinyGit.behind) /\
  clone_head (repoDir := sync_dir TinyGit.syncer) (TinyGit.fetch TinyGit.behind) = Some TinyGit.commit1.
Proof.
  assert (Maintain (at_time 0) TinyGit.syncer TinyGit.behind = (Ok tt, TinyGit.fetch TinyGit.behind)) as Hm
    by reflexivity.
  split; [exact Hm|]. exact (proj1 (Maintain_keeps TinyGit.syncer _ _ _ _ Hm)).
Defined.

Lemma RepoChangedFiles_spec_witness :
  NoDup ["a.yaml"] /\
  RepoChangedFiles "/repo" "master" "abc" (TinyGit.fetch TinyGit.behind) = Ok ["a.yaml"].
Proof.
  assert (RepoChangedFiles "/repo" "master" "abc" (TinyGit.fetch TinyGit.behind) = Ok ["a.yaml"]) as H
    by (vm_compute; reflexivity).
  split; [|exact H]. exact (proj1 (RepoChangedFiles_spec _ _ _ _ _ H)).
Defined.
