(* ===== verification/Worker.v ===== *)
(** * The worker: cmd/thule-worker/main.go

    [runWorker] takes jobs from the queue one at a time, brings the clone to the commit of
    the job, finds out which files changed and plans. Everything it works on is one
    world [S]; the queue is apart, since the service shares it. *)

From stdpp Require Import options.
From S2P Require Import Prelude GoStrings Context Queue Service.

Definition defaultBaseRef : string := "master".
Definition defaultRepoMaintenanceEvery : Z := 200.

(** A number from the environment: blank or unreadable means the fallback; what is
    logged. *)
Definition worker_getEnvInt (env : environment) (key : string) (fallback : Z) : Z * list string :=
  let raw := trim_space (env key) in
  if str_eqb raw "" then (fallback, [])
  else match atoi raw with
       | None => (fallback, ["invalid " +:+ key +:+ "=" +:+ fmt_q raw +:+ " using fallback=" +:+ fmt_d fallback])
       | Some v => (v, [])
       end.

(** The interface [repoSyncer]. *)
Record repoSyncer (S : Type) := mkRepoSyncer {
  syncer_enabled : bool;
  syncer_sync : Ctx -> string -> S -> result unit * S;
  syncer_maintain : Ctx -> S -> result unit * S
}.
Arguments mkRepoSyncer {S} _ _ _.
Arguments syncer_enabled {S} _.
Arguments syncer_sync {S} _ _ _ _.
Arguments syncer_maintain {S} _ _ _.

(** The variables of the loop that outlive an iteration, and the log. *)
Record worker (S : Type) := mkWorker {
  jobsSinceMaintenance : Z;
  wk_log : list string;
  wk_world : S
}.
Arguments mkWorker {S} _ _ _.
Arguments jobsSinceMaintenance {S} _.
Arguments wk_log {S} _.
Arguments wk_world {S} _.

(** What the worker did, for the theorems: a sync with its outcome, a maintenance, a
    plan of an event with its outcome. *)
Inductive action :=
| Synced (sha : string) (ok : bool)
| Maintained
| Planned (evt : MergeRequestEvent) (ok : bool).

Definition job_event (job : Job) (changedFiles : list string) : MergeRequestEvent :=
  mkEvent (JobDeliveryID job) (JobEventType job) (JobRepository job) (JobMergeReqID job) (JobHeadSHA job)
    (JobBaseRef job) changedFiles.

Definition about (job : Job) : string :=
  " delivery=" +:+ JobDeliveryID job +:+ " mr=" +:+ fmt_d (JobMergeReqID job).
Definition about_sha (job : Job) : string := about job +:+ " sha=" +:+ JobHeadSHA job.

Section Worker.
Context {S : Type}.
Context (env : environment) (syncer : option (repoSyncer S)).
Context (plan : Ctx -> MergeRequestEvent -> S -> result unit * S).
Context (mrChangedFiles : option (Z -> S -> result (list string) * S)).
Context (repo_changed_files : string -> string -> string -> S -> result (list string)).

Definition log_line (line : string) (w : worker S) : worker S :=
  mkWorker (jobsSinceMaintenance w) (wk_log w ++ [line]) (wk_world w).
Definition with_world (s : S) (w : worker S) : worker S := mkWorker (jobsSinceMaintenance w) (wk_log w) s.
Definition with_since (n : Z) (w : worker S) : worker S := mkWorker n (wk_log w) (wk_world w).

(** The counter after a sync, and maintenance when it is due. *)
Definition maintain_if_due (ctx : Ctx) (maintenanceEvery : Z) (y : repoSyncer S) (w : worker S)
    : list action * worker S :=
  if 0 <? maintenanceEvery then
    let w := with_since (wrap64 (jobsSinceMaintenance w + 1)) w in
    if maintenanceEvery <=? jobsSinceMaintenance w then
      let '(res, s) := syncer_maintain y ctx (wk_world w) in
      let w := with_world s w in
      let w := match res with Ok _ => w | Err err => log_line ("repo maintenance failed err=" +:+ err) w end in
      ([Maintained], with_since 0 w)
    else ([], w)
  else ([], w).

(** The clone; [false] when the job is given up. *)
Definition sync_job (ctx : Ctx) (maintenanceEvery : Z) (job : Job) (w : worker S)
    : bool * list action * worker S :=
  match syncer with
  | Some y =>
      if syncer_enabled y then
        let '(res, s) := syncer_sync y ctx (JobHeadSHA job) (wk_world w) in
        let w := with_world s w in
        match res with
        | Err err =>
            (false, [Synced (JobHeadSHA job) false], log_line ("repo sync failed" +:+ about_sha job +:+ " err=" +:+ err) w)
        | Ok _ =>
            let '(acts, w) := maintain_if_due ctx maintenanceEvery y w in
            (true, Synced (JobHeadSHA job) true :: acts, w)
        end
      else (true, [], w)
  | None => (true, [], w)
  end.

(** First what the merge request says, then what the clone says. *)
Definition files_from_mr (job : Job) (w : worker S) : list string * worker S :=
  match mrChangedFiles with
  | Some f =>
      if 0 <? JobMergeReqID job then
        let '(res, s) := f (JobMergeReqID job) (wk_world w) in
        let w := with_world s w in
        match res with
        | Err err => ([], log_line ("gitlab changed files failed" +:+ about job +:+ " err=" +:+ err) w)
        | Ok files => (files, w)
        end
      else ([], w)
  | None => ([], w)
  end.

Definition base_ref (job : Job) : string :=
  if str_eqb (JobBaseRef job) "" then getEnv env "THULE_REPO_BASE_REF" defaultBaseRef else JobBaseRef job.

Definition files_from_clone (job : Job) (w : worker S) : list string * worker S :=
  match repo_changed_files (getEnv env "THULE_REPO_ROOT" ".") (base_ref job) (JobHeadSHA job) (wk_world w) with
  | Err err =>
      ([], log_line ("diff files failed" +:+ about job +:+ " base=" +:+ base_ref job +:+ " sha=" +:+
                     JobHeadSHA job +:+ " err=" +:+ err) w)
  | Ok files => (files, w)
  end.

Definition changed_files (job : Job) (w : worker S) : list string * worker S :=
  match JobChangedFiles job with
  | [] =>
      let '(files, w) := files_from_mr job w in
      match files with
      | [] => files_from_clone job w
      | _ => (files, w)
      end
  | files => (files, w)
  end.

Definition plan_job (ctx : Ctx) (evt : MergeRequestEvent) (job : Job) (w : worker S) : bool * worker S :=
  let '(res, s) := plan ctx evt (wk_world w) in
  let w := with_world s w in
  match res with
  | Err err => (false, log_line ("plan failed" +:+ about_sha job +:+ " err=" +:+ err) w)
  | Ok _ => (true, log_line ("plan completed" +:+ about_sha job) w)
  end.

(** An iteration of the loop after the job was taken. *)
Definition work_job (ctx : Ctx) (maintenanceEvery : Z) (job : Job) (w : worker S) : list action * worker S :=
  let '(ready, acts, w) := sync_job ctx maintenanceEvery job w in
  if ready then
    let '(files, w) := changed_files job w in
    let evt := job_event job files in
    let '(ok, w) := plan_job ctx evt job w in
    (acts ++ [Planned evt ok], w)
  else (acts, w).

(** ** The loop *)

Context {Q : Type} {iQ : JobQueue Q}.

(** The worker left the loop with an error, is waiting for a job, or has used up the
    moments it was given. *)
Inductive worker_outcome :=
| WorkerExited (err : string) (q : Q) (acts : list action) (w : worker S)
| WorkerWaits (q : Q) (acts : list action) (w : worker S)
| WorkerRuns (q : Q) (acts : list action) (w : worker S).

(** One moment per iteration. *)
Fixpoint worker_loop (maintenanceEvery : Z) (moments : list Ctx) (q : Q) (acts : list action) (w : worker S)
    : worker_outcome :=
  match moments with
  | [] => WorkerRuns q acts w
  | ctx :: rest =>
      match Dequeue ctx q with
      | Blocked => WorkerWaits q acts w
      | Returns (Err err, q) => WorkerExited err q acts (log_line ("worker exiting: " +:+ err) w)
      | Returns (Ok job, q) =>
          let '(done, w) := work_job ctx maintenanceEvery job w in
          worker_loop maintenanceEvery rest q (acts ++ done) w
      end
  end.

Definition runWorker (moments : list Ctx) (q : Q) (log : list string) (s : S) : worker_outcome :=
  let '(every, logged) := worker_getEnvInt env "THULE_REPO_MAINTENANCE_EVERY" defaultRepoMaintenanceEvery in
  worker_loop every moments q [] (mkWorker 0 (log ++ logged) s).
End Worker.
