(* ===== verification/WorkerFacts.v ===== *)
(** * The worker: theorems

    What a job leads to, call by call; maintenance runs after every so many syncs. *)

From stdpp Require Import options.
From S2P Require Import Prelude GoStrings Context Queue Service Worker.

(** ** Reading the actions *)

Definition planned_by (a : action) : option MergeRequestEvent :=
  match a with Planned evt _ => Some evt | _ => None end.
Definition planned_events (acts : list action) : list MergeRequestEvent := omap planned_by acts.

Definition is_synced (a : action) : bool := match a with Synced _ ok => ok | _ => false end.
Definition is_maintained (a : action) : bool := match a with Maintained => true | _ => false end.
Definition how_many (p : action -> bool) (acts : list action) : Z :=
  Z.of_nat (length (filter (fun a => p a = true) acts)).

Lemma how_many_app p l1 l2 : how_many p (l1 ++ l2) = how_many p l1 + how_many p l2.
Proof. unfold how_many. rewrite filter_app, length_app. lia. Qed.

Lemma how_many_cons p a l : how_many p (a :: l) = (if p a then 1 else 0) + how_many p l.
Proof.
  unfold how_many. rewrite filter_cons. destruct (p a) eqn:E.
  - rewrite decide_True by done. cbn [length]. lia.
  - by rewrite decide_False.
Qed.

Section Counting.
Context {S : Type}.
Implicit Types (w : worker S) (y : repoSyncer S).

(** The syncs so far are the maintained ones and the counted ones. *)
Definition counted (every : Z) (acts : list action) (w : worker S) : Prop :=
  0 <= jobsSinceMaintenance w < every /\
  how_many is_synced acts = every * how_many is_maintained acts + jobsSinceMaintenance w.

Lemma maintain_if_due_counted ctx every y sha acts w :
  0 < every <= int64_max -> counted every acts w ->
  let '(new, w') := maintain_if_due ctx every y w in
  counted every (acts ++ Synced sha true :: new) w'.
Proof.
  intros Hev [Hr Hc]. unfold maintain_if_due. rewrite (proj2 (Z.ltb_lt 0 every)) by lia.
  cbn [jobsSinceMaintenance with_since].
  assert (wrap64 (jobsSinceMaintenance w + 1) = jobsSinceMaintenance w + 1) as ->.
  { apply wrap64_id. unfold in_int64, int64_min. lia. }
  destruct (Z.leb_spec every (jobsSinceMaintenance w + 1)).
  - destruct (syncer_maintain y ctx _) as [res s]. unfold counted. cbn [jobsSinceMaintenance with_since].
    rewrite !how_many_app, !how_many_cons. cbn [is_synced is_maintained]. change (how_many _ []) with 0. nia.
  - unfold counted. cbn [jobsSinceMaintenance with_since]. rewrite !how_many_app, !how_many_cons.
    cbn [is_synced is_maintained]. change (how_many _ []) with 0. lia.
Qed.
End Counting.

Section WorkerFacts.
Context {S : Type}.
Context (env : environment) (syncer : option (repoSyncer S)).
Context (plan : Ctx -> MergeRequestEvent -> S -> result unit * S).
Context (mrChangedFiles : option (Z -> S -> result (list string) * S)).
Context (repo_changed_files : string -> string -> string -> S -> result (list string)).
Implicit Types (w : worker S) (y : repoSyncer S).

Abbreviation work := (work_job env syncer plan mrChangedFiles repo_changed_files).
Abbreviation files_of := (changed_files env mrChangedFiles repo_changed_files).

(** ** One job *)

Lemma maintain_if_due_actions ctx every y w :
  let '(acts, w') := maintain_if_due ctx every y w in
  planned_events acts = [] /\ how_many is_synced acts = 0.
Proof.
  unfold maintain_if_due. destruct (0 <? every); [|done]. destruct (every <=? _); [|done].
  by destruct (syncer_maintain _ _ _) as [[] ?].
Qed.

(** What asking the merge request for its files comes to when it yields none: nobody
    is asked, or the answer is an error or empty. *)
Inductive no_mr_files (job : Job) (s : S) : S -> Prop :=
| nm_no_lister : mrChangedFiles = None -> no_mr_files job s s
| nm_no_number : JobMergeReqID job <= 0 -> no_mr_files job s s
| nm_empty f s' :
    mrChangedFiles = Some f -> 0 < JobMergeReqID job -> f (JobMergeReqID job) s = (Ok [], s') -> no_mr_files job s s'
| nm_failed f e s' :
    mrChangedFiles = Some f -> 0 < JobMergeReqID job -> f (JobMergeReqID job) s = (Err e, s') -> no_mr_files job s s'.

(** Which files a job is planned for, and the world after they were found: its own; if
    it names none, those of the merge request; if that yields none, those the clone
    finds between the base and the commit, and none if that fails. *)
Inductive files_source (job : Job) (s : S) : list string -> S -> Prop :=
| fs_own : JobChangedFiles job <> [] -> files_source job s (JobChangedFiles job) s
| fs_mr f files s' :
    JobChangedFiles job = [] -> mrChangedFiles = Some f -> 0 < JobMergeReqID job ->
    f (JobMergeReqID job) s = (Ok files, s') -> files <> [] -> files_source job s files s'
| fs_clone files s' :
    JobChangedFiles job = [] -> no_mr_files job s s' ->
    repo_changed_files (getEnv env "THULE_REPO_ROOT" ".") (base_ref env job) (JobHeadSHA job) s' = Ok files ->
    files_source job s files s'
| fs_unknown e s' :
    JobChangedFiles job = [] -> no_mr_files job s s' ->
    repo_changed_files (getEnv env "THULE_REPO_ROOT" ".") (base_ref env job) (JobHeadSHA job) s' = Err e ->
    files_source job s [] s'.

Lemma files_from_mr_source job w files w' :
  files_from_mr mrChangedFiles job w = (files, w') ->
  (files = [] /\ no_mr_files job (wk_world w) (wk_world w')) \/
  (files <> [] /\ exists f, mrChangedFiles = Some f /\ 0 < JobMergeReqID job /\
     f (JobMergeReqID job) (wk_world w) = (Ok files, wk_world w')).
Proof.
  unfold files_from_mr. destruct mrChangedFiles as [f|] eqn:Ef; [|intros [= <- <-]; left; split; [done|by constructor]].
  destruct (Z.ltb_spec 0 (JobMergeReqID job)); [|intros [= <- <-]; left; split; [done|by constructor 2]].
  destruct (f (JobMergeReqID job) (wk_world w)) as [[[|x l]|e] s'] eqn:E; intros [= <- <-].
  - left. split; [done|]. by eapply nm_empty.
  - right. split; [done|]. by exists f.
  - left. split; [done|]. by eapply nm_failed.
Qed.

Lemma changed_files_source job w files w' :
  files_of job w = (files, w') -> files_source job (wk_world w) files (wk_world w').
Proof.
  unfold changed_files. destruct (JobChangedFiles job) as [|x fs] eqn:Ej.
  2:{ intros [= <- <-]. rewrite <- Ej. apply fs_own. by rewrite Ej. }
  destruct (files_from_mr mrChangedFiles job w) as [files1 w1] eqn:Em.
  apply files_from_mr_source in Em as [[-> Hno]|[Hne (f & Hf & Hpos & E)]].
  - unfold files_from_clone. destruct (repo_changed_files _ _ _ _) as [fs|e] eqn:Ec; intros [= <- <-].
    + by eapply fs_clone.
    + by eapply fs_unknown.
  - destruct files1 as [|y l]; [done|]. intros [= <- <-]. by eapply fs_mr.
Qed.

(** Bringing the clone to the commit of a job, with maintenance when it is due: what was
    done, and the world after it. Without a clone there is nothing to do. *)
Inductive synced ctx (job : Job) (s : S) : list action -> S -> Prop :=
| sy_no_clone : (forall y, syncer = Some y -> syncer_enabled y = false) -> synced ctx job s [] s
| sy_clone y s' :
    syncer = Some y -> syncer_enabled y = true -> syncer_sync y ctx (JobHeadSHA job) s = (Ok tt, s') ->
    synced ctx job s [Synced (JobHeadSHA job) true] s'
| sy_maintained y s' res s'' :
    syncer = Some y -> syncer_enabled y = true -> syncer_sync y ctx (JobHeadSHA job) s = (Ok tt, s') ->
    syncer_maintain y ctx s' = (res, s'') -> synced ctx job s [Synced (JobHeadSHA job) true; Maintained] s''.

(** The clone could not be brought there. *)
Definition sync_fails ctx (job : Job) (s s' : S) : Prop :=
  exists y e, syncer = Some y /\ syncer_enabled y = true /\ syncer_sync y ctx (JobHeadSHA job) s = (Err e, s').

Lemma maintain_if_due_world ctx every y w :
  let '(acts, w') := maintain_if_due ctx every y w in
  acts = [] /\ wk_world w' = wk_world w \/
  acts = [Maintained] /\ exists res, syncer_maintain y ctx (wk_world w) = (res, wk_world w').
Proof.
  unfold maintain_if_due. destruct (0 <? every); [|by left]. destruct (every <=? _); [|by left].
  cbn [wk_world with_since]. destruct (syncer_maintain y ctx (wk_world w)) as [[[]|e] s'] eqn:E; right; eauto.
Qed.

Lemma sync_job_synced ctx every job w :
  let '(ready, acts, w') := sync_job syncer ctx every job w in
  if ready : bool then synced ctx job (wk_world w) acts (wk_world w')
  else acts = [Synced (JobHeadSHA job) false] /\ sync_fails ctx job (wk_world w) (wk_world w').
Proof.
  unfold sync_job. destruct syncer as [y|] eqn:Ey; [|apply sy_no_clone; intros y'; congruence].
  destruct (syncer_enabled y) eqn:Een; [|apply sy_no_clone; intros y'; congruence].
  destruct (syncer_sync y ctx (JobHeadSHA job) (wk_world w)) as [[[]|e] s] eqn:Es.
  - pose proof (maintain_if_due_world ctx every y (with_world s w)) as Hm.
    destruct (maintain_if_due _ _ _ _) as [acts w']. destruct Hm as [[-> ->]|[-> [res Hres]]].
    + by eapply sy_clone.
    + by eapply sy_maintained.
  - split; [done|]. by exists y, e.
Qed.

Lemma synced_plans_nothing ctx job s acts s' : synced ctx job s acts s' -> planned_events acts = [].
Proof. by destruct 1. Qed.

Lemma plan_job_world ctx evt job w :
  let '(ok, w') := plan_job plan ctx evt job w in
  exists res, plan ctx evt (wk_world w) = (res, wk_world w') /\ ok = is_ok res.
Proof. unfold plan_job. destruct (plan ctx evt (wk_world w)) as [[[]|e] s] eqn:E; by eexists. Qed.

Lemma work_cases ctx every job w :
  let '(acts, w') := work ctx every job w in
  (acts = [Synced (JobHeadSHA job) false] /\ sync_fails ctx job (wk_world w) (wk_world w')) \/
  exists before s files s' res,
    synced ctx job (wk_world w) before s /\ files_source job s files s' /\
    plan ctx (job_event job files) s' = (res, wk_world w') /\
    acts = before ++ [Planned (job_event job files) (is_ok res)].
Proof.
  unfold work_job. pose proof (sync_job_synced ctx every job w) as Hs.
  destruct (sync_job syncer ctx every job w) as [[ready acts] w1]. destruct ready; [|by left].
  destruct (files_of job w1) as [files w2] eqn:Ef. apply changed_files_source in Ef.
  pose proof (plan_job_world ctx (job_event job files) job w2) as Hp.
  destruct (plan_job _ _ _ _ _) as [ok w3]. destruct Hp as (res & Hp & ->). right.
  by exists acts, (wk_world w1), files, (wk_world w2), res.
Qed.

Lemma work_planned ctx every job w :
  let '(acts, w') := work ctx every job w in
  (exists files s s', planned_events acts = [job_event job files] /\ files_source job s files s') \/
  planned_events acts = [].
Proof.
  pose proof (work_cases ctx every job w) as Hw. destruct (work ctx every job w) as [acts w'].
  destruct Hw as [[-> _]|(before & s & files & s' & res & Hs & Hf & _ & ->)]; [by right|]. left.
  apply synced_plans_nothing in Hs. unfold planned_events in *. rewrite omap_app, Hs. eauto.
Qed.

(** C19: what a job leads to. Either the clone could not be brought to the commit of the
    job, and nothing was planned; or there is no clone, or it was brought there and
    maintained when that was due, and then one event was planned: the delivery,
    repository, merge request, commit and base of the job, with the job's own files if
    it names any, otherwise those the merge request has in the world after the sync,
    otherwise those the clone finds, and none if that fails. *)
Theorem work_job_plans ctx every job w acts w' :
  work_job env syncer plan mrChangedFiles repo_changed_files ctx every job w = (acts, w') ->
  (acts = [Synced (JobHeadSHA job) false] /\ sync_fails ctx job (wk_world w) (wk_world w')) \/
  exists before s files s' evt res,
    synced ctx job (wk_world w) before s /\ files_source job s files s' /\
    evt = mkEvent (JobDeliveryID job) (JobEventType job) (JobRepository job) (JobMergeReqID job)
      (JobHeadSHA job) (JobBaseRef job) files /\
    plan ctx evt s' = (res, wk_world w') /\ acts = before ++ [Planned evt (is_ok res)].
Proof.
  intros Hw. pose proof (work_cases ctx every job w) as Hc. rewrite Hw in Hc.
  destruct Hc as [?|(before & s & files & s' & res & Hs & Hf & Hp & ->)]; [by left|]. right.
  by exists before, s, files, s', (job_event job files), res.
Qed.

(** ** Maintenance *)

Lemma since_plain w job :
  jobsSinceMaintenance (files_of job w).2 = jobsSinceMaintenance w.
Proof.
  unfold changed_files, files_from_mr, files_from_clone. by repeat (case_match; simplify_eq; cbn).
Qed.

Lemma since_plan ctx evt job w : jobsSinceMaintenance (plan_job plan ctx evt job w).2 = jobsSinceMaintenance w.
Proof. unfold plan_job. by repeat (case_match; cbn). Qed.

Lemma work_counted ctx every job acts w :
  0 < every <= int64_max -> (forall y, syncer = Some y -> syncer_enabled y = true) -> is_Some syncer ->
  counted every acts w ->
  let '(new, w') := work ctx every job w in counted every (acts ++ new) w'.
Proof.
  intros Hev Hen [y Hy] Hc. unfold work_job, sync_job. rewrite Hy, (Hen y Hy).
  destruct (syncer_sync y ctx (JobHeadSHA job) (wk_world w)) as [[[]|e] s].
  - pose proof (maintain_if_due_counted ctx every y (JobHeadSHA job) acts (with_world s w) Hev Hc) as Hm.
    destruct (maintain_if_due ctx every y (with_world s w)) as [new w1].
    pose proof (since_plain w1 job) as H1. destruct (files_of job w1) as [files w2].
    pose proof (since_plan ctx (job_event job files) job w2) as H2.
    destruct (plan_job plan ctx (job_event job files) job w2) as [ok w3]. cbn [snd] in *.
    unfold counted in *. rewrite H2, H1. rewrite (assoc_L (++)), !how_many_app in *.
    rewrite !(how_many_cons _ (Planned _ _)). cbn [is_synced is_maintained]. change (how_many _ []) with 0. lia.
  - unfold counted in *. rewrite !how_many_app, !how_many_cons. cbn [is_synced is_maintained log_line jobsSinceMaintenance with_world].
    change (how_many _ []) with 0. lia.
Qed.

(** ** Many jobs *)

Fixpoint work_all (every : Z) (l : list (Ctx * Job)) (acts : list action) (w : worker S)
    : list action * worker S :=
  match l with
  | [] => (acts, w)
  | (ctx, job) :: rest => let '(new, w) := work ctx every job w in work_all every rest (acts ++ new) w
  end.

Lemma work_all_counted every l acts w :
  0 < every <= int64_max -> (forall y, syncer = Some y -> syncer_enabled y = true) -> is_Some syncer ->
  counted every acts w -> let '(acts', w') := work_all every l acts w in counted every acts' w'.
Proof.
  intros Hev Hen Hs. revert acts w. induction l as [|[ctx job] l IH]; intros acts w Hc; cbn [work_all]; [done|].
  pose proof (work_counted ctx every job acts w Hev Hen Hs Hc) as Hw.
  destruct (work ctx every job w) as [new w1]. by apply IH.
Qed.

(** The plans of the jobs, in order, some of them left out. *)
Lemma work_all_planned every l acts w :
  exists fs, planned_events (work_all every l acts w).1 =
    planned_events acts ++ ((fun jf => job_event jf.1 jf.2) <$> fs) /\
    fs.*1 `sublist_of` l.*2 /\
    forall jf, jf ∈ fs -> exists s s', files_source jf.1 s jf.2 s'.
Proof.
  revert acts w. induction l as [|[ctx job] l IH]; intros acts w; cbn [work_all].
  { exists []. split_and!; [by rewrite app_nil_r|done|]. by intros ? ?%elem_of_nil. }
  pose proof (work_planned ctx every job w) as Hp. destruct (work ctx every job w) as [new w1].
  destruct (IH (acts ++ new) w1) as (fs & -> & Hsub & Hsrc). unfold planned_events in *. rewrite omap_app.
  destruct Hp as [(files & s & s' & -> & Hfs)| ->].
  - exists ((job, files) :: fs). split_and!; [by rewrite <- (assoc_L (++))|by apply sublist_skip|].
    intros jf [->|Hin]%elem_of_cons; [by exists s, s'|by apply Hsrc].
  - exists fs. split_and!; [by rewrite app_nil_r|by apply sublist_cons|done].
Qed.

(** ** The loop *)

Context {Q : Type} {iQ : JobQueue Q}.

Definition outcome_parts (o : worker_outcome (S := S) (Q := Q)) : Q * list action * worker S :=
  match o with
  | WorkerExited _ q acts w | WorkerWaits q acts w | WorkerRuns q acts w => (q, acts, w)
  end.

(** The loop works on the jobs it takes, in the order it takes them. *)
Lemma worker_loop_work every moments q acts w :
  exists l, let '(acts', w') := work_all every l acts w in
    match worker_loop env syncer plan mrChangedFiles repo_changed_files every moments q acts w with
    | WorkerExited err q2 a w2 => a = acts' /\ w2 = log_line ("worker exiting: " +:+ err) w'
    | WorkerWaits q2 a w2 | WorkerRuns q2 a w2 => a = acts' /\ w2 = w'
    end.
Proof.
  revert q acts w. induction moments as [|ctx rest IH]; intros q acts w; cbn [worker_loop]; [by exists []|].
  destruct (Dequeue ctx q) as [[[job|e] q1]|]; [|by exists []..].
  destruct (work ctx every job w) as [new w1] eqn:Ew. destruct (IH q1 (acts ++ new) w1) as [l Hl].
  exists ((ctx, job) :: l). cbn [work_all]. by rewrite Ew.
Qed.
End WorkerFacts.

Lemma atoi_range s z : atoi s = Some z -> int64_min <= z <= int64_max.
Proof.
  unfold atoi. intros H. repeat (case_match; try done); simplify_eq;
    match goal with H : _ && _ = true |- _ => apply andb_true_iff in H as [?%Z.leb_le ?%Z.leb_le]; done end.
Qed.

Section Loop.
Context {S Q : Type} {iQ : JobQueue Q}.
Context (env : environment) (syncer : option (repoSyncer S)).
Context (plan : Ctx -> MergeRequestEvent -> S -> result unit * S).
Context (mrChangedFiles : option (Z -> S -> result (list string) * S)).
Context (repo_changed_files : string -> string -> string -> S -> result (list string)).

Definition configured_every : Z :=
  (worker_getEnvInt env "THULE_REPO_MAINTENANCE_EVERY" defaultRepoMaintenanceEvery).1.

Lemma configured_every_range : configured_every <= int64_max.
Proof.
  unfold configured_every, worker_getEnvInt, defaultRepoMaintenanceEvery. case_match; [done|].
  case_match eqn:E; [|done]. cbn. by apply atoi_range in E as [_ ?].
Qed.

(** C34: the clone is maintained after every so many successful syncs, as configured, and
    only then: at any time the number of syncs is that many times the number of
    maintenances plus the counter, which is smaller. *)
Theorem maintenance_rhythm y moments (q : Q) log s :
  syncer = Some y -> syncer_enabled y = true -> 0 < configured_every ->
  let '(_, acts, w) :=
    outcome_parts (runWorker env syncer plan mrChangedFiles repo_changed_files moments q log s) in
  0 <= jobsSinceMaintenance w < configured_every /\
  how_many is_synced acts = configured_every * how_many is_maintained acts + jobsSinceMaintenance w.
Proof.
  intros Hy Hen Hpos. pose proof configured_every_range as Hr. unfold configured_every, runWorker in *.
  destruct (worker_getEnvInt _ _ _) as [every logged]. cbn [fst] in *.
  destruct (worker_loop_work env syncer plan mrChangedFiles repo_changed_files every moments q []
    (mkWorker 0 (log ++ logged) s)) as [l Hl].
  assert (counted every [] (mkWorker 0 (log ++ logged) s)) as H0.
  { unfold counted. cbn. change (how_many _ []) with 0. lia. }
  apply (work_all_counted env syncer plan mrChangedFiles repo_changed_files every l) in H0;
    [|lia|intros y'; congruence|by eexists].
  destruct (work_all _ _ _ _ _ _ _ _ _) as [acts' w']. unfold counted in H0.
  destruct (worker_loop _ _ _ _ _ _ _ _ _ _); destruct Hl as [-> ->]; exact H0.
Qed.
End Loop.

(** ** Instances *)

(** A world that records what was planned; every sync of the commit "bad" fails. *)
Definition tiny_syncer : repoSyncer (list MergeRequestEvent) :=
  mkRepoSyncer true (fun _ sha s => (if str_eqb sha "bad" then Err "no such commit" else Ok tt, s))
    (fun _ s => (Ok tt, s)).
Definition tiny_plan (ctx : Ctx) (evt : MergeRequestEvent) (s : list MergeRequestEvent)
    : result unit * list MergeRequestEvent := (Ok tt, s ++ [evt]).
Definition tiny_diff (dir base sha : string) (s : list MergeRequestEvent) : result (list string) := Ok ["b.yaml"].
Definition every_two : environment := fun k => if str_eqb k "THULE_REPO_MAINTENANCE_EVERY" then " 2 " else "".

Definition job_named (id sha : string) : Job := mkJob id "merge_request.updated" "group/app" 7 sha "main" [].

(** A merge request that says which files it has: its answer wins over the clone's. *)
Definition tiny_lister (mr : Z) (s : list MergeRequestEvent) : result (list string) * list MergeRequestEvent :=
  (Ok ["c.yaml"], s).

Lemma work_job_plans_witness :
  exists s s', files_source no_env (Some tiny_lister) tiny_diff (job_named "d1" "abc") s ["c.yaml"] s'.
Proof.
  destruct (work_job_plans no_env (Some tiny_syncer) tiny_plan (Some tiny_lister) tiny_diff (at_time 1) 200
    (job_named "d1" "abc") (mkWorker 0 [] [])
    [Synced "abc" true; Planned (job_event (job_named "d1" "abc") ["c.yaml"]) true]
    (mkWorker 1 ["plan completed delivery=d1 mr=7 sha=abc"] [job_event (job_named "d1" "abc") ["c.yaml"]]))
    as [[H _]|(before & s & files & s' & evt & res & _ & Hf & Hj & _ & Ha)].
  - vm_compute. reflexivity.
  - discriminate H.
  - exists s, s'. destruct before as [|a1 [|a2 before]]; [discriminate Ha| |destruct before; discriminate Ha].
    injection Ha as _ <- _. injection Hj as <-. exact Hf.
Defined.

(** Four jobs, one of which cannot be synced: three syncs, one maintenance. *)
Definition four_jobs : MemoryQueue :=
  mkMemoryQueue 9 [job_named "d1" "a"; job_named "d2" "bad"; job_named "d3" "b"; job_named "d4" "c"].

Lemma maintenance_rhythm_witness :
  let '(_, acts, w) := outcome_parts (runWorker every_two (Some tiny_syncer) tiny_plan None tiny_diff
      (replicate 5 (at_time 1)) four_jobs [] []) in
  how_many is_synced acts = 3 /\ how_many is_maintained acts = 1 /\ jobsSinceMaintenance w = 1 /\
  how_many is_synced acts = 2 * how_many is_maintained acts + jobsSinceMaintenance w.
Proof.
  pose proof (maintenance_rhythm every_two (Some tiny_syncer) tiny_plan None tiny_diff tiny_syncer
    (replicate 5 (at_time 1)) four_jobs [] [] eq_refl eq_refl ltac:(vm_compute; reflexivity)) as H.
  vm_compute in H |- *. split; [reflexivity|]. split; [reflexivity|]. split; [reflexivity|exact (proj2 H)].
Defined.
