(* ===== verification/EndToEnd.v ===== *)
(** * From the webhook to the plan

    thule-api serves the webhook and thule-worker plans; they are processes of their own
    that share the queue. [deployment_run] is every way requests, the handlers they
    start, and the iterations of workers follow one another. What is planned is what
    authentic requests asked for: proved against [QueueOrigin], the promise that also a
    queue in Redis keeps whose commands are lost or repeated, and stated for that queue. *)

From stdpp Require Import options relations.
From S2P Require Import Prelude GoStrings Json Context Project Lock Storage Queue RedisQueue Service ServiceFacts.
From S2P Require Import Handlers HandlersFacts Webhook WebhookFacts Worker WorkerFacts.

Section Deployment.
Context {D L K Q S : Type}.
Context {iD : DeliveryStore D} {iL : Locker L} {iK : DedupeStore K} {iQ : JobQueue Q} {iM : MapOrder}.
Context (hmac_sha256 : string -> string -> string).
Context (json_error : string -> string) (int_of_big : string -> Z).
Context (env : environment) (syncer : option (repoSyncer S)).
Context (plan : Ctx -> MergeRequestEvent -> S -> result unit * S).
Context (mrChangedFiles : option (Z -> S -> result (list string) * S)).
Context (repo_changed_files : string -> string -> string -> S -> result (list string)).

(** What the processes have in common, the handlers and where each of them is, and what
    was planned so far. *)
Record deployment := mkDeployment {
  dp_queue : Q;
  dp_handlers : list (MergeRequestEvent * pc);
  dp_planned : list MergeRequestEvent
}.

(** A request that reaches the service starts a handler. A handler makes its next call,
    with deliveries, locks and deduplication in any state: there may be several servers,
    and each may be restarted. A worker goes round its loop once, in any state of its
    own, whatever the queue answers. *)
Inductive deployment_run (sec : string) (q0 : Q) : list Request -> deployment -> Prop :=
| dr_nil : deployment_run sec q0 [] (mkDeployment q0 [] [])
| dr_arrives reqs d r s event :
    deployment_run sec q0 reqs d ->
    reaches hmac_sha256 json_error int_of_big r (mkHandler (D := D) (L := L) (K := K) (Q := Q) sec s) event ->
    deployment_run sec q0 (reqs ++ [r])
      (mkDeployment (dp_queue d) (dp_handlers d ++ [(event, AtReserve)]) (dp_planned d))
| dr_refused reqs d r :
    deployment_run sec q0 reqs d ->
    (forall s event, ~ reaches hmac_sha256 json_error int_of_big r
                         (mkHandler (D := D) (L := L) (K := K) (Q := Q) sec s) event) ->
    deployment_run sec q0 (reqs ++ [r]) d
| dr_handles reqs d ctx i event at_ next (s s' : Service D L K Q) :
    deployment_run sec q0 reqs d ->
    dp_handlers d !! i = Some (event, at_) -> jobs s = dp_queue d -> advance ctx event at_ s = Some (next, s') ->
    deployment_run sec q0 reqs
      (mkDeployment (jobs s') (<[i := (event, next)]> (dp_handlers d)) (dp_planned d))
| dr_works reqs d ctx every w q acts w' :
    deployment_run sec q0 reqs d ->
    outcome_parts (worker_loop env syncer plan mrChangedFiles repo_changed_files every [ctx] (dp_queue d) [] w) =
      (q, acts, w') ->
    deployment_run sec q0 reqs
      (mkDeployment q (dp_handlers d) (dp_planned d ++ planned_events acts)).

(** A handler changes the queue by passing it the job of its event. *)
Lemma advance_jobs ctx event at_ (s s' : Service D L K Q) next :
  advance ctx event at_ s = Some (next, s') ->
  jobs s' = jobs s \/ exists r, Enqueue ctx (job_of event) (jobs s) = Returns (r, jobs s').
Proof.
  destruct at_ as [| | |[|p rest]| |err|err| |r]; cbn [advance]; unfold release_dedupe.
  6:{ destruct (Enqueue ctx (job_of event) (jobs s)) as [[[[]|e] q]|]; intros [= <- <-]; right; by eexists. }
  all: intros H; left; repeat case_match; by simplify_eq.
Qed.

(** ** What was planned *)

Section Origin.
Context {oQ : QueueOrigin Q}.

Abbreviation authentic_in := (from_authentic hmac_sha256 json_error int_of_big).

(** The job is that of an event an authentic request carried, as the queue carries it. *)
Definition job_origin (sec : string) (reqs : list Request) (job : Job) : Prop :=
  exists event, authentic_in sec reqs event /\ job = carried (job_of event).

(** The event is that of such a job, with files found for it. *)
Definition plan_origin (sec : string) (reqs : list Request) (evt : MergeRequestEvent) : Prop :=
  exists job files s s', job_origin sec reqs job /\
    files_source env mrChangedFiles repo_changed_files job s files s' /\
    evt = mkEvent (JobDeliveryID job) (JobEventType job) (JobRepository job) (JobMergeReqID job)
      (JobHeadSHA job) (JobBaseRef job) files.

Record authentic_deployment (sec : string) (reqs : list Request) (d : deployment) : Prop := {
  ad_handlers : forall i event at_, dp_handlers d !! i = Some (event, at_) -> authentic_in sec reqs event;
  ad_queue : forall job, offers (dp_queue d) job -> job_origin sec reqs job;
  ad_planned : forall evt, evt ∈ dp_planned d -> plan_origin sec reqs evt
}.

Lemma authentic_app sec reqs r d : authentic_deployment sec reqs d -> authentic_deployment sec (reqs ++ [r]) d.
Proof.
  intros [Hh Hq Hp]. split.
  - eauto using from_authentic_app.
  - intros job (event & He & ->)%Hq. exists event. eauto using from_authentic_app.
  - intros evt (job & files & s & s' & (event & He & ->) & H)%Hp. exists (carried (job_of event)), files, s, s'.
    split; [|done]. exists event. eauto using from_authentic_app.
Qed.

Lemma authentic_handles sec reqs d ctx i event at_ next (s s' : Service D L K Q) :
  authentic_deployment sec reqs d ->
  dp_handlers d !! i = Some (event, at_) -> jobs s = dp_queue d -> advance ctx event at_ s = Some (next, s') ->
  authentic_deployment sec reqs
    (mkDeployment (jobs s') (<[i := (event, next)]> (dp_handlers d)) (dp_planned d)).
Proof.
  intros [Hh Hq Hp] Hi Hs Ha. split; cbn; [| |done].
  - intros k e p [(<- & [= <- <-] & _)|[_ Hk]]%list_lookup_insert_Some; eauto.
  - intros job Hj. apply advance_jobs in Ha as [Ha|[r Ha]]; [rewrite Ha, Hs in Hj; by apply Hq|].
    destruct (enqueue_offers _ _ _ _ _ _ Ha Hj) as [Hold| ->]; [rewrite Hs in Hold; by apply Hq|].
    exists event. eauto.
Qed.

Lemma authentic_works sec reqs d ctx every w q acts w' :
  authentic_deployment sec reqs d ->
  outcome_parts (worker_loop env syncer plan mrChangedFiles repo_changed_files every [ctx] (dp_queue d) [] w) =
    (q, acts, w') ->
  authentic_deployment sec reqs (mkDeployment q (dp_handlers d) (dp_planned d ++ planned_events acts)).
Proof.
  intros [Hh Hq Hp]. cbn [worker_loop].
  destruct (Dequeue ctx (dp_queue d)) as [[[job|e] q1]|] eqn:Ed.
  - pose proof (work_planned env syncer plan mrChangedFiles repo_changed_files ctx every job w) as Hw.
    destruct (work_job _ _ _ _ _ _ _ _ _) as [new w1]. intros [= <- <- <-].
    split; cbn; [done|intros j Hj; by eapply Hq, dequeue_offers|].
    intros evt [Hin|Hin]%elem_of_app; [by apply Hp|].
    destruct Hw as [(files & s & s' & Hw & Hf)|Hw]; rewrite Hw in Hin; [|by apply elem_of_nil in Hin].
    apply list_elem_of_singleton in Hin as ->. exists job, files, s, s'.
    split; [by eapply Hq, dequeue_offered|done].
  - intros [= <- <- <-]. split; cbn; [done|intros j Hj; by eapply Hq, dequeue_offers|]. by rewrite app_nil_r.
  - intros [= <- <- <-]. split; cbn; [done..|]. by rewrite app_nil_r.
Qed.

(** Every deployment that starts with nothing in its queue stays authentic. *)
Lemma deployment_authentic sec q0 reqs d :
  (forall job, ~ offers q0 job) -> deployment_run sec q0 reqs d -> authentic_deployment sec reqs d.
Proof.
  intros H0.
  induction 1 as [|reqs d r s event _ IH Hr|reqs d r _ IH _|reqs d ctx i event at_ next s s' _ IH Hi Hs Ha
                 |reqs d ctx every w q acts w' _ IH Hw].
  - split; cbn; [done|by intros job ?%H0|by intros evt ?%elem_of_nil].
  - apply reaches_carries in Hr as [Hau Hca]. destruct (authentic_app sec reqs r d IH) as [Hh Hq Hp].
    split; cbn; [|done..]. intros k e p [Hk|[_ Hk]]%lookup_app_Some; [by eauto|].
    apply list_lookup_singleton_Some in Hk as [_ [= <- <-]]. exists r. split; [|done]. apply elem_of_app. right. left.
  - by apply authentic_app.
  - by eapply authentic_handles.
  - by eapply authentic_works.
Qed.
End Origin.
End Deployment.

(** ** With the queue in Redis *)

Section RedisDeployment.
Context {D L K R S : Type}.
Context {iD : DeliveryStore D} {iL : Locker L} {iK : DedupeStore K} {iM : MapOrder}.
Context {iR : RedisLists R} {sR : RedisListsSpec R}.
Context (marshal_error : Job -> string) (unmarshal_error : string -> string) (nil_slice : Ctx -> Job -> bool).
Context (hmac_sha256 : string -> string -> string).
Context (json_error : string -> string) (int_of_big : string -> Z).
Context (env : environment) (syncer : option (repoSyncer S)).
Context (plan : Ctx -> MergeRequestEvent -> S -> result unit * S).
Context (mrChangedFiles : option (Z -> S -> result (list string) * S)).
Context (repo_changed_files : string -> string -> string -> S -> result (list string)).

Definition redis_deployment_run :=
  deployment_run (D := D) (L := L) (K := K) (iQ := RedisQueue_Queue marshal_error unmarshal_error nil_slice)
    hmac_sha256 json_error int_of_big env syncer plan mrChangedFiles repo_changed_files.

(** The job of an event, as JSON carries it. *)
Definition job_for (event : MergeRequestEvent) : Job :=
  mkJob (utf8_coerce (DeliveryID event)) (utf8_coerce (EventType event)) (utf8_coerce (Repository event))
    (MergeReqID event) (utf8_coerce (HeadSHA event)) (utf8_coerce (BaseRef event))
    (utf8_coerce <$> ChangedFiles event).

(** C4: from the webhook to the plan, through Redis. However requests, their handlers and
    the workers interleave, servers restart, and commands to Redis fail or are repeated:
    every event that is planned is the event of a request that proved knowledge of the
    secret, equal to it in delivery, type, repository, merge request, commit and base up
    to bytes that are not UTF-8; the files are its own or, if it named none, those of the
    merge request, or else of the clone. *)
Theorem planned_authentic sec q0 reqs d :
  rq_items q0 = [] -> redis_deployment_run sec q0 reqs d ->
  forall evt, evt ∈ dp_planned d ->
    exists r event files s s', r ∈ reqs /\ authentic hmac_sha256 sec r /\
      carries json_error int_of_big r event /\
      evt = mkEvent (utf8_coerce (DeliveryID event)) (utf8_coerce (EventType event))
        (utf8_coerce (Repository event)) (MergeReqID event) (utf8_coerce (HeadSHA event))
        (utf8_coerce (BaseRef event)) files /\
      files_source env mrChangedFiles repo_changed_files (job_for event) s files s'.
Proof.
  intros H0 Hrun evt Hevt.
  destruct (deployment_authentic (oQ := RedisQueue_Origin marshal_error unmarshal_error nil_slice)
    hmac_sha256 json_error int_of_big env syncer plan mrChangedFiles repo_changed_files sec q0 reqs d) as [_ _ Hp].
  - intros job (text & Ht & _). rewrite H0 in Ht. by apply elem_of_nil in Ht.
  - exact Hrun.
  - destruct (Hp evt Hevt) as (job & files & s & s' & (event & (r & Hr & Ha & Hc) & ->) & Hf & ->).
    by exists r, event, files, s, s'.
Qed.
End RedisDeployment.

(** ** Instances *)

Abbreviation redis_jobs := (RedisQueue_Queue (R := ListServer) no_text no_text never_nil).

Abbreviation redis_service_state :=
  (Service MemoryDeliveryStore MemoryLocker MemoryDedupeStore (RedisQueue ListServer)).

(** A service that knows no deliveries, without locks and deduplication. *)
Definition redis_service (q : RedisQueue ListServer) : redis_service_state :=
  mkService q NewMemoryDeliveryStore None None 0.

Abbreviation sample_deployment_run := (redis_deployment_run (D := MemoryDeliveryStore) (L := MemoryLocker)
  (K := MemoryDedupeStore) (iM := natural_order) no_text no_text never_nil toy_hmac no_error min_int no_env
  (Some tiny_syncer) tiny_plan None tiny_diff).

(** The queue with the job of the sample request. *)
Definition queue_with_job : RedisQueue ListServer :=
  redis_after (redis_enqueue no_text never_nil (at_time 1) (job_of sample_queued) redis_sample).
Definition queue_taken : RedisQueue ListServer :=
  match redis_dequeue no_text (at_time 2) queue_with_job with Returns (_, q) => q | Blocked => queue_with_job end.

(** The request arrives, its handler calls as far as the queue, a worker takes the job. *)
Lemma sample_deployment :
  sample_deployment_run "s3cret" redis_sample [sample_request]
    (mkDeployment queue_taken [(sample_queued, AtCommit)] [sample_queued]).
Proof.
  apply (dr_works _ _ _ _ _ _ _ _ "s3cret" redis_sample [sample_request]
    (mkDeployment queue_with_job [(sample_queued, AtCommit)] []) (at_time 2) 200 (mkWorker 0 [] []) queue_taken
    [Synced "abc" true; Planned sample_queued true]
    (mkWorker 1 ["plan completed delivery=e1 mr=7 sha=abc"] [sample_queued])); [|vm_compute; reflexivity].
  assert (forall d at_ next q',
    sample_deployment_run "s3cret" redis_sample [sample_request] (mkDeployment d [(sample_queued, at_)] []) ->
    (exists s', advance (iQ := redis_jobs) (iM := natural_order) (at_time 1) sample_queued at_ (redis_service d) =
       Some (next, s') /\ jobs s' = q') ->
    sample_deployment_run "s3cret" redis_sample [sample_request] (mkDeployment q' [(sample_queued, next)] []))
    as Hstep.
  { intros d at_ next q' Hrun (s' & Ha & <-).
    exact (dr_handles _ _ _ _ _ _ _ _ _ _ _ (mkDeployment d [(sample_queued, at_)] []) (at_time 1) 0 sample_queued
      at_ next (redis_service d) s' Hrun eq_refl eq_refl Ha). }
  apply (Hstep redis_sample AtEnqueue); [|eexists; split; vm_compute; reflexivity].
  apply (Hstep redis_sample AtLocks); [|eexists; split; vm_compute; reflexivity].
  apply (Hstep redis_sample AtDedupe); [|eexists; split; vm_compute; reflexivity].
  apply (Hstep redis_sample AtReserve); [|eexists; split; vm_compute; reflexivity].
  apply (dr_arrives _ _ _ _ _ _ _ _ "s3cret" redis_sample [] (mkDeployment redis_sample [] []) sample_request
    (redis_service redis_sample)); [constructor|].
  split; [reflexivity|]. exists opened_body, sample_queued.
  split; [reflexivity|]. split; [reflexivity|]. split; [vm_compute; reflexivity|reflexivity].
Qed.

Lemma planned_authentic_witness :
  exists r, r ∈ [sample_request] /\ authentic toy_hmac "s3cret" r.
Proof.
  destruct (planned_authentic (iM := natural_order) (sR := ListServer_Spec) no_text no_text never_nil toy_hmac
    no_error min_int no_env (Some tiny_syncer) tiny_plan None tiny_diff "s3cret" redis_sample [sample_request] _
    ltac:(vm_compute; reflexivity) sample_deployment sample_queued) as (r & event & files & s & s' & Hr & Ha & _).
  - left.
  - exists r. split; [exact Hr|exact Ha].
Defined.

(** ** A push that fails for the client only *)

Definition redis_handle (s : redis_service_state) :=
  HandleMergeRequestEvent (iQ := redis_jobs) (iM := natural_order) (at_time 1) sample_queued s.

Definition first_try := redis_handle (redis_service redis_flaky).
Definition second_try := redis_handle (after first_try).

(** Redis takes the job in and the answer is lost: the service reports an error and
    forgets the delivery, the sender sends it again, and it is queued a second time. *)
Example resent_delivery_queued_twice :
  match first_try, second_try with Finished (Err _) _, Finished (Ok _) _ => True | _, _ => False end /\
  omap unmarshal_job (rq_items (jobs (after second_try))) = [job_of sample_queued; job_of sample_queued].
Proof. split; vm_compute; [exact I|reflexivity]. Qed.
