(* ===== verification/ClusterLive.v ===== *)
(** * The live cluster reader: internal/orchestrator/cluster_live.go

    For every desired resource the reader asks the cluster for the live object of that
    name. client-go, the GKE API and the operating system are arguments. *)

From Stdlib Require Import Ascii.
From stdpp Require Import options.
From S2P Require Import Prelude GoStrings GoPath Value JsonNumber Config Render Context.

(** ** base64 *)

(** [base64.StdEncoding.DecodeString]; [None] is its error. *)
Module Base64.
Definition value_of (a : ascii) : option N :=
  if in_range 65 90 a then Some (bval a - 65)%N
  else if in_range 97 122 a then Some (bval a - 71)%N
  else if is_digit a then Some (bval a + 4)%N
  else if byte_is 43 a then Some 62%N
  else if byte_is 47 a then Some 63%N
  else None.
Definition is_newline (a : ascii) : bool := byte_is 10 a || byte_is 13 a.

(** Newlines are skipped wherever they are. *)
Fixpoint drop_newlines (s : string) : string :=
  match s with
  | EmptyString => ""
  | String a r => if is_newline a then drop_newlines r else String a (drop_newlines r)
  end.

Definition bytes3 (a b c d : N) : string :=
  let n := (((a * 64 + b) * 64 + c) * 64 + d)%N in
  String (byte_of (n / 65536)) (String (byte_of (n / 256 mod 256)) (String (byte_of (n mod 256)) "")).

(** Four characters at a time; the last four may end in padding. *)
Fixpoint quanta (s : string) : option string :=
  match s with
  | EmptyString => Some ""
  | String a (String b (String c (String d r))) =>
      x ← value_of a; y ← value_of b;
      match value_of c, value_of d with
      | Some z, Some w => rest ← quanta r; Some (bytes3 x y z w +:+ rest)
      | Some z, None => if byte_is 61 d && is_empty r then Some (stake 2 (bytes3 x y z 0)) else None
      | None, _ =>
          if byte_is 61 c && byte_is 61 d && is_empty r then Some (stake 1 (bytes3 x y 0 0)) else None
      end
  | _ => None
  end.
Definition decode (s : string) : option string := quanta (drop_newlines s).

Example decode_padded :
  decode "dGh1bGU=" = Some "thule" /\ decode "cGxhbg==" = Some "plan" /\ decode "Y2x1c3Rlcg" = None /\
  decode "a=bc" = None.
Proof. split_and!; vm_compute; reflexivity. Qed.
End Base64.

(** ** client-go and the cloud *)

Definition liveRequestTimeout : Z := 15 * 1000000000.

(** The parts of a [rest.Config] that are set or read here: how it was obtained is
    [rest_kind]. *)
Inductive rest_kind := FromFile (path : string) | InCluster | FromGKE (Host CAData : string).
Record rest_config := mkRest { rest_from : rest_kind; rest_timeout : Z }.

(** A GKE cluster; its certificates may be missing. *)
Record gke_cluster := mkGKE { ClusterName : string; Endpoint : string; MasterAuth : option string }.

(** A live object: what its accessors return, and its content. *)
Record live_object := mkLive {
  GetAPIVersion : string;
  GetKind : string;
  GetNamespace : string;
  GetName : string;
  Object : gmap string value
}.

(** The outcome of [Get]. *)
Inductive got := GotObject (o : live_object) | GotNotFound | GotForbidden | GotError (err : string).

Inductive stat_outcome := StatExists | StatMissing | StatErr (err : string).

(** [C] is a client: its dynamic client and its mapper; [V] is a resource of the API. *)
Class Kube (C V : Type) := {
  ParseGroupVersion : string -> option (string * string);
  (** the resource and the name of its scope *)
  RESTMapping : C -> string -> string -> string -> option (V * string);
  KubeGet : C -> V -> option string -> string -> got;
  NewForConfig : rest_config -> result unit;
  NewDiscoveryClientForConfig : rest_config -> result C;
  InClusterConfig : result rest_config;
  BuildConfigFromFlags : string -> result rest_config;
  OsStat : string -> stat_outcome;
  ListClusters : string -> result (list gke_cluster);
  base64_error : string -> string;
  FindDefaultCredentials : result unit;
  NewContainerService : result unit
}.

(** A nil pointer may be dereferenced. *)
Inductive attempt (A : Type) := Attempted (r : result A) | Panics.
Arguments Attempted {A} r.
Arguments Panics {A}.

(** ** The reader *)

Record LiveClusterReader (C : Type) := mkReader {
  clients : gmap string C;
  localClusterRefs : gset string;
  kubeconfigDir : string
}.
Arguments mkReader {C} _ _ _.
Arguments clients {C} _.
Arguments localClusterRefs {C} _.
Arguments kubeconfigDir {C} _.

Definition live_getEnv (env : environment) (key fallback : string) : string :=
  let v := trim_space (env key) in if str_eqb v "" then fallback else v.

Definition parseCSVSet (raw : string) : gset string :=
  foldl (fun out part => let val := trim_space part in if str_eqb val "" then out else {[val]} ∪ out)
    ∅ (split_char ","%char raw).

Section Reader.
Context {C V : Type} {iK : Kube C V}.

Definition NewLiveClusterReader (env : environment) : result (LiveClusterReader C) :=
  match FindDefaultCredentials with
  | Err err => Err ("gcp credentials: " +:+ err)
  | Ok _ =>
      match NewContainerService with
      | Err err => Err ("container api client: " +:+ err)
      | Ok _ =>
          Ok (mkReader ∅ (parseCSVSet (live_getEnv env "THULE_LOCAL_CLUSTER_REFS" "b14,cadmus"))
                (trim_space (env "THULE_KUBECONFIG_DIR")))
      end
  end.

Definition newLiveClient (cfg : rest_config) (ref : string) : result C :=
  let cfgCopy := if rest_timeout cfg =? 0 then mkRest (rest_from cfg) liveRequestTimeout else cfg in
  match NewForConfig cfgCopy with
  | Err err => Err ("dynamic client for " +:+ ref +:+ ": " +:+ err)
  | Ok _ =>
      match NewDiscoveryClientForConfig cfgCopy with
      | Err err => Err ("discovery client for " +:+ ref +:+ ": " +:+ err)
      | Ok c => Ok c
      end
  end.

Definition clientFromInCluster : result C :=
  match InClusterConfig with
  | Err err => Err ("in-cluster config: " +:+ err)
  | Ok cfg => newLiveClient cfg "in-cluster"
  end.

(** [None] when there is no file for the cluster. *)
Definition clientFromKubeconfig (l : LiveClusterReader C) (clusterRef : string) : result (option C) :=
  if str_eqb (kubeconfigDir l) "" then Ok None
  else
    let path := join2 (kubeconfigDir l) (clusterRef +:+ ".conf") in
    match OsStat path with
    | StatMissing => Ok None
    | StatErr err => Err ("stat kubeconfig " +:+ path +:+ ": " +:+ err)
    | StatExists =>
        match BuildConfigFromFlags path with
        | Err err => Err ("load kubeconfig " +:+ path +:+ ": " +:+ err)
        | Ok cfg => let? client := newLiveClient cfg path in Ok (Some client)
        end
    end.

Definition resolveCluster (projectID clusterRef : string) : result gke_cluster :=
  match ListClusters ("projects/" +:+ projectID +:+ "/locations/-") with
  | Err err => Err ("list clusters in project " +:+ projectID +:+ ": " +:+ err)
  | Ok cs =>
      match find (fun c => str_eqb (ClusterName c) clusterRef) cs with
      | Some c => Ok c
      | None => Err ("cluster " +:+ fmt_q clusterRef +:+ " not found in project " +:+ fmt_q projectID)
      end
  end.

Definition clientFromGKE (projectID clusterRef : string) : attempt C :=
  match resolveCluster projectID clusterRef with
  | Err err => Attempted (Err err)
  | Ok cluster =>
      match MasterAuth cluster with
      | None => Panics
      | Some ca =>
          match Base64.decode ca with
          | None =>
              Attempted (Err ("decode cluster CA for " +:+ projectID +:+ "/" +:+ clusterRef +:+ ": " +:+ base64_error ca))
          | Some caData =>
              Attempted (newLiveClient (mkRest (FromGKE ("https://" +:+ Endpoint cluster) caData) 0)
                           (projectID +:+ "/" +:+ clusterRef))
          end
      end
  end.

Definition client_key (projectID clusterRef : string) : string := projectID +:+ "/" +:+ clusterRef.

Definition with_client (key : string) (c : C) (l : LiveClusterReader C) : LiveClusterReader C :=
  mkReader (<[key := c]> (clients l)) (localClusterRefs l) (kubeconfigDir l).

Definition getClient (projectID clusterRef : string) (l : LiveClusterReader C)
    : attempt C * LiveClusterReader C :=
  let key := client_key projectID clusterRef in
  match clients l !! key with
  | Some c => (Attempted (Ok c), l)
  | None =>
      match clientFromKubeconfig l clusterRef with
      | Err err => (Attempted (Err err), l)
      | Ok (Some c) => (Attempted (Ok c), with_client key c l)
      | Ok None =>
          if decide (clusterRef ∈ localClusterRefs l) then
            match clientFromInCluster with
            | Err err => (Attempted (Err err), l)
            | Ok c => (Attempted (Ok c), with_client key c l)
            end
          else
            match clientFromGKE projectID clusterRef with
            | Attempted (Ok c) => (Attempted (Ok c), with_client key c l)
            | other => (other, l)
            end
      end
  end.

(** ** Reading the desired resources *)

(** What became of one desired resource. *)
Inductive reading := Unread | NotFound | Forbidden | Found (o : live_object) | ReadError (err : string).

(** The namespace of a resource that names none is the configured one. *)
Definition live_namespace (namespace : string) (d : Resource) : string :=
  if str_eqb (Namespace d) "" && negb (str_eqb namespace "") && negb (str_eqb namespace "all")
  then namespace else Namespace d.

(** [None]: the resource is skipped; [Some None]: it has no namespace. *)
Definition live_target (scope namespace : string) (d : Resource) : option (option string) :=
  let ns := live_namespace namespace d in
  if negb (str_eqb scope "root") then
    if str_eqb ns "" || str_eqb ns "all" then None else Some (Some ns)
  else Some None.

Definition read_live (client : C) (namespace : string) (d : Resource) : reading :=
  match ParseGroupVersion (APIVersion d) with
  | None => Unread
  | Some (group, version) =>
      match RESTMapping client group (Kind d) version with
      | None => Unread
      | Some (target, scope) =>
          match live_target scope namespace d with
          | None => Unread
          | Some ns =>
              match KubeGet client target ns (Name d) with
              | GotNotFound => NotFound
              | GotForbidden => Forbidden
              | GotError err => ReadError ("get live resource " +:+ ID d +:+ ": " +:+ err)
              | GotObject o => Found o
              end
          end
      end
  end.

(** A resource that may not be read stands for itself. *)
Definition unchanged (d : Resource) : Resource :=
  mkResource (APIVersion d) (Kind d) (Namespace d) (Name d) (Body d) "".
Definition live_resource (o : live_object) : Resource :=
  mkResource (GetAPIVersion o) (GetKind o) (GetNamespace o) (GetName o) (Object o) "".

(** The loop over the desired resources. *)
Fixpoint read_all (client : C) (namespace : string) (desired out : list Resource) : result (list Resource) :=
  match desired with
  | [] => Ok out
  | d :: rest =>
      match read_live client namespace d with
      | Unread | NotFound => read_all client namespace rest out
      | Forbidden => read_all client namespace rest (out ++ [unchanged d])
      | ReadError err => Err err
      | Found o => read_all client namespace rest (out ++ [live_resource o])
      end
  end.

Definition ListResourcesWithProject (projectID clusterRef namespace : string) (desired : list Resource)
    (l : LiveClusterReader C) : attempt (list Resource) * LiveClusterReader C :=
  let '(got_client, l) := getClient projectID clusterRef l in
  (match got_client with
   | Panics => Panics
   | Attempted (Err err) => Attempted (Err err)
   | Attempted (Ok client) => Attempted (read_all client namespace desired [])
   end, l).

Definition live_ListResources (clusterRef namespace : string) : result (list Resource) := Ok [].
End Reader.
