(* ===== verification/ClusterLiveFacts.v ===== *)
(** * The live cluster reader: theorems

    What the plan says of a resource, given what the cluster answered about it; and the
    cache of clients. *)

From stdpp Require Import options.
From S2P Require Import Prelude GoStrings Value Config Render Diff DiffSpec Context ClusterLive.

Section Live.
Context {C V : Type} {iK : Kube C V}.
Context (yaml_marshal : value -> yaml_out) (fmt_any : value -> string).
Implicit Types (client : C) (namespace : string) (desired actual : list Resource) (d : Resource).

(** ** What is read *)

(** The resource a reading contributes. *)
Definition contributed d (r : reading) : option Resource :=
  match r with
  | Forbidden => Some (unchanged d)
  | Found o => Some (live_resource o)
  | _ => None
  end.

Lemma read_all_spec client namespace desired out actual :
  read_all client namespace desired out = Ok actual ->
  actual = out ++ omap (fun d => contributed d (read_live client namespace d)) desired.
Proof.
  revert out. induction desired as [|d desired IH]; intros out; cbn; [intros [= <-]; by rewrite app_nil_r|].
  destruct (read_live client namespace d) as [| | |o|e]; cbn; try done; intros H%IH; subst actual;
    by rewrite <- ?(assoc_L (++)).
Qed.

Lemma unchanged_ID d : ID (unchanged d) = ID d.
Proof. done. Qed.

Lemma unchanged_agrees opts d : agrees opts d (unchanged d).
Proof.
  replace (agrees opts d (unchanged d)) with (agrees opts d d); [apply agrees_refl|]. by destruct d.
Qed.

(** The live resources with the identity of [d]: its own, if the others have their own
    identities. *)
Definition apart client namespace desired d : Prop :=
  forall d2 o, d2 ∈ desired -> d2 <> d -> read_live client namespace d2 = Found o -> ID (live_resource o) <> ID d.

Lemma live_with_id client namespace desired d :
  NoDup (ID <$> desired) -> d ∈ desired -> apart client namespace desired d ->
  filter (fun r => ID r = ID d) (omap (fun d => contributed d (read_live client namespace d)) desired) =
  filter (fun r => ID r = ID d) (option_list (contributed d (read_live client namespace d))).
Proof.
  intros Hnd [l1 [l2 ->]]%list_elem_of_split Hap. rewrite fmap_app, fmap_cons in Hnd.
  apply NoDup_app in Hnd as (_ & H1 & [H2 _]%NoDup_cons).
  assert (forall l, (forall x, x ∈ l -> x ∈ l1 ++ d :: l2 /\ ID x <> ID d) ->
    filter (fun r => ID r = ID d) (omap (fun d => contributed d (read_live client namespace d)) l) = []) as Hnil.
  { intros l Hl. destruct (filter _ _) as [|r rs] eqn:E; [done|].
    assert (r ∈ filter (fun r => ID r = ID d) (omap (fun d => contributed d (read_live client namespace d)) l))
      as [Hid (x & Hx & Hc)%list_elem_of_omap]%list_elem_of_filter by (rewrite E; left).
    destruct (Hl x Hx) as [Hin Hne]. exfalso. unfold contributed in Hc.
    destruct (read_live client namespace x) as [| | |o|e] eqn:Er; try done; injection Hc as <-.
    - by rewrite unchanged_ID in Hid.
    - apply (Hap x o Hin); [by intros ->|done|done]. }
  assert (forall x, x ∈ l2 -> x ∈ l1 ++ d :: l2 /\ ID x <> ID d) as Hl2.
  { intros x Hx. split; [set_solver|]. intros He. apply H2. rewrite <- He. by apply list_elem_of_fmap_2. }
  rewrite omap_app, filter_app, (Hnil l1).
  - change (omap ?f (d :: l2)) with (match f d with Some y => y :: omap f l2 | None => omap f l2 end).
    cbv beta. destruct (contributed d (read_live client namespace d)) as [r|]; cbn [option_list app].
    + by rewrite !filter_cons, (Hnil l2 Hl2).
    + by rewrite (Hnil l2 Hl2).
  - intros x Hx. split; [set_solver|]. intros He. apply (H1 (ID x)); [by apply list_elem_of_fmap_2|].
    rewrite He. left.
Qed.

Lemma desired_with_id desired d :
  NoDup (ID <$> desired) -> d ∈ desired -> last_with_id desired (ID d) = Some d.
Proof.
  intros Hnd Hin. destruct (last_with_id desired (ID d)) as [r|] eqn:E.
  - apply last_with_id_ID in E as [Hid Hr]. f_equal.
    apply list_elem_of_lookup in Hin as [i Hi], Hr as [j Hj].
    assert (i = j) as ->; [|congruence].
    apply (NoDup_lookup _ i j (ID d) Hnd); rewrite list_lookup_fmap; [by rewrite Hi|by rewrite Hj, <- Hid].
  - by destruct (proj1 (last_with_id_None _ _) E d Hin).
Qed.

(** C16: the plan of a resource follows from what the cluster answered. A resource that
    was not found, or could not be asked for, is created; one that may not be read is
    left alone; one that was found is compared with the object of its own identity. *)
Theorem live_plan client namespace desired actual opts d :
  read_all client namespace desired [] = Ok actual ->
  NoDup (ID <$> desired) -> d ∈ desired -> apart client namespace desired d ->
  let says act := exists c, c ∈ (Compute yaml_marshal fmt_any desired actual opts).1 /\
    ChangeID c = ID d /\ ChangeAction c = act in
  match read_live client namespace d with
  | Unread | NotFound => says Create
  | Forbidden => says NoOp
  | Found o =>
      if decide (ID (live_resource o) = ID d) then
        (agrees opts d (live_resource o) -> says NoOp) /\ (~ agrees opts d (live_resource o) -> says Patch)
      else says Create
  | ReadError _ => False
  end.
Proof.
  intros Hr Hnd Hin Hap says. assert (forall act, says act <-> action_for desired actual opts (ID d) act) as Hsays.
  { intros act. unfold says. rewrite Compute_planned. apply planned_action. }
  clearbody says. unfold action_for in Hsays. rewrite (desired_with_id desired d Hnd Hin) in Hsays.
  pose proof (read_all_spec _ _ _ _ _ Hr) as Hs. cbn [app] in Hs.
  assert (last_with_id actual (ID d) =
    last (filter (fun r => ID r = ID d) (option_list (contributed d (read_live client namespace d))))) as Ha.
  { unfold last_with_id. by rewrite Hs, live_with_id. }
  destruct (read_live client namespace d) as [| | |o|e] eqn:Ed; cbn [contributed option_list] in Ha.
  - rewrite Ha in Hsays. by apply Hsays.
  - rewrite Ha in Hsays. by apply Hsays.
  - change (option_list ?x) with [unchanged d] in Ha.
    rewrite filter_cons, decide_True in Ha by apply unchanged_ID. rewrite Ha in Hsays. apply Hsays. left.
    split; [done|apply unchanged_agrees].
  - change (option_list ?x) with [live_resource o] in Ha. rewrite filter_cons in Ha. case_decide.
    + rewrite Ha in Hsays. cbn [filter list_filter last] in Hsays. split; intros; apply Hsays; auto.
    + rewrite Ha in Hsays. by apply Hsays.
  - clear Hsays Ha Hs Hap Hnd. revert Hr Hin Ed. generalize (@nil Resource).
    induction desired as [|x desired IH]; intros out Hr Hin Ed; [by apply elem_of_nil in Hin|].
    cbn in Hr. apply elem_of_cons in Hin as [<-|Hin]; [by rewrite Ed in Hr|].
    destruct (read_live client namespace x); by eauto.
Qed.

Lemma default_namespace_ID namespace d o :
  Namespace d = "" -> namespace <> "" -> namespace <> "_cluster" ->
  (GetAPIVersion o, GetKind o, GetNamespace o, GetName o) = (APIVersion d, Kind d, namespace, Name d) ->
  ID (live_resource o) <> ID d.
Proof.
  intros Hns Hset Hres [= Ha Hk Hn Hm]. unfold ID. cbn [APIVersion Kind Namespace Name live_resource].
  rewrite Ha, Hk, Hn, Hm, Hns. change (str_eqb "" "") with true. cbv iota.
  rewrite (proj2 (str_eqb_neq _ _) Hset). intros He.
  do 4 apply (inj (String.app _)) in He. apply Hres.
  apply (f_equal String.rev) in He. rewrite !string_rev_app, !string_app_assoc in He.
  do 2 apply (inj (String.app _)) in He. apply (f_equal String.rev) in He.
  by rewrite !string_rev_involutive in He.
Qed.

(** C39: a resource that leaves its namespace to the configuration is planned as created
    although it exists, and with pruning its live object as deleted: the object carries
    the namespace, the desired resource does not, so they have different identities. *)
Theorem live_default_namespace client namespace desired actual opts d o :
  read_all client namespace desired [] = Ok actual ->
  NoDup (ID <$> desired) -> d ∈ desired -> apart client namespace desired d ->
  Namespace d = "" -> namespace <> "" -> namespace <> "_cluster" -> read_live client namespace d = Found o ->
  (GetAPIVersion o, GetKind o, GetNamespace o, GetName o) = (APIVersion d, Kind d, namespace, Name d) ->
  (exists c, c ∈ (Compute yaml_marshal fmt_any desired actual opts).1 /\
    ChangeID c = ID d /\ ChangeAction c = Create) /\
  (PruneDeletes opts = true -> ID (live_resource o) ∉ (ID <$> desired) ->
   exists c, c ∈ (Compute yaml_marshal fmt_any desired actual opts).1 /\
    ChangeID c = ID (live_resource o) /\ ChangeAction c = Delete).
Proof.
  intros Hr Hnd Hin Hap Hns Hset Hres Hf Ho.
  pose proof (default_namespace_ID namespace d o Hns Hset Hres Ho) as Hne. rewrite Compute_planned. cbn [fst]. rewrite !planned_action. unfold action_for.
  pose proof (read_all_spec _ _ _ _ _ Hr) as Hs. cbn [app] in Hs. split.
  - rewrite (desired_with_id desired d Hnd Hin).
    assert (last_with_id actual (ID d) = None) as ->; [|done].
    unfold last_with_id. rewrite Hs, live_with_id, Hf by done. change (option_list ?x) with [live_resource o].
    by rewrite filter_cons, decide_False.
  - intros Hp Hnot. assert (last_with_id desired (ID (live_resource o)) = None) as ->.
    { apply last_with_id_None. intros r Hr' He. apply Hnot. rewrite <- He. by apply list_elem_of_fmap_2. }
    destruct (last_with_id actual (ID (live_resource o))) as [a|] eqn:E; [done|].
    apply (proj1 (last_with_id_None _ _) E (live_resource o)); [|done]. rewrite Hs.
    apply list_elem_of_omap. exists d. by rewrite Hf.
Qed.

(** ** The clients *)

Lemma getClient_keeps projectID clusterRef (l : LiveClusterReader C) r l' key c :
  getClient projectID clusterRef l = (r, l') -> clients l !! key = Some c -> clients l' !! key = Some c.
Proof.
  unfold getClient. intros Hg Hc. destruct (clients l !! client_key projectID clusterRef) as [c0|] eqn:Ek.
  - by injection Hg as <- <-.
  - assert (l' = l \/ exists c', l' = with_client (client_key projectID clusterRef) c' l) as [->|[c' ->]];
      [repeat case_match; simplify_eq; eauto|done|].
    cbn. rewrite lookup_insert_ne; [done|]. by intros <-; simplify_eq.
Qed.

(** Calls of the reader one after the other. *)
Inductive reader_run : LiveClusterReader C -> LiveClusterReader C -> Prop :=
| reader_nil l : reader_run l l
| reader_call l l' l'' p r ns desired a :
    ListResourcesWithProject p r ns desired l = (a, l') -> reader_run l' l'' -> reader_run l l''.

(** Once a client was made for a cluster it is the one every later call uses, however
    the files, the credentials and the cloud have changed, and a call that fails leaves
    the cache as it is. *)
Theorem live_client_stable p r (l l1 l2 : LiveClusterReader C) a :
  getClient p r l = (a, l1) ->
  match a with
  | Attempted (Ok c) =>
      reader_run l1 l2 -> getClient p r l2 = (Attempted (Ok c), l2)
  | _ => l1 = l
  end.
Proof.
  intros Hg. destruct a as [[c|e]|].
  - assert (clients l1 !! client_key p r = Some c) as Hc.
    { unfold getClient in Hg. repeat case_match; simplify_eq; cbn; (done || apply lookup_insert_eq). }
    intros Hrun. clear Hg. induction Hrun as [l1|l1 l' l'' p' r' ns desired a Hcall _ IH].
    + unfold getClient. by rewrite Hc.
    + apply IH. unfold ListResourcesWithProject in Hcall.
      destruct (getClient p' r' l1) as [gc l3] eqn:E. injection Hcall as _ <-. by eapply getClient_keeps.
  - unfold getClient in Hg. repeat case_match; by simplify_eq.
  - unfold getClient in Hg. repeat case_match; by simplify_eq.
Qed.
End Live.


(** ** Instances *)

(** A cluster with one namespaced Deployment, web in the namespace default, whose Secrets
    may not be read. *)
Definition web_object (ns : string) : live_object := mkLive "apps/v1" "Deployment" ns "web" (Body web_desired).
#[export] Instance tiny_kube : Kube unit string := {|
  ParseGroupVersion := fun v => Some (v, "v1");
  RESTMapping := fun _ _ kind _ => Some (kind, "namespace");
  KubeGet := fun _ kind ns name =>
    if str_eqb kind "Secret" then GotForbidden
    else if str_eqb name "web" then GotObject (web_object (default "" ns)) else GotNotFound;
  NewForConfig := fun _ => Ok tt;
  NewDiscoveryClientForConfig := fun _ => Ok tt;
  InClusterConfig := Ok (mkRest InCluster 0);
  BuildConfigFromFlags := fun path => Ok (mkRest (FromFile path) 0);
  OsStat := fun _ => StatMissing;
  ListClusters := fun _ => Ok [mkGKE "prod" "10.0.0.1" (Some "dGh1bGU=")];
  base64_error := fun _ => "illegal base64 data";
  FindDefaultCredentials := Ok tt;
  NewContainerService := Ok tt
|}.

Definition web_secret : Resource :=
  mkResource "v1" "Secret" "default" "key" {[ "data" := VMap {[ "k" := VString "v" ]} ]} "secret.yaml".
Definition web_floating : Resource := mkResource "apps/v1" "Deployment" "" "web" (Body web_desired) "web.yaml".

(** A resource that may not be read is reported as unchanged. *)
Lemma live_plan_witness :
  exists c, c ∈ (Compute json_yaml plain_fmt [web_secret; web_desired]
      [unchanged web_secret; live_resource (web_object "default")] (mkOptions true [] true)).1 /\
    ChangeID c = ID web_secret /\ ChangeAction c = NoOp.
Proof.
  refine (live_plan json_yaml plain_fmt tt "default" [web_secret; web_desired]
    [unchanged web_secret; live_resource (web_object "default")] (mkOptions true [] true) web_secret _ _ _ _).
  - vm_compute. reflexivity.
  - apply (bool_decide_unpack _). vm_compute. exact I.
  - left.
  - intros d2 o Hin Hne Hf. apply elem_of_cons in Hin as [->|Hin]; [by destruct Hne|].
    apply list_elem_of_singleton in Hin as ->. injection Hf as <-. discriminate.
Defined.

Lemma live_default_namespace_witness :
  exists c, c ∈ (Compute json_yaml plain_fmt [web_floating] [live_resource (web_object "default")]
      (mkOptions true [] true)).1 /\
    ChangeID c = ID (live_resource (web_object "default")) /\ ChangeAction c = Delete.
Proof.
  refine (proj2 (live_default_namespace json_yaml plain_fmt tt "default" [web_floating]
    [live_resource (web_object "default")] (mkOptions true [] true) web_floating (web_object "default")
    _ _ _ _ _ _ _ _ _) _ _).
  - vm_compute. reflexivity.
  - apply (bool_decide_unpack _). vm_compute. exact I.
  - left.
  - intros d2 o Hin Hne. apply list_elem_of_singleton in Hin. by destruct Hne.
  - reflexivity.
  - discriminate.
  - discriminate.
  - reflexivity.
  - reflexivity.
  - reflexivity.
  - apply (bool_decide_unpack _). vm_compute. exact I.
Defined.

Definition no_clients : LiveClusterReader unit := mkReader ∅ (parseCSVSet " b14, ,cadmus") "/etc/kube".

Lemma live_client_stable_witness :
  getClient "proj" "prod" (getClient "proj" "prod" no_clients).2 =
  (Attempted (Ok tt), (getClient "proj" "prod" no_clients).2).
Proof.
  apply (live_client_stable "proj" "prod" no_clients (getClient "proj" "prod" no_clients).2
    (getClient "proj" "prod" no_clients).2 (Attempted (Ok tt))); [vm_compute; reflexivity|apply reader_nil].
Defined.
