(* ===== verification/Commands.v ===== *)
(** * The commands: cmd/thule, cmd/thule-api, cmd/thule-worker

    How the parts are put together: the local preview, the set-up of the API and of the
    worker from the environment, and the worker's loop over the real clone and planner. *)

From Stdlib Require Import Ascii.
From stdpp Require Import options.
From S2P Require Import Prelude GoStrings GoPath Value Config Render Diff Policy Report.
From S2P Require Import Context Lock Storage Queue DedupeConfig Service Webhook.
From S2P Require Import GoUrl RunStore Vcs GitLab Planner Repo Worker ClusterLive.

(** ** The flag package *)

(** [flag.FlagSet.Parse] for flags that all take a text, by name; with ExitOnError a bad
    command line exits with 2 and a request for help with 0. *)
Inductive parsed (A : Type) := ParsedFlags (a : A) | FlagExit (code : Z).
Arguments ParsedFlags {A} a.
Arguments FlagExit {A} code.

(** The name and the value of [-name=value], [--name=value], [-name]. *)
Definition split_flag (s : string) : option (string * option string) :=
  let name := if has_prefix s "--" then sdrop 2 s else sdrop 1 s in
  match name with
  | EmptyString => None
  | String c r =>
      if byte_is 45 c || byte_is 61 c then None
      else match cut_char "="%char r with
           | Some (n, v) => Some (String c n, Some v)
           | None => Some (name, None)
           end
  end.

Definition stops (s : string) : bool :=
  (zlen s <? 2) || negb (has_prefix s "-") || str_eqb s "--".

Fixpoint parse_flags {A} (set : string -> option (string -> A -> A)) (args : list string) (a : A) : parsed A :=
  match args with
  | [] => ParsedFlags a
  | s :: rest =>
      if stops s then ParsedFlags a
      else match split_flag s with
           | None => FlagExit 2
           | Some (name, value) =>
               match set name with
               | None => FlagExit (if str_eqb name "help" || str_eqb name "h" then 0 else 2)
               | Some f =>
                   match value, rest with
                   | Some v, _ => parse_flags set rest (f v a)
                   | None, v :: rest' => parse_flags set rest' (f v a)
                   | None, [] => FlagExit 2
                   end
               end
           end
  end.

(** ** cmd/thule *)

Record plan_flags := mkFlags { flag_project : string; flag_sha : string }.
Definition plan_flag (name : string) : option (string -> plan_flags -> plan_flags) :=
  if str_eqb name "project" then Some (fun v f => mkFlags v (flag_sha f))
  else if str_eqb name "sha" then Some (fun v f => mkFlags (flag_project f) v)
  else None.

(** What a run of the command leaves: standard output and exit code 0, or the code it
    exited with and what it wrote before. *)
Inductive cli_outcome :=
| CliDone (stdout : string)
| CliExit (code : Z) (stdout stderr : string).

Definition usage_text : string :=
  "thule <command>" +:+ nl +:+ nl +:+ "Commands:" +:+ nl +:+
  "  plan --project <path> [--sha <sha>]  Run local plan preview" +:+ nl.

Section Thule.
Context {iM : MapOrder}.
Context (fs : FS) (yaml : yaml_decoder) (yaml_marshal : value -> yaml_out) (fmt_any : value -> string).
(** What the flag package prints. *)
Context (flag_output : list string -> string).

Definition preview_options (cfg : Config) : Options :=
  mkOptions (Prune (DiffCfg cfg)) (IgnoreFields (DiffCfg cfg)) false.

Definition runPlan (args : list string) : cli_outcome :=
  match parse_flags plan_flag args (mkFlags "." "local") with
  | FlagExit code => CliExit code "" (flag_output args)
  | ParsedFlags flags =>
      match Load (fs_read fs (join2 (flag_project flags) "thule.conf")) with
      | Err err => CliExit 1 "" ("load config: " +:+ err +:+ nl)
      | Ok cfg =>
          match RenderProject fs yaml (flag_project flags) cfg with
          | Err err => CliExit 1 "" ("render project: " +:+ err +:+ nl)
          | Ok desired =>
              let '(changes, summary) := Compute yaml_marshal fmt_any desired [] (preview_options cfg) in
              let findings := Evaluate desired (Profile (PolicyCfg cfg)) in
              let body := BuildPlanComment (Config.Project cfg) (flag_sha flags) changes summary findings
                            (MaxResourceDetails (CommentCfg cfg)) in
              CliDone (trim_space body +:+ nl)
          end
      end
  end.

(** [args] without the name of the program. *)
Definition thule_main (args : list string) : cli_outcome :=
  match args with
  | [] => CliExit 2 usage_text ""
  | cmd :: rest => if str_eqb cmd "plan" then runPlan rest else CliExit 2 usage_text ""
  end.
End Thule.

(** ** cmd/thule-api *)

(** What the API serves with. *)
Record api_setup := mkApi {
  api_addr : string;
  api_secret : string;
  api_queue : queue_choice;
  api_store : MemoryDeliveryStore;
  api_dedupe : option dedupe_choice;
  api_dedupe_ttl : Z
}.

Definition api_run (limit : Z) (env : environment) : start_outcome api_setup :=
  let addr := getEnv env "THULE_API_ADDR" ":8080" in
  let secret := env "THULE_WEBHOOK_SECRET" in
  match FromEnv limit env with
  | Panicked => Panicked
  | Started (Err err) => Started (Err ("queue init failed: " +:+ err))
  | Started (Ok jobs) =>
      match DedupeFromEnv env with
      | Err err => Started (Err ("dedupe init failed: " +:+ err))
      | Ok cfg =>
          let '(store, ttl) := if Enabled cfg then (DedupeStoreOf cfg, TTL cfg) else (None, 0) in
          Started (Ok (mkApi addr secret jobs NewMemoryDeliveryStore store ttl))
      end
  end.

(** The webhook over the queue and the deduplication store that were chosen. *)
Definition api_handler {Q K} (a : api_setup) (jobs : Q) (dedupe : option K)
    : Handler (D := MemoryDeliveryStore) (L := MemoryLocker) (K := K) (Q := Q) :=
  NewHandler (api_secret a) (New jobs (api_store a) (Some NewMemoryLocker) dedupe (api_dedupe_ttl a)).

(** Which handler [http.ServeMux] chooses for a clean path. *)
Inductive route := RouteWebhook | RouteHealth | RouteNotFound.
Definition api_route (path : string) : route :=
  if str_eqb path "/webhook" then RouteWebhook
  else if str_eqb path "/healthz" then RouteHealth
  else RouteNotFound.
Definition healthz : Z * string := (200, "ok").

(** ** cmd/thule-worker *)

(** What comments and statuses go to. *)
Inductive vcs_output := InMemory | ToGitLab (comments statuses changes : gitLabClient).

Record worker_setup (K R : Type) := mkSetup {
  ws_jobs : queue_choice;
  ws_syncer : Syncer K;
  ws_output : vcs_output;
  ws_cluster : R;
  ws_repo_root : string
}.
Arguments mkSetup {K R} _ _ _ _ _.
Arguments ws_jobs {K R} _.
Arguments ws_syncer {K R} _.
Arguments ws_output {K R} _.
Arguments ws_cluster {K R} _.
Arguments ws_repo_root {K R} _.

(** cluster_reader_default.go and cluster_reader_live.go: one of them is built. *)
Definition newClusterReader_default : result ClusterReader := Ok (MemoryClusterReader (Some ∅)).
Definition newClusterReader_live {C V} `{Kube C V} (env : environment) : result (LiveClusterReader C) :=
  NewLiveClusterReader env.

Section Worker.
Context {K R : Type}.
Context (NewPublicKeysFromFile NewPublicKeys : string -> string -> string -> result K).
Context (bracketed : string -> option string) (newClusterReader : result R).

Definition started_bind {A B} (r : result A) (k : A -> start_outcome B) : start_outcome B :=
  match r with Err err => Started (Err err) | Ok a => k a end.

Definition gitlab_output (env : environment) (repoURL : string) : result vcs_output :=
  let? opts := GitLabOptionsFromEnv bracketed env repoURL in
  let '(glOpts, enabled) := opts in
  if enabled : bool then
    let? glComments := newGitLabClient glOpts in
    let? glStatuses := newGitLabClient glOpts in
    let? glMRChanges := newGitLabClient glOpts in
    Ok (ToGitLab glComments glStatuses glMRChanges)
  else Ok InMemory.

Definition buildWorker (limit : Z) (env : environment) (repoRoot : string) : start_outcome (worker_setup K R) :=
  match FromEnv limit env with
  | Panicked => Panicked
  | Started jobs =>
      started_bind jobs (fun jobs =>
        let repoURL := env "THULE_REPO_URL" in
        let repoRef := getEnv env "THULE_REPO_REF" "master" in
        started_bind (AuthFromEnv NewPublicKeysFromFile NewPublicKeys env) (fun auth =>
          let syncer := NewSyncer repoURL repoRef repoRoot auth in
          started_bind (gitlab_output env repoURL) (fun output =>
            started_bind newClusterReader (fun cluster =>
              Started (Ok (mkSetup jobs syncer output cluster repoRoot))))))
  end.

Definition worker_main (limit : Z) (env : environment) : start_outcome (worker_setup K R) :=
  buildWorker limit env (getEnv env "THULE_REPO_ROOT" ".").
End Worker.

(** The planner over the comments and statuses that were chosen. *)
Definition worker_planner {C P} (repoRoot : string) (cluster : ClusterReader) (comments : C) (statuses : P)
    (clock : nat -> Z) : Planner C P MemoryStore unit :=
  NewPlanner repoRoot cluster (Some comments) (Some statuses) (Some (NewMemoryStore clock)) (Some tt).

(** The worker's loop over a clone on disk and a planner that reads it. *)
Section Wired.
Context {G K H M : Type} {iG : Git G K H M}.
Context {C P R E : Type}.
Context {iC : CommentStore C} {iP : StatusPublisher P} {iR : RunStore R} {iE : Evaluator E} {iM : MapOrder}.
Context (fs_of : G -> FS) (yaml : yaml_decoder) (yaml_marshal : value -> yaml_out) (fmt_any : value -> string).

Record wired := mkWired { wd_disk : G; wd_planner : Planner C P R E }.

Definition wired_syncer (s : Syncer K) : repoSyncer wired :=
  mkRepoSyncer (SyncerEnabled s)
    (fun ctx sha w => let '(r, g) := Sync ctx s sha (wd_disk w) in (r, mkWired g (wd_planner w)))
    (fun ctx w => let '(r, g) := Maintain ctx s (wd_disk w) in (r, mkWired g (wd_planner w))).

Definition wired_plan (ctx : Ctx) (evt : MergeRequestEvent) (w : wired) : result unit * wired :=
  let '(r, p) := PlanForEvent (fs_of (wd_disk w)) yaml yaml_marshal fmt_any evt (wd_planner w) in
  (r, mkWired (wd_disk w) p).

Definition wired_changed_files (repoDir base sha : string) (w : wired) : result (list string) :=
  RepoChangedFiles repoDir base sha (wd_disk w).
End Wired.
Arguments wired G C P R E : clear implicits.
