(* ===== verification/CommandsFacts.v ===== *)
(** * The commands: theorems *)

From stdpp Require Import options.
From S2P Require Import Prelude GoStrings GoPath Value Config Render Diff DiffSpec Policy Report.
From S2P Require Import Context Storage Queue DedupeConfig Service ServiceFacts.
From S2P Require Import GoUrl RunStore Vcs GitLab Planner PlannerFacts Repo RepoFacts Worker WorkerFacts ClusterLive Commands.

(** ** The local preview *)

Section Preview.
Context (fs : FS) (yaml : yaml_decoder) (yaml_marshal : value -> yaml_out) (fmt_any : value -> string).
Context (flag_output : list string -> string).

(** The preview compares with nothing: what it prints is the comment of a plan that
    creates every rendered resource, each identity once, and never deletes, patches or
    leaves alone. *)
Theorem preview_creates args out :
  runPlan fs yaml yaml_marshal fmt_any flag_output args = CliDone out ->
  exists flags cfg desired changes summary,
    parse_flags plan_flag args (mkFlags "." "local") = ParsedFlags flags /\
    Load (fs_read fs (join2 (flag_project flags) "thule.conf")) = Ok cfg /\
    RenderProject fs yaml (flag_project flags) cfg = Ok desired /\
    Compute yaml_marshal fmt_any desired [] (preview_options cfg) = (changes, summary) /\
    out = trim_space (BuildPlanComment (Config.Project cfg) (flag_sha flags) changes summary
            (Evaluate desired (Profile (PolicyCfg cfg))) (MaxResourceDetails (CommentCfg cfg))) +:+ nl /\
    (forall c, c ∈ changes -> ChangeAction c = Create) /\
    (forall k, k ∈ (ChangeID <$> changes) <-> k ∈ (ID <$> desired)) /\
    Creates summary = Z.of_nat (length changes).
Proof.
  unfold runPlan. destruct (parse_flags plan_flag args _) as [flags|] eqn:Ef; [|done].
  destruct (Load _) as [cfg|] eqn:El; [|done]. destruct (RenderProject _ _ _ _) as [desired|] eqn:Er; [|done].
  destruct (Compute yaml_marshal fmt_any desired [] (preview_options cfg)) as [changes summary] eqn:Ec.
  intros [= <-]. exists flags, cfg, desired, changes, summary. do 5 (split; [done|]).
  pose proof Ec as Hc. rewrite Compute_planned in Hc. injection Hc as Hch Hsum.
  assert (forall k act, (exists c, c ∈ changes /\ ChangeID c = k /\ ChangeAction c = act) <->
    action_for desired [] (preview_options cfg) k act) as Ha.
  { intros k act. rewrite <- Hch. apply planned_action. }
  assert (forall k act, action_for desired [] (preview_options cfg) k act <->
    k ∈ (ID <$> desired) /\ act = Create) as Hact.
  { intros k act. unfold action_for. change (last_with_id [] k) with (@None Resource).
    destruct (last_with_id desired k) as [d|] eqn:Ed.
    - apply last_with_id_ID in Ed as [<- Hd]. apply (list_elem_of_fmap_2 ID) in Hd. tauto.
    - split; [done|]. intros [(d & -> & Hd)%list_elem_of_fmap _].
      by destruct (proj1 (last_with_id_None _ _) Ed d Hd). }
  assert (forall c, c ∈ changes -> ChangeAction c = Create) as Hall.
  { intros c Hin. assert (action_for desired [] (preview_options cfg) (ChangeID c) (ChangeAction c)) as H
      by (apply Ha; eauto). by apply Hact in H as [_ ?]. }
  split; [done|]. split.
  - intros k. split.
    + intros (c & -> & Hin)%list_elem_of_fmap. eapply Hact, Ha. eauto.
    + intros Hk. destruct (proj2 (Ha k Create)) as (c & Hin & <- & _); [by apply Hact|].
      by apply list_elem_of_fmap_2.
  - rewrite <- Hsum, Hch. cbn. clear -Hall. unfold count_action.
    induction changes as [|c cs IH]; [done|]. rewrite filter_cons.
    rewrite decide_True by (apply Hall; left). cbn [length].
    rewrite !Nat2Z.inj_succ. f_equal. apply IH. intros c' Hc'. apply Hall. by right.
Qed.
End Preview.

(** ** Setting up the worker *)

Section Setup.
Context {K R : Type}.
Context (NewPublicKeysFromFile NewPublicKeys : string -> string -> string -> result K).
Context (bracketed : string -> option string) (newClusterReader : result R).

(** A worker that starts keeps its clone where the planner looks, and talks to GitLab
    exactly when a token is set: then comments, statuses and changed files all use one
    client, with that token, for a project and an address that are not blank. *)
Theorem buildWorker_consistent limit env repoRoot ws :
  buildWorker NewPublicKeysFromFile NewPublicKeys bracketed newClusterReader limit env repoRoot = Started (Ok ws) ->
  sync_dir (ws_syncer ws) = repoRoot /\ ws_repo_root ws = repoRoot /\
  sync_url (ws_syncer ws) = env "THULE_REPO_URL" /\ FromEnv limit env = Started (Ok (ws_jobs ws)) /\
  match ws_output ws with
  | InMemory => trim_space (env "THULE_GITLAB_TOKEN") = ""
  | ToGitLab c1 c2 c3 =>
      c2 = c1 /\ c3 = c1 /\ token c1 = trim_space (env "THULE_GITLAB_TOKEN") /\ token c1 <> "" /\
      projectPath c1 <> "" /\ httpClient c1 = defaultGitLabTimeout
  end.
Proof.
  unfold buildWorker. destruct (FromEnv limit env) as [[jobs|e]|]; [|done..]. cbn [started_bind].
  destruct (AuthFromEnv _ _ env) as [auth|e]; [|done]. cbn [started_bind].
  destruct (gitlab_output bracketed env (env "THULE_REPO_URL")) as [output|e] eqn:Eg; [|done]. cbn [started_bind].
  destruct newClusterReader as [cluster|e]; [|done]. cbn [started_bind]. intros [= <-].
  cbn [ws_syncer ws_repo_root ws_jobs ws_output NewSyncer sync_dir sync_url]. do 4 (split; [done|]).
  unfold gitlab_output in Eg.
  destruct (GitLabOptionsFromEnv bracketed env (env "THULE_REPO_URL")) as [[opts enabled]|e] eqn:Eo; [|done].
  cbn [rbind] in Eg. unfold GitLabOptionsFromEnv in Eo. cbv zeta in Eo.
  destruct (str_eqb (trim_space (env "THULE_GITLAB_TOKEN")) "") eqn:Et.
  { injection Eo as <- <-. injection Eg as <-. by apply str_eqb_eq in Et. }
  destruct (str_eqb (if str_eqb _ _ then _ else _) ""); [done|]. injection Eo as <- <-.
  destruct (newGitLabClient _) as [c|e] eqn:Ec; [|done]. cbn [rbind] in Eg. injection Eg as <-.
  unfold newGitLabClient in Ec. cbn [BaseURL Token ProjectPath Client] in Ec.
  repeat match type of Ec with (if ?b then _ else _) = _ => destruct b eqn:?; [done|] end.
  injection Ec as <-. cbn [token projectPath httpClient]. apply str_eqb_neq in Et.
  split_and!; try done. by apply str_eqb_neq.
Qed.
End Setup.

(** ** The wired worker *)

Section Wired.
#[local] Set Default Proof Using "Type*".
Context {G K H M : Type} {iG : Git G K H M} (s : Syncer K) {sG : GitSpec G K H M (sync_dir s)}.
Context {C P R E : Type}.
Context {iC : CommentStore C} {iP : StatusPublisher P} {iR : RunStore R} {iE : Evaluator E} {iM : MapOrder}.
Context (fs_of : G -> FS) (yaml : yaml_decoder) (yaml_marshal : value -> yaml_out) (fmt_any : value -> string).
Context (env : environment) (mrChangedFiles : option (Z -> wired G C P R E -> result (list string) * wired G C P R E)).

Implicit Types w : worker (wired G C P R E).

(** Asking for changed files does not touch the disk. *)
Definition reads_only : Prop :=
  forall f mr x r x', mrChangedFiles = Some f -> f mr x = (r, x') -> wd_disk x' = wd_disk x.

Lemma changed_files_disk job w :
  reads_only ->
  wd_disk (wk_world (changed_files env mrChangedFiles wired_changed_files job w).2) = wd_disk (wk_world w).
Proof using Type.
  intros Hro. unfold changed_files, files_from_clone. destruct (JobChangedFiles job); [|done].
  destruct (files_from_mr mrChangedFiles job w) as [files w1] eqn:Em.
  assert (wd_disk (wk_world w1) = wd_disk (wk_world w)) as Hw.
  { unfold files_from_mr in Em. destruct mrChangedFiles as [f|] eqn:Ef; [|by injection Em as _ <-].
    destruct (0 <? JobMergeReqID job); [|by injection Em as _ <-].
    destruct (f (JobMergeReqID job) (wk_world w)) as [r w2] eqn:Efr.
    apply (Hro f) in Efr; [|done]. destruct r; injection Em as _ <-; exact Efr. }
  destruct files; [|done]. by destruct (wired_changed_files _ _ _ _).
Qed.

Lemma maintain_disk ctx every w :
  clone_head (wd_disk (wk_world (maintain_if_due ctx every (wired_syncer s) w).2)) =
  clone_head (wd_disk (wk_world w)).
Proof.
  unfold maintain_if_due. destruct (0 <? every); [|done]. destruct (every <=? _); [|done].
  cbn [syncer_maintain wired_syncer]. destruct (Maintain ctx s _) as [r g] eqn:Emt.
  apply (Maintain_keeps s) in Emt as [Hg _]. cbn [wk_world with_since] in Hg. by destruct r.
Qed.

(** C8: a job that names its commit by its full hash is planned on that commit: when a
    worker with a configured repository plans the event of the job, the files the planner
    reads are those of a clone with that commit checked out. *)
Theorem plans_its_commit ctx every job w acts w' evt ok :
  sync_url s <> "" -> full_id (JobHeadSHA job) -> reads_only ->
  work_job env (Some (wired_syncer s)) (wired_plan fs_of yaml yaml_marshal fmt_any) mrChangedFiles
    wired_changed_files ctx every job w = (acts, w') ->
  Planned evt ok ∈ acts ->
  let g := wd_disk (wk_world w') in
  HeadSHA evt = JobHeadSHA job /\ clone_head g = Some (NewHash (HeadSHA evt)) /\
  exists p r, PlanForEvent (fs_of g) yaml yaml_marshal fmt_any evt p = (r, wd_planner (wk_world w')) /\ is_ok r = ok.
Proof.
  intros Hu Hid Hro Hw Hin. cbv zeta. revert Hw. unfold work_job, sync_job.
  cbn [syncer_enabled syncer_sync wired_syncer]. unfold SyncerEnabled.
  rewrite (proj2 (str_eqb_neq _ _) Hu). cbn [negb].
  destruct (Sync ctx s (JobHeadSHA job) (wd_disk (wk_world w))) as [[[]|e] g] eqn:Es;
    [|intros [= <- <-]; by apply list_elem_of_singleton in Hin].
  assert (clone_head g = Some (NewHash (JobHeadSHA job))) as Hg.
  { apply (Sync_head s) in Es; [done|done|done]. }
  pose proof (maintain_disk ctx every (with_world (mkWired g (wd_planner (wk_world w))) w)) as Hm.
  pose proof (maintain_if_due_actions ctx every (wired_syncer s)
    (with_world (mkWired g (wd_planner (wk_world w))) w)) as Hma.
  destruct (maintain_if_due ctx every _ _) as [new w1]. destruct Hma as [Hma _].
  cbn [snd wk_world with_world wd_disk] in Hm. pose proof (changed_files_disk job w1 Hro) as Hd.
  destruct (changed_files env mrChangedFiles wired_changed_files job w1) as [files w2]. cbn [snd] in Hd.
  unfold plan_job, wired_plan.
  destruct (PlanForEvent _ _ _ _ (job_event job files) (wd_planner (wk_world w2))) as [r p] eqn:Ep.
  intros Hw. assert (Planned evt ok ∈ [Planned (job_event job files) (is_ok r)]) as Hlast.
  { destruct r; injection Hw as <- <-; (apply elem_of_cons in Hin as [?|Hin]; [done|]);
      (apply elem_of_app in Hin as [Hin|Hin]; [|done]); exfalso;
      assert (evt ∈ planned_events new) as Hp by (unfold planned_events; apply list_elem_of_omap; by eexists);
      rewrite Hma in Hp; by apply elem_of_nil in Hp. }
  apply list_elem_of_singleton in Hlast as [= -> ->].
  assert (wk_world w' = mkWired (wd_disk (wk_world w2)) p) as Hw' by (destruct r; by injection Hw as _ <-).
  rewrite Hw'. cbn [wd_disk wd_planner]. rewrite Hd, Hm. split_and!; [done|done|]. rewrite <- Hd.
  by exists (wd_planner (wk_world w2)), r.
Qed.
End Wired.

(** ** Instances *)

Example flags_forms :
  parse_flags plan_flag ["--project"; "repo/web"; "-sha=abc"; "rest"; "-sha"] (mkFlags "." "local") =
    ParsedFlags (mkFlags "repo/web" "abc") /\
  parse_flags plan_flag ["-project"] (mkFlags "." "local") = FlagExit 2 /\
  parse_flags plan_flag ["--help"] (mkFlags "." "local") = FlagExit 0.
Proof. split_and!; vm_compute; reflexivity. Qed.

Definition preview (args : list string) : cli_outcome :=
  runPlan sample_fs sample_yaml sample_marshal sample_fmt (fun _ => "") args.

Lemma preview_creates_witness :
  exists out changes, preview ["--project"; "repo/web"] = CliDone out /\
    (ChangeID <$> changes) = ["v1|Secret|default|web"] /\ forall c, c ∈ changes -> ChangeAction c = Create.
Proof.
  destruct (preview ["--project"; "repo/web"]) as [out|code o e] eqn:E; [|vm_compute in E; discriminate E].
  destruct (preview_creates sample_fs sample_yaml sample_marshal sample_fmt (fun _ => "") _ _ E)
    as (flags & cfg & desired & changes & summary & Hf & Hl & Hr & Hc & _ & Hall & _).
  exists out, changes. split; [reflexivity|]. split; [|exact Hall].
  vm_compute in Hf. injection Hf as <-. vm_compute in Hl. injection Hl as <-.
  vm_compute in Hr. injection Hr as <-. vm_compute in Hc. injection Hc as <- _. reflexivity.
Defined.

Definition gitlab_env : environment := fun k =>
  if str_eqb k "THULE_GITLAB_TOKEN" then " t0ken " else
  if str_eqb k "THULE_REPO_URL" then "https://gl.example.com/group/app.git" else "".
Definition no_keys (user key pass : string) : result unit := Err "no keys".

Lemma buildWorker_consistent_witness :
  exists ws, buildWorker no_keys no_keys no_brackets newClusterReader_default 1000 gitlab_env "/repo" = Started (Ok ws) /\
    sync_dir (ws_syncer ws) = "/repo" /\
    ws_output ws =
    ToGitLab (mkClient "https://gl.example.com/api/v4" "t0ken" "group/app" defaultGitLabTimeout)
      (mkClient "https://gl.example.com/api/v4" "t0ken" "group/app" defaultGitLabTimeout)
      (mkClient "https://gl.example.com/api/v4" "t0ken" "group/app" defaultGitLabTimeout).
Proof.
  destruct (buildWorker no_keys no_keys no_brackets newClusterReader_default 1000 gitlab_env "/repo")
    as [[ws|e]|] eqn:E; [|vm_compute in E; discriminate E..].
  exists ws. split; [reflexivity|].
  split; [exact (proj1 (buildWorker_consistent _ _ _ _ _ _ _ _ E))|].
  vm_compute in E. injection E as <-. vm_compute. reflexivity.
Defined.

(** The API without any configuration. *)
Example api_defaults :
  api_run 1000 no_env = Started (Ok (mkApi ":8080" "" (UseMemory (mkMemoryQueue 100 [])) NewMemoryDeliveryStore
    (Some (DedupeMemory NewMemoryDedupeStore)) 300000000000)).
Proof. vm_compute. reflexivity. Qed.

#[local] Existing Instances TinyGit.git TinyGit.spec.

(** A worker with a clone, planning the sample project. *)
Definition sample_wired : wired TinyGit.disk MemoryCommentStore MemoryStatusPublisher MemoryStore unit :=
  mkWired TinyGit.behind (sample_planner empty_cluster).
Definition sample_task : Job :=
  mkJob "d1" "merge_request.updated" "group/app" 7 TinyGit.commit3 "main" ["web/secret.yaml"].
Definition sample_work : list action * worker (wired TinyGit.disk MemoryCommentStore MemoryStatusPublisher MemoryStore unit) :=
  work_job no_env (Some (wired_syncer TinyGit.syncer))
    (wired_plan (iM := natural_order) (fun _ => sample_fs) sample_yaml sample_marshal sample_fmt) None
    wired_changed_files (at_time 5) 1 sample_task (mkWorker 0 [] sample_wired).

Lemma plans_its_commit_witness :
  clone_head (repoDir := sync_dir TinyGit.syncer) (wd_disk (wk_world sample_work.2)) = Some TinyGit.commit3.
Proof.
  assert (sample_work.1 = [Synced TinyGit.commit3 true; Maintained; Planned (job_event sample_task ["web/secret.yaml"]) true])
    as Hacts by (vm_compute; reflexivity).
  refine (proj1 (proj2 (plans_its_commit (iM := natural_order) TinyGit.syncer (fun _ => sample_fs) sample_yaml
    sample_marshal sample_fmt no_env None (at_time 5) 1 sample_task (mkWorker 0 [] sample_wired) sample_work.1
    sample_work.2 (job_event sample_task ["web/secret.yaml"]) true _ _ _ _ _))).
  - discriminate.
  - split; [vm_compute; reflexivity|discriminate].
  - intros f mr x r x' [=].
  - apply surjective_pairing.
  - rewrite Hacts. right. right. left.
Defined.
